(* ===== verification/_CoqProject ===== *)
-Q . S2P
Prelude.v
Clists.v
ArraySort.v
Doubles.v
Common.v
Libs.v
Packet.v
PacketFrame.v
FrameLogger.v
FrameQueue.v
FrameChannel.v
PacketHash.v
Matcher.v
MatcherInv.v
MatcherMain.v
Config.v
TimeFmt.v
Log.v
LogInv.v
LogStream.v
LogFile.v
LogConf.v
LogSetup.v
Dump.v
ConfParse.v
ConfInput.v
ConfIntr.v
ConfLoad.v
DirtySections.v
ConfInv.v
ConfUndo.v
Input.v
InputInv.v
Output.v
CborEncoder.v
CborParser.v
CborRead.v
OutputCbor.v
CborReadBack.v
OutputCsv.v
OutputInv.v
Pipeline.v
PipelineInv.v
PipelineThreads.v
Options.v
ConfPrint.v
ConfRound.v
ConfType.v
Collector.v
