(* ===== verification/Prelude.v ===== *)
(** * DNS collector: a verification development

    The collector (src/src) captures DNS packets with libtrace, pairs
    responses with their requests and writes one record per query in CSV or
    CBOR.  It is a pipeline of threads joined by bounded queues of frames:

      input --(queue)--> matcher --(queue)--> output

    The input groups the captured packets into frames, intervals of bounded
    duration and size; the matcher keeps requests for the length of a window,
    attaches responses to them and hands over frames of its own; the output
    writes every packet of a frame through the hooks of a format and rotates
    its files.  A frame owns its packets and hands them over with itself.

    ** Files

    [Prelude]: outcomes of C code, machine integers, tactics, shared lemmas.
    [Clists]: libucw/ucw/clists.h, circular lists on a heap of nodes; the
    other files use lists of locations in their place.
    [ArraySort]: libucw/ucw/sorter/array-simple.h and binsearch.h.
    [Doubles]: IEEE 754 binary64 as the source uses it.
    [Common]: common.h, common.c: times, rotation, escaping, addresses.
    [Libs]: what the sources call of libknot, libtrace and the C library, as
    classes; [Sample] are instances for the examples.
    [Packet]: packet.h, packet.c.  [PacketFrame]: packet_frame.h,
    packet_frame.c.  [FrameLogger]: worker_frame_logger.h,
    worker_frame_logger.c.
    [FrameQueue]: frame_queue.h, frame_queue.c, the critical sections;
    [FrameChannel]: threads that run them under the mutex and wait on the
    condition variables, as a step relation.
    [PacketHash]: packet_hash.h, packet_hash.c.
    [Matcher], [MatcherInv], [MatcherMain]: worker_packet_matcher.h,
    worker_packet_matcher.c: definitions, invariants of the heap and of time,
    the run of the thread.
    [Config]: config.h, config.c.  [TimeFmt]: strftime and the path buffers.
    [Dump]: dump.h, dump.c.
    [Log], [LogInv]: libucw/ucw/log.c, tbf.c and the limiter of log-conf.c:
    formatting and delivery of messages, with the class [LogHandlers] of what
    is at the end of a stream, which [LogFile] (log-file.c, log-syslog.c)
    implements.  [LogStream]: log-stream.c, the registry.  [LogConf]: the check
    of the section [Logging] in log-conf.c.  [LogSetup]: opening configured
    streams, and the set-up of logging in main.c.
    [Input], [InputInv]: input.h, input.c.
    [Output], [OutputInv]: output.h, output.c, with the class [OutputFormat]
    of the hooks and its law, which [OutputCsv] (output_csv.h, output_csv.c)
    and [OutputCbor] (output_cbor.h, output_cbor.c) implement.
    [CborEncoder]: tinycbor/src/cborencoder.c and the encoder part of cbor.h.
    [CborParser]: tinycbor/src/cborparser.c, cborparser_dup_string.c and the
    parser part of cbor.h; [CborRead]: its safety; [CborReadBack]: it reads
    back what the encoder and the collector write.
    [ConfParse]: libucw/ucw/conf-parse.c, str-esc.c: values and escapes.
    [ConfInput]: the tokenizer of conf-input.c.  [ConfIntr]: conf-intr.c,
    conf-journal.c and the table of settings of config.c.  [ConfLoad]: the
    loader of conf-input.c with its includes, conf-section.c, conf-getopt.c.
    [DirtySections]: the array of changed sections of conf-section.c, which
    implements the list of names of [ConfIntr].
    [ConfInv]: the reader always stops; [ConfUndo]: failed loads are undone,
    settings at rest are accepted; [ConfPrint], [ConfRound]: what the parsers
    read exactly, and the round trip of configurations; [ConfType]: the types
    of the settings in memory.
    [Options]: libucw/ucw/opt.c, opt-conf.c and the options of main.c.
    [Pipeline], [PipelineInv]: main.c and the composition of the components;
    [PipelineThreads]: the three threads under every schedule.
    [Collector]: main.c from the command line to the exit, with the set-up of
    the logs, and its signal handlers.

    ** Conventions

    A C structure is a record with the source's members; a pointer to a
    packet, a bucket or a list node is a location of a finite map, so that a
    freed or foreign pointer is an error of the model; a stack buffer is a
    list of bytes with its length.  Unsigned arithmetic is reduced to its
    width, signed arithmetic is checked ([i64]).  Failing assertions, [die],
    undefined behaviour and endless waiting are values ([failure]).  What the
    outside world answers (libtrace, libknot, the clock, files, processes,
    memory for copies, random numbers) is an argument of the definitions;
    theorems assume of it only what they name ([opens], [turns_ok],
    [system_ok], ...).  One assumption is in a definition: a write to an open
    output file succeeds ([emit]; the source does not look at the result of
    [fwrite]).

    The queues of the thread models are streams of frames.  This is justified
    by [frame_queue_fifo]: whatever the schedule, what a consumer dequeues is
    a prefix of what was enqueued, and [pipeline_threads_sequential]: three
    threads on two queues hand over the same frames as threads that run one
    after the other.  [Pipeline] passes the frames through the modelled
    queues.

    The settings in memory are a finite map from the names of the items to
    values of their types ([cval]); a section on the stack of the interpreter
    is its name and its items; the journal is a list of saved values.  The
    section [Logging], which libucw declares beside the collector's, is its
    answers: each of its commands and its commits is accepted, is refused or
    crashes, as an argument of the definitions says ([LoggingSection]), and the
    theorems about loading hold for all answers.

    ** What the theorems show

    The whole program ([PipelineInv]): it ends with code 0, every accepted
    packet is written exactly once, as an item or as the response of one,
    within the matching window for ordered input, and memory is empty at the
    end; which arguments it rejects.  From the command line ([Collector]):
    the accepted options and settings give all that the components need except
    the durations, the strings that can be cleared, the user's own log streams,
    the seed, no dump and what the system answers, which are named
    ([runnable]).  Under every schedule, with spurious
    wakeups, the three threads end.
    The configuration: reading ends for every text and every set of files,
    with two causes of a crash, which are named; a failed load leaves the
    collector's settings as they were; after any sequence of loads the settings
    have their types and pass the collector's check; every accepted
    configuration can be written and read back; integers are read exactly in
    their range and what happens outside of it; every command line leads to
    an exit or to an accepted configuration.
    The matcher: it terminates, loses and duplicates nothing, pairs only what
    belongs together, and its frames are contiguous and bounded.  The input:
    frames hold the accepted packets once and in order.  The output: files
    hold the records in order after their header, and rotate in time.
    Logging: every message is delivered or given up after a bounded depth, also
    by streams in a cycle; its text is one line and stays in its buffer; the
    check of the streams accepts exactly the graphs without cycles, and opening
    an accepted graph ends; which messages of the collector are shown.
    The sorter behind the configuration sorts, inside its array and its stack.
    Refinement: the ring buffer implements a bounded list under its three
    policies, the threads on it a FIFO without lost wakeups, the hash table
    with its resizing a finite map, the pointer lists lists, the sorted array
    of changed sections with its binary search the set of their names.
    Formats: a CBOR record is the encoding of the selected items and decodes
    to them, in the specification's decoder and in tinycbor's own parser; a
    CSV line is the selected texts, each but the query name free of
    separators; escaping round-trips for graphic separators and stays inside
    its buffer.  The parser is safe on any bytes and for any order of the
    calls that are listed ([call], [question]), and reads back every item of
    definite length that the encoder writes.
    Dumps: which packets are written to which file, and how old a file gets.
    Errors: what happens to short TCP segments, failed dump files, failed
    filters, a live trace that never opens, queue destruction, long EDNS
    lists.

    ** Bounds and fuel

    Times are at most [TMAX] = 2^60 microseconds, 36 thousand years; with
    windows and frame lengths below that no sum overflows.  Runs have fewer
    than 2^53 packets, so that counters do not wrap and loads computed in
    doubles are exact.  Loops that are not structural have fuel: the number of
    queued packets and of frames that may end ([advance_fuel],
    [input_advance_fuel]), twice the frames to read ([next_packet_loop]), the
    packets to read ([main_loop]), the number of nodes ([Clists]), the bytes
    of a name or of a record, the unread text of a configuration
    ([token_fuel], [parse_text]: every token and every command consumes some
    of it; files are included at most nine deep, as in the code), the length of
    a range to sort or to search, twice the depth of streams ([log_fuel]), the
    number of streams ([stream_resolve]) and of their links.  The
    theorems about runs show results [Ok], so that fuel never runs out.

    ** Not modelled

    The calls of [msg] in the components (the arithmetic of their arguments is
    modelled, and so is what becomes of a message), the moment at which a
    signal interrupts the program (the handlers are modelled, and the input
    reads a stop flag in every turn), pthread_create and pthread_join, the child side of fork, dns_ptrace;
    libknot and libtrace, whose sources are not here; failing writes.  Of the configuration
    reader: lists, dynamic arrays and user parsers, which the collector's
    section does not have, and with them the contents of the section [Logging]:
    only its answers are in the model, and [LogConf] and [LogSetup] start with
    its streams; reloading and dumping.  Of the option
    parser: kinds of options the collector does not have, and the help text.
    The rest of libucw and of tinycbor, which the collector does not call. *)

From stdpp Require Import base numbers strings gmap list.

#[global] Open Scope Z_scope.

(** ** Outcomes of C code

    A C function that can stop the program is a function into [outcome]:
    [AssertFailed] is a failing [assert], [Died] a call of libucw's [die]
    (with the first words of its message), [UndefinedBehaviour] an access
    out of bounds, a null or dangling pointer, a division by zero or a
    signed overflow, [Blocked] a thread that waits for an event that never
    comes, and [OutOfFuel] a fuel bound of the model that was too small
    (theorems about loops show that it never occurs). *)

Inductive failure : Set :=
| AssertFailed
| Died (msg : string)
| UndefinedBehaviour
| Blocked
| OutOfFuel.

Inductive outcome (A : Type) : Type :=
| Ok (a : A)
| Fail (e : failure).

Arguments Ok {A} a.
Arguments Fail {A} e.

#[global] Instance failure_eq_dec : EqDecision failure.
Proof. solve_decision. Defined.

#[global] Instance outcome_ret : MRet outcome := fun A a => Ok a.

#[global] Instance outcome_bind : MBind outcome := fun A B f m =>
  match m with
  | Ok a => f a
  | Fail e => Fail e
  end.

#[global] Instance outcome_fmap : FMap outcome := fun A B f m =>
  match m with
  | Ok a => Ok (f a)
  | Fail e => Fail e
  end.

(** [assert(b)]. *)
Definition c_assert (b : bool) : outcome unit :=
  if b then Ok () else Fail AssertFailed.

(** Dereference of a possibly null or dangling pointer. *)
Definition deref {A} (o : option A) : outcome A :=
  match o with
  | Some a => Ok a
  | None => Fail UndefinedBehaviour
  end.

(** A left fold whose step may stop the program. *)
Fixpoint foldM {S A} (f : S -> A -> outcome S) (s : S) (l : list A) : outcome S :=
  match l with
  | [] => Ok s
  | a :: l => s' ← f s a; foldM f s' l
  end.

(** A map whose function may stop the program. *)
Fixpoint mapO {A B} (f : A -> outcome B) (l : list A) : outcome (list B) :=
  match l with
  | [] => Ok []
  | a :: l => b ← f a; bs ← mapO f l; Ok (b :: bs)
  end.

(** ** Machine integers

    A [w]-bit unsigned integer is a [Z] in [0, 2^w); [u8] ... [u64] reduce
    the result of an operation.  Signed 64-bit arithmetic is checked:
    [i64] fails with [UndefinedBehaviour] when the exact result does not
    fit. *)

Definition u8 (z : Z) : Z := z mod 2 ^ 8.
Definition u16 (z : Z) : Z := z mod 2 ^ 16.
Definition u32 (z : Z) : Z := z mod 2 ^ 32.
Definition u64 (z : Z) : Z := z mod 2 ^ 64.

(** Conversion to [int64_t]. *)
Definition s64 (z : Z) : Z := if u64 z <? 2 ^ 63 then u64 z else u64 z - 2 ^ 64.

Definition INT64_MIN : Z := - 2 ^ 63.
Definition INT64_MAX : Z := 2 ^ 63 - 1.

Definition in_i64 (z : Z) : bool := (INT64_MIN <=? z) && (z <=? INT64_MAX).

Definition i64 (z : Z) : outcome Z :=
  if in_i64 z then Ok z else Fail UndefinedBehaviour.

(** The same for [int]. *)
Definition INT32_MIN : Z := - 2 ^ 31.
Definition INT32_MAX : Z := 2 ^ 31 - 1.

Definition i32 (z : Z) : outcome Z :=
  if (INT32_MIN <=? z) && (z <=? INT32_MAX) then Ok z else Fail UndefinedBehaviour.

(** [MIN] and [MAX] of libucw's [lib.h], on integers. *)
Definition MIN (a b : Z) : Z := if a <? b then a else b.
Definition MAX (a b : Z) : Z := if a >? b then a else b.

(** Bytes: a byte is a [Z] in [0, 256). *)
Definition byteb (b : Z) : bool := (0 <=? b) && (b <? 256).
Definition bytes_ok (l : list Z) : Prop := Forall (fun b => 0 <= b < 256) l.

Fixpoint le_int (l : list Z) : Z :=
  match l with
  | [] => 0
  | b :: l => b + 256 * le_int l
  end.

Definition be_int (l : list Z) : Z := le_int (rev l).

(** The [n] low bytes of [z], least significant first. *)
Fixpoint le_bytes (n : nat) (z : Z) : list Z :=
  match n with
  | O => []
  | S n => z mod 256 :: le_bytes n (z / 256)
  end.

Definition be_bytes (n : nat) (z : Z) : list Z := rev (le_bytes n z).

Definition slice {A} (off len : nat) (l : list A) : list A := take len (drop off l).

(** Bytes of a C string literal. *)
Definition bytes_of_string (s : string) : list Z :=
  map (fun a => Z.of_N (Ascii.N_of_ascii a)) (String.list_ascii_of_string s).

(** ** Tactics *)

Lemma bind_Ok {A B} (f : A -> outcome B) (a : A) : (Ok a ≫= f) = f a.
Proof. reflexivity. Qed.

Lemma bind_Fail {A B} (f : A -> outcome B) (e : failure) : (Fail e ≫= f) = Fail e.
Proof. reflexivity. Qed.

Lemma bind_Ok_inv {A B} (m : outcome A) (f : A -> outcome B) (b : B) :
  (m ≫= f) = Ok b -> exists a, m = Ok a /\ f a = Ok b.
Proof. destruct m as [a|e]; cbn; [eauto | discriminate]. Qed.

Lemma bind_assoc {A B C} (m : outcome A) (f : A -> outcome B) (g : B -> outcome C) :
  ((m ≫= f) ≫= g) = (m ≫= fun a => f a ≫= g).
Proof. by destruct m. Qed.

Lemma c_assert_Ok b u : c_assert b = Ok u -> b = true.
Proof. destruct b; [done | discriminate]. Qed.

Lemma c_assert_true b : b = true -> c_assert b = Ok ().
Proof. by intros ->. Qed.

Lemma deref_Ok {A} (o : option A) a : deref o = Ok a -> o = Some a.
Proof. destruct o; cbn; congruence. Qed.

Lemma i64_Ok z z' : i64 z = Ok z' -> z' = z /\ INT64_MIN <= z <= INT64_MAX.
Proof. unfold i64, in_i64. destruct andb eqn:E; [|discriminate]. intros [= <-]. lia. Qed.

Lemma i64_in z : INT64_MIN <= z <= INT64_MAX -> i64 z = Ok z.
Proof. intros H. unfold i64, in_i64. by replace (_ && _) with true by lia. Qed.

Lemma i32_in z : INT32_MIN <= z <= INT32_MAX -> i32 z = Ok z.
Proof. intros H. unfold i32. by replace (_ && _) with true by lia. Qed.

(** Splits every hypothesis [(m ≫= f) = Ok b] into its steps. *)
Ltac inv_ok :=
  repeat match goal with
  | H : (_ ≫= _) = Ok _ |- _ =>
      let a := fresh "a" in let H1 := fresh "H" in
      apply bind_Ok_inv in H as (a & H1 & H)
  | H : c_assert _ = Ok _ |- _ => apply c_assert_Ok in H
  | H : deref _ = Ok _ |- _ => apply deref_Ok in H
  | H : i64 _ = Ok _ |- _ => apply i64_Ok in H as [-> H]
  | H : Ok _ = Ok _ |- _ => injection H as H; subst
  | H : Fail _ = Ok _ |- _ => discriminate H
  | H : Ok _ = Fail _ |- _ => discriminate H
  end.

(** Unfolds the machine bounds and calls [lia]. *)
Ltac int_lia := unfold INT64_MIN, INT64_MAX, u8, u16, u32, u64 in *; lia.

(** [lia] with divisions and remainders by constants. *)
Ltac div_lia := Z.to_euclidean_division_equations; lia.

Create HintDb outcome.
Create Rewrite HintDb outcome.
#[export] Hint Rewrite @bind_Ok @bind_Fail @bind_assoc : outcome.
#[export] Hint Resolve i64_in c_assert_true : outcome.

(** ** Generic lemmas *)

Lemma MIN_min a b : MIN a b = Z.min a b.
Proof. unfold MIN. destruct (Z.ltb_spec a b); lia. Qed.

Lemma MAX_max a b : MAX a b = Z.max a b.
Proof. unfold MAX. destruct (Z.gtb_spec a b); lia. Qed.

Lemma u64_small z : 0 <= z < 2 ^ 64 -> u64 z = z.
Proof. apply Z.mod_small. Qed.

Lemma u64_range z : 0 <= u64 z < 2 ^ 64.
Proof. apply Z.mod_pos_bound; lia. Qed.

Lemma s64_range z : INT64_MIN <= s64 z <= INT64_MAX.
Proof. unfold s64, INT64_MIN, INT64_MAX. pose proof (u64_range z). destruct (Z.ltb_spec (u64 z) (2 ^ 63)); lia. Qed.

Lemma s64_small z : INT64_MIN <= z <= INT64_MAX -> s64 z = z.
Proof.
  unfold s64, u64, INT64_MIN, INT64_MAX. intros H.
  destruct (Z.ltb_spec (z mod 2 ^ 64) (2 ^ 63)); Z.to_euclidean_division_equations; lia.
Qed.

Lemma u64_add_l a b : u64 (u64 a + b) = u64 (a + b).
Proof. apply Zplus_mod_idemp_l. Qed.

Lemma u64_add_r a b : u64 (a + u64 b) = u64 (a + b).
Proof. apply Zplus_mod_idemp_r. Qed.

Lemma u64_add_m a b c : u64 (a + (u64 b + c)) = u64 (a + (b + c)).
Proof. by rewrite <- u64_add_r, u64_add_l, u64_add_r. Qed.

(** Removes the inner reductions of a 64-bit sum. *)
Ltac u64_norm :=
  repeat first [rewrite u64_add_r | rewrite u64_add_l | rewrite u64_add_m | rewrite <- Z.add_assoc].

Lemma foldM_app {S A} (f : S -> A -> outcome S) s l1 l2 :
  foldM f s (l1 ++ l2) = (foldM f s l1 ≫= fun s' => foldM f s' l2).
Proof.
  revert s; induction l1 as [|a l1 IH]; intros s; cbn; [done|].
  destruct (f s a) as [s'|e]; cbn; [apply IH | done].
Qed.

(** An invariant kept by a step that succeeds on it is kept by the fold,
    which then succeeds. *)
Lemma foldM_invariant {S A} (f : S -> A -> outcome S) (P : S -> list A -> Prop) :
  (forall s a l, P s (a :: l) -> exists s', f s a = Ok s' /\ P s' l) ->
  forall l s, P s l -> exists s', foldM f s l = Ok s' /\ P s' [].
Proof.
  intros Hstep l; induction l as [|a l IH]; intros s HP; cbn; [eauto|].
  destruct (Hstep s a l HP) as (s' & -> & HP'). cbn. by apply IH.
Qed.

Lemma mapO_Ok {A B} (f : A -> outcome B) (g : A -> B) l :
  (forall a, a ∈ l -> f a = Ok (g a)) -> mapO f l = Ok (map g l).
Proof.
  induction l as [|a l IH]; intros H; cbn; [done|].
  rewrite (H a) by set_solver. cbn. by rewrite IH by set_solver.
Qed.

Lemma length_le_bytes n z : length (le_bytes n z) = n.
Proof. revert z; induction n; intros; cbn; congruence. Qed.

Lemma length_be_bytes n z : length (be_bytes n z) = n.
Proof. unfold be_bytes. by rewrite length_rev, length_le_bytes. Qed.

Lemma le_int_le_bytes n z : le_int (le_bytes n z) = z mod 256 ^ Z.of_nat n.
Proof.
  revert z; induction n as [|n IH]; intros z; cbn [le_bytes le_int].
  - by rewrite Z.mod_1_r.
  - rewrite IH, Nat2Z.inj_succ, Z.pow_succ_r by lia.
    rewrite (Z.rem_mul_r z 256 (256 ^ Z.of_nat n)); [lia | lia | ].
    apply Z.pow_pos_nonneg; lia.
Qed.

Lemma be_int_be_bytes n z : be_int (be_bytes n z) = z mod 256 ^ Z.of_nat n.
Proof. unfold be_int, be_bytes. by rewrite rev_involutive, le_int_le_bytes. Qed.

Lemma le_bytes_ok n z : bytes_ok (le_bytes n z).
Proof.
  revert z; induction n as [|n IH]; intros z; cbn; constructor; [|apply IH].
  apply Z.mod_pos_bound; lia.
Qed.

Lemma be_bytes_ok n z : bytes_ok (be_bytes n z).
Proof. apply Forall_rev, le_bytes_ok. Qed.

Lemma length_slice {A} off len (l : list A) :
  (off + len <= length l)%nat -> length (slice off len l) = len.
Proof. intros. unfold slice. rewrite length_take, length_drop. lia. Qed.

(** Decides conditionals on integer comparisons from the hypotheses. *)
Ltac case_bool :=
  match goal with
  | |- context [Z.ltb ?a ?b] => destruct (Z.ltb_spec a b)
  | |- context [Z.leb ?a ?b] => destruct (Z.leb_spec a b)
  | |- context [Z.eqb ?a ?b] => destruct (Z.eqb_spec a b)
  | |- context [Z.gtb ?a ?b] => destruct (Z.gtb_spec a b)
  end.
