(* ===== verification/Clists.v ===== *)
(** * Circular doubly linked lists (libucw/ucw/clists.h)

    The lists of packets of the collector are circular lists of nodes that
    are embedded in the packets.  The other files use Rocq lists of
    locations for them; this file models the pointer code of [clists.h] on a
    heap of nodes and shows that it implements such lists.

    A [clist] is its head node, so a [clist *] and a [cnode *] are both
    locations of the heap; [NULL] is 0.  A read or write of a location that
    is not allocated is [UndefinedBehaviour].  The functions are total
    state transformers; the loops over a list ([CLIST_WALK] and its
    variants) have a fuel bound, one more than the number of allocated
    nodes, that [walk_spec] and [walk_delsafe_spec] show to be enough. *)

From stdpp Require Import base numbers gmap list.
From S2P Require Import Prelude.

(** ** Nodes and the heap *)

Record cnode : Set := Cnode { cn_next : Z; cn_prev : Z }.

Abbreviation heap := (gmap Z cnode).

Definition NULL : Z := 0.

(** [p->next] and [p->prev]. *)
Definition load_next (h : heap) (p : Z) : outcome Z := cn_next <$> deref (h !! p).
Definition load_prev (h : heap) (p : Z) : outcome Z := cn_prev <$> deref (h !! p).

(** [p->next = v] and [p->prev = v]. *)
Definition set_next (p v : Z) (h : heap) : heap := alter (fun n => Cnode v (cn_prev n)) p h.
Definition set_prev (p v : Z) (h : heap) : heap := alter (fun n => Cnode (cn_next n) v) p h.

Definition store_next (h : heap) (p v : Z) : outcome heap :=
  _ ← deref (h !! p); Ok (set_next p v h).
Definition store_prev (h : heap) (p v : Z) : outcome heap :=
  _ ← deref (h !! p); Ok (set_prev p v h).

(** ** The functions of clists.h *)

Definition clist_init (h : heap) (l : Z) : outcome heap :=
  h ← store_prev h l l;
  store_next h l l.

Definition clist_head (h : heap) (l : Z) : outcome Z :=
  n ← load_next h l;
  Ok (if n =? l then NULL else n).

Definition clist_tail (h : heap) (l : Z) : outcome Z :=
  n ← load_prev h l;
  Ok (if n =? l then NULL else n).

Definition clist_next (h : heap) (l n : Z) : outcome Z :=
  m ← load_next h n;
  Ok (if m =? l then NULL else m).

Definition clist_prev (h : heap) (l n : Z) : outcome Z :=
  m ← load_prev h n;
  Ok (if m =? l then NULL else m).

Definition clist_empty (h : heap) (l : Z) : outcome bool :=
  n ← load_next h l;
  Ok (n =? l).

Definition clist_insert_after (h : heap) (what after : Z) : outcome heap :=
  before ← load_next h after;
  h ← store_next h what before;
  h ← store_prev h what after;
  h ← store_prev h before what;
  store_next h after what.

Definition clist_insert_before (h : heap) (what before : Z) : outcome heap :=
  after ← load_prev h before;
  h ← store_next h what before;
  h ← store_prev h what after;
  h ← store_prev h before what;
  store_next h after what.

Definition clist_add_head (h : heap) (l n : Z) : outcome heap :=
  clist_insert_after h n l.

Definition clist_add_tail (h : heap) (l n : Z) : outcome heap :=
  clist_insert_before h n l.

Definition clist_remove (h : heap) (n : Z) : outcome heap :=
  before ← load_prev h n;
  after ← load_next h n;
  h ← store_next h before after;
  store_prev h after before.

Definition clist_remove_head (h : heap) (l : Z) : outcome (heap * Z) :=
  n ← clist_head h l;
  if n =? NULL then Ok (h, n) else h ← clist_remove h n; Ok (h, n).

Definition clist_remove_tail (h : heap) (l : Z) : outcome (heap * Z) :=
  n ← clist_tail h l;
  if n =? NULL then Ok (h, n) else h ← clist_remove h n; Ok (h, n).

Definition clist_insert_list_after (h : heap) (what after : Z) : outcome heap :=
  e ← clist_empty h what;
  if (e : bool) then Ok h
  else
    wp ← load_prev h what;
    an ← load_next h after;
    h ← store_next h wp an;
    an ← load_next h after;
    wp ← load_prev h what;
    h ← store_prev h an wp;
    wn ← load_next h what;
    h ← store_prev h wn after;
    wn ← load_next h what;
    h ← store_next h after wn;
    clist_init h what.

Definition clist_add_list_head (h : heap) (l what : Z) : outcome heap :=
  clist_insert_list_after h what l.

Definition clist_add_list_tail (h : heap) (l what : Z) : outcome heap :=
  last ← load_prev h l;
  clist_insert_list_after h what last.

Definition clist_move (h : heap) (to from : Z) : outcome heap :=
  h ← clist_init h to;
  h ← clist_insert_list_after h from to;
  clist_init h from.

Definition clist_unlink (h : heap) (n : Z) : outcome heap :=
  h ← clist_remove h n;
  h ← store_next h n NULL;
  store_prev h n NULL.

Definition clist_unlink_head (h : heap) (l : Z) : outcome (heap * Z) :=
  n ← clist_head h l;
  if n =? NULL then Ok (h, n) else h ← clist_unlink h n; Ok (h, n).

Definition clist_unlink_tail (h : heap) (l : Z) : outcome (heap * Z) :=
  n ← clist_tail h l;
  if n =? NULL then Ok (h, n) else h ← clist_unlink h n; Ok (h, n).

Definition clist_is_linked (h : heap) (n : Z) : outcome bool :=
  m ← load_next h n;
  Ok (negb (m =? NULL)).

(** ** Loops over a list *)

Section walks.
Context {A : Type}.

(** [CLIST_WALK] and [CLIST_FOR_EACH]: the body sees the current node and
    threads a state; it does not change the list. *)
Fixpoint walk_loop (fuel : nat) (body : A -> Z -> outcome A) (h : heap) (l n : Z) (a : A) :
  outcome A :=
  match fuel with
  | O => Fail OutOfFuel
  | S fuel =>
      if n =? l then Ok a
      else a ← body a n; m ← load_next h n; walk_loop fuel body h l m a
  end.

Definition CLIST_FOR_EACH (body : A -> Z -> outcome A) (h : heap) (l : Z) (a : A) : outcome A :=
  n ← load_next h l;
  walk_loop (S (size h)) body h l n a.

(** [CLIST_FOR_EACH_BACKWARDS]. *)
Fixpoint walk_back_loop (fuel : nat) (body : A -> Z -> outcome A) (h : heap) (l n : Z) (a : A) :
  outcome A :=
  match fuel with
  | O => Fail OutOfFuel
  | S fuel =>
      if n =? l then Ok a
      else a ← body a n; m ← load_prev h n; walk_back_loop fuel body h l m a
  end.

Definition CLIST_FOR_EACH_BACKWARDS (body : A -> Z -> outcome A) (h : heap) (l : Z) (a : A) :
  outcome A :=
  n ← load_prev h l;
  walk_back_loop (S (size h)) body h l n a.

(** [CLIST_FOR_EACH_DELSAFE]: the successor is read before the body runs,
    so the body may unlink or free the current node. *)
Fixpoint walk_delsafe_loop (fuel : nat) (body : A -> heap -> Z -> outcome (A * heap))
    (h : heap) (l n : Z) (a : A) : outcome (A * heap) :=
  match fuel with
  | O => Fail OutOfFuel
  | S fuel =>
      tmp ← load_next h n;
      if n =? l then Ok (a, h)
      else '(a, h) ← body a h n; walk_delsafe_loop fuel body h l tmp a
  end.

Definition CLIST_FOR_EACH_DELSAFE (body : A -> heap -> Z -> outcome (A * heap)) (h : heap)
    (l : Z) (a : A) : outcome (A * heap) :=
  n ← load_next h l;
  walk_delsafe_loop (S (size h)) body h l n a.

End walks.

Definition clist_size (h : heap) (l : Z) : outcome Z :=
  CLIST_FOR_EACH (fun i _ => Ok (u32 (i + 1))) h l 0.

(** ** Rings

    [chain h a xs b]: following [next] from [a] visits [xs] and reaches [b],
    and the [prev] pointers lead back.  A list with head [l] and nodes [xs]
    is [chain h l xs l]. *)

Definition nx (h : heap) (p : Z) : option Z := cn_next <$> h !! p.
Definition pv (h : heap) (p : Z) : option Z := cn_prev <$> h !! p.

Definition link (h : heap) (a b : Z) : Prop := nx h a = Some b /\ pv h b = Some a.

Fixpoint chain (h : heap) (a : Z) (xs : list Z) (b : Z) : Prop :=
  match xs with
  | [] => link h a b
  | x :: xs => link h a x /\ chain h x xs b
  end.

(** The ring of a head and its nodes, starting anywhere. *)
Definition ring (h : heap) (r : list Z) : Prop :=
  NoDup r /\
  match r with
  | [] => True
  | a :: xs => chain h a xs a
  end.

Lemma load_next_nx h p v : nx h p = Some v -> load_next h p = Ok v.
Proof. unfold nx, load_next. destruct (h !! p); cbn; congruence. Qed.

Lemma load_prev_pv h p v : pv h p = Some v -> load_prev h p = Ok v.
Proof. unfold pv, load_prev. destruct (h !! p); cbn; congruence. Qed.

Lemma store_next_ok h p v : is_Some (h !! p) -> store_next h p v = Ok (set_next p v h).
Proof. intros [n Hn]. unfold store_next. by rewrite Hn. Qed.

Lemma store_prev_ok h p v : is_Some (h !! p) -> store_prev h p v = Ok (set_prev p v h).
Proof. intros [n Hn]. unfold store_prev. by rewrite Hn. Qed.

Lemma nx_alloc h p v : nx h p = Some v -> is_Some (h !! p).
Proof. unfold nx. destruct (h !! p); [eauto | discriminate]. Qed.

Lemma pv_alloc h p v : pv h p = Some v -> is_Some (h !! p).
Proof. unfold pv. destruct (h !! p); [eauto | discriminate]. Qed.

Lemma lookup_node h p a b : nx h p = Some a -> pv h p = Some b -> h !! p = Some (Cnode a b).
Proof. unfold nx, pv. destruct (h !! p) as [[? ?]|]; cbn; congruence. Qed.

Lemma set_next_is_Some p v h x : is_Some (set_next p v h !! x) <-> is_Some (h !! x).
Proof. apply lookup_alter_is_Some. Qed.

Lemma set_prev_is_Some p v h x : is_Some (set_prev p v h !! x) <-> is_Some (h !! x).
Proof. apply lookup_alter_is_Some. Qed.

Lemma nx_set_next h p v : is_Some (h !! p) -> nx (set_next p v h) p = Some v.
Proof. intros [n Hn]. unfold nx, set_next. by rewrite lookup_alter_eq, Hn. Qed.

Lemma nx_set_next_ne h p v x : x <> p -> nx (set_next p v h) x = nx h x.
Proof. intros. unfold nx, set_next. by rewrite lookup_alter_ne by congruence. Qed.

Lemma pv_set_next h p v x : pv (set_next p v h) x = pv h x.
Proof.
  unfold pv, set_next. destruct (decide (x = p)) as [->|]; [rewrite lookup_alter_eq | by rewrite lookup_alter_ne by congruence].
  by destruct (h !! p).
Qed.

Lemma pv_set_prev h p v : is_Some (h !! p) -> pv (set_prev p v h) p = Some v.
Proof. intros [n Hn]. unfold pv, set_prev. by rewrite lookup_alter_eq, Hn. Qed.

Lemma pv_set_prev_ne h p v x : x <> p -> pv (set_prev p v h) x = pv h x.
Proof. intros. unfold pv, set_prev. by rewrite lookup_alter_ne by congruence. Qed.

Lemma nx_set_prev h p v x : nx (set_prev p v h) x = nx h x.
Proof.
  unfold nx, set_prev. destruct (decide (x = p)) as [->|]; [rewrite lookup_alter_eq | by rewrite lookup_alter_ne by congruence].
  by destruct (h !! p).
Qed.

Lemma set_next_ne p v h x : x <> p -> set_next p v h !! x = h !! x.
Proof. intros. apply lookup_alter_ne; congruence. Qed.

Lemma set_prev_ne p v h x : x <> p -> set_prev p v h !! x = h !! x.
Proof. intros. apply lookup_alter_ne; congruence. Qed.

#[local] Opaque set_next set_prev.

Create HintDb clist.
Create Rewrite HintDb clist.
#[export] Hint Rewrite set_next_is_Some set_prev_is_Some pv_set_next nx_set_prev : clist.
#[export] Hint Resolve nx_alloc pv_alloc : clist.

(** Evaluates reads of a heap after writes, with side conditions solved from
    the context. *)
Ltac heap_side :=
  solve [assumption | congruence | autorewrite with clist; eauto 3 with clist | set_solver].
Ltac heap_simp :=
  repeat first
    [ progress autorewrite with clist
    | rewrite nx_set_next by heap_side
    | rewrite nx_set_next_ne by heap_side
    | rewrite pv_set_prev by heap_side
    | rewrite pv_set_prev_ne by heap_side
    | rewrite set_next_ne by heap_side
    | rewrite set_prev_ne by heap_side ].

Lemma chain_app h a xs y ys b :
  chain h a (xs ++ y :: ys) b <-> chain h a xs y /\ chain h y ys b.
Proof. revert a; induction xs as [|x xs IH]; intros a; cbn; [done|]. rewrite IH. tauto. Qed.

(** A chain depends only on the [next] pointers of its sources and the
    [prev] pointers of its targets. *)
Lemma chain_frame h h' a xs b :
  (forall x, x ∈ a :: xs -> nx h' x = nx h x) ->
  (forall x, x ∈ xs ++ [b] -> pv h' x = pv h x) ->
  chain h a xs b -> chain h' a xs b.
Proof.
  revert a; induction xs as [|x xs IH]; intros a Hn Hp; cbn; intros H.
  - destruct H as [H1 H2]. split; [rewrite Hn by set_solver | rewrite Hp by set_solver]; done.
  - destruct H as [[H1 H2] H3]. split.
    + split; [rewrite Hn by set_solver | rewrite Hp by set_solver]; done.
    + apply IH; [|set_solver..|done]. intros z Hz. apply Hn. set_solver.
Qed.

Lemma chain_alloc h a xs b x : chain h a xs b -> x ∈ a :: xs -> is_Some (h !! x).
Proof.
  revert a; induction xs as [|y xs IH]; intros a; cbn.
  - intros [H _] Hx. apply list_elem_of_singleton in Hx as ->. eauto with clist.
  - intros [[H _] H2] Hx. apply elem_of_cons in Hx as [->|Hx]; eauto with clist.
Qed.

(** The pointers at the two ends of a chain. *)
Lemma chain_first h a xs b : chain h a xs b -> nx h a = Some (hd b xs).
Proof. destruct xs; cbn; unfold link; tauto. Qed.

Lemma chain_last h a xs b : chain h a xs b -> pv h b = Some (List.last xs a).
Proof.
  revert a; induction xs as [|x xs IH]; intros a; cbn; [intros [_ H]; exact H|].
  intros [_ H]. apply IH in H. destruct xs as [|y xs]; [exact H|].
  rewrite H. f_equal. clear. revert x y; induction xs as [|z xs IH]; intros; [done|]. apply (IH x z).
Qed.

(** A ring can be read from any of its nodes. *)
Lemma ring_rotate h pre a post : ring h (pre ++ a :: post) <-> ring h (a :: post ++ pre).
Proof.
  unfold ring.
  assert (HP : NoDup (pre ++ a :: post) <-> NoDup (a :: post ++ pre)).
  { apply NoDup_Permutation_proper. rewrite Permutation_app_comm. done. }
  rewrite HP. apply Morphisms_Prop.and_iff_morphism; [done|].
  destruct pre as [|p pre]; [by rewrite app_nil_r|].
  cbn [app]. rewrite !chain_app. tauto.
Qed.

Lemma ring_frame h h' r : (forall x, x ∈ r -> h' !! x = h !! x) -> ring h r -> ring h' r.
Proof.
  intros H [Hnd Hr]. split; [done|]. destruct r as [|a xs]; [done|].
  eapply chain_frame; [..|exact Hr]; intros x Hx; unfold nx, pv; rewrite H; set_solver.
Qed.

Lemma ring_alloc h r x : ring h r -> x ∈ r -> is_Some (h !! x).
Proof. intros [_ H] Hx. destruct r; [set_solver|]. by eapply chain_alloc. Qed.

(** Writes that leave the other locations alone. *)
Definition touches (h h' : heap) (r : list Z) : Prop :=
  (forall x, is_Some (h' !! x) <-> is_Some (h !! x)) /\
  (forall x, x ∉ r -> h' !! x = h !! x).

Lemma touches_trans h1 h2 h3 r1 r2 :
  touches h1 h2 r1 -> touches h2 h3 r2 -> touches h1 h3 (r1 ++ r2).
Proof.
  intros [A1 B1] [A2 B2]. split; intros x.
  - by rewrite A2.
  - intros Hx. rewrite B2, B1 by set_solver. done.
Qed.

Lemma touches_mono h h' r r' : touches h h' r -> r ⊆ r' -> touches h h' r'.
Proof. intros [A B] Hr. split; [done|]. intros x Hx. apply B. set_solver. Qed.

Lemma touches_refl h : touches h h [].
Proof. done. Qed.

Lemma touches_next h h' r p v : touches h h' r -> touches h (set_next p v h') (p :: r).
Proof.
  intros [A B]. split; intros x; heap_simp; [apply A|].
  intros Hx. rewrite set_next_ne by set_solver. apply B. set_solver.
Qed.

Lemma touches_prev h h' r p v : touches h h' r -> touches h (set_prev p v h') (p :: r).
Proof.
  intros [A B]. split; intros x; heap_simp; [apply A|].
  intros Hx. rewrite set_prev_ne by set_solver. apply B. set_solver.
Qed.

(** Solves [touches] goals of a sequence of writes. *)
Ltac solve_touches :=
  eapply touches_mono;
    [repeat first [apply touches_refl | apply touches_next | apply touches_prev] | set_solver].

(** *** Initialisation *)

Lemma clist_init_ring h l :
  is_Some (h !! l) ->
  exists h', clist_init h l = Ok h' /\ ring h' [l] /\ touches h h' [l].
Proof.
  intros Hl. unfold clist_init. rewrite store_prev_ok by done. cbn.
  rewrite store_next_ok by heap_side. eexists. split; [done|]. split; [|solve_touches].
  split; [apply NoDup_singleton|]. split; heap_simp; done.
Qed.

(** *** Insertion *)

Lemma clist_insert_after_ring h n a xs :
  ring h (a :: xs) -> is_Some (h !! n) -> n ∉ a :: xs ->
  exists h', clist_insert_after h n a = Ok h' /\ ring h' (a :: n :: xs) /\
    touches h h' (n :: a :: xs).
Proof.
  intros [Hnd Hc] Hn Hni. unfold clist_insert_after.
  pose proof (chain_first _ _ _ _ Hc) as Hf.
  set (b := hd a xs) in *. assert (Hb : b ∈ a :: xs) by (subst b; destruct xs; set_solver).
  assert (Hba : is_Some (h !! b)) by (by eapply chain_alloc).
  rewrite (load_next_nx _ _ b) by done. cbn.
  rewrite store_next_ok by done. cbn. rewrite store_prev_ok by heap_side. cbn.
  rewrite store_prev_ok by heap_side. cbn. rewrite store_next_ok by heap_side.
  eexists. split; [done|]. split; [|solve_touches].
  assert (a <> n /\ b <> n) as [Ha Hbn] by set_solver.
  split; [by apply NoDup_cons; split; [apply NoDup_cons in Hnd; set_solver | apply NoDup_cons in Hnd as [? ?]; apply NoDup_cons; set_solver]|].
  cbn. split; [split; heap_simp; done|].
  subst b. destruct xs as [|x xs]; cbn in *.
  - split; heap_simp; done.
  - apply NoDup_cons in Hnd as [Hax Hnd]. apply NoDup_cons in Hnd as [Hx Hnd].
    split; [split; heap_simp; done|].
    eapply chain_frame; [..|exact (proj2 Hc)]; intros y Hy.
    + assert (y <> a /\ y <> n) as [??] by (split; intros ->; set_solver). by heap_simp.
    + assert (y <> x /\ y <> n) as [??] by (split; intros ->; set_solver). by heap_simp.
Qed.

Lemma clist_insert_before_eq h n a b :
  link h a b -> clist_insert_before h n b = clist_insert_after h n a.
Proof.
  intros [H1 H2]. unfold clist_insert_before, clist_insert_after.
  by rewrite (load_next_nx _ _ b), (load_prev_pv _ _ a) by done.
Qed.

Lemma clist_insert_before_ring h n b xs :
  ring h (b :: xs) -> is_Some (h !! n) -> n ∉ b :: xs ->
  exists h', clist_insert_before h n b = Ok h' /\ ring h' (b :: xs ++ [n]) /\
    touches h h' (n :: b :: xs).
Proof.
  intros Hr Hn Hni. destruct xs as [|x xs _] using rev_ind.
  - rewrite (clist_insert_before_eq _ _ b b) by apply Hr. by apply clist_insert_after_ring.
  - assert (Hl : link h x b) by (by destruct Hr as [_ [? Hl]%chain_app]).
    rewrite (clist_insert_before_eq _ _ x b) by done.
    change (b :: xs ++ [x]) with ((b :: xs) ++ x :: []) in Hr.
    apply ring_rotate in Hr. cbn in Hr.
    destruct (clist_insert_after_ring h n x (b :: xs)) as (h' & -> & Hr' & Ht); [done..|set_solver|].
    exists h'. split; [done|]. split; [|eapply touches_mono; [done|set_solver]].
    rewrite <- app_assoc. change (b :: xs ++ [x] ++ [n]) with ((b :: xs) ++ x :: [n]).
    apply ring_rotate. done.
Qed.

(** *** Removal *)

Lemma clist_remove_ring h n x xs :
  ring h (n :: x :: xs) ->
  exists h', clist_remove h n = Ok h' /\ ring h' (x :: xs) /\ touches h h' (x :: xs).
Proof.
  intros [Hnd Hc]. unfold clist_remove.
  pose proof (chain_first _ _ _ _ Hc) as Hf. pose proof (chain_last _ _ _ _ Hc) as Hl.
  cbn in Hf.
  assert (He : exists ys y, x :: xs = ys ++ [y] /\ List.last (x :: xs) n = y).
  { destruct (exists_last (l:=x :: xs)) as (ys & y & E); [done|]. exists ys, y.
    split; [done|]. rewrite E. apply last_last. }
  destruct He as (ys & y & E & Hy). rewrite Hy in Hl. clear Hy.
  rewrite (load_prev_pv _ _ y), (load_next_nx _ _ x) by done. cbn [mbind outcome_bind].
  assert (Hall : forall z, z ∈ x :: xs -> is_Some (h !! z)).
  { intros z Hz. eapply chain_alloc; [done|set_solver]. }
  rewrite store_next_ok by (apply Hall; rewrite E; set_solver). cbn [mbind outcome_bind].
  rewrite store_prev_ok by (autorewrite with clist; apply Hall; set_solver).
  eexists. split; [done|].
  assert (Hyx : y ∈ x :: xs) by (rewrite E; set_solver).
  split; [|solve_touches].
  apply NoDup_cons in Hnd as [Hn Hnd]. split; [done|].
  destruct Hc as [Hnx Hc]. destruct ys as [|x' ys]; injection E as <- ->; [subst; cbn in *|].
  - split; heap_simp; done.
  - apply chain_app in Hc as [Hc1 Hc2]. apply NoDup_cons in Hnd as [Hx Hnd].
    apply NoDup_app in Hnd as (_ & Hnd & _).
    pose proof (Hall x ltac:(set_solver)). pose proof (Hall y Hyx).
    apply chain_app. split; [|split; heap_simp; done].
    eapply chain_frame; [..|exact Hc1]; intros z Hz.
    + assert (z <> y) by (intros ->; set_solver). by heap_simp.
    + assert (z <> x) by (intros ->; set_solver). by heap_simp.
Qed.

(** *** Joining lists *)

Lemma clist_empty_ring h l xs :
  ring h (l :: xs) -> clist_empty h l = Ok (bool_decide (xs = [])).
Proof.
  intros [Hnd Hc]. unfold clist_empty. rewrite (load_next_nx _ _ (hd l xs)) by (by eapply chain_first).
  cbn. f_equal. destruct xs as [|x xs]; cbn; [by rewrite Z.eqb_refl|].
  apply NoDup_cons in Hnd as [Hl _]. apply Z.eqb_neq. set_solver.
Qed.

(** The pointer writes of a non-empty [clist_insert_list_after], before the
    source list is cleared: the nodes [ts ++ [z]] of [w] are linked between
    [a] and its successor [b]. *)
Lemma splice_ring h w a xs ts z :
  ring h (a :: xs) -> ring h (w :: ts ++ [z]) -> (forall x, x ∈ a :: xs -> x ∉ w :: ts ++ [z]) ->
  let b := hd a xs in let y := hd z ts in
  ring (set_next a y (set_prev y a (set_prev b z (set_next z b h)))) (a :: (ts ++ [z]) ++ xs).
Proof.
  intros [Hnd1 H1] [Hnd2 H2] Hdisj b y.
  set (h' := set_next a y _).
  assert (Hal : forall x, x ∈ a :: xs -> is_Some (h !! x))
    by (intros; eapply chain_alloc; [exact H1 | done]).
  assert (Hal2 : forall x, x ∈ ts ++ [z] -> is_Some (h !! x)) by (intros; eapply chain_alloc; [exact H2|set_solver]).
  assert (Hb : b ∈ a :: xs) by (subst b; destruct xs; set_solver).
  assert (Hy : y ∈ ts ++ [z]) by (subst y; destruct ts; set_solver).
  assert (Hd : forall u v, u ∈ a :: xs -> v ∈ ts ++ [z] -> u <> v).
  { intros u v Hu Hv ->. apply (Hdisj v); [done|]. by apply elem_of_cons; right. }
  assert (Haz : a <> z) by (apply Hd; set_solver).
  assert (Hby : b <> y) by (by apply Hd). assert (Hay : a <> y) by (apply Hd; [set_solver|done]).
  pose proof (Hal a ltac:(set_solver)) as Ha. pose proof (Hal _ Hb) as Hbs.
  pose proof (Hal2 _ Hy) as Hys. pose proof (Hal2 z ltac:(set_solver)) as Hzs.
  apply NoDup_cons in Hnd2 as [Hw Hnd2]. pose proof Hnd2 as (Hndt & Htz & _)%NoDup_app.
  apply chain_app in H2 as [H2 _].
  split.
  { apply NoDup_cons in Hnd1 as [? ?]. apply NoDup_cons. split; [set_solver|].
    apply NoDup_app. split; [done|]. split; [intros x ??; set_solver | done]. }
  assert (Hz : link h' z b) by (subst h'; split; heap_simp; done).
  assert (Hts : chain h' a ts z).
  { subst y. destruct ts as [|t ts]; cbn in *; [subst h'; split; heap_simp; done|].
    split; [subst h'; split; heap_simp; done|].
    apply NoDup_cons in Hndt as [Ht Hndt].
    eapply chain_frame; [..|exact (proj2 H2)]; intros x Hx; subst h'.
    - assert (x <> a /\ x <> z) as [??] by (split; intros ->; set_solver). by heap_simp.
    - assert (x <> t /\ x <> b) as [??] by (split; intros ->; set_solver). by heap_simp. }
  cbn. rewrite <- app_assoc. cbn. apply chain_app. split; [done|].
  subst b. destruct xs as [|x xs]; cbn in *; [done|]. split; [done|].
  apply NoDup_cons in Hnd1 as [Hax Hnd1]. apply NoDup_cons in Hnd1 as [Hx Hnd1].
  eapply chain_frame; [..|exact (proj2 H1)]; intros u Hu; subst h'.
  - assert (u <> a /\ u <> z) as [??] by (split; intros ->; set_solver). by heap_simp.
  - assert (u <> x /\ u <> y) as [??] by (split; intros ->; set_solver). by heap_simp.
Qed.

Lemma clist_insert_list_after_ring h w a xs ys :
  ring h (a :: xs) -> ring h (w :: ys) -> (forall x, x ∈ a :: xs -> x ∉ w :: ys) ->
  exists h', clist_insert_list_after h w a = Ok h' /\ ring h' (a :: ys ++ xs) /\ ring h' [w] /\
    touches h h' (w :: ys ++ a :: xs).
Proof.
  intros H1 H2 Hdisj. unfold clist_insert_list_after.
  rewrite (clist_empty_ring _ _ ys) by done. cbn.
  destruct ys as [|z ts _] using rev_ind.
  { exists h. cbn. split; [done|]. split; [exact H1|]. split; [exact H2 | done]. }
  rewrite bool_decide_eq_false_2 by (by destruct ts).
  pose proof (chain_first _ _ _ _ (proj2 H1)) as Ha. pose proof (chain_last _ _ _ _ (proj2 H2)) as Hw.
  pose proof (chain_first _ _ _ _ (proj2 H2)) as Hwn.
  rewrite last_last in Hw. replace (hd w (ts ++ [z])) with (hd z ts) in Hwn by (by destruct ts).
  pose proof (splice_ring h w a xs ts z H1 H2 Hdisj) as Hs. cbn zeta in Hs.
  assert (Hal : forall x, x ∈ a :: xs -> is_Some (h !! x))
    by (intros; eapply ring_alloc; [exact H1 | done]).
  assert (Hal2 : forall x, x ∈ w :: ts ++ [z] -> is_Some (h !! x))
    by (intros; eapply ring_alloc; [exact H2 | done]).
  set (b := hd a xs) in *. set (y := hd z ts) in *.
  assert (Hb : b ∈ a :: xs) by (subst b; destruct xs; set_solver).
  assert (Hy : y ∈ ts ++ [z]) by (subst y; destruct ts; set_solver).
  destruct H2 as [[Hnw _]%NoDup_cons _].
  assert (a <> z) by (intros ->; apply (Hdisj z); set_solver).
  assert (w <> z) by set_solver. assert (w <> b) by (intros ->; apply (Hdisj b); set_solver).
  rewrite (load_prev_pv _ _ z), (load_next_nx _ _ b) by done. cbn [mbind outcome_bind].
  rewrite store_next_ok by (apply Hal2; set_solver). cbn [mbind outcome_bind].
  rewrite (load_next_nx _ _ b), (load_prev_pv _ _ z) by (heap_simp; done). cbn [mbind outcome_bind].
  rewrite store_prev_ok by (autorewrite with clist; by apply Hal). cbn [mbind outcome_bind].
  rewrite (load_next_nx _ _ y) by (heap_simp; done). cbn [mbind outcome_bind].
  rewrite store_prev_ok by (autorewrite with clist; apply Hal2; set_solver). cbn [mbind outcome_bind].
  rewrite (load_next_nx _ _ y) by (heap_simp; done). cbn [mbind outcome_bind].
  rewrite store_next_ok by (autorewrite with clist; apply Hal; set_solver). cbn [mbind outcome_bind].
  edestruct clist_init_ring as (h' & -> & Hw' & Ht); [autorewrite with clist; apply Hal2; set_solver|].
  exists h'. split; [done|]. split; [|split; [done|]].
  - eapply ring_frame; [|exact Hs]. intros x Hx. apply Ht. set_solver.
  - eapply touches_mono; [eapply touches_trans; [|exact Ht]; solve_touches|set_solver].
Qed.

(** ** What the lists promise

    The abstract state: the lists by the location of their head, and the
    allocated nodes that are in no list, with a mark for the ones that
    [clist_unlink] has cleared. *)

Record lists : Type := Lists { al : gmap Z (list Z); spare : gmap Z bool }.

Inductive clist_op : Set :=
| Init (l : Z) | Head (l : Z) | Tail (l : Z) | Next (l n : Z) | Prev (l n : Z) | Empty_ (l : Z)
| InsertAfter (n a : Z) | InsertBefore (n b : Z) | AddHead (l n : Z) | AddTail (l n : Z)
| Remove (n : Z) | RemoveHead (l : Z) | RemoveTail (l : Z)
| InsertListAfter (w a : Z) | AddListHead (l w : Z) | AddListTail (l w : Z) | Move (to from : Z)
| Size_ (l : Z) | Unlink (n : Z) | UnlinkHead (l : Z) | UnlinkTail (l : Z) | IsLinked (n : Z).

Definition void (m : outcome heap) : outcome (heap * Z) := h ← m; Ok (h, 0).
Definition reads (h : heap) (m : outcome Z) : outcome (heap * Z) := r ← m; Ok (h, r).
Definition tests (h : heap) (m : outcome bool) : outcome (heap * Z) := b ← m; Ok (h, Z.b2z b).

(** One call of a function of [clists.h]. *)
Definition exec (h : heap) (o : clist_op) : outcome (heap * Z) :=
  match o with
  | Init l => void (clist_init h l)
  | Head l => reads h (clist_head h l)
  | Tail l => reads h (clist_tail h l)
  | Next l n => reads h (clist_next h l n)
  | Prev l n => reads h (clist_prev h l n)
  | Empty_ l => tests h (clist_empty h l)
  | InsertAfter n a => void (clist_insert_after h n a)
  | InsertBefore n b => void (clist_insert_before h n b)
  | AddHead l n => void (clist_add_head h l n)
  | AddTail l n => void (clist_add_tail h l n)
  | Remove n => void (clist_remove h n)
  | RemoveHead l => clist_remove_head h l
  | RemoveTail l => clist_remove_tail h l
  | InsertListAfter w a => void (clist_insert_list_after h w a)
  | AddListHead l w => void (clist_add_list_head h l w)
  | AddListTail l w => void (clist_add_list_tail h l w)
  | Move to from => void (clist_move h to from)
  | Size_ l => reads h (clist_size h l)
  | Unlink n => void (clist_unlink h n)
  | UnlinkHead l => clist_unlink_head h l
  | UnlinkTail l => clist_unlink_tail h l
  | IsLinked n => tests h (clist_is_linked h n)
  end.

(** List [l] becomes [xs], taking [n] from the spare nodes. *)
Definition take_node (s : lists) (l : Z) (xs : list Z) (n : Z) : lists :=
  Lists (<[l := xs]> s.(al)) (delete n s.(spare)).

(** List [l] becomes [xs], giving back [n], which is cleared if [m]. *)
Definition give_node (s : lists) (l : Z) (xs : list Z) (n : Z) (m : bool) : lists :=
  Lists (<[l := xs]> s.(al)) (<[n := m]> s.(spare)).

(** List [l] is emptied or made from a spare node; nodes it had are spare. *)
Definition make_empty (s : lists) (l : Z) : lists :=
  Lists (<[l := []]> s.(al))
    (delete l (list_to_map ((fun x => (x, false)) <$> default [] (s.(al) !! l)) ∪ s.(spare))).

(** List [l] becomes [xs] and [w] is emptied. *)
Definition join_lists (s : lists) (l : Z) (xs : list Z) (w : Z) : lists :=
  Lists (<[w := []]> (<[l := xs]> s.(al))) s.(spare).

Inductive spec (s : lists) : clist_op -> lists -> Z -> Prop :=
| sp_init l : is_Some (s.(al) !! l) \/ is_Some (s.(spare) !! l) ->
    spec s (Init l) (make_empty s l) 0
| sp_head l xs : s.(al) !! l = Some xs -> spec s (Head l) s (hd NULL xs)
| sp_tail l xs : s.(al) !! l = Some xs -> spec s (Tail l) s (List.last xs NULL)
| sp_next l pre n post : s.(al) !! l = Some (pre ++ n :: post) -> spec s (Next l n) s (hd NULL post)
| sp_prev l pre n post : s.(al) !! l = Some (pre ++ n :: post) ->
    spec s (Prev l n) s (List.last pre NULL)
| sp_empty l xs : s.(al) !! l = Some xs -> spec s (Empty_ l) s (Z.b2z (bool_decide (xs = [])))
| sp_insert_after l xs n pre a post xs' : is_Some (s.(spare) !! n) -> s.(al) !! l = Some xs ->
    l :: xs = pre ++ a :: post -> l :: xs' = pre ++ a :: n :: post ->
    spec s (InsertAfter n a) (take_node s l xs' n) 0
| sp_insert_before l n pre b post : is_Some (s.(spare) !! n) -> s.(al) !! l = Some (pre ++ b :: post) ->
    spec s (InsertBefore n b) (take_node s l (pre ++ n :: b :: post) n) 0
| sp_add_head l xs n : is_Some (s.(spare) !! n) -> s.(al) !! l = Some xs ->
    spec s (AddHead l n) (take_node s l (n :: xs) n) 0
| sp_add_tail l xs n : is_Some (s.(spare) !! n) -> s.(al) !! l = Some xs ->
    spec s (AddTail l n) (take_node s l (xs ++ [n]) n) 0
| sp_remove l pre n post : s.(al) !! l = Some (pre ++ n :: post) ->
    spec s (Remove n) (give_node s l (pre ++ post) n false) 0
| sp_remove_head l n xs : s.(al) !! l = Some (n :: xs) ->
    spec s (RemoveHead l) (give_node s l xs n false) n
| sp_remove_head_none l : s.(al) !! l = Some [] -> spec s (RemoveHead l) s NULL
| sp_remove_tail l n xs : s.(al) !! l = Some (xs ++ [n]) ->
    spec s (RemoveTail l) (give_node s l xs n false) n
| sp_remove_tail_none l : s.(al) !! l = Some [] -> spec s (RemoveTail l) s NULL
| sp_insert_list w ys l xs pre a post xs' : s.(al) !! w = Some ys -> s.(al) !! l = Some xs -> l <> w ->
    l :: xs = pre ++ a :: post -> l :: xs' = pre ++ a :: ys ++ post ->
    spec s (InsertListAfter w a) (join_lists s l xs' w) 0
| sp_add_list_head l xs w ys : s.(al) !! w = Some ys -> s.(al) !! l = Some xs -> l <> w ->
    spec s (AddListHead l w) (join_lists s l (ys ++ xs) w) 0
| sp_add_list_tail l xs w ys : s.(al) !! w = Some ys -> s.(al) !! l = Some xs -> l <> w ->
    spec s (AddListTail l w) (join_lists s l (xs ++ ys) w) 0
| sp_move to from ys : s.(al) !! from = Some ys -> to <> from ->
    is_Some (s.(al) !! to) \/ is_Some (s.(spare) !! to) ->
    spec s (Move to from) (join_lists (make_empty s to) to ys from) 0
| sp_size l xs : s.(al) !! l = Some xs -> spec s (Size_ l) s (u32 (Z.of_nat (length xs)))
| sp_unlink l pre n post : s.(al) !! l = Some (pre ++ n :: post) ->
    spec s (Unlink n) (give_node s l (pre ++ post) n true) 0
| sp_unlink_head l n xs : s.(al) !! l = Some (n :: xs) ->
    spec s (UnlinkHead l) (give_node s l xs n true) n
| sp_unlink_head_none l : s.(al) !! l = Some [] -> spec s (UnlinkHead l) s NULL
| sp_unlink_tail l n xs : s.(al) !! l = Some (xs ++ [n]) ->
    spec s (UnlinkTail l) (give_node s l xs n true) n
| sp_unlink_tail_none l : s.(al) !! l = Some [] -> spec s (UnlinkTail l) s NULL
| sp_linked l xs n : s.(al) !! l = Some xs -> n ∈ l :: xs -> spec s (IsLinked n) s 1
| sp_unlinked n : s.(spare) !! n = Some true -> spec s (IsLinked n) s 0.

(** The heap represents the abstract lists. *)
Record rep (h : heap) (s : lists) : Prop := Rep {
  rep_null : h !! NULL = None;
  rep_ring : forall l xs, s.(al) !! l = Some xs -> ring h (l :: xs);
  rep_disj : forall l1 l2 xs1 xs2 x, s.(al) !! l1 = Some xs1 -> s.(al) !! l2 = Some xs2 ->
    x ∈ l1 :: xs1 -> x ∈ l2 :: xs2 -> l1 = l2;
  rep_spare : forall n m, s.(spare) !! n = Some m -> is_Some (h !! n) /\
    (m = true -> h !! n = Some (Cnode NULL NULL)) /\
    forall l xs, s.(al) !! l = Some xs -> n ∉ l :: xs }.

(** ** The representation is kept *)

(** A list is unaffected by writes to the nodes of another one. *)
Lemma rep_ring_other h h' s l xs l' xs' T :
  rep h s -> s.(al) !! l = Some xs -> s.(al) !! l' = Some xs' -> l <> l' ->
  touches h h' T -> (forall x, x ∈ T -> x ∈ l :: xs \/ is_Some (s.(spare) !! x)) ->
  ring h' (l' :: xs').
Proof.
  intros Hr Hl Hl' Hne [_ Ht] HT. eapply ring_frame; [|by eapply rep_ring].
  intros x Hx. apply Ht. intros [Hx'|[m Hm]]%HT.
  - apply Hne. by eapply (rep_disj _ _ Hr).
  - apply (rep_spare _ _ Hr) in Hm as (_ & _ & Hm). by eapply Hm.
Qed.

Lemma rep_spare_other h h' s l xs n m T :
  rep h s -> s.(al) !! l = Some xs -> s.(spare) !! n = Some m ->
  touches h h' T -> n ∉ T ->
  is_Some (h' !! n) /\ (m = true -> h' !! n = Some (Cnode NULL NULL)).
Proof.
  intros Hr Hl Hn [Ha Ht] HT. apply (rep_spare _ _ Hr) in Hn as (H1 & H2 & _).
  split; [by apply Ha|]. intros Hm. rewrite Ht by done. auto.
Qed.

Lemma touches_null h h' T : touches h h' T -> h !! NULL = None -> h' !! NULL = None.
Proof.
  intros [Ha _] H. apply eq_None_not_Some. intros Hs. apply Ha in Hs. rewrite H in Hs. by destruct Hs.
Qed.

Lemma rep_take h h' s l xs xs' n :
  rep h s -> is_Some (s.(spare) !! n) -> s.(al) !! l = Some xs ->
  (forall x, x ∈ l :: xs' <-> x = n \/ x ∈ l :: xs) ->
  ring h' (l :: xs') -> touches h h' (n :: l :: xs) -> rep h' (take_node s l xs' n).
Proof.
  intros Hr [m0 Hn] Hl Hx Hring Ht.
  pose proof (rep_spare _ _ Hr _ _ Hn) as (_ & _ & Hfree).
  split; cbn.
  - eapply touches_null; [done | apply Hr].
  - intros k ys [[<- <-]|[Hk Hys]]%lookup_insert_Some; [done|].
    eapply (rep_ring_other h h' s l); try done. intros x [->|?]%elem_of_cons; [right; eauto | by left].
  - intros k1 k2 ys1 ys2 x [[<- <-]|[Hk1 H1]]%lookup_insert_Some [[<- <-]|[Hk2 H2]]%lookup_insert_Some; [done|..].
    + intros Hx1 Hx2. apply Hx in Hx1 as [->|Hx1]; [by eapply Hfree in Hx2|]. by eapply (rep_disj _ _ Hr).
    + intros Hx1 Hx2. apply Hx in Hx2 as [->|Hx2]; [by eapply Hfree in Hx1|]. by eapply (rep_disj _ _ Hr).
    + by apply (rep_disj _ _ Hr).
  - intros p m [Hp Hm]%lookup_delete_Some.
    pose proof (rep_spare _ _ Hr _ _ Hm) as (_ & _ & Hfree').
    assert (Hpl : p ∉ l :: xs) by (by apply Hfree').
    destruct (rep_spare_other h h' s l xs p m (n :: l :: xs)) as [A B]; try done; [set_solver|].
    split; [done|]. split; [done|].
    intros k ys [[<- <-]|[Hk Hys]]%lookup_insert_Some; [|by apply Hfree'].
    rewrite Hx. intros [->|?]; done.
Qed.

Lemma rep_give h h' s l xs xs' n m :
  rep h s -> s.(al) !! l = Some xs -> n ∈ xs ->
  (forall x, x ∈ l :: xs' <-> x ∈ l :: xs /\ x <> n) ->
  ring h' (l :: xs') -> touches h h' (l :: xs) ->
  (m = true -> h' !! n = Some (Cnode NULL NULL)) -> rep h' (give_node s l xs' n m).
Proof.
  intros Hr Hl Hn Hx Hring Ht Hm.
  assert (Hnl : n ∈ l :: xs) by set_solver.
  split; cbn.
  - eapply touches_null; [done | apply Hr].
  - intros k ys [[<- <-]|[Hk Hys]]%lookup_insert_Some; [done|].
    eapply (rep_ring_other h h' s l); try done. by left.
  - intros k1 k2 ys1 ys2 x [[<- <-]|[Hk1 H1]]%lookup_insert_Some [[<- <-]|[Hk2 H2]]%lookup_insert_Some; [done|..].
    + intros [Hx1 _]%Hx Hx2. by eapply (rep_disj _ _ Hr).
    + intros Hx1 [Hx2 _]%Hx. by eapply (rep_disj _ _ Hr).
    + by apply (rep_disj _ _ Hr).
  - intros p q [[<- <-]|[Hp Hq]]%lookup_insert_Some.
    + split; [apply Ht; eapply ring_alloc; [by eapply rep_ring | done]|]. split; [done|].
      intros k ys [[<- <-]|[Hk Hys]]%lookup_insert_Some; [rewrite Hx; tauto|].
      intros Hin. apply Hk. by eapply (rep_disj _ _ Hr).
    + pose proof (rep_spare _ _ Hr _ _ Hq) as (_ & _ & Hfree).
      destruct (rep_spare_other h h' s l xs p q (l :: xs)) as [A B]; try done; [by apply Hfree|].
      split; [done|]. split; [done|].
      intros k ys [[<- <-]|[Hk Hys]]%lookup_insert_Some; [|by apply Hfree].
      rewrite Hx. intros [Hin _]. by eapply Hfree.
Qed.

(** Where the nodes of a list come from after a join. *)
Lemma join_lookup h s l xs xs' w ys k zs :
  rep h s -> s.(al) !! l = Some xs -> s.(al) !! w = Some ys -> l <> w ->
  (forall x, x ∈ l :: xs' <-> x ∈ l :: xs \/ x ∈ ys) ->
  (join_lists s l xs' w).(al) !! k = Some zs ->
  k = w /\ zs = [] \/ k = l /\ zs = xs' \/
  k <> w /\ k <> l /\ s.(al) !! k = Some zs /\ forall x, x ∈ k :: zs -> x ∉ w :: ys ++ l :: xs.
Proof.
  intros Hr Hl Hw Hne Hx. cbn.
  intros [[<- <-]|[Hk1 [[<- <-]|[Hk2 H]]%lookup_insert_Some]]%lookup_insert_Some; [tauto..|].
  do 2 right. repeat split; [congruence..|done|]. intros x Hin Hin'.
  assert (x ∈ w :: ys \/ x ∈ l :: xs) as [Hin''|Hin''] by set_solver.
  - apply Hk1. by eapply (rep_disj _ _ Hr _ _ _ _ x).
  - apply Hk2. by eapply (rep_disj _ _ Hr _ _ _ _ x).
Qed.

Lemma rep_join h h' s l xs xs' w ys :
  rep h s -> s.(al) !! l = Some xs -> s.(al) !! w = Some ys -> l <> w ->
  (forall x, x ∈ l :: xs' <-> x ∈ l :: xs \/ x ∈ ys) ->
  ring h' (l :: xs') -> ring h' [w] -> touches h h' (w :: ys ++ l :: xs) ->
  rep h' (join_lists s l xs' w).
Proof.
  intros Hr Hl Hw Hne Hx Hring Hring' Ht.
  assert (Hwl : w ∉ l :: xs').
  { rewrite Hx. intros [Hin|Hin].
    - apply Hne. apply (rep_disj _ _ Hr l w xs ys w); [done..|set_solver].
    - pose proof (rep_ring _ _ Hr _ _ Hw) as [[? _]%NoDup_cons _]. done. }
  pose proof (fun k zs => join_lookup h s l xs xs' w ys k zs Hr Hl Hw Hne Hx) as Hk.
  split.
  - eapply touches_null; [done | apply Hr].
  - intros k zs [[-> ->]|[[-> ->]|(_ & _ & Hs & Hd)]]%Hk; [done..|].
    eapply ring_frame; [|by eapply rep_ring]. intros x Hin. apply Ht. by apply Hd.
  - intros k1 k2 zs1 zs2 x [[-> ->]|[[-> ->]|(_ & _ & Hs1 & Hd1)]]%Hk
      [[-> ->]|[[-> ->]|(_ & _ & Hs2 & Hd2)]]%Hk Hin1 Hin2; try done.
    + apply list_elem_of_singleton in Hin1 as ->. done.
    + apply Hd2 in Hin2. set_solver.
    + apply list_elem_of_singleton in Hin2 as ->. done.
    + apply Hd2 in Hin2. apply Hx in Hin1. set_solver.
    + apply Hd1 in Hin1. set_solver.
    + apply Hd1 in Hin1. apply Hx in Hin2. set_solver.
    + by eapply (rep_disj _ _ Hr).
  - intros p q Hq. cbn in Hq. pose proof (rep_spare _ _ Hr _ _ Hq) as (_ & _ & Hfree).
    pose proof (Hfree _ _ Hl) as F1. pose proof (Hfree _ _ Hw) as F2.
    destruct (rep_spare_other h h' s l xs p q (w :: ys ++ l :: xs)) as [A B]; try done; [set_solver|].
    split; [done|]. split; [done|].
    intros k zs [[-> ->]|[[-> ->]|(_ & _ & Hs & _)]]%Hk; [set_solver | | by apply Hfree].
    rewrite Hx. intros [?|?]; set_solver.
Qed.

Lemma rep_make_empty h h' s l :
  rep h s -> is_Some (s.(al) !! l) \/ is_Some (s.(spare) !! l) ->
  ring h' [l] -> touches h h' [l] -> rep h' (make_empty s l).
Proof.
  intros Hr Hl Hring Ht.
  (* the location is not a node of another list *)
  assert (Hf : forall k ys, k <> l -> s.(al) !! k = Some ys -> l ∉ k :: ys).
  { intros k ys Hk Hys Hin. destruct Hl as [[xs Hxs]|[m Hm]].
    - apply Hk. apply (rep_disj _ _ Hr k l ys xs l); [done..|set_solver].
    - by apply (rep_spare _ _ Hr _ _ Hm) in Hys. }
  split; cbn.
  - eapply touches_null; [done | apply Hr].
  - intros k ys [[<- <-]|[Hk Hys]]%lookup_insert_Some; [done|].
    eapply ring_frame; [|by eapply rep_ring]. intros x Hin. apply Ht.
    intros ->%list_elem_of_singleton. eapply (Hf k ys); [congruence|done..].
  - intros k1 k2 ys1 ys2 x [[<- <-]|[Hk1 H1]]%lookup_insert_Some [[<- <-]|[Hk2 H2]]%lookup_insert_Some; [done|..].
    + intros ->%list_elem_of_singleton Hin. exfalso. eapply (Hf k2 ys2); [congruence|done..].
    + intros Hin ->%list_elem_of_singleton. exfalso. eapply (Hf k1 ys1); [congruence|done..].
    + by apply (rep_disj _ _ Hr).
  - intros n m [Hn Hm]%lookup_delete_Some.
    assert (Hold : s.(spare) !! n = Some m \/
      m = false /\ exists xs, s.(al) !! l = Some xs /\ n ∈ xs).
    { apply lookup_union_Some_raw in Hm as [Hm|[_ Hm]]; [right|by left].
      apply elem_of_list_to_map_2, list_elem_of_fmap in Hm as (x & [= -> ->] & Hx).
      split; [done|]. destruct (al s !! l) as [xs|] eqn:E; cbn in Hx; [eauto|set_solver]. }
    destruct Hold as [Hs|(-> & xs & Hxs & Hx)].
    + pose proof (rep_spare _ _ Hr _ _ Hs) as (A & B & C). split; [by apply Ht|].
      split; [intros E; rewrite (proj2 Ht) by set_solver; auto|].
      intros k ys [[<- <-]|[Hk Hys]]%lookup_insert_Some; [set_solver|by apply C].
    + split; [apply Ht; eapply ring_alloc; [by eapply rep_ring|set_solver]|]. split; [done|].
      intros k ys [[<- <-]|[Hk Hys]]%lookup_insert_Some; [set_solver|].
      intros Hin. apply Hk. apply (rep_disj _ _ Hr l k xs ys n); [done..|set_solver|done].
Qed.

(** ** Loops visit the nodes in order *)

Lemma ring_size h a xs : ring h (a :: xs) -> (length xs < size h)%nat.
Proof.
  intros Hr. pose proof Hr as [Hnd _].
  assert (list_to_set (a :: xs) ⊆ dom h) as Hs%subseteq_size.
  { intros x Hx. apply elem_of_list_to_set in Hx. apply elem_of_dom. by eapply ring_alloc. }
  rewrite size_list_to_set in Hs by done. rewrite size_dom in Hs. cbn in Hs. lia.
Qed.

(** The successors of the nodes [xs] up to the head [l]. *)
Fixpoint nexts (h : heap) (xs : list Z) (l : Z) : Prop :=
  match xs with
  | [] => is_Some (nx h l)
  | x :: xs => nx h x = Some (hd l xs) /\ nexts h xs l
  end.

Lemma chain_nexts h a xs l : is_Some (nx h l) -> chain h a xs l -> nexts h xs l.
Proof.
  intros Hl. revert a; induction xs as [|x xs IH]; intros a; cbn; [done|].
  intros [_ Hc]. split; [by eapply chain_first | by eapply IH].
Qed.

Lemma ring_nexts h l xs : ring h (l :: xs) -> nexts h xs l.
Proof. intros [_ H]. eapply chain_nexts; [|done]. erewrite chain_first; [eauto|done]. Qed.

Lemma nexts_frame h h' xs l :
  (forall x, x ∈ l :: xs -> h' !! x = h !! x) -> nexts h xs l -> nexts h' xs l.
Proof.
  induction xs as [|x xs IH]; cbn; intros H; [unfold nx; by rewrite H by set_solver|].
  intros [H1 H2]. unfold nx in *. rewrite H by set_solver. split; [done|]. apply IH; [set_solver|done].
Qed.

Lemma walk_loop_spec {A} (body : A -> Z -> outcome A) h l xs fuel a :
  (length xs < fuel)%nat -> nexts h xs l -> l ∉ xs ->
  walk_loop fuel body h l (hd l xs) a = foldM body a xs.
Proof.
  revert fuel a; induction xs as [|x xs IH]; intros fuel a Hf Hn Hl; (destruct fuel as [|fuel]; [cbn in Hf; lia|]); cbn.
  - by rewrite Z.eqb_refl.
  - rewrite (proj2 (Z.eqb_neq x l)) by set_solver. destruct (body a x) as [a'|e]; cbn; [|done].
    rewrite (load_next_nx _ _ (hd l xs)) by apply Hn. cbn.
    apply IH; [cbn in Hf; lia | apply Hn | set_solver].
Qed.

(** [CLIST_FOR_EACH] runs its body on the nodes of the list in order. *)
Lemma walk_spec {A} (body : A -> Z -> outcome A) h l xs a :
  ring h (l :: xs) -> CLIST_FOR_EACH body h l a = foldM body a xs.
Proof.
  intros Hr. unfold CLIST_FOR_EACH. pose proof Hr as [[Hl _]%NoDup_cons Hc].
  rewrite (load_next_nx _ _ (hd l xs)) by (by eapply chain_first). cbn [mbind outcome_bind].
  apply walk_loop_spec; [apply ring_size in Hr; lia | by apply ring_nexts | done].
Qed.

Lemma walk_back_loop_spec {A} (body : A -> Z -> outcome A) h l xs fuel a :
  (length xs < fuel)%nat -> chain h l xs l -> l ∉ xs ->
  walk_back_loop fuel body h l (List.last xs l) a = foldM body a (rev xs).
Proof.
  cut (forall b, (length xs < fuel)%nat -> chain h l xs b -> l ∉ xs ->
    walk_back_loop fuel body h l (List.last xs l) a = foldM body a (rev xs)); [eauto|].
  revert fuel a; induction xs as [|x xs IH] using rev_ind; intros fuel a b Hf Hc Hl;
    (destruct fuel as [|fuel]; [lia|]).
  - cbn. by rewrite Z.eqb_refl.
  - rewrite last_last, rev_app_distr. rewrite length_app in Hf. cbn in Hf.
    apply chain_app in Hc as [Hc _]. cbn.
    rewrite (proj2 (Z.eqb_neq x l)) by set_solver. destruct (body a x) as [a'|e]; cbn; [|done].
    rewrite (load_prev_pv _ _ (List.last xs l)) by (by eapply chain_last). cbn.
    apply (IH fuel a' x); [lia | done | set_solver].
Qed.

(** [CLIST_FOR_EACH_BACKWARDS] runs its body on them in reverse order. *)
Lemma walk_back_spec {A} (body : A -> Z -> outcome A) h l xs a :
  ring h (l :: xs) -> CLIST_FOR_EACH_BACKWARDS body h l a = foldM body a (rev xs).
Proof.
  intros Hr. unfold CLIST_FOR_EACH_BACKWARDS. pose proof Hr as [[Hl _]%NoDup_cons Hc].
  rewrite (load_prev_pv _ _ (List.last xs l)) by (by eapply chain_last). cbn [mbind outcome_bind].
  apply walk_back_loop_spec; [apply ring_size in Hr; lia | done | done].
Qed.

(** A body that changes no node but the current one. *)
Definition local_body {A} (body : A -> heap -> Z -> outcome (A * heap)) : Prop :=
  forall a h n a' h', body a h n = Ok (a', h') -> forall m, m <> n -> h' !! m = h !! m.

Lemma walk_delsafe_loop_spec {A} (body : A -> heap -> Z -> outcome (A * heap)) h l xs fuel a :
  local_body body -> (length xs < fuel)%nat -> nexts h xs l -> NoDup (l :: xs) ->
  walk_delsafe_loop fuel body h l (hd l xs) a = foldM (fun '(a, h) n => body a h n) (a, h) xs.
Proof.
  intros Hb. revert fuel h a; induction xs as [|x xs IH]; intros fuel h a Hf Hn Hnd;
    (destruct fuel as [|fuel]; [cbn in Hf; lia|]); cbn.
  - destruct Hn as [m Hm]. rewrite (load_next_nx _ _ m) by done. cbn. by rewrite Z.eqb_refl.
  - destruct Hn as [Hx Hn]. rewrite (load_next_nx _ _ (hd l xs)) by done. cbn.
    apply NoDup_cons in Hnd as [Hl Hnd]. apply NoDup_cons in Hnd as [Hxs Hnd].
    rewrite (proj2 (Z.eqb_neq x l)) by set_solver.
    destruct (body a h x) as [[a' h']|e] eqn:E; cbn; [|done].
    apply IH; [cbn in Hf; lia | | apply NoDup_cons; set_solver].
    eapply nexts_frame; [|done]. intros y Hy. eapply Hb; [done|]. intros ->. set_solver.
Qed.

(** [CLIST_FOR_EACH_DELSAFE] with a body that changes, unlinks or frees
    the current node only still runs the body on every node of the list,
    once and in order, and terminates. *)
Theorem walk_delsafe_spec {A} (body : A -> heap -> Z -> outcome (A * heap)) h l xs a :
  local_body body -> ring h (l :: xs) ->
  CLIST_FOR_EACH_DELSAFE body h l a = foldM (fun '(a, h) n => body a h n) (a, h) xs.
Proof.
  intros Hb Hr. unfold CLIST_FOR_EACH_DELSAFE. pose proof Hr as [Hnd Hc].
  rewrite (load_next_nx _ _ (hd l xs)) by (by eapply chain_first). cbn [mbind outcome_bind].
  apply walk_delsafe_loop_spec; [done | apply ring_size in Hr; lia | by apply ring_nexts | done].
Qed.

Lemma clist_size_ring h l xs : ring h (l :: xs) -> clist_size h l = Ok (u32 (Z.of_nat (length xs))).
Proof.
  intros Hr. unfold clist_size. rewrite (walk_spec _ _ _ xs) by done.
  assert (H : forall i, 0 <= i < 2 ^ 32 -> foldM (fun i (_ : Z) => Ok (u32 (i + 1))) i xs = Ok (u32 (i + Z.of_nat (length xs)))).
  { clear. induction xs as [|x xs IH]; intros i Hi; cbn [foldM length].
    - rewrite Z.add_0_r. unfold u32. by rewrite Z.mod_small.
    - cbn. rewrite IH by (apply Z.mod_pos_bound; lia). unfold u32. rewrite Zplus_mod_idemp_l. do 2 f_equal. lia. }
  rewrite H by lia. done.
Qed.

(** ** The operations on a list in a heap *)

Lemma insert_after_list h n pre a post :
  ring h (pre ++ a :: post) -> is_Some (h !! n) -> n ∉ pre ++ a :: post ->
  exists h', clist_insert_after h n a = Ok h' /\ ring h' (pre ++ a :: n :: post) /\
    touches h h' (n :: pre ++ a :: post).
Proof.
  intros Hr Hn Hni. apply ring_rotate in Hr.
  destruct (clist_insert_after_ring h n a (post ++ pre)) as (h' & -> & Hr' & Ht); [done..|set_solver|].
  exists h'. split; [done|]. split; [by apply ring_rotate | eapply touches_mono; [done|set_solver]].
Qed.

Lemma insert_before_list h n l pre b post :
  ring h (l :: pre ++ b :: post) -> is_Some (h !! n) -> n ∉ l :: pre ++ b :: post ->
  exists h', clist_insert_before h n b = Ok h' /\ ring h' (l :: pre ++ n :: b :: post) /\
    touches h h' (n :: l :: pre ++ b :: post).
Proof.
  intros Hr Hn Hni. change (l :: pre ++ b :: post) with ((l :: pre) ++ b :: post) in *.
  apply ring_rotate in Hr.
  destruct (clist_insert_before_ring h n b (post ++ l :: pre)) as (h' & -> & Hr' & Ht); [done..|set_solver|].
  exists h'. split; [done|]. split; [|eapply touches_mono; [done|set_solver]].
  replace (l :: pre ++ n :: b :: post) with (((l :: pre) ++ [n]) ++ b :: post) by (cbn; by rewrite <- app_assoc).
  apply ring_rotate. by rewrite app_assoc.
Qed.

Lemma remove_list h l pre n post :
  ring h (l :: pre ++ n :: post) ->
  exists h', clist_remove h n = Ok h' /\ ring h' (l :: pre ++ post) /\ touches h h' (l :: pre ++ n :: post).
Proof.
  intros Hr. change (l :: pre ++ n :: post) with ((l :: pre) ++ n :: post) in *.
  apply ring_rotate in Hr. cbn in Hr.
  destruct (post ++ l :: pre) as [|x xs] eqn:E; [by destruct post|].
  destruct (clist_remove_ring h n x xs) as (h' & -> & Hr' & Ht); [done|].
  exists h'. split; [done|]. rewrite <- E in Hr', Ht. split; [by apply ring_rotate in Hr'|].
  eapply touches_mono; [done|set_solver].
Qed.

Lemma unlink_list h l pre n post :
  ring h (l :: pre ++ n :: post) ->
  exists h', clist_unlink h n = Ok h' /\ ring h' (l :: pre ++ post) /\
    touches h h' (l :: pre ++ n :: post) /\ h' !! n = Some (Cnode NULL NULL).
Proof.
  intros Hr. unfold clist_unlink.
  destruct (remove_list h l pre n post Hr) as (h1 & -> & Hr1 & Ht1). cbn.
  assert (Hn : is_Some (h1 !! n)) by (apply Ht1; eapply ring_alloc; [exact Hr|set_solver]).
  rewrite store_next_ok by done. cbn. rewrite store_prev_ok by heap_side.
  eexists. split; [done|].
  assert (Hni : n ∉ l :: pre ++ post).
  { destruct Hr as [Hnd _]. change (l :: pre ++ n :: post) with ((l :: pre) ++ n :: post) in Hnd.
    rewrite Permutation_app_comm in Hnd. cbn in Hnd. apply NoDup_cons in Hnd. set_solver. }
  split; [|split].
  - eapply ring_frame; [|exact Hr1]. intros x Hx. assert (x <> n) by set_solver. by heap_simp.
  - eapply touches_mono; [eapply touches_trans; [exact Ht1|apply touches_prev, touches_next, touches_refl]|set_solver].
  - apply lookup_node; heap_simp; done.
Qed.

Lemma clist_head_ring h l xs : h !! NULL = None -> ring h (l :: xs) -> clist_head h l = Ok (hd NULL xs).
Proof.
  intros _ [[Hl _]%NoDup_cons Hc]. unfold clist_head.
  rewrite (load_next_nx _ _ (hd l xs)) by (by eapply chain_first). cbn. f_equal.
  destruct xs as [|x xs]; cbn; [by rewrite Z.eqb_refl|]. rewrite (proj2 (Z.eqb_neq x l)) by set_solver. done.
Qed.

Lemma clist_next_ring h l pre n post :
  ring h (l :: pre ++ n :: post) -> clist_next h l n = Ok (hd NULL post).
Proof.
  intros [[Hl _]%NoDup_cons [_ Hc]%chain_app]. unfold clist_next.
  rewrite (load_next_nx _ _ (hd l post)) by (by eapply chain_first). cbn. f_equal.
  destruct post as [|x xs]; cbn; [by rewrite Z.eqb_refl|]. rewrite (proj2 (Z.eqb_neq x l)) by set_solver. done.
Qed.

Lemma clist_prev_ring h l pre n post :
  ring h (l :: pre ++ n :: post) -> clist_prev h l n = Ok (List.last pre NULL).
Proof.
  intros [[Hl _]%NoDup_cons [Hc _]%chain_app]. unfold clist_prev.
  rewrite (load_prev_pv _ _ (List.last pre l)) by (by eapply chain_last). cbn. f_equal.
  destruct pre as [|x xs _] using rev_ind; [cbn; by rewrite Z.eqb_refl|].
  rewrite !last_last. rewrite (proj2 (Z.eqb_neq x l)) by set_solver. done.
Qed.

Lemma clist_tail_ring h l xs : ring h (l :: xs) -> clist_tail h l = Ok (List.last xs NULL).
Proof.
  intros [[Hl _]%NoDup_cons Hc]. unfold clist_tail.
  rewrite (load_prev_pv _ _ (List.last xs l)) by (by eapply chain_last). cbn. f_equal.
  destruct xs as [|x xs _] using rev_ind; [cbn; by rewrite Z.eqb_refl|].
  rewrite !last_last. rewrite (proj2 (Z.eqb_neq x l)) by set_solver. done.
Qed.

Lemma insert_list_after_list h w ys pre a post :
  ring h (pre ++ a :: post) -> ring h (w :: ys) -> (forall x, x ∈ pre ++ a :: post -> x ∉ w :: ys) ->
  exists h', clist_insert_list_after h w a = Ok h' /\ ring h' (pre ++ a :: ys ++ post) /\ ring h' [w] /\
    touches h h' (w :: ys ++ pre ++ a :: post).
Proof.
  intros Hr Hw Hd. apply ring_rotate in Hr.
  destruct (clist_insert_list_after_ring h w a (post ++ pre) ys) as (h' & -> & Hr' & Hw' & Ht); [done..|set_solver|].
  exists h'. split; [done|]. split; [apply ring_rotate; by rewrite <- app_assoc|]. split; [done|].
  eapply touches_mono; [done|set_solver].
Qed.

(** ** Every call refines its specification *)

Section simulation.
Context (h : heap) (s : lists) (Hrep : rep h s).

Let simulated (o : clist_op) (s' : lists) (r : Z) : Prop :=
  exists h', exec h o = Ok (h', r) /\ rep h' s'.

Lemma not_null l xs x : s.(al) !! l = Some xs -> x ∈ l :: xs -> x <> NULL.
Proof.
  intros Hl Hx ->. pose proof (rep_ring _ _ Hrep _ _ Hl) as Hr.
  eapply ring_alloc in Hr as [? H]; [|done]. by rewrite (rep_null _ _ Hrep) in H.
Qed.

Lemma spare_free n l xs :
  is_Some (s.(spare) !! n) -> s.(al) !! l = Some xs -> is_Some (h !! n) /\ n ∉ l :: xs.
Proof. intros [m Hm] Hl. pose proof (rep_spare _ _ Hrep _ _ Hm) as (A & _ & B). eauto. Qed.

Lemma sim_insert_after l xs n pre a post xs' :
  is_Some (s.(spare) !! n) -> s.(al) !! l = Some xs ->
  l :: xs = pre ++ a :: post -> l :: xs' = pre ++ a :: n :: post ->
  simulated (InsertAfter n a) (take_node s l xs' n) 0.
Proof.
  intros Hn Hl E E'. pose proof (rep_ring _ _ Hrep _ _ Hl) as Hr.
  destruct (spare_free n l xs Hn Hl) as [A B]. rewrite E in Hr, B.
  destruct (insert_after_list h n pre a post) as (h' & Hc & Hr' & Ht); [done..|].
  exists h'. cbn. rewrite Hc. split; [done|]. rewrite <- E in Ht. rewrite <- E' in Hr'.
  eapply rep_take; try done. intros x. rewrite E, E'. set_solver.
Qed.

Lemma sim_insert_before l n pre b post :
  is_Some (s.(spare) !! n) -> s.(al) !! l = Some (pre ++ b :: post) ->
  simulated (InsertBefore n b) (take_node s l (pre ++ n :: b :: post) n) 0.
Proof.
  intros Hn Hl. pose proof (rep_ring _ _ Hrep _ _ Hl) as Hr.
  destruct (spare_free n l _ Hn Hl) as [A B].
  destruct (insert_before_list h n l pre b post) as (h' & Hc & Hr' & Ht); [done..|].
  exists h'. cbn. rewrite Hc. split; [done|]. eapply rep_take; try done. set_solver.
Qed.

Lemma sim_add_tail l xs n :
  is_Some (s.(spare) !! n) -> s.(al) !! l = Some xs ->
  simulated (AddTail l n) (take_node s l (xs ++ [n]) n) 0.
Proof.
  intros Hn Hl. pose proof (rep_ring _ _ Hrep _ _ Hl) as Hr.
  destruct (spare_free n l _ Hn Hl) as [A B].
  destruct (clist_insert_before_ring h n l xs) as (h' & Hc & Hr' & Ht); [done..|].
  exists h'. cbn. unfold clist_add_tail. rewrite Hc. split; [done|].
  eapply rep_take; try done. set_solver.
Qed.

(** Removal of a node, with or without clearing it. *)
Lemma rep_removed h' l pre n post m :
  s.(al) !! l = Some (pre ++ n :: post) ->
  ring h' (l :: pre ++ post) -> touches h h' (l :: pre ++ n :: post) ->
  (m = true -> h' !! n = Some (Cnode NULL NULL)) ->
  rep h' (give_node s l (pre ++ post) n m).
Proof.
  intros Hl Hr' Ht Hm. pose proof (rep_ring _ _ Hrep _ _ Hl) as [Hnd _].
  change (l :: pre ++ n :: post) with ((l :: pre) ++ n :: post) in Hnd.
  rewrite Permutation_app_comm in Hnd. cbn in Hnd. apply NoDup_cons in Hnd as [Hn _].
  eapply rep_give; try done; [set_solver|]. intros x. split; [|set_solver].
  intros Hx. split; [set_solver|]. intros ->. set_solver.
Qed.

Lemma sim_remove l pre n post :
  s.(al) !! l = Some (pre ++ n :: post) ->
  exists h', clist_remove h n = Ok h' /\ rep h' (give_node s l (pre ++ post) n false).
Proof.
  intros Hl. pose proof (rep_ring _ _ Hrep _ _ Hl) as Hr.
  destruct (remove_list h l pre n post Hr) as (h' & Hc & Hr' & Ht).
  exists h'. split; [done|]. by apply rep_removed.
Qed.

Lemma sim_unlink l pre n post :
  s.(al) !! l = Some (pre ++ n :: post) ->
  exists h', clist_unlink h n = Ok h' /\ rep h' (give_node s l (pre ++ post) n true).
Proof.
  intros Hl. pose proof (rep_ring _ _ Hrep _ _ Hl) as Hr.
  destruct (unlink_list h l pre n post Hr) as (h' & Hc & Hr' & Ht & Hn).
  exists h'. split; [done|]. by apply rep_removed.
Qed.

Lemma sim_insert_list w ys l xs pre a post xs' :
  s.(al) !! w = Some ys -> s.(al) !! l = Some xs -> l <> w ->
  l :: xs = pre ++ a :: post -> l :: xs' = pre ++ a :: ys ++ post ->
  simulated (InsertListAfter w a) (join_lists s l xs' w) 0.
Proof.
  intros Hw Hl Hne E E'. pose proof (rep_ring _ _ Hrep _ _ Hl) as Hr.
  rewrite E in Hr. pose proof (rep_ring _ _ Hrep _ _ Hw) as Hrw.
  destruct (insert_list_after_list h w ys pre a post) as (h' & Hc & Hr' & Hw' & Ht); [done..| |].
  { intros x Hx Hx'. apply Hne. rewrite <- E in Hx. by eapply (rep_disj _ _ Hrep). }
  exists h'. cbn. rewrite Hc. split; [done|]. rewrite <- E in Ht. rewrite <- E' in Hr'.
  eapply rep_join; try done. intros x. rewrite E, E'. set_solver.
Qed.

End simulation.

Lemma sim_init h s l :
  rep h s -> is_Some (s.(al) !! l) \/ is_Some (s.(spare) !! l) ->
  exists h', clist_init h l = Ok h' /\ rep h' (make_empty s l).
Proof.
  intros Hrep Hl. destruct (clist_init_ring h l) as (h' & Hc & Hr & Ht).
  { destruct Hl as [[xs Hxs]|[m Hm]].
    - eapply ring_alloc; [by eapply rep_ring | set_solver].
    - by apply (rep_spare _ _ Hrep) in Hm as [? _]. }
  exists h'. split; [done|]. by eapply rep_make_empty.
Qed.

(** Initialising a list that is already empty changes nothing. *)
Lemma make_empty_empty h s l : rep h s -> s.(al) !! l = Some [] -> make_empty s l = s.
Proof.
  intros Hrep Hl. destruct s as [a sp]. unfold make_empty. cbn in *. f_equal; [by apply insert_id|].
  rewrite Hl. cbn. rewrite (left_id_L ∅ (∪)). apply delete_id.
  apply eq_None_not_Some. intros [m Hm]. apply (rep_spare _ _ Hrep) in Hm as (_ & _ & H).
  apply (H l []); [done | set_solver].
Qed.

Lemma sim_move h s to from ys :
  rep h s -> s.(al) !! from = Some ys -> to <> from ->
  is_Some (s.(al) !! to) \/ is_Some (s.(spare) !! to) ->
  exists h', clist_move h to from = Ok h' /\ rep h' (join_lists (make_empty s to) to ys from).
Proof.
  intros Hrep Hf Hne Hto. unfold clist_move.
  destruct (sim_init h s to Hrep Hto) as (h1 & -> & H1). cbn [mbind outcome_bind].
  destruct (sim_insert_list h1 (make_empty s to) H1 from ys to [] [] to [] ys) as (h2 & E & H2); [| |done..| |].
  - cbn. by rewrite lookup_insert_ne.
  - apply lookup_insert_eq.
  - by rewrite app_nil_r.
  - cbn in E. destruct (clist_insert_list_after h1 from to) as [h2'|] eqn:E2; [|discriminate].
    cbn in E. injection E as ->. cbn [mbind outcome_bind].
    assert (Hem : al (join_lists (make_empty s to) to ys from) !! from = Some []) by apply lookup_insert_eq.
    destruct (sim_init h2 _ from H2) as (h3 & -> & H3); [by left; eauto|].
    exists h3. split; [done|]. by rewrite (make_empty_empty h2) in H3.
Qed.

Lemma sim_add_list_tail h s l xs w ys :
  rep h s -> s.(al) !! w = Some ys -> s.(al) !! l = Some xs -> l <> w ->
  exists h', void (clist_add_list_tail h l w) = Ok (h', 0) /\ rep h' (join_lists s l (xs ++ ys) w).
Proof.
  intros Hrep Hw Hl Hne. pose proof (rep_ring _ _ Hrep _ _ Hl) as Hr. unfold clist_add_list_tail.
  rewrite (load_prev_pv _ _ (List.last xs l)) by (eapply chain_last, Hr). cbn [mbind outcome_bind].
  destruct (exists_last (l:=l :: xs)) as (pre & a & E); [done|].
  replace (List.last xs l) with a.
  - eapply (sim_insert_list h s Hrep w ys l xs pre a []); try done.
    rewrite app_nil_r, app_comm_cons, E, <- app_assoc. done.
  - transitivity (List.last (l :: xs) l); [by rewrite E, last_last | by destruct xs].
Qed.

(** The successor of a node of a list is a node of the list. *)
Lemma sim_is_linked h s (Hrep : rep h s) l xs n :
  s.(al) !! l = Some xs -> n ∈ l :: xs -> clist_is_linked h n = Ok true.
Proof.
  intros Hl Hn. pose proof (rep_ring _ _ Hrep _ _ Hl) as Hr.
  apply list_elem_of_split in Hn as (pre & post & E). rewrite E in Hr. apply ring_rotate in Hr. cbn in Hr.
  unfold clist_is_linked. rewrite (load_next_nx _ _ (hd n (post ++ pre))) by (by eapply chain_first, Hr).
  cbn. rewrite (proj2 (Z.eqb_neq _ NULL)); [done|]. eapply (not_null h s Hrep l xs); [done|].
  rewrite E. destruct (post ++ pre) as [|y ys] eqn:E'; cbn; [set_solver|].
  assert (y ∈ post ++ pre) by (rewrite E'; set_solver). set_solver.
Qed.

Lemma exec_spec h s o s' r :
  rep h s -> spec s o s' r -> exists h', exec h o = Ok (h', r) /\ rep h' s'.
Proof.
  intros Hrep Hs. pose proof (rep_ring _ _ Hrep) as Hring. pose proof (not_null h s Hrep) as Hnull.
  destruct Hs; cbn;
    try (match goal with H : s.(al) !! _ = Some _ |- _ => pose proof (Hring _ _ H) as Hr end).
  - destruct (sim_init h s l) as (h' & -> & ?); eauto.
  - rewrite (clist_head_ring _ _ xs) by (done || apply Hrep). eauto.
  - rewrite (clist_tail_ring _ _ xs) by done. eauto.
  - erewrite clist_next_ring by done. eauto.
  - erewrite clist_prev_ring by done. eauto.
  - erewrite clist_empty_ring by done. eauto.
  - by eapply sim_insert_after.
  - by apply sim_insert_before.
  - apply (sim_insert_after h s Hrep l xs n [] l xs (n :: xs)); done.
  - by apply sim_add_tail.
  - destruct (sim_remove h s Hrep l pre n post) as (h' & -> & ?); eauto.
  - unfold clist_remove_head. rewrite (clist_head_ring _ _ (n :: xs)) by (done || apply Hrep). cbn.
    rewrite (proj2 (Z.eqb_neq n NULL)) by (eapply Hnull; [done|set_solver]).
    destruct (sim_remove h s Hrep l [] n xs) as (h' & -> & ?); eauto.
  - unfold clist_remove_head. rewrite (clist_head_ring _ _ []) by (done || apply Hrep). cbn. eauto.
  - unfold clist_remove_tail. rewrite (clist_tail_ring _ _ (xs ++ [n])) by done. rewrite last_last. cbn.
    rewrite (proj2 (Z.eqb_neq n NULL)) by (eapply Hnull; [done|set_solver]).
    destruct (sim_remove h s Hrep l xs n []) as (h' & -> & ?); [done|]. rewrite app_nil_r in *. eauto.
  - unfold clist_remove_tail. rewrite (clist_tail_ring _ _ []) by done. cbn. eauto.
  - by eapply sim_insert_list.
  - eapply (sim_insert_list h s Hrep w ys l xs [] l xs); done.
  - by eapply sim_add_list_tail.
  - destruct (sim_move h s to from ys) as (h' & -> & ?); eauto.
  - rewrite (clist_size_ring _ _ xs) by done. eauto.
  - destruct (sim_unlink h s Hrep l pre n post) as (h' & -> & ?); eauto.
  - unfold clist_unlink_head. rewrite (clist_head_ring _ _ (n :: xs)) by (done || apply Hrep). cbn.
    rewrite (proj2 (Z.eqb_neq n NULL)) by (eapply Hnull; [done|set_solver]).
    destruct (sim_unlink h s Hrep l [] n xs) as (h' & -> & ?); eauto.
  - unfold clist_unlink_head. rewrite (clist_head_ring _ _ []) by (done || apply Hrep). cbn. eauto.
  - unfold clist_unlink_tail. rewrite (clist_tail_ring _ _ (xs ++ [n])) by done. rewrite last_last. cbn.
    rewrite (proj2 (Z.eqb_neq n NULL)) by (eapply Hnull; [done|set_solver]).
    destruct (sim_unlink h s Hrep l xs n []) as (h' & -> & ?); [done|]. rewrite app_nil_r in *. eauto.
  - unfold clist_unlink_tail. rewrite (clist_tail_ring _ _ []) by done. cbn. eauto.
  - rewrite (sim_is_linked h s Hrep l xs) by done. cbn. eauto.
  - destruct (rep_spare _ _ Hrep _ _ H) as (_ & Hn & _). specialize (Hn eq_refl).
    unfold clist_is_linked, load_next. rewrite Hn. cbn. eauto.
Qed.

(** A sequence of calls, collecting their results. *)
Fixpoint execs (h : heap) (os : list clist_op) : outcome (heap * list Z) :=
  match os with
  | [] => Ok (h, [])
  | o :: os => '(h, r) ← exec h o; '(h, rs) ← execs h os; Ok (h, r :: rs)
  end.

Inductive specs : lists -> list clist_op -> lists -> list Z -> Prop :=
| specs_nil s : specs s [] s []
| specs_cons s o s1 r os s2 rs : spec s o s1 r -> specs s1 os s2 rs -> specs s (o :: os) s2 (r :: rs).

(** C14: Any sequence of calls of the functions of [clists.h] that the
    abstract lists allow runs without an invalid pointer, returns the
    results the abstract lists give (the first or last node or NULL, the
    neighbours, the size, emptiness, the removed node, whether a node is
    linked) and leaves a heap that represents the resulting lists: nodes
    are inserted and removed where the call says, lists are joined, moved
    and emptied, and all other lists are unchanged. *)
Theorem clist_refines h s os s' rs :
  rep h s -> specs s os s' rs -> exists h', execs h os = Ok (h', rs) /\ rep h' s'.
Proof.
  intros Hrep Hs. revert h Hrep. induction Hs as [s|s o s1 r os s2 rs Ho Hs IH]; intros h Hrep; cbn; [eauto|].
  destruct (exec_spec h s o s1 r Hrep Ho) as (h1 & -> & H1). cbn.
  destruct (IH h1 H1) as (h2 & -> & H2). cbn. eauto.
Qed.

(** Two list heads and three nodes, none of them in a list yet. *)
Definition sample_heap : heap := list_to_map ((fun p => (p, Cnode NULL NULL)) <$> [10; 20; 1; 2; 3]).
Definition sample_lists : lists := Lists ∅ (list_to_map ((fun p => (p, true)) <$> [10; 20; 1; 2; 3])).

Lemma sample_rep : rep sample_heap sample_lists.
Proof.
  split; cbn [sample_lists al spare]; [done | by intros ?? H | by intros ????? H |].
  intros n m Hm. apply elem_of_list_to_map_2, list_elem_of_fmap in Hm as (p & [= -> ->] & Hp).
  split; [|split; [|by intros ?? H]].
  - repeat (apply elem_of_cons in Hp as [->|Hp]; [by eexists|]). set_solver.
  - intros _. repeat (apply elem_of_cons in Hp as [->|Hp]; [done|]). set_solver.
Qed.

Definition sample_calls : list clist_op :=
  [Init 10; Init 20; AddTail 10 1; AddTail 10 2; AddHead 10 3; RemoveHead 10; AddTail 20 3;
   AddListTail 20 10; Size_ 20; Unlink 1; IsLinked 1; Tail 20; Empty_ 10].

Lemma sample_calls_spec :
  exists s', specs sample_lists sample_calls s' [0; 0; 0; 0; 0; 3; 0; 0; 3; 0; 0; 2; 1] /\
    s'.(al) !! 20 = Some [3; 2] /\ s'.(al) !! 10 = Some [].
Proof.
  eexists. split.
  - eapply specs_cons; [apply sp_init; by right; eexists|].
    eapply specs_cons; [apply sp_init; by right; eexists|].
    eapply specs_cons; [eapply sp_add_tail; [by eexists|reflexivity]|].
    eapply specs_cons; [eapply sp_add_tail; [by eexists|reflexivity]|].
    eapply specs_cons; [eapply sp_add_head; [by eexists|reflexivity]|].
    eapply specs_cons; [eapply sp_remove_head; reflexivity|].
    eapply specs_cons; [eapply sp_add_tail; [by eexists|reflexivity]|].
    eapply specs_cons; [eapply sp_add_list_tail; [reflexivity|reflexivity|done]|].
    eapply specs_cons; [eapply (sp_size _ 20 [3; 1; 2]); reflexivity|].
    eapply specs_cons; [eapply (sp_unlink _ 20 [3] 1 [2]); reflexivity|].
    eapply specs_cons; [eapply sp_unlinked; reflexivity|].
    eapply specs_cons; [eapply (sp_tail _ 20 [3; 2]); reflexivity|].
    eapply specs_cons; [eapply (sp_empty _ 10 []); reflexivity|].
    apply specs_nil.
  - split; reflexivity.
Qed.

Lemma clist_refines_witness :
  exists h s', execs sample_heap sample_calls = Ok (h, [0; 0; 0; 0; 0; 3; 0; 0; 3; 0; 0; 2; 1]) /\
    rep h s' /\ s'.(al) !! 20 = Some [3; 2].
Proof.
  destruct sample_calls_spec as (s' & Hs & H20 & _).
  destruct (clist_refines _ _ _ _ _ sample_rep Hs) as (h & Hh & Hr). eauto.
Defined.

(** Freeing the nodes of a list while walking it. *)
Definition free_node (freed : list Z) (h : heap) (n : Z) : outcome (list Z * heap) :=
  Ok (freed ++ [n], delete n h).

Lemma walk_delsafe_spec_witness :
  let h := <[10 := Cnode 1 2]> (<[1 := Cnode 2 10]> {[2 := Cnode 10 1]}) in
  CLIST_FOR_EACH_DELSAFE free_node h 10 [] = Ok ([1; 2], {[10 := Cnode 1 2]}).
Proof.
  intros h. rewrite (walk_delsafe_spec free_node h 10 [1; 2] []).
  - reflexivity.
  - intros a h0 n a' h' [= <- <-] m Hm. by apply lookup_delete_ne.
  - split; [repeat constructor; set_solver|]. repeat split.
Defined.
