(* ===== verification/ArraySort.v ===== *)
(** * The array sorter and binary search of libucw

    libucw/ucw/sorter/array-simple.h, as included by conf-section.c, and
    binsearch.h.  The sorter is a quicksort with an explicit stack of 32
    ranges that leaves short ranges alone, followed by an insertion sort that
    has no bounds check: a minimum moved to the front stops it.  The indices
    are of type [int], whose overflow is undefined; every access and the
    stack are checked. *)

From stdpp Require Import base numbers list sorting.
From S2P Require Import Prelude.

(** ** The sorter *)

Section sorter.
Context {K : Type} (ASORT_LT : K -> K -> bool).

Definition ASORT_THRESHOLD : Z := 8.

(** The number of entries of [stack]: [8*sizeof(uint)]. *)
Definition ASORT_STACK : nat := 32.

Definition ASORT_ELT (array : list K) (i : Z) : outcome K :=
  if i <? 0 then Fail UndefinedBehaviour else deref (array !! Z.to_nat i).

Definition ASORT_SWAP (array : list K) (i j : Z) : outcome (list K) :=
  x ← ASORT_ELT array i;
  y ← ASORT_ELT array j;
  Ok (<[Z.to_nat j := x]> (<[Z.to_nat i := y]> array)).

(** [if (ASORT_LT(ASORT_ELT(i), ASORT_ELT(j)))]. *)
Definition elt_lt (array : list K) (i j : Z) : outcome bool :=
  x ← ASORT_ELT array i;
  y ← ASORT_ELT array j;
  Ok (ASORT_LT x y).

(** The three elements at [l], [m] and [r] are put in order. *)
Definition median_of_three (array : list K) (l m r : Z) : outcome (list K) :=
  c ← elt_lt array m l;
  array ← (if (c : bool) then ASORT_SWAP array l m else Ok array);
  c ← elt_lt array r m;
  if (c : bool) then
    array ← ASORT_SWAP array m r;
    c ← elt_lt array m l;
    if (c : bool) then ASORT_SWAP array l m else Ok array
  else Ok array.

(** [while (ASORT_LT(ASORT_ELT(l), pivot)) l++]. *)
Fixpoint scan_up (fuel : nat) (array : list K) (pivot : K) (l : Z) : outcome Z :=
  match fuel with
  | O => Fail OutOfFuel
  | S fuel =>
      x ← ASORT_ELT array l;
      if ASORT_LT x pivot then l ← i32 (l + 1); scan_up fuel array pivot l else Ok l
  end.

(** [while (ASORT_LT(pivot, ASORT_ELT(r))) r--]. *)
Fixpoint scan_down (fuel : nat) (array : list K) (pivot : K) (r : Z) : outcome Z :=
  match fuel with
  | O => Fail OutOfFuel
  | S fuel =>
      x ← ASORT_ELT array r;
      if ASORT_LT pivot x then r ← i32 (r - 1); scan_down fuel array pivot r else Ok r
  end.

(** One turn of the partitioning loop after the scans. *)
Definition exchange (array : list K) (l r : Z) : outcome (list K * Z * Z) :=
  if l <? r then
    array ← ASORT_SWAP array l r;
    l ← i32 (l + 1); r ← i32 (r - 1);
    Ok (array, l, r)
  else if l =? r then
    l ← i32 (l + 1); r ← i32 (r - 1);
    Ok (array, l, r)
  else Ok (array, l, r).

(** The partitioning loop, [do ... while (l <= r)]. *)
Fixpoint partition_loop (fuel : nat) (array : list K) (pivot : K) (l r : Z) : outcome (list K * Z * Z) :=
  match fuel with
  | O => Fail OutOfFuel
  | S fuel =>
      l ← scan_up (S (length array)) array pivot l;
      r ← scan_down (S (length array)) array pivot r;
      '(array, l, r) ← exchange array l r;
      if l <=? r then partition_loop fuel array pivot l r else Ok (array, l, r)
  end.

(** One range is partitioned around its median of three. *)
Definition partition (array : list K) (left right : Z) : outcome (list K * Z * Z) :=
  s ← i32 (left + right);
  let m := s ÷ 2 in
  array ← median_of_three array left m right;
  pivot ← ASORT_ELT array m;
  partition_loop (S (length array)) array pivot left right.

(** [stack[sp].l = l; stack[sp].r = r; sp++]; the top of the stack first. *)
Definition push (l r : Z) (stack : list (Z * Z)) : outcome (list (Z * Z)) :=
  if (ASORT_STACK <=? length stack)%nat then Fail UndefinedBehaviour else Ok ((l, r) :: stack).

(** The quicksort phase. *)
Fixpoint quicksort (fuel : nat) (array : list K) (left right : Z) (stack : list (Z * Z)) : outcome (list K) :=
  match fuel with
  | O => Fail OutOfFuel
  | S fuel =>
      '(array, l, r) ← partition array left right;
      if (ASORT_THRESHOLD <=? r - left) && (ASORT_THRESHOLD <=? right - l) then
        if right - l <? r - left then
          stack ← push left r stack; quicksort fuel array l right stack
        else
          stack ← push l right stack; quicksort fuel array left r stack
      else if ASORT_THRESHOLD <=? r - left then quicksort fuel array left r stack
      else if ASORT_THRESHOLD <=? right - l then quicksort fuel array l right stack
      else
        match stack with
        | [] => Ok array
        | (sl, sr) :: stack => quicksort fuel array sl sr stack
        end
  end.

(** [for (l=1; l<r; l++) if (ASORT_LT(ASORT_ELT(l),ASORT_ELT(m))) m = l], with
    [n] turns to go. *)
Fixpoint find_minimum (n : nat) (array : list K) (l m : Z) : outcome Z :=
  match n with
  | O => Ok m
  | S n =>
      c ← elt_lt array l m;
      find_minimum n array (l + 1) (if (c : bool) then l else m)
  end.

(** [while (ASORT_LT(ASORT_ELT(m),ASORT_ELT(l-1))) l--]. *)
Fixpoint insert_position (fuel : nat) (array : list K) (m l : Z) : outcome Z :=
  match fuel with
  | O => Fail OutOfFuel
  | S fuel =>
      c ← elt_lt array m (l - 1);
      if (c : bool) then insert_position fuel array m (l - 1) else Ok l
  end.

(** [while (l < m) { ASORT_SWAP(l,m); l++; }], with [n] turns to go. *)
Fixpoint rotate (n : nat) (array : list K) (l m : Z) : outcome (list K) :=
  match n with
  | O => Ok array
  | S n => array ← ASORT_SWAP array l m; rotate n array (l + 1) m
  end.

(** The insertion sort, with [n] turns to go. *)
Fixpoint insertion_sort (n : nat) (array : list K) (m : Z) : outcome (list K) :=
  match n with
  | O => Ok array
  | S n =>
      l ← insert_position (S (length array)) array m m;
      array ← rotate (Z.to_nat (m - l)) array l m;
      insertion_sort n array (m + 1)
  end.

(** [ASORT_PREFIX(sort)]; the fuel of the quicksort is the number of
    elements, since every turn of it splits a range. *)
Definition asort (array : list K) (array_size : Z) : outcome (list K) :=
  if array_size <=? 1 then Ok array
  else
    right ← i32 (array_size - 1);
    array ← quicksort (Z.to_nat array_size) array 0 right [];
    let r := MIN array_size ASORT_THRESHOLD in
    m ← find_minimum (Z.to_nat (r - 1)) array 1 0;
    array ← ASORT_SWAP array 0 m;
    insertion_sort (Z.to_nat (array_size - 1)) array 1.

(** ** Binary search *)

(** [BIN_SEARCH_FIRST_GE_CMP(ary,N,x,ary_lt_x)]; the fuel is the length of
    the range, which at least halves. *)
Fixpoint bin_search_loop (fuel : nat) (ary : list K) (x : K) (l r : Z) : outcome Z :=
  match fuel with
  | O => Fail OutOfFuel
  | S fuel =>
      if l <? r then
        let m := u32 (l + r) / 2 in
        y ← ASORT_ELT ary m;
        if ASORT_LT y x then bin_search_loop fuel ary x (u32 (m + 1)) r
        else bin_search_loop fuel ary x l m
      else Ok l
  end.

Definition BIN_SEARCH_FIRST_GE_CMP (ary : list K) (N : Z) (x : K) : outcome Z :=
  bin_search_loop (S (Z.to_nat N)) ary x 0 N.

End sorter.

(** ** Positions of an array *)

Section sorted.
Context {K : Type} (lt : K -> K -> bool).

(** The comparison is a strict weak order. *)
Class StrictWeakOrder : Prop := {
  lt_asym x y : lt x y = true -> lt y x = false;
  le_trans x y z : lt y x = false -> lt z y = false -> lt z x = false;
}.

Definition le (x y : K) : Prop := lt y x = false.

Definition at_pos (a : list K) (i : Z) (x : K) : Prop := 0 <= i /\ a !! Z.to_nat i = Some x.

(** [a'] is [a] with the positions from [lo] to [hi] rearranged. *)
Record within (lo hi : Z) (a a' : list K) : Prop := {
  within_perm : a' ≡ₚ a;
  within_out i x : ~ (lo <= i <= hi) -> at_pos a' i x <-> at_pos a i x;
  within_in i x : lo <= i <= hi -> at_pos a' i x -> exists j, lo <= j <= hi /\ at_pos a j x;
}.

Context `{SWO : StrictWeakOrder}.

Lemma le_refl x : le x x.
Proof. unfold le. destruct (lt x x) eqn:E; [|done]. by rewrite (lt_asym x x) in E. Qed.

Lemma lt_le x y : lt x y = true -> le x y.
Proof. apply lt_asym. Qed.

Lemma le_tr x y z : le x y -> le y z -> le x z.
Proof. apply le_trans. Qed.

Lemma at_pos_fun a i x y : at_pos a i x -> at_pos a i y -> x = y.
Proof. intros [_ H1] [_ H2]. congruence. Qed.

Lemma at_pos_lt a i x : at_pos a i x -> 0 <= i < Z.of_nat (length a).
Proof. intros [H0 H]. apply lookup_lt_Some in H. lia. Qed.

Lemma at_pos_ex a i : 0 <= i < Z.of_nat (length a) -> exists x, at_pos a i x.
Proof. intros H. destruct (lookup_lt_is_Some_2 a (Z.to_nat i)) as [x Hx]; [lia|]. exists x. by split; [lia|]. Qed.

Lemma elt_at a i x : at_pos a i x -> ASORT_ELT a i = Ok x.
Proof. intros [H0 H]. unfold ASORT_ELT. by rewrite (proj2 (Z.ltb_ge i 0)), H by done. Qed.

Lemma within_refl lo hi a : within lo hi a a.
Proof. split; [done|done|eauto]. Qed.

Lemma within_trans lo hi a b c : within lo hi a b -> within lo hi b c -> within lo hi a c.
Proof.
  intros [P1 O1 I1] [P2 O2 I2]. split; [by rewrite P2| |].
  - intros i x Hi. by rewrite O2, O1.
  - intros i x Hi Hx. destruct (I2 i x Hi Hx) as (j & Hj & Hx'). by apply (I1 j).
Qed.

Lemma within_mono lo hi lo' hi' a a' : lo' <= lo -> hi <= hi' -> within lo hi a a' -> within lo' hi' a a'.
Proof.
  intros H1 H2 [P O I]. split; [done| |].
  - intros i x Hi. apply O. lia.
  - intros i x Hi Hx. destruct (decide (lo <= i <= hi)) as [Hin|Hout].
    + destruct (I i x Hin Hx) as (j & Hj & ?). exists j. split; [lia|done].
    + exists i. split; [lia|by apply O].
Qed.

Lemma within_length lo hi a a' : within lo hi a a' -> length a' = length a.
Proof. intros []. by apply Permutation_length. Qed.

(** What holds of all elements of a range holds after rearranging it. *)
Lemma within_forall lo hi lo' hi' (P : K -> Prop) a a' :
  within lo hi a a' -> lo' <= lo -> hi <= hi' ->
  (forall i x, lo' <= i <= hi' -> at_pos a i x -> P x) ->
  forall i x, lo' <= i <= hi' -> at_pos a' i x -> P x.
Proof.
  intros W H1 H2 H i x Hi Hx. destruct (within_in _ _ _ _ (within_mono _ _ lo' hi' _ _ H1 H2 W) i x Hi Hx) as (j & Hj & Hx').
  by apply (H j).
Qed.

Lemma swap_perm (a : list K) i j x y : a !! i = Some x -> a !! j = Some y -> <[j:=x]> (<[i:=y]> a) ≡ₚ a.
Proof.
  intros Hi Hj. apply Permutation_inj. split; [by rewrite !length_insert|].
  exists (fun k => if decide (k = i) then j else if decide (k = j) then i else k). split.
  - intros k k'. repeat case_decide; congruence.
  - intros k. apply lookup_lt_Some in Hi as Hi', Hj as Hj'. destruct (decide (k = j)) as [->|Hkj].
    + rewrite list_lookup_insert_eq by (by rewrite length_insert). repeat case_decide; congruence.
    + rewrite list_lookup_insert_ne by done. destruct (decide (k = i)) as [->|Hki].
      * rewrite list_lookup_insert_eq by done. congruence.
      * by rewrite list_lookup_insert_ne.
Qed.

(** A swap, and the two elements after it. *)
Lemma swap_ok a i j x y : at_pos a i x -> at_pos a j y ->
  exists a', ASORT_SWAP a i j = Ok a' /\ within (Z.min i j) (Z.max i j) a a' /\
    at_pos a' i y /\ at_pos a' j x /\
    (forall k z, k <> i -> k <> j -> at_pos a' k z <-> at_pos a k z).
Proof.
  intros Hi Hj. pose proof (at_pos_lt _ _ _ Hi). pose proof (at_pos_lt _ _ _ Hj).
  unfold ASORT_SWAP. rewrite (elt_at _ _ _ Hi), (elt_at _ _ _ Hj). cbn.
  destruct Hi as [Hi0 Hi], Hj as [Hj0 Hj].
  assert (Hk : forall k z, k <> i -> k <> j ->
    at_pos (<[Z.to_nat j:=x]> (<[Z.to_nat i:=y]> a)) k z <-> at_pos a k z).
  { intros k z Hki Hkj. unfold at_pos. split; intros [Hk0 Hk]; (split; [done|]).
    - by rewrite !list_lookup_insert_ne in Hk by lia.
    - by rewrite !list_lookup_insert_ne by lia. }
  assert (Hj' : at_pos (<[Z.to_nat j:=x]> (<[Z.to_nat i:=y]> a)) j x).
  { split; [done|]. rewrite list_lookup_insert_eq; [done|]. rewrite length_insert. lia. }
  assert (Hi' : at_pos (<[Z.to_nat j:=x]> (<[Z.to_nat i:=y]> a)) i y).
  { split; [done|]. destruct (decide (i = j)) as [->|Hne].
    - rewrite list_lookup_insert_eq by (rewrite length_insert; lia). congruence.
    - rewrite list_lookup_insert_ne, list_lookup_insert_eq by lia. done. }
  eexists. split; [done|]. split; [|done]. split.
  - by apply swap_perm.
  - intros k z Hk'. apply Hk; lia.
  - intros k z Hk' Hz. destruct (decide (k = i)) as [->|]; [|destruct (decide (k = j)) as [->|]].
    + exists j. split; [lia|]. rewrite (at_pos_fun _ _ _ _ Hz Hi'). done.
    + exists i. split; [lia|]. rewrite (at_pos_fun _ _ _ _ Hz Hj'). done.
    + exists k. split; [done|]. by apply Hk.
Qed.

Lemma elt_lt_ok a i j x y : at_pos a i x -> at_pos a j y -> elt_lt lt a i j = Ok (lt x y).
Proof. intros Hi Hj. unfold elt_lt. by rewrite (elt_at _ _ _ Hi), (elt_at _ _ _ Hj). Qed.

(** A conditional swap stays inside a range. *)
Lemma cond_swap_ok lo hi a i j k k' : 0 <= lo -> hi < Z.of_nat (length a) ->
  lo <= i <= hi -> lo <= j <= hi -> lo <= k <= hi -> lo <= k' <= hi ->
  exists c, elt_lt lt a k k' = Ok c /\
  exists a', (if (c : bool) then ASORT_SWAP a i j else Ok a) = Ok a' /\ within lo hi a a'.
Proof.
  intros H0 H1 Hi Hj Hk Hk'.
  destruct (at_pos_ex a k) as [z Hz]; [lia|]. destruct (at_pos_ex a k') as [z' Hz']; [lia|].
  rewrite (elt_lt_ok _ _ _ _ _ Hz Hz'). eexists. split; [done|]. destruct (lt z z').
  - destruct (at_pos_ex a i) as [x Hx]; [lia|]. destruct (at_pos_ex a j) as [y Hy]; [lia|].
    destruct (swap_ok a i j x y Hx Hy) as (a' & -> & W & _). exists a'. split; [done|].
    apply (within_mono _ _ _ _ _ _) with (3 := W); lia.
  - exists a. split; [done|]. apply within_refl.
Qed.

Lemma median_ok a l m r : 0 <= l -> l <= m <= r -> r < Z.of_nat (length a) ->
  exists a', median_of_three lt a l m r = Ok a' /\ within l r a a'.
Proof.
  intros H0 Hm Hr. unfold median_of_three.
  destruct (cond_swap_ok l r a l m m l) as (c1 & -> & a1 & E1 & W1); [lia..|]. rewrite bind_Ok, E1, bind_Ok.
  pose proof (within_length _ _ _ _ W1) as L1.
  destruct (cond_swap_ok l r a1 m r r m) as (c2 & -> & a2 & E2 & W2); [lia..|]. rewrite bind_Ok.
  pose proof (within_length _ _ _ _ W2) as L2.
  destruct c2; [|eexists; split; [done|]; by injection E2 as <-].
  rewrite E2, bind_Ok.
  destruct (cond_swap_ok l r a2 l m m l) as (c3 & -> & a3 & E3 & W3); [lia..|]. rewrite bind_Ok, E3.
  eexists. split; [done|]. by apply (within_trans _ _ _ a1), (within_trans _ _ _ a2).
Qed.

(** The scans stop at the latest at an element that is not smaller (larger)
    than the pivot. *)
Lemma scan_up_ok fuel a pivot l s z :
  0 <= l <= s -> s <= INT32_MAX -> at_pos a s z -> le pivot z -> (Z.to_nat (s - l) < fuel)%nat ->
  exists l' x, scan_up lt fuel a pivot l = Ok l' /\ l <= l' <= s /\ at_pos a l' x /\ le pivot x /\
    (forall i y, l <= i < l' -> at_pos a i y -> le y pivot).
Proof.
  revert l; induction fuel as [|fuel IH]; intros l Hl Hs Hz Hp Hf; [lia|]. cbn [scan_up].
  destruct (at_pos_ex a l) as [x Hx]; [apply at_pos_lt in Hz; lia|]. rewrite (elt_at _ _ _ Hx), bind_Ok.
  destruct (lt x pivot) eqn:E.
  - assert (l <> s) by (intros ->; rewrite (at_pos_fun _ _ _ _ Hz Hx) in Hp; unfold le in Hp; congruence).
    rewrite i32_in, bind_Ok by (unfold INT32_MIN; lia).
    destruct (IH (l + 1)) as (l' & x' & -> & Hl' & Hx' & Hp' & Hall); [lia..|done|done|lia|].
    exists l', x'. split; [done|]. split; [lia|]. split; [done|]. split; [done|]. intros i y Hi Hy.
    destruct (decide (i = l)) as [->|]; [|apply (Hall i); [lia|done]].
    rewrite (at_pos_fun _ _ _ _ Hy Hx). by apply lt_le.
  - exists l, x. repeat split; try done; try lia; try apply Hx.
Qed.

Lemma scan_down_ok fuel a pivot r s z :
  0 <= s <= r -> r < Z.of_nat (length a) -> r <= INT32_MAX -> at_pos a s z -> le z pivot ->
  (Z.to_nat (r - s) < fuel)%nat ->
  exists r' x, scan_down lt fuel a pivot r = Ok r' /\ s <= r' <= r /\ at_pos a r' x /\ le x pivot /\
    (forall i y, r' < i <= r -> at_pos a i y -> le pivot y).
Proof.
  revert r; induction fuel as [|fuel IH]; intros r Hr Hlen Hs Hz Hp Hf; [lia|]. cbn [scan_down].
  destruct (at_pos_ex a r) as [x Hx]; [lia|]. rewrite (elt_at _ _ _ Hx), bind_Ok.
  destruct (lt pivot x) eqn:E.
  - assert (r <> s) by (intros ->; rewrite (at_pos_fun _ _ _ _ Hz Hx) in Hp; unfold le in Hp; congruence).
    rewrite i32_in, bind_Ok by (unfold INT32_MIN; lia).
    destruct (IH (r - 1)) as (r' & x' & -> & Hr' & Hx' & Hp' & Hall); [lia..|done|done|lia|].
    exists r', x'. split; [done|]. split; [lia|]. split; [done|]. split; [done|]. intros i y Hi Hy.
    destruct (decide (i = r)) as [->|]; [|apply (Hall i); [lia|done]].
    rewrite (at_pos_fun _ _ _ _ Hy Hx). by apply lt_le.
  - exists r, x. repeat split; try done; try lia; try apply Hx.
Qed.

(** A range whose part before [l] is at most [pivot] and whose part after [r]
    is at least [pivot]. *)
Record split_at (lo hi : Z) (pivot : K) (l r : Z) (a : list K) : Prop := {
  split_low i x : lo <= i < l -> at_pos a i x -> le x pivot;
  split_high i x : r < i <= hi -> at_pos a i x -> le pivot x;
}.

(** The invariant of the partitioning loop, with the elements that stop the
    scans. *)
Record partition_inv (lo hi : Z) (pivot : K) (l r : Z) (a : list K) : Prop := {
  pi_split : split_at lo hi pivot l r a;
  pi_bounds : lo <= l /\ l <= r /\ r <= hi;
  pi_scan : exists s z s' z', l <= s <= hi /\ at_pos a s z /\ le pivot z /\
    lo <= s' <= r /\ at_pos a s' z' /\ le z' pivot /\ (s = s' \/ lo < l /\ r < hi);
}.

(** After the scans either the loop goes on with its invariant or the range is
    split into two shorter parts. *)
Lemma exchange_ok lo hi pivot a l r x y :
  0 <= lo -> hi < Z.of_nat (length a) -> hi < INT32_MAX -> lo <= l <= hi -> lo <= r <= hi ->
  split_at lo hi pivot l r a -> at_pos a l x -> le pivot x -> at_pos a r y -> le y pivot ->
  l <= r \/ lo < l /\ r < hi ->
  exists a' l' r', exchange a l r = Ok (a', l', r') /\ within lo hi a a' /\ l' - r' >= Z.min 1 (l - r + 2) /\
    lo < l' <= hi + 1 /\ lo - 1 <= r' < hi /\ split_at lo hi pivot l' r' a' /\
    (l' <= r' -> partition_inv lo hi pivot l' r' a').
Proof.
  intros H0 Hlen Hmax Hl Hr [SL SH] Hx Hpx Hy Hpy Hprog. unfold exchange.
  destruct (Z.ltb_spec l r); [|destruct (Z.eqb_spec l r)].
  - destruct (swap_ok a l r x y Hx Hy) as (a' & -> & W & Hl' & Hr' & Ho). rewrite bind_Ok, !i32_in, !bind_Ok
      by (unfold INT32_MIN; lia).
    assert (S' : split_at lo hi pivot (l + 1) (r - 1) a').
    { split; intros i z Hi Hz.
      - destruct (decide (i = l)) as [->|]; [by rewrite (at_pos_fun _ _ _ _ Hz Hl')|].
        apply (SL i); [lia|]. apply Ho; [lia..|done].
      - destruct (decide (i = r)) as [->|]; [by rewrite (at_pos_fun _ _ _ _ Hz Hr')|].
        apply (SH i); [lia|]. apply Ho; [lia..|done]. }
    do 3 eexists. split; [done|]. split; [apply (within_mono _ _ _ _ _ _) with (3 := W); lia|].
    repeat split; try lia; try apply S'.
    exists r, x, l, y. repeat split; try lia; try done; [apply Hr'|apply Hl'].
  - subst r. rewrite !i32_in, !bind_Ok by (unfold INT32_MIN; lia).
    rewrite (at_pos_fun _ _ _ _ Hy Hx) in Hpy.
    do 3 eexists. split; [done|]. split; [apply within_refl|]. split; [lia|]. split; [lia|]. split; [lia|].
    split; [|lia]. split; intros i z Hi Hz.
    + destruct (decide (i = l)) as [->|]; [by rewrite (at_pos_fun _ _ _ _ Hz Hx)|]. apply (SL i); [lia|done].
    + destruct (decide (i = l)) as [->|]; [by rewrite (at_pos_fun _ _ _ _ Hz Hx)|]. apply (SH i); [lia|done].
  - do 3 eexists. split; [done|]. split; [apply within_refl|]. repeat split; (lia || done).
Qed.

Lemma partition_loop_ok fuel lo hi pivot a l r :
  0 <= lo -> hi < Z.of_nat (length a) -> hi < INT32_MAX -> partition_inv lo hi pivot l r a ->
  (Z.to_nat (r - l) < fuel)%nat ->
  exists a' l' r', partition_loop lt fuel a pivot l r = Ok (a', l', r') /\ within lo hi a a' /\
    r' < l' /\ lo < l' <= hi + 1 /\ lo - 1 <= r' < hi /\ split_at lo hi pivot l' r' a'.
Proof.
  revert a l r; induction fuel as [|fuel IH]; intros a l r H0 Hlen Hmax [[SL SH] Hb Hs] Hf; [lia|].
  destruct Hs as (s & z & s' & z' & Hs & Hz & Hpz & Hs' & Hz' & Hpz' & Hprog). cbn [partition_loop].
  destruct (scan_up_ok (S (length a)) a pivot l s z) as (l1 & x & -> & Hl1 & Hx & Hpx & Hup); [lia..|done|done|lia|].
  rewrite bind_Ok.
  destruct (scan_down_ok (S (length a)) a pivot r s' z') as (r1 & y & -> & Hr1 & Hy & Hpy & Hdown); [lia..|done|done|lia|].
  rewrite bind_Ok.
  destruct (exchange_ok lo hi pivot a l1 r1 x y) as (a' & l' & r' & -> & W & Hlr & Hl' & Hr' & S' & Hinv); try done; try lia.
  { split; intros i w Hi Hw.
    - destruct (decide (i < l)); [apply (SL i)|apply (Hup i)]; (lia || done).
    - destruct (decide (r < i)); [apply (SH i)|apply (Hdown i)]; (lia || done). }
  rewrite bind_Ok. destruct (Z.leb_spec l' r') as [Hle|Hgt].
  - rewrite <- (within_length _ _ _ _ W) in Hlen.
    destruct (IH a' l' r') as (a2 & l2 & r2 & E & W2 & Hrest); [done..|by apply Hinv|lia|].
    exists a2, l2, r2. split; [done|]. split; [by apply (within_trans _ _ _ a')|done].
  - exists a', l', r'. do 5 (split; [done|]). done.
Qed.

Lemma partition_ok a left right :
  0 <= left -> left < right -> right < Z.of_nat (length a) -> right < 2 ^ 30 ->
  exists pivot a' l r, partition lt a left right = Ok (a', l, r) /\ within left right a a' /\
    r < l /\ left < l <= right + 1 /\ left - 1 <= r < right /\ split_at left right pivot l r a'.
Proof.
  intros H0 Hlr Hlen Hmax. unfold partition. rewrite i32_in, bind_Ok by (unfold INT32_MIN, INT32_MAX; lia).
  assert (Hm : left <= (left + right) ÷ 2 <= right) by (rewrite Z.quot_div_nonneg by lia; div_lia).
  set (m := (left + right) ÷ 2) in *.
  destruct (median_ok a left m right) as (a1 & -> & W1); [lia..|]. rewrite bind_Ok.
  rewrite <- (within_length _ _ _ _ W1) in Hlen.
  destruct (at_pos_ex a1 m) as [pivot Hp]; [lia|]. rewrite (elt_at _ _ _ Hp), bind_Ok.
  destruct (partition_loop_ok (S (length a1)) left right pivot a1 left right)
    as (a' & l & r & E & W2 & Hrest); [done|done|unfold INT32_MAX; lia| |lia|].
  - split; [|lia|].
    + split; intros i x Hi; lia.
    + exists m, pivot, m, pivot. pose proof (le_refl pivot). repeat split; try lia; try done; apply Hp.
  - exists pivot, a', l, r. split; [done|]. split; [by apply (within_trans _ _ _ a1)|done].
Qed.

(** ** The quicksort phase *)

(** Elements at least a threshold apart are in order. *)
Definition block_sorted (lo hi : Z) (a : list K) : Prop :=
  forall i j x y, lo <= i -> i + ASORT_THRESHOLD <= j -> j <= hi -> at_pos a i x -> at_pos a j y -> le x y.

Lemma block_sorted_short lo hi a : hi - lo < ASORT_THRESHOLD -> block_sorted lo hi a.
Proof. intros H i j x y ???. lia. Qed.

(** Rearranging another range keeps a range in order. *)
Lemma block_sorted_other lo hi lo' hi' a a' :
  hi < lo' \/ hi' < lo -> within lo' hi' a a' -> block_sorted lo hi a -> block_sorted lo hi a'.
Proof.
  intros Hd W H i j x y Hi Hij Hj Hx Hy. unfold ASORT_THRESHOLD in *.
  apply (within_out _ _ _ _ W) in Hx, Hy; [|lia..]. by apply (H i j).
Qed.

(** Rearranging the parts of a split range keeps it split. *)
Lemma split_at_low lo hi pivot l r a a' :
  r < l -> within lo r a a' -> split_at lo hi pivot l r a -> split_at lo hi pivot l r a'.
Proof.
  intros Hlr W [SL SH]. split; intros i x Hi Hx.
  - apply (within_forall lo r lo (l - 1) (fun x => le x pivot) a a' W) with i; [lia|lia| |lia|done].
    intros j y Hj. apply SL. lia.
  - apply (SH i); [done|]. apply (within_out _ _ _ _ W); [lia|done].
Qed.

Lemma split_at_high lo hi pivot l r a a' :
  r < l -> within l hi a a' -> split_at lo hi pivot l r a -> split_at lo hi pivot l r a'.
Proof.
  intros Hlr W [SL SH]. split; intros i x Hi Hx.
  - apply (SL i); [done|]. apply (within_out _ _ _ _ W); [lia|done].
  - apply (within_forall l hi (r + 1) hi (fun x => le pivot x) a a' W) with i; [lia|lia| |lia|done].
    intros j y Hj. apply SH. lia.
Qed.

(** Two parts in order around a pivot are in order together. *)
Lemma block_sorted_join lo hi pivot l r a :
  r < l -> split_at lo hi pivot l r a -> block_sorted lo r a -> block_sorted l hi a -> block_sorted lo hi a.
Proof.
  intros Hlr [SL SH] HL HR i j x y Hi Hij Hj Hx Hy.
  destruct (decide (j <= r)); [by apply (HL i j)|]. destruct (decide (l <= i)); [by apply (HR i j)|].
  unfold ASORT_THRESHOLD in *. apply (le_tr _ pivot); [apply (SL i)|apply (SH j)]; (lia || done).
Qed.

(** What the loop does after a range is done. *)
Definition resume (fuel : nat) (a : list K) (stack : list (Z * Z)) : outcome (list K) :=
  match stack with
  | [] => Ok a
  | (l, r) :: stack => quicksort lt fuel a l r stack
  end.

(** The loop is done with a range after [n] turns: it has put its blocks in
    order and goes on with the stack as it was. *)
Definition range_done (a : list K) (lo hi : Z) (stack : list (Z * Z)) (n : nat) (a' : list K) : Prop :=
  Z.of_nat n <= hi - lo /\ within lo hi a a' /\ block_sorted lo hi a' /\
  forall fuel, quicksort lt (n + fuel) a lo hi stack = resume fuel a' stack.

Lemma push_ok l r stack : (length stack < ASORT_STACK)%nat -> push l r stack = Ok ((l, r) :: stack).
Proof. intros H. unfold push. by rewrite (proj2 (Nat.leb_gt _ _)). Qed.

(** The two parts of a split range, one after the other. *)
Lemma parts_done a1 lo hi pivot l r a2 a3 :
  lo < l <= hi + 1 -> lo - 1 <= r < hi -> r < l -> split_at lo hi pivot l r a1 ->
  (within lo r a1 a2 /\ block_sorted lo r a2 /\ within l hi a2 a3 /\ block_sorted l hi a3 \/
   within l hi a1 a2 /\ block_sorted l hi a2 /\ within lo r a2 a3 /\ block_sorted lo r a3) ->
  within lo hi a1 a3 /\ block_sorted lo hi a3.
Proof.
  intros Hl Hr Hrl S [(W2 & B2 & W3 & B3)|(W2 & B2 & W3 & B3)]; (split;
    [apply (within_trans _ _ _ a2); [apply (within_mono _ _ _ _ _ _) with (3 := W2)|apply (within_mono _ _ _ _ _ _) with (3 := W3)]; lia|]).
  - apply (block_sorted_join lo hi pivot l r); [done| | |done].
    + by apply (split_at_high _ _ _ _ _ a2), (split_at_low _ _ _ _ _ a1).
    + apply (block_sorted_other lo r l hi a2); [lia|done..].
  - apply (block_sorted_join lo hi pivot l r); [done| |done|].
    + by apply (split_at_low _ _ _ _ _ a2), (split_at_high _ _ _ _ _ a1).
    + apply (block_sorted_other l hi lo r a2); [lia|done..].
Qed.

(** One turn of the loop. *)
Lemma quicksort_turn fuel a lo hi stack a1 l r : partition lt a lo hi = Ok (a1, l, r) ->
  quicksort lt (1 + fuel) a lo hi stack =
    (if (ASORT_THRESHOLD <=? r - lo) && (ASORT_THRESHOLD <=? hi - l) then
        if hi - l <? r - lo then
          stack ← push lo r stack; quicksort lt fuel a1 l hi stack
        else
          stack ← push l hi stack; quicksort lt fuel a1 lo r stack
      else if ASORT_THRESHOLD <=? r - lo then quicksort lt fuel a1 lo r stack
      else if ASORT_THRESHOLD <=? hi - l then quicksort lt fuel a1 l hi stack
      else resume fuel a1 stack).
Proof. intros Ep. cbn [quicksort Nat.add]. by rewrite Ep, bind_Ok. Qed.

(** A range of at most [2^k] elements needs [k] free entries of the stack:
    the larger part is pushed, the smaller one has at most half of them. *)
Lemma quicksort_range k a lo hi stack :
  0 <= lo -> lo < hi -> hi < Z.of_nat (length a) -> hi < 2 ^ 30 ->
  hi - lo < 2 ^ Z.of_nat k -> (k + length stack <= ASORT_STACK)%nat ->
  exists n a', range_done a lo hi stack n a'.
Proof.
  remember (Z.to_nat (hi - lo)) as size eqn:Hsize. revert k a lo hi stack Hsize.
  induction (lt_wf size) as [size _ IH]. intros k a lo hi stack -> H0 Hlh Hlen Hmax Hk Hst.
  destruct (partition_ok a lo hi H0 Hlh Hlen Hmax) as (pivot & a1 & l & r & Ep & W & Hrl & Hl & Hr & Sp).
  pose proof (within_length _ _ _ _ W) as Hlen1.
  pose proof (fun fuel => quicksort_turn fuel a lo hi stack a1 l r Ep) as Hstep.
  destruct (Z.leb_spec ASORT_THRESHOLD (r - lo)) as [HL|HL], (Z.leb_spec ASORT_THRESHOLD (hi - l)) as [HR|HR];
    cbn [andb] in Hstep; unfold ASORT_THRESHOLD in HL, HR.
  - assert (exists k', k = S k') as [k' ->].
    { destruct k; [cbn in Hk; lia|eauto]. }
    assert (Hk2 : 2 ^ Z.of_nat (S k') = 2 * 2 ^ Z.of_nat k') by (rewrite Nat2Z.inj_succ, Z.pow_succ_r by lia; done).
    destruct (Z.ltb_spec (hi - l) (r - lo)) as [Hsm|Hsm]; rewrite push_ok in Hstep by lia.
    + destruct (IH (Z.to_nat (hi - l))) with k' a1 l hi ((lo, r) :: stack) as (n1 & a2 & Hn1 & W2 & B2 & E2); try (cbn [length]; lia).
      pose proof (within_length _ _ _ _ W2).
      destruct (IH (Z.to_nat (r - lo))) with (S k') a2 lo r stack as (n2 & a3 & Hn2 & W3 & B3 & E3); try lia.
      destruct (parts_done a1 lo hi pivot l r a2 a3) as [W' B']; try done; [by right|].
      exists (1 + (n1 + n2))%nat, a3. split; [lia|]. split; [by apply (within_trans _ _ _ a1)|]. split; [done|].
      intros fuel. by rewrite <- Nat.add_assoc, Hstep, bind_Ok, <- Nat.add_assoc, E2; cbn [resume].
    + destruct (IH (Z.to_nat (r - lo))) with k' a1 lo r ((l, hi) :: stack) as (n1 & a2 & Hn1 & W2 & B2 & E2); try (cbn [length]; lia).
      pose proof (within_length _ _ _ _ W2).
      destruct (IH (Z.to_nat (hi - l))) with (S k') a2 l hi stack as (n2 & a3 & Hn2 & W3 & B3 & E3); try lia.
      destruct (parts_done a1 lo hi pivot l r a2 a3) as [W' B']; try done; [by left|].
      exists (1 + (n1 + n2))%nat, a3. split; [lia|]. split; [by apply (within_trans _ _ _ a1)|]. split; [done|].
      intros fuel. by rewrite <- Nat.add_assoc, Hstep, bind_Ok, <- Nat.add_assoc, E2; cbn [resume].
  - destruct (IH (Z.to_nat (r - lo))) with k a1 lo r stack as (n2 & a3 & Hn2 & W3 & B3 & E3); try lia.
    destruct (parts_done a1 lo hi pivot l r a1 a3) as [W' B']; try done.
    { right. split_and!; try done; [apply within_refl|by apply block_sorted_short]. }
    exists (1 + n2)%nat, a3. split; [lia|]. split; [by apply (within_trans _ _ _ a1)|]. split; [done|].
    intros fuel. by rewrite <- Nat.add_assoc, Hstep.
  - destruct (IH (Z.to_nat (hi - l))) with k a1 l hi stack as (n2 & a3 & Hn2 & W3 & B3 & E3); try lia.
    destruct (parts_done a1 lo hi pivot l r a1 a3) as [W' B']; try done.
    { left. split_and!; try done; [apply within_refl|by apply block_sorted_short]. }
    exists (1 + n2)%nat, a3. split; [lia|]. split; [by apply (within_trans _ _ _ a1)|]. split; [done|].
    intros fuel. by rewrite <- Nat.add_assoc, Hstep.
  - exists 1%nat, a1. split; [lia|]. split; [done|]. split; [|done].
    apply (block_sorted_join lo hi pivot l r); [done|done|by apply block_sorted_short..].
Qed.

(** ** The insertion sort phase *)

(** [m] is the position of a minimum of the positions from 0 to [n]. *)
Definition minimum_at (a : list K) (n m : Z) : Prop :=
  0 <= m < n /\ exists x, at_pos a m x /\ forall i y, 0 <= i < n -> at_pos a i y -> le x y.

Lemma find_minimum_ok n a l m :
  l + Z.of_nat n <= Z.of_nat (length a) -> minimum_at a l m ->
  exists m', find_minimum lt n a l m = Ok m' /\ minimum_at a (l + Z.of_nat n) m'.
Proof.
  revert l m; induction n as [|n IH]; intros l m Hl Hm; cbn [find_minimum].
  { exists m. by rewrite Z.add_0_r. }
  destruct Hm as (Hm & x & Hx & Hmin). destruct (at_pos_ex a l) as [z Hz]; [lia|].
  rewrite (elt_lt_ok _ _ _ _ _ Hz Hx), bind_Ok.
  destruct (IH (l + 1) (if lt z x then l else m)) as (m' & -> & Hm'); [lia| |].
  - destruct (lt z x) eqn:E; (split; [lia|]).
    + exists z. split; [done|]. intros i y Hi Hy. destruct (decide (i = l)) as [->|].
      * rewrite (at_pos_fun _ _ _ _ Hy Hz). apply le_refl.
      * apply (le_tr _ x); [by apply lt_le|]. apply (Hmin i); [lia|done].
    + exists x. split; [done|]. intros i y Hi Hy. destruct (decide (i = l)) as [->|].
      * by rewrite (at_pos_fun _ _ _ _ Hy Hz).
      * apply (Hmin i); [lia|done].
  - exists m'. split; [done|]. by replace (l + Z.of_nat (S n)) with (l + 1 + Z.of_nat n) by lia.
Qed.

(** The search stops at the latest behind the minimum at the front. *)
Lemma insert_position_ok fuel a m l x z :
  1 <= l <= m -> at_pos a m x -> at_pos a 0 z -> le z x -> (Z.to_nat l <= fuel)%nat ->
  (forall i y, l <= i < m -> at_pos a i y -> le x y) ->
  exists l' y, insert_position lt fuel a m l = Ok l' /\ 1 <= l' <= l /\ at_pos a (l' - 1) y /\ le y x /\
    (forall i y, l' <= i < m -> at_pos a i y -> le x y).
Proof.
  revert l; induction fuel as [|fuel IH]; intros l Hl Hx Hz Hzx Hf Hge; [lia|]. cbn [insert_position].
  destruct (at_pos_ex a (l - 1)) as [y Hy]; [apply at_pos_lt in Hx; lia|].
  rewrite (elt_lt_ok _ _ _ _ _ Hx Hy), bind_Ok. destruct (lt x y) eqn:E.
  - assert (l <> 1) by (intros ->; rewrite (at_pos_fun _ _ _ _ Hz Hy) in Hzx; unfold le in Hzx; congruence).
    destruct (IH (l - 1)) as (l' & y' & -> & Hl' & Hrest); [lia|done..|lia| |].
    + intros i w Hi Hw. destruct (decide (i = l - 1)) as [->|]; [|apply (Hge i); [lia|done]].
      rewrite (at_pos_fun _ _ _ _ Hw Hy). by apply lt_le.
    + exists l', y'. split; [done|]. split; [lia|done].
  - exists l, y. split; [done|]. split; [lia|]. done.
Qed.

(** The element at [m] moves to [l], those from [l] on move by one. *)
Lemma rotate_ok n a l m : 0 <= l -> l + Z.of_nat n = m -> m < Z.of_nat (length a) ->
  exists a', rotate n a l m = Ok a' /\ within l m a a' /\
    (forall x, at_pos a' l x <-> at_pos a m x) /\
    (forall k x, l < k <= m -> at_pos a' k x <-> at_pos a (k - 1) x).
Proof.
  revert a l; induction n as [|n IH]; intros a l H0 Hm Hlen; cbn [rotate].
  { exists a. split; [done|]. split; [apply within_refl|]. replace l with m by lia. split; [done|]. intros; lia. }
  destruct (at_pos_ex a l) as [x Hx]; [lia|]. destruct (at_pos_ex a m) as [y Hy]; [lia|].
  destruct (swap_ok a l m x y Hx Hy) as (a1 & -> & W & Hl1 & Hm1 & Ho). rewrite bind_Ok.
  destruct (IH a1 (l + 1)) as (a' & -> & W' & Hl' & Hk'); [lia..|rewrite (within_length _ _ _ _ W); lia|].
  exists a'. split; [done|]. split_and!.
  - apply (within_trans _ _ _ a1); [apply (within_mono _ _ _ _ _ _) with (3 := W)|apply (within_mono _ _ _ _ _ _) with (3 := W')]; lia.
  - intros z. rewrite (within_out _ _ _ _ W') by lia. split; intros Hz.
    + by rewrite (at_pos_fun _ _ _ _ Hz Hl1).
    + by rewrite (at_pos_fun _ _ _ _ Hz Hy).
  - intros k z Hk. destruct (decide (k = l + 1)) as [->|].
    + rewrite Hl'. replace (l + 1 - 1) with l by lia. split; intros Hz.
      * by rewrite (at_pos_fun _ _ _ _ Hz Hm1).
      * by rewrite (at_pos_fun _ _ _ _ Hz Hx).
    + rewrite Hk' by lia. apply Ho; lia.
Qed.

Definition sorted_upto (a : list K) (n : Z) : Prop :=
  forall i j x y, 0 <= i < j -> j < n -> at_pos a i x -> at_pos a j y -> le x y.

(** Inserting the element at [m] extends the sorted prefix. *)
Lemma insert_sorted a a' l m x y :
  1 <= l <= m -> sorted_upto a m -> at_pos a m x -> at_pos a (l - 1) y -> le y x ->
  (forall i z, l <= i < m -> at_pos a i z -> le x z) ->
  within l m a a' -> (forall z, at_pos a' l z <-> at_pos a m z) ->
  (forall k z, l < k <= m -> at_pos a' k z <-> at_pos a (k - 1) z) ->
  sorted_upto a' (m + 1).
Proof.
  intros Hl Hs Hx Hy Hyx Hge W El Ek i j u v Hij Hj Hu Hv.
  assert (Hbefore : forall k z, k < l -> at_pos a' k z -> at_pos a k z).
  { intros k z Hk. apply (within_out _ _ _ _ W). lia. }
  destruct (Z.lt_trichotomy i l) as [Hi|[->|Hi]].
  - apply Hbefore in Hu; [|done]. destruct (Z.lt_trichotomy j l) as [Hjl|[->|Hjl]].
    + apply Hbefore in Hv; [|done]. apply (Hs i j); (lia || done).
    + apply El in Hv. rewrite (at_pos_fun _ _ _ _ Hv Hx). apply (le_tr _ y); [|done].
      destruct (decide (i = l - 1)) as [->|]; [rewrite (at_pos_fun _ _ _ _ Hu Hy); apply le_refl|].
      apply (Hs i (l - 1)); (lia || done).
    + apply Ek in Hv; [|lia]. apply (Hs i (j - 1)); (lia || done).
  - apply El in Hu. rewrite (at_pos_fun _ _ _ _ Hu Hx). apply Ek in Hv; [|lia]. apply (Hge (j - 1)); (lia || done).
  - apply Ek in Hu, Hv; [|lia..]. apply (Hs (i - 1) (j - 1)); (lia || done).
Qed.

(** A minimum at the front stays there when the rest is rearranged. *)
Lemma minimum_rest a a' lo hi n : 0 < lo -> hi < n -> within lo hi a a' -> minimum_at a n 0 -> minimum_at a' n 0.
Proof.
  intros Hlo Hhi W (Hn & x & Hx & Hmin). split; [lia|]. exists x.
  split; [apply (within_out _ _ _ _ W); [lia|done]|]. intros i y Hi.
  apply (within_forall lo hi 0 (n - 1) (fun y => le x y) a a' W); [lia|lia| |lia].
  intros j z Hj. apply Hmin. lia.
Qed.

Lemma insertion_sort_ok n a m N :
  1 <= m -> m + Z.of_nat n = N -> N <= Z.of_nat (length a) -> sorted_upto a m -> minimum_at a N 0 ->
  exists a', insertion_sort lt n a m = Ok a' /\ within 0 (N - 1) a a' /\ sorted_upto a' N.
Proof.
  revert a m; induction n as [|n IH]; intros a m Hm HN Hlen Hs Hmin; cbn [insertion_sort].
  { exists a. split; [done|]. split; [apply within_refl|]. by replace N with m by lia. }
  destruct Hmin as (H0 & z & Hz & Hmin). destruct (at_pos_ex a m) as [x Hx]; [lia|].
  destruct (insert_position_ok (S (length a)) a m m x z) as (l & y & -> & Hl & Hy & Hyx & Hge);
    [lia|done|done|apply (Hmin m); [lia|done]|lia|lia|]. rewrite bind_Ok.
  destruct (rotate_ok (Z.to_nat (m - l)) a l m) as (a1 & -> & W & El & Ek); [lia..|]. rewrite bind_Ok.
  pose proof (within_length _ _ _ _ W) as Hlen1.
  destruct (IH a1 (m + 1)) as (a' & -> & W' & Hs'); [lia..| | |].
  - by apply (insert_sorted a a1 l m x y).
  - apply (minimum_rest a a1 l m); [lia..|done|]. split; [done|]. by exists z.
  - exists a'. split; [done|]. split; [|done]. apply (within_trans _ _ _ a1); [|done].
    apply (within_mono _ _ _ _ _ _) with (3 := W); lia.
Qed.

(** ** The sorter *)

(** The elements past a range that starts at 0 are kept, those of it are
    permuted. *)
Lemma within_prefix a a' n : Z.of_nat n <= Z.of_nat (length a) -> within 0 (Z.of_nat n - 1) a a' ->
  take n a' ≡ₚ take n a /\ drop n a' = drop n a.
Proof.
  intros Hn W. assert (Hd : drop n a' = drop n a).
  { apply list_eq. intros i. rewrite !lookup_drop. apply option_eq. intros x.
    pose proof (within_out _ _ _ _ W (Z.of_nat (n + i)) x ltac:(lia)) as H. unfold at_pos in H.
    rewrite Nat2Z.id in H. split; intros Hx; [apply H|apply H]; (split; [lia|done]). }
  split; [|done]. apply (Permutation_app_inv_r (drop n a)). rewrite take_drop, <- Hd, take_drop. apply W.
Qed.

Lemma sorted_upto_strong a n : sorted_upto a (Z.of_nat n) -> StronglySorted le (take n a).
Proof.
  revert a; induction n as [|n IH]; intros [|x a] Hs; cbn [take]; try by constructor. constructor.
  - apply IH. intros i j u v Hij Hj [Hi0 Hu] [Hj0 Hv].
    apply (Hs (i + 1) (j + 1)); [lia|lia|split; [lia|]|split; [lia|]];
      rewrite Z2Nat.inj_add by lia; rewrite Nat.add_comm; cbn; done.
  - apply Forall_forall. intros y Hy. apply list_elem_of_lookup in Hy as [i Hi].
    apply lookup_take_Some in Hi as [Hi Hin].
    apply (Hs 0 (Z.of_nat (S i))); [lia|lia|done|split; [lia|]]. by rewrite Nat2Z.id.
Qed.

Lemma asort_sorts a n : (n <= length a)%nat -> Z.of_nat n <= 2 ^ 30 ->
  exists a', asort lt a (Z.of_nat n) = Ok a' /\ take n a' ≡ₚ take n a /\ drop n a' = drop n a /\
    StronglySorted le (take n a').
Proof.
  intros Hn Hmax. unfold asort. destruct (Z.leb_spec (Z.of_nat n) 1) as [H1|H1].
  { exists a. repeat split; try done. destruct n as [|[|n]]; [..|lia]; destruct a; cbn; repeat constructor. }
  rewrite i32_in, bind_Ok by (unfold INT32_MIN, INT32_MAX; lia).
  destruct (quicksort_range 31 a 0 (Z.of_nat n - 1) []) as (k & a1 & Hk & W1 & B1 & E1); [lia..| |unfold ASORT_STACK; cbn; lia|].
  { change (2 ^ Z.of_nat 31) with (2 * 2 ^ 30). lia. }
  specialize (E1 (Z.to_nat (Z.of_nat n) - k)%nat). rewrite Nat.add_comm, Nat.sub_add in E1 by lia. rewrite E1.
  cbn [resume]. rewrite bind_Ok, MIN_min. unfold ASORT_THRESHOLD. pose proof (within_length _ _ _ _ W1) as L1.
  destruct (at_pos_ex a1 0) as [x0 Hx0]; [lia|].
  destruct (find_minimum_ok (Z.to_nat (Z.of_nat n `min` 8 - 1)) a1 1 0) as (m & -> & Hm & x & Hx & Hmin); [lia| |].
  { split; [lia|]. exists x0. split; [done|]. intros i y Hi Hy. replace i with 0 in Hy by lia.
    rewrite (at_pos_fun _ _ _ _ Hy Hx0). apply le_refl. }
  rewrite bind_Ok. destruct (swap_ok a1 0 m x0 x Hx0 Hx) as (a2 & -> & W2 & H20 & _ & _). rewrite bind_Ok.
  apply (within_mono _ _ 0 (Z.of_nat n - 1)) in W2; [|lia..]. pose proof (within_length _ _ _ _ W2) as L2.
  destruct (insertion_sort_ok (Z.to_nat (Z.of_nat n - 1)) a2 1 (Z.of_nat n)) as (a3 & -> & W3 & S3); [lia..| | |].
  - intros i j ?????. lia.
  - split; [lia|]. exists x. split; [done|]. intros i y Hi.
    apply (within_forall 0 (Z.of_nat n - 1) 0 (Z.of_nat n - 1) (fun y => le x y) a1 a2 W2); [lia|lia| |lia].
    intros j z Hj Hz. destruct (decide (j < Z.of_nat n `min` 8)); [apply (Hmin j); [lia|done]|].
    apply (le_tr _ x0); [apply (Hmin 0); [lia|done]|]. apply (B1 0 j); try done; unfold ASORT_THRESHOLD; lia.
  - exists a3. split; [done|].
    assert (W : within 0 (Z.of_nat n - 1) a a3) by by apply (within_trans _ _ _ a1), (within_trans _ _ _ a2).
    apply within_prefix in W as [HP HD]; [|lia]. split; [done|]. split; [done|]. by apply sorted_upto_strong.
Qed.

(** ** Binary search *)

Lemma strong_sorted_upto a n : StronglySorted le (take n a) -> sorted_upto a (Z.of_nat n).
Proof.
  revert a; induction n as [|n IH]; intros a Hs i j x y Hij Hj [Hi0 Hx] [Hj0 Hy]; [lia|].
  destruct a as [|z a]; [done|]. cbn [take] in Hs. apply StronglySorted_inv in Hs as [Hs Hz].
  rewrite Forall_forall in Hz. destruct (Z.to_nat j) as [|j'] eqn:Ej; [lia|].
  destruct (decide (i = 0)) as [->|].
  - injection Hx as <-. apply Hz, (list_elem_of_lookup_2 _ j'). apply lookup_take_Some. split; [done|lia].
  - apply (IH a Hs (i - 1) (j - 1)); [lia|lia|split; [lia|]|split; [lia|]].
    + destruct (Z.to_nat i) as [|i'] eqn:Ei; [lia|]. by replace (Z.to_nat (i - 1)) with i' by lia.
    + by replace (Z.to_nat (j - 1)) with j' by lia.
Qed.

(** [pos] is the first of the positions from 0 to [n] whose element is not
    smaller than [x]. *)
Definition first_ge (a : list K) (n : Z) (x : K) (pos : Z) : Prop :=
  0 <= pos <= n /\ (forall i y, i < pos -> at_pos a i y -> lt y x = true) /\
  (forall i y, pos <= i < n -> at_pos a i y -> le x y).

Lemma bin_search_loop_ok fuel a n x l r :
  n <= Z.of_nat (length a) -> n <= 2 ^ 31 -> sorted_upto a n -> 0 <= l <= r -> r <= n ->
  (forall i y, i < l -> at_pos a i y -> lt y x = true) ->
  (forall i y, r <= i < n -> at_pos a i y -> le x y) ->
  (Z.to_nat (r - l) < fuel)%nat ->
  exists pos, bin_search_loop lt fuel a x l r = Ok pos /\ first_ge a n x pos.
Proof.
  revert l r; induction fuel as [|fuel IH]; intros l r Hn Hmax Hs Hl Hr Hlo Hhi Hf; [lia|]. cbn [bin_search_loop].
  destruct (Z.ltb_spec l r) as [Hlr|Hlr].
  2: { exists l. split; [done|]. split; [lia|]. split; [done|]. intros i y Hi. apply Hhi. lia. }
  unfold u32. rewrite (Z.mod_small (l + r)) by lia.
  assert (Hm : l <= (l + r) / 2 < r) by div_lia. set (m := (l + r) / 2) in *.
  rewrite (Z.mod_small (m + 1)) by lia.
  destruct (at_pos_ex a m) as [z Hz]; [lia|]. rewrite (elt_at _ _ _ Hz), bind_Ok.
  destruct (lt z x) eqn:E; (apply IH; try done; try lia).
  - intros i y Hi Hy. destruct (decide (i = m)) as [->|]; [by rewrite (at_pos_fun _ _ _ _ Hy Hz)|].
    destruct (lt y x) eqn:Eyx; [done|]. rewrite <- E. symmetry. apply (le_tr x y z Eyx).
    apply at_pos_lt in Hy as ?. apply (Hs i m); (lia || done).
  - intros i y Hi Hy. destruct (decide (i = m)) as [->|]; [by rewrite (at_pos_fun _ _ _ _ Hy Hz)|].
    apply (le_tr x z y E). apply (Hs m i); (lia || done).
Qed.

Lemma bin_search_ok a n x : (n <= length a)%nat -> Z.of_nat n <= 2 ^ 31 -> StronglySorted le (take n a) ->
  exists pos, BIN_SEARCH_FIRST_GE_CMP lt a (Z.of_nat n) x = Ok pos /\ first_ge a (Z.of_nat n) x pos.
Proof.
  intros Hn Hmax Hs. apply strong_sorted_upto in Hs. unfold BIN_SEARCH_FIRST_GE_CMP.
  apply bin_search_loop_ok; try done; try lia. intros i y Hi [? _]. lia.
Qed.

End sorted.

#[global] Instance Z_ltb_order : StrictWeakOrder Z.ltb.
Proof. split; intros; lia. Qed.

(** C31: the array sorter is correct for every strict weak order: on at most
    2^30 elements it returns, without an access out of the array, an overflow
    of its indices or of its stack of 32 ranges; the first [n] elements are
    then a sorted permutation of what they were, and the others are kept. *)
Theorem array_sorter_sorts {K} (lt : K -> K -> bool) `{!StrictWeakOrder lt} (a : list K) (n : nat) :
  (n <= length a)%nat -> Z.of_nat n <= 2 ^ 30 ->
  exists a', asort lt a (Z.of_nat n) = Ok a' /\ take n a' ≡ₚ take n a /\ drop n a' = drop n a /\
    StronglySorted (le lt) (take n a').
Proof. intros Hn Hmax. by apply asort_sorts. Qed.

(** The sorter on 19 numbers of an array of 20: both phases run. *)
Lemma array_sorter_sorts_witness :
  exists a', asort Z.ltb [5; 3; 9; 1; 12; 7; 7; 0; 15; 2; 11; 4; 8; 6; 14; 10; 13; 3; 5; -1] (Z.of_nat 19) = Ok a' /\
    take 19 a' = [0; 1; 2; 3; 3; 4; 5; 5; 6; 7; 7; 8; 9; 10; 11; 12; 13; 14; 15] /\ drop 19 a' = [-1] /\
    StronglySorted (le Z.ltb) (take 19 a').
Proof.
  destruct (array_sorter_sorts Z.ltb [5; 3; 9; 1; 12; 7; 7; 0; 15; 2; 11; 4; 8; 6; 14; 10; 13; 3; 5; -1] 19)
    as (a' & E & _ & HD & HS); [cbn; lia|lia|].
  exists a'. split; [exact E|]. split; [|split; [exact HD|exact HS]].
  vm_compute in E. injection E as <-. reflexivity.
Defined.
