(* ===== verification/Doubles.v ===== *)
(** * C doubles

    IEEE 754 binary64 arithmetic as the Standard Library's [SpecFloat]
    computes it (round to nearest, ties to even), with the conversions
    between [double] and [int64_t] that the collector uses for times and
    rates.  The lemmas show when conversion and multiplication are exact. *)

From Stdlib Require Import SpecFloat.
From stdpp Require Import base numbers list.
From S2P Require Import Prelude.

Module Double.

Definition prec : Z := 53.
Definition emax : Z := 1024.

Definition double : Set := spec_float.

Definition of_Z (z : Z) : double := binary_normalize prec emax z 0 false.
Definition add : double -> double -> double := SFadd prec emax.
Definition sub : double -> double -> double := SFsub prec emax.
Definition mul : double -> double -> double := SFmul prec emax.
Definition div : double -> double -> double := SFdiv prec emax.
Definition ltb (a b : double) : bool := SFltb a b.
Definition leb (a b : double) : bool := SFleb a b.

(** libucw's [MIN] on doubles: [(a < b) ? a : b]. *)
Definition min (a b : double) : double := if ltb a b then a else b.

(** [(int64_t) d]: truncation toward zero; undefined out of range. *)
Definition to_i64 (d : double) : outcome Z :=
  match d with
  | S754_zero _ => Ok 0
  | S754_infinity _ | S754_nan => Fail UndefinedBehaviour
  | S754_finite s m e =>
      let a := if 0 <=? e then Z.pos m * 2 ^ e else Z.pos m / 2 ^ (- e) in
      i64 (if s then - a else a)
  end.

(** ** Exactness of small integers *)

Lemma digits2_pos_log2 p : Z.pos (digits2_pos p) = Z.log2 (Z.pos p) + 1.
Proof.
  induction p as [p IH|p IH|]; cbn [digits2_pos]; [| |done].
  - rewrite Pos2Z.inj_succ, IH, (Pos2Z.inj_xI p), Z.log2_succ_double by lia. lia.
  - rewrite Pos2Z.inj_succ, IH, (Pos2Z.inj_xO p), Z.log2_double by lia. lia.
Qed.

Lemma Zdigits2_log2 z : 0 < z -> Zdigits2 z = Z.log2 z + 1.
Proof. destruct z; try lia. intros _. apply digits2_pos_log2. Qed.

Lemma iter_xO p n : Z.pos (Pos.iter xO p n) = Z.pos p * 2 ^ Z.pos n.
Proof.
  induction n as [|n IH] using Pos.peano_ind; [cbn; lia|].
  rewrite Pos.iter_succ, Pos2Z.inj_xO, IH, Pos2Z.inj_succ, Z.pow_succ_r by lia. lia.
Qed.

Lemma iter_pos_iter {A} (f : A -> A) n x : SpecFloat.iter_pos f n x = Pos.iter f x n.
Proof.
  revert x; induction n as [n IH|n IH|]; intros x; cbn [SpecFloat.iter_pos]; [| |done].
  - rewrite !IH, <- Pos.iter_add, <- (Pos.iter_succ_r), <- Pos.add_1_l.
    f_equal. lia.
  - rewrite !IH, <- Pos.iter_add. f_equal. lia.
Qed.

Lemma shr_1_double m : 0 <= m ->
  shr_1 {| shr_m := 2 * m; shr_r := false; shr_s := false |} =
  {| shr_m := m; shr_r := false; shr_s := false |}.
Proof. by destruct m. Qed.

(** Shifting out zero bits loses nothing. *)
Lemma iter_shr_1 n m : 0 <= m ->
  SpecFloat.iter_pos shr_1 n {| shr_m := m * 2 ^ Z.pos n; shr_r := false; shr_s := false |} =
  {| shr_m := m; shr_r := false; shr_s := false |}.
Proof.
  intros Hm. rewrite iter_pos_iter.
  revert m Hm. induction n as [|n IH] using Pos.peano_ind; intros m Hm.
  - change (Pos.iter shr_1 ?x 1) with (shr_1 x). cbn [Z.pow]. rewrite <- (shr_1_double m Hm).
    do 2 f_equal. change (2 ^ 1) with 2. lia.
  - rewrite Pos.iter_succ_r.
    rewrite Pos2Z.inj_succ, Z.pow_succ_r by lia.
    replace (m * (2 * 2 ^ Z.pos n)) with (2 * (m * 2 ^ Z.pos n)) by lia.
    rewrite shr_1_double by (apply Z.mul_nonneg_nonneg; [lia | apply Z.pow_nonneg; lia]).
    by apply IH.
Qed.

(** The canonical double of a positive integer below [2^53]. *)
Definition canon (s : bool) (z : Z) : double :=
  match z * 2 ^ (52 - Z.log2 z) with
  | Z.pos m => S754_finite s m (Z.log2 z - 52)
  | _ => S754_zero s
  end.

(** Rounding an exact value [z * 2^k], [z] below [2^53], whose mantissa has
    at least 53 digits: the result is the canonical double of [z]. *)
Lemma round_aux_exact s z k : 0 < z < 2 ^ 53 -> 52 <= Z.log2 z + k ->
  binary_round_aux prec emax s (z * 2 ^ k) (- k) loc_Exact = canon s z.
Proof.
  intros Hz Hk.
  assert (0 <= Z.log2 z <= 52) as Hl.
  { split; [apply Z.log2_nonneg|]. apply Z.lt_succ_r, Z.log2_lt_pow2; lia. }
  assert (Hk0 : 0 <= k) by lia.
  assert (Hpos : 0 < z * 2 ^ k) by (apply Z.mul_pos_pos; [lia | apply Z.pow_pos_nonneg; lia]).
  assert (Hm : z * 2 ^ k = z * 2 ^ (52 - Z.log2 z) * 2 ^ (Z.log2 z + k - 52)).
  { rewrite <- Z.mul_assoc, <- Z.pow_add_r by lia. do 2 f_equal. lia. }
  set (m := z * 2 ^ (52 - Z.log2 z)) in *.
  assert (Hm0 : 0 < m) by (apply Z.mul_pos_pos; [lia | apply Z.pow_pos_nonneg; lia]).
  assert (Hlm : Z.log2 m = 52) by (unfold m; rewrite Z.log2_mul_pow2 by lia; lia).
  assert (Hfexp : forall e, -1000 <= e <= 1000 -> fexp prec emax (e + 1) = e - 52).
  { intros e He. unfold fexp, emin, prec, emax. lia. }
  assert (Hfirst : shr_fexp prec emax (z * 2 ^ k) (- k) loc_Exact =
                   ({| shr_m := m; shr_r := false; shr_s := false |}, Z.log2 z - 52)).
  { unfold shr_fexp. rewrite Zdigits2_log2, Z.log2_mul_pow2 by lia.
    replace (k + Z.log2 z + 1 + - k) with (Z.log2 z + 1) by lia.
    rewrite Hfexp by lia. unfold shr.
    destruct (Z.log2 z - 52 - - k) as [|n|n] eqn:En; [| |lia].
    - cbn. f_equal; [|lia]. f_equal.
      rewrite Hm. replace (Z.log2 z + k - 52) with 0 by lia. lia.
    - cbn [shr_record_of_loc]. rewrite Hm.
      replace (Z.log2 z + k - 52) with (Z.pos n) by lia.
      rewrite iter_shr_1 by lia. f_equal. lia. }
  unfold binary_round_aux. rewrite Hfirst. cbn [shr_m loc_of_shr_record round_nearest_even].
  assert (Hsecond : shr_fexp prec emax m (Z.log2 z - 52) loc_Exact =
                   ({| shr_m := m; shr_r := false; shr_s := false |}, Z.log2 z - 52)).
  { unfold shr_fexp. rewrite Zdigits2_log2, Hlm by lia.
    replace (52 + 1 + (Z.log2 z - 52)) with (Z.log2 z + 1) by lia.
    rewrite Hfexp by lia. rewrite Z.sub_diag. done. }
  rewrite Hsecond. cbn [shr_m]. unfold canon. fold m.
  destruct m as [|p|p]; [lia| |lia].
  replace (Z.log2 z - 52 <=? emax - prec) with true; [done|].
  symmetry. apply Z.leb_le. unfold emax, prec. lia.
Qed.

Lemma binary_round_exact s p : Z.pos p < 2 ^ 53 ->
  binary_round prec emax s p 0 = canon s (Z.pos p).
Proof.
  intros Hp. unfold binary_round.
  rewrite digits2_pos_log2, Z.add_0_r.
  assert (0 <= Z.log2 (Z.pos p) <= 52) as Hl.
  { split; [apply Z.log2_nonneg|]. apply Z.lt_succ_r, Z.log2_lt_pow2; lia. }
  replace (fexp prec emax (Z.log2 (Z.pos p) + 1)) with (Z.log2 (Z.pos p) - 52)
    by (unfold fexp, emin, prec, emax; lia).
  unfold shl_align.
  destruct (Z.log2 (Z.pos p) - 52 - 0) as [|n|n] eqn:En; [|lia|].
  - pose proof (round_aux_exact s (Z.pos p) 0 ltac:(lia) ltac:(lia)) as H.
    by rewrite Z.pow_0_r, Z.mul_1_r in H.
  - rewrite iter_xO.
    replace (Z.log2 (Z.pos p) - 52) with (- Z.pos n) by lia.
    apply round_aux_exact; lia.
Qed.

Lemma of_Z_pos z : 0 < z < 2 ^ 53 -> of_Z z = canon false z.
Proof. destruct z; try lia. intros. apply binary_round_exact. lia. Qed.

Lemma of_Z_neg z : 0 < z < 2 ^ 53 -> of_Z (- z) = canon true z.
Proof. destruct z; try lia. intros. apply binary_round_exact. lia. Qed.

Lemma canon_finite s z : 0 < z < 2 ^ 53 -> exists m,
  canon s z = S754_finite s m (Z.log2 z - 52) /\ Z.pos m = z * 2 ^ (52 - Z.log2 z).
Proof.
  intros Hz. unfold canon.
  assert (Z.log2 z <= 52) by (apply Z.lt_succ_r, Z.log2_lt_pow2; lia).
  assert (0 < z * 2 ^ (52 - Z.log2 z))
    by (apply Z.mul_pos_pos; [lia | apply Z.pow_pos_nonneg; lia]).
  destruct (z * 2 ^ (52 - Z.log2 z)) as [|m|m] eqn:E; try lia. eauto.
Qed.

Lemma mul_canon s1 s2 a b : 0 < a < 2 ^ 53 -> 0 < b < 2 ^ 53 -> a * b < 2 ^ 53 ->
  mul (canon s1 a) (canon s2 b) = canon (xorb s1 s2) (a * b).
Proof.
  intros Ha Hb Hab.
  destruct (canon_finite s1 a Ha) as (ma & -> & Hma).
  destruct (canon_finite s2 b Hb) as (mb & -> & Hmb).
  assert (Z.log2 a <= 52) by (apply Z.lt_succ_r, Z.log2_lt_pow2; lia).
  assert (Z.log2 b <= 52) by (apply Z.lt_succ_r, Z.log2_lt_pow2; lia).
  unfold mul, SFmul. rewrite Pos2Z.inj_mul, Hma, Hmb.
  replace (a * 2 ^ (52 - Z.log2 a) * (b * 2 ^ (52 - Z.log2 b)))
    with (a * b * 2 ^ (104 - Z.log2 a - Z.log2 b)).
  2: { replace (104 - Z.log2 a - Z.log2 b) with ((52 - Z.log2 a) + (52 - Z.log2 b)) by lia.
       rewrite Z.pow_add_r by lia. lia. }
  replace (Z.log2 a - 52 + (Z.log2 b - 52)) with (- (104 - Z.log2 a - Z.log2 b)) by lia.
  apply round_aux_exact; [nia|].
  pose proof (Z.log2_mul_below a b). lia.
Qed.

(** The product of two integers, both and their product below [2^53] in
    absolute value, is exact. *)
Lemma mul_of_Z a b : Z.abs a < 2 ^ 53 -> 0 < b < 2 ^ 53 -> Z.abs (a * b) < 2 ^ 53 ->
  mul (of_Z a) (of_Z b) = of_Z (a * b) \/ a = 0.
Proof.
  intros Ha Hb Hab. rewrite (of_Z_pos b) by lia.
  destruct (Z.lt_trichotomy a 0) as [Hlt|[->|Hgt]]; [| by right |]; left.
  - replace a with (- (- a)) by lia. rewrite of_Z_neg by lia.
    rewrite mul_canon by lia. cbn [xorb].
    replace (- - a * b) with (- (- a * b)) by lia. by rewrite of_Z_neg by lia.
  - rewrite !of_Z_pos by lia. by rewrite mul_canon by lia.
Qed.

Lemma to_i64_canon s z : 0 < z < 2 ^ 53 ->
  to_i64 (canon s z) = Ok (if s then - z else z).
Proof.
  intros Hz. destruct (canon_finite s z Hz) as (m & -> & Hm). unfold to_i64.
  assert (0 <= Z.log2 z <= 52) as Hl.
  { split; [apply Z.log2_nonneg|]. apply Z.lt_succ_r, Z.log2_lt_pow2; lia. }
  rewrite Hm. destruct (Z.leb_spec 0 (Z.log2 z - 52)).
  - replace (Z.log2 z - 52) with 0 by lia. replace (52 - Z.log2 z) with 0 by lia.
    rewrite !Z.pow_0_r, !Z.mul_1_r. apply i64_in. destruct s; int_lia.
  - replace (- (Z.log2 z - 52)) with (52 - Z.log2 z) by lia.
    rewrite Z.div_mul by (apply Z.pow_nonzero; lia). apply i64_in. destruct s; int_lia.
Qed.

(** Conversion to [double] and back is exact below [2^53]. *)
Lemma to_i64_of_Z z : Z.abs z < 2 ^ 53 -> to_i64 (of_Z z) = Ok z.
Proof.
  intros Hz. destruct (Z.lt_trichotomy z 0) as [Hlt|[->|Hgt]]; [| done |].
  - replace z with (- (- z)) by lia. rewrite of_Z_neg by lia. by rewrite to_i64_canon by lia.
  - rewrite of_Z_pos by lia. by rewrite to_i64_canon by lia.
Qed.

(** Truncating the product of small integers gives the integer product. *)
Lemma to_i64_mul_of_Z a b : Z.abs a < 2 ^ 53 -> 0 < b < 2 ^ 53 -> Z.abs (a * b) < 2 ^ 53 ->
  to_i64 (mul (of_Z a) (of_Z b)) = Ok (a * b).
Proof.
  intros Ha Hb Hab. destruct (mul_of_Z a b Ha Hb Hab) as [->| ->].
  - by apply to_i64_of_Z.
  - rewrite (of_Z_pos b) by lia. destruct (canon_finite false b Hb) as (m & -> & _). done.
Qed.

(** ** The encoding of a double as 64 bits

    [bits64 d] is the IEEE 754 interchange representation: the bytes that a
    C program sees when it reads a [double] as a [uint64_t]. *)
Definition bits64 (d : double) : Z :=
  u64 match d with
  | S754_zero s => if s then 2 ^ 63 else 0
  | S754_infinity s => (if s then 2 ^ 63 else 0) + 2047 * 2 ^ 52
  | S754_nan => 2047 * 2 ^ 52 + 2 ^ 51
  | S754_finite s m e =>
      (if s then 2 ^ 63 else 0) +
      (if Z.pos m <? 2 ^ 52 then Z.pos m else (e + 1075) * 2 ^ 52 + (Z.pos m - 2 ^ 52))
  end.

End Double.
