(* ===== verification/Common.v ===== *)
(** * Common definitions ([src/common.h], [src/common.c])

    Return codes, the list of output fields, microsecond times and the
    escaping of binary data for the CSV output. *)

From stdpp Require Import base numbers strings list.
From S2P Require Import Prelude Doubles.

(** ** Enumerations *)

(** [enum dns_ret]; the numeric values depend on libknot's [KNOT_ERROR_MIN]
    and are only compared for equality. *)
Inductive dns_ret : Set :=
| DNS_RET_OK
| DNS_RET_ERR
| DNS_RET_EOF
| DNS_RET_TIMEOUT
| DNS_RET_DROP_NETWORK
| DNS_RET_DROP_FRAGMENTED
| DNS_RET_DROP_TRANSPORT
| DNS_RET_DROP_MALF.

#[global] Instance dns_ret_eq_dec : EqDecision dns_ret.
Proof. solve_decision. Defined.

(** [enum dns_output_field]: the flag that selects each output column. *)
Inductive dns_output_field : Set :=
| dns_field_time | dns_field_delay_us
| dns_field_req_dns_len | dns_field_resp_dns_len
| dns_field_req_net_len | dns_field_resp_net_len
| dns_field_client_addr | dns_field_client_port
| dns_field_server_addr | dns_field_server_port
| dns_field_net_proto | dns_field_net_ipv | dns_field_net_ttl
| dns_field_req_udp_sum | dns_field_id | dns_field_qtype | dns_field_qclass
| dns_field_opcode | dns_field_rcode
| dns_field_flags | dns_field_qname | dns_field_rr_counts | dns_field_edns.

#[global] Instance dns_output_field_eq_dec : EqDecision dns_output_field.
Proof. solve_decision. Defined.

(** The fields in the order of their values. *)
Definition dns_output_fields : list dns_output_field :=
  [dns_field_time; dns_field_delay_us; dns_field_req_dns_len; dns_field_resp_dns_len;
   dns_field_req_net_len; dns_field_resp_net_len; dns_field_client_addr;
   dns_field_client_port; dns_field_server_addr; dns_field_server_port;
   dns_field_net_proto; dns_field_net_ipv; dns_field_net_ttl; dns_field_req_udp_sum;
   dns_field_id; dns_field_qtype; dns_field_qclass; dns_field_opcode; dns_field_rcode;
   dns_field_flags; dns_field_qname; dns_field_rr_counts; dns_field_edns].

(** The numeric value of an enumerator. *)
Definition field_num (f : dns_output_field) : Z :=
  match f with
  | dns_field_time => 0 | dns_field_delay_us => 1
  | dns_field_req_dns_len => 2 | dns_field_resp_dns_len => 3
  | dns_field_req_net_len => 4 | dns_field_resp_net_len => 5
  | dns_field_client_addr => 6 | dns_field_client_port => 7
  | dns_field_server_addr => 8 | dns_field_server_port => 9
  | dns_field_net_proto => 10 | dns_field_net_ipv => 11 | dns_field_net_ttl => 12
  | dns_field_req_udp_sum => 13 | dns_field_id => 14 | dns_field_qtype => 15
  | dns_field_qclass => 16 | dns_field_opcode => 17 | dns_field_rcode => 18
  | dns_field_flags => 19 | dns_field_qname => 20 | dns_field_rr_counts => 21
  | dns_field_edns => 22
  end.

Definition dns_of_LAST : Z := 23.

Definition dns_output_field_flag_names : list string :=
  ["time"; "delay_us"; "req_dns_len"; "resp_dns_len"; "req_net_len"; "resp_net_len";
   "client_addr"; "client_port"; "server_addr"; "server_port"; "net_proto"; "net_ipv";
   "net_ttl"; "req_udp_sum"; "id"; "qtype"; "qclass"; "opcode"; "rcode"; "flags"; "qname";
   "rr_counts"; "edns"]%string.

(** [fields & (1 << field)]. *)
Definition field_selected (fields : Z) (f : dns_output_field) : bool :=
  negb (Z.land fields (Z.shiftl 1 (field_num f)) =? 0).

Lemma field_selected_testbit fields f :
  field_selected fields f = Z.testbit fields (field_num f).
Proof.
  unfold field_selected.
  assert (Hn : 0 <= field_num f) by (destruct f; cbn; lia).
  destruct (Z.testbit fields (field_num f)) eqn:E.
  - apply negb_true_iff, Z.eqb_neq. intros H0.
    apply (f_equal (fun z => Z.testbit z (field_num f))) in H0.
    rewrite Z.land_spec, E, Z.shiftl_spec, Z.sub_diag, Z.bits_0 in H0 by lia.
    discriminate.
  - apply negb_false_iff, Z.eqb_eq, Z.bits_inj_0. intros n.
    rewrite Z.land_spec. destruct (Z.eq_dec n (field_num f)) as [->|Hne]; [by rewrite E|].
    destruct (Z.ltb_spec n 0).
    { by rewrite (Z.testbit_neg_r _ n), andb_false_l by lia. }
    rewrite Z.shiftl_spec by lia.
    destruct (Z.ltb_spec n (field_num f)).
    { by rewrite (Z.testbit_neg_r 1), andb_false_r by lia. }
    rewrite (Z.bits_above_log2 1 (n - field_num f)), andb_false_r by (cbn; lia). done.
Qed.

(** ** Times *)

(** [dns_us_time_t] is [int64_t], microseconds since the Epoch. *)
Definition DNS_NO_TIME : Z := INT64_MIN.

(** [struct timeval], [struct timespec] (both members [long]). *)
Record timeval := { tv_sec : Z; tv_usec : Z }.
Record timespec := { ts_sec : Z; ts_nsec : Z }.

Definition dns_us_time_from_timeval (t : timeval) : outcome Z :=
  s ← i64 (1000000 * tv_sec t); i64 (tv_usec t + s).

Definition dns_us_time_from_timespec (t : timespec) : outcome Z :=
  s ← i64 (1000000 * ts_sec t); i64 (Z.quot (ts_nsec t) 1000 + s).

Definition dns_us_time_to_fsec (t : Z) : outcome Double.double :=
  _ ← c_assert (negb (t =? DNS_NO_TIME));
  Ok (Double.div (Double.of_Z t) (Double.of_Z 1000000)).

Definition dns_fsec_to_us_time (s : Double.double) : outcome Z :=
  Double.to_i64 (Double.mul s (Double.of_Z 1000000)).

(** [dns_next_rotation]; [clock] is what [dns_current_us_time] returns when
    it is called. *)
Definition dns_next_rotation (clock : Z) (period_sec last_rotation now : Z) : outcome bool :=
  let now := if now =? DNS_NO_TIME then clock else now in
  period ← dns_fsec_to_us_time (Double.of_Z period_sec);
  threshold ← i64 (now - period);
  Ok (last_rotation <? threshold).

(** ** Escaping *)

Definition BACKSLASH : Z := 92.
Definition NEWLINE : Z := 10.

(** [isgraph] in the C locale. *)
Definition isgraph (c : Z) : bool := (33 <=? c) && (c <=? 126).

(** [sprintf("%03o", c)] of a byte. *)
Definition octal3 (c : Z) : list Z := [48 + c / 64; 48 + (c / 8) mod 8; 48 + c mod 8].

(** What one data byte becomes. *)
Definition snescape_char (separator c : Z) : list Z :=
  if c =? 0 then [BACKSLASH; 48]
  else if c =? BACKSLASH then [BACKSLASH; BACKSLASH]
  else if c =? NEWLINE then [BACKSLASH; 110]
  else if c =? separator then
    if isgraph separator then [BACKSLASH; separator] else BACKSLASH :: octal3 separator
  else [c].

(** The [while] loop: [n] bytes are written so far, [room] is
    [strsize - 1].  A byte whose escape does not fit ends the loop. *)
Fixpoint snescape_loop (room : Z) (separator : Z) (n : Z) (data : list Z) : list Z :=
  match data with
  | [] => []
  | c :: data =>
      if n <? room then
        let e := snescape_char separator c in
        if n + Z.of_nat (length e) >? room then []
        else e ++ snescape_loop room separator (n + Z.of_nat (length e)) data
      else []
  end.

(** [dns_snescape]: the characters written before the final NUL, and the
    returned count.  With [strsize = 0] nothing is written. *)
Definition dns_snescape (strsize : Z) (separator : Z) (data : list Z) : list Z * Z :=
  if strsize <=? 0 then ([], 0)
  else let s := snescape_loop (strsize - 1) separator 0 data in (s, Z.of_nat (length s)).

(** ** Reader of escaped text

    What a reader that understands backslash escapes makes of a field:
    [\n] is a newline, [\0] a NUL, a backslash before any other character
    stands for that character. *)
Fixpoint csv_unescape (s : list Z) : option (list Z) :=
  match s with
  | [] => Some []
  | c :: s =>
      if c =? BACKSLASH then
        match s with
        | [] => None
        | d :: s =>
            cons (if d =? 48 then 0 else if d =? 110 then NEWLINE else d) <$> csv_unescape s
        end
      else cons c <$> csv_unescape s
  end.

Lemma length_snescape_char sep c : (1 <= length (snescape_char sep c) <= 4)%nat.
Proof. unfold snescape_char, octal3. repeat case_match; cbn; lia. Qed.

(** The loop writes the escapes of a prefix of the data. *)
Lemma snescape_loop_prefix room sep data n : 0 <= n <= room ->
  exists k, snescape_loop room sep n data = flat_map (snescape_char sep) (take k data) /\
    n + Z.of_nat (length (snescape_loop room sep n data)) <= room.
Proof.
  revert n; induction data as [|c data IH]; intros n Hn; cbn [snescape_loop].
  - exists O. cbn. split; [done | lia].
  - destruct (Z.ltb_spec n room); [|exists O; cbn; split; [done | lia]].
    destruct (Z.gtb_spec (n + Z.of_nat (length (snescape_char sep c))) room);
      [exists O; cbn; split; [done | lia]|].
    destruct (IH (n + Z.of_nat (length (snescape_char sep c)))) as (k & Hk & Hlen); [lia|].
    exists (S k). cbn [take flat_map]. rewrite length_app. split; [congruence | lia].
Qed.

(** With enough room the whole data is escaped. *)
Lemma snescape_loop_all room sep data n :
  0 <= n -> n + Z.of_nat (length (flat_map (snescape_char sep) data)) <= room ->
  snescape_loop room sep n data = flat_map (snescape_char sep) data.
Proof.
  revert n; induction data as [|c data IH]; intros n Hn Hroom; cbn [snescape_loop flat_map]; [done|].
  cbn [flat_map] in Hroom. rewrite length_app in Hroom.
  pose proof (length_snescape_char sep c).
  destruct (Z.ltb_spec n room); [|lia].
  destruct (Z.gtb_spec (n + Z.of_nat (length (snescape_char sep c))) room); [lia|].
  f_equal. apply IH; lia.
Qed.

Lemma csv_unescape_char sep c s : isgraph sep = true -> sep <> 48 -> sep <> 110 ->
  csv_unescape (snescape_char sep c ++ s) = cons c <$> csv_unescape s.
Proof.
  intros Hg H0 Hn. unfold snescape_char.
  repeat match goal with |- context [?a =? ?b] => destruct (Z.eqb_spec a b); subst end;
    rewrite ?Hg; cbn [app csv_unescape]; rewrite ?Z.eqb_refl; try done.
  - repeat match goal with |- context [?a =? ?b] => destruct (Z.eqb_spec a b) end;
      unfold BACKSLASH in *; subst; done.
  - destruct (Z.eqb_spec c BACKSLASH); done.
Qed.

Lemma csv_unescape_flat_map sep data : isgraph sep = true -> sep <> 48 -> sep <> 110 ->
  csv_unescape (flat_map (snescape_char sep) data) = Some data.
Proof.
  intros Hg H0 Hn. induction data as [|c data IH]; cbn [flat_map]; [done|].
  by rewrite csv_unescape_char, IH.
Qed.

(** ** Properties *)

(** [dns_snescape] never writes past its buffer: with a buffer of
    [strsize > 0] bytes the returned count is the number of characters
    written, leaves room for the final NUL, and the text is the escape of a
    prefix of the data, so no escape sequence is ever cut in two. *)
Theorem dns_snescape_bounds (strsize sep : Z) (data : list Z) :
  0 < strsize ->
  exists k, dns_snescape strsize sep data =
      (flat_map (snescape_char sep) (take k data),
       Z.of_nat (length (flat_map (snescape_char sep) (take k data)))) /\
    snd (dns_snescape strsize sep data) + 1 <= strsize.
Proof.
  intros H. unfold dns_snescape. destruct (Z.leb_spec strsize 0); [lia|].
  destruct (snescape_loop_prefix (strsize - 1) sep data 0) as (k & Hk & Hlen); [lia|].
  exists k. rewrite Hk in *. cbn. split; [done | lia].
Qed.

Lemma dns_snescape_bounds_witness : exists k,
  dns_snescape 6 44 [97; 44; 10; 0; 98] =
    (flat_map (snescape_char 44) (take k [97; 44; 10; 0; 98]),
     Z.of_nat (length (flat_map (snescape_char 44) (take k [97; 44; 10; 0; 98])))) /\
  snd (dns_snescape 6 44 [97; 44; 10; 0; 98]) + 1 <= 6.
Proof. apply (dns_snescape_bounds 6 44 [97; 44; 10; 0; 98]). lia. Defined.

(** C39: escaping loses nothing when the separator is a graphic character
    other than ['0'] and ['n'] (the configuration check refuses both): a
    reader that undoes the backslash escapes recovers the data exactly,
    whenever the buffer holds the escaped text.  It does not hold for every
    separator the check accepts: a tab is not graphic, and its escape is
    ambiguous ([dns_snescape_tab_ambiguous]). *)
Theorem dns_snescape_roundtrip (strsize sep : Z) (data : list Z) :
  isgraph sep = true -> sep <> 48 -> sep <> 110 ->
  Z.of_nat (length (flat_map (snescape_char sep) data)) < strsize ->
  csv_unescape (fst (dns_snescape strsize sep data)) = Some data.
Proof.
  intros Hg H0 Hn Hs. unfold dns_snescape. destruct (Z.leb_spec strsize 0); [lia|].
  cbn [fst]. rewrite snescape_loop_all by lia. by apply csv_unescape_flat_map.
Qed.

Lemma dns_snescape_roundtrip_witness :
  csv_unescape (fst (dns_snescape 64 44 [97; 44; 92; 10; 0; 49; 200])) =
  Some [97; 44; 92; 10; 0; 49; 200].
Proof. apply (dns_snescape_roundtrip 64 44); vm_compute; [done | discriminate | discriminate | done]. Defined.

(** With a tabulator as separator (accepted by the configuration check)
    the escape is ambiguous: the separator itself and the three bytes NUL,
    ['1'], ['1'] are written as the same text. *)
Theorem dns_snescape_tab_ambiguous :
  dns_snescape 64 9 [9] = dns_snescape 64 9 [0; 49; 49].
Proof. reflexivity. Qed.

Lemma next_rotation_ok clock period_sec last_rotation now :
  - 2 ^ 31 <= period_sec < 2 ^ 31 ->
  INT64_MIN <= (if now =? DNS_NO_TIME then clock else now) - 1000000 * period_sec <= INT64_MAX ->
  dns_next_rotation clock period_sec last_rotation now =
  Ok (last_rotation + 1000000 * period_sec <? (if now =? DNS_NO_TIME then clock else now)).
Proof.
  intros Hp Hov. unfold dns_next_rotation, dns_fsec_to_us_time.
  rewrite Double.to_i64_mul_of_Z by lia. cbn [mbind outcome_bind].
  rewrite i64_in by lia. cbn. f_equal. apply eq_true_iff_eq. rewrite !Z.ltb_lt. lia.
Qed.

(** For every [int] period, rotation is due exactly when more than
    [period_sec] seconds lie between the last rotation and the current time:
    the detour through [double] loses no microsecond. *)
Theorem dns_next_rotation_exact (clock period_sec last_rotation now : Z) :
  - 2 ^ 31 <= period_sec < 2 ^ 31 ->
  INT64_MIN <= (if now =? DNS_NO_TIME then clock else now) - 1000000 * period_sec <= INT64_MAX ->
  dns_next_rotation clock period_sec last_rotation now =
  Ok (last_rotation + 1000000 * period_sec <? (if now =? DNS_NO_TIME then clock else now)).
Proof. apply next_rotation_ok. Qed.

Lemma dns_next_rotation_exact_witness :
  dns_next_rotation 0 60 1000000000 1060000001 = Ok true /\
  dns_next_rotation 0 60 1000000000 1060000000 = Ok false.
Proof.
  split.
  - rewrite (dns_next_rotation_exact 0 60 1000000000 1060000001); vm_compute; by try split.
  - rewrite (dns_next_rotation_exact 0 60 1000000000 1060000000); vm_compute; by try split.
Defined.
