(* ===== verification/Libs.v ===== *)
(** * libknot and libtrace

    Neither library is part of the sources.  Each is a class whose members
    are the functions the collector calls, so every definition that uses one
    is parametric in it.  [Sample] holds a concrete instance of both, an
    uncompressed-name DNS reader and a captured packet given by its decoded
    layers, on which closed examples are evaluated. *)

From stdpp Require Import base numbers strings gmap list.
From S2P Require Import Prelude Doubles Common.

(** ** Interfaces of the two libraries *)

(** The return codes of libknot's parsers that the code tells apart. *)
Inductive knot_ret : Set := KNOT_EOK | KNOT_ENOMEM | KNOT_EOTHER.

#[global] Instance knot_ret_eq_dec : EqDecision knot_ret.
Proof. solve_decision. Defined.

(** libknot.  A wire is the list of its bytes.  An EDNS option is the memory
    from the option's first byte (code, length, data) to the end of the
    buffer that holds it. *)
Class Libknot : Type := {
  knot_pkt_t : Type;
  knot_rrset_t : Type;
  knot_dname_t : Type;
  sizeof_knot_pkt_t : Z;
  knot_pkt_new : list Z -> knot_pkt_t;
  knot_pkt_parse_question : knot_pkt_t -> knot_ret * knot_pkt_t;
  knot_pkt_parse : knot_pkt_t -> knot_ret * knot_pkt_t;
  kp_wire : knot_pkt_t -> list Z;
  kp_qname_size : knot_pkt_t -> Z;
  kp_opt_rr : knot_pkt_t -> option knot_rrset_t;
  knot_pkt_qname : knot_pkt_t -> option knot_dname_t;
  knot_pkt_qtype : knot_pkt_t -> Z;
  knot_pkt_qclass : knot_pkt_t -> Z;
  knot_dname_is_equal : knot_dname_t -> knot_dname_t -> bool;
  knot_dname_to_str : option knot_dname_t -> Z -> option (list Z);
  knot_wire_get_id : list Z -> Z;
  knot_wire_get_qr : list Z -> Z;
  knot_wire_get_opcode : list Z -> Z;
  knot_wire_get_rcode : list Z -> Z;
  knot_wire_get_aa : list Z -> Z;
  knot_wire_get_tc : list Z -> Z;
  knot_wire_get_rd : list Z -> Z;
  knot_wire_get_ra : list Z -> Z;
  knot_wire_get_z : list Z -> Z;
  knot_wire_get_ad : list Z -> Z;
  knot_wire_get_cd : list Z -> Z;
  knot_wire_get_ancount : list Z -> Z;
  knot_wire_get_nscount : list Z -> Z;
  knot_wire_get_arcount : list Z -> Z;
  knot_edns_get_version : knot_rrset_t -> Z;
  knot_edns_get_payload : knot_rrset_t -> Z;
  knot_edns_do : knot_rrset_t -> bool;
  knot_edns_get_ext_rcode : knot_rrset_t -> Z;
  knot_edns_get_option : knot_rrset_t -> Z -> option (list Z);
  knot_edns_opt_get_length : list Z -> Z;
}.

(** libtrace, as far as one captured packet goes.  Header pointers are
    options (NULL is [None]); a payload pointer is the captured bytes from
    that address on; [remaining] counts are passed and returned as in C. *)
Class Libtrace : Type := {
  libtrace_packet_t : Type;
  trace_get_transport : libtrace_packet_t -> option (list Z * Z * Z);
  trace_get_ip_ttl : libtrace_packet_t -> option Z;
  trace_get_ip6_hlim : libtrace_packet_t -> option Z;
  trace_get_tcp_syn_fin : libtrace_packet_t -> option (bool * bool);
  trace_get_udp_check : libtrace_packet_t -> option (list Z);
  trace_get_fragment_offset : libtrace_packet_t -> Z * Z;
  trace_get_payload_from_tcp : list Z -> Z -> option (list Z) * Z;
  trace_get_payload_from_udp : list Z -> Z -> option (list Z) * Z;
  trace_get_payload_from_icmp : list Z -> Z -> option (list Z) * Z;
  trace_get_payload_from_icmp6 : list Z -> Z -> option (list Z) * Z;
  trace_get_payload_length : libtrace_packet_t -> Z;
  trace_get_wire_length : libtrace_packet_t -> Z;
  trace_get_timeval : libtrace_packet_t -> timeval;
  trace_get_timespec : libtrace_packet_t -> timespec;
  trace_get_source_address : libtrace_packet_t -> option (list Z);
  trace_get_destination_address : libtrace_packet_t -> option (list Z);
}.

Definition TRACE_IPPROTO_ICMP : Z := 1.
Definition TRACE_IPPROTO_TCP : Z := 6.
Definition TRACE_IPPROTO_UDP : Z := 17.
Definition TRACE_IPPROTO_ICMPV6 : Z := 58.

(** ** Concrete instances for evaluation *)

Module Sample.

(** A DNS message: its bytes, and whether all records were parsed. *)
Record spkt := { s_wire : list Z; s_full : bool }.

Definition byte_at (i : nat) (w : list Z) : Z := default 0 (w !! i).
Definition be16_at (i : nat) (w : list Z) : Z := be_int (slice i 2 w).

(** Length in bytes of an uncompressed name, with its terminating zero. *)
Fixpoint name_size (fuel : nat) (w : list Z) : option nat :=
  match fuel with
  | O => None
  | S fuel =>
      match w with
      | [] => None
      | l :: w =>
          if l =? 0 then Some 1%nat
          else if l >? 63 then None
          else n ← name_size fuel (drop (Z.to_nat l) w); Some (1 + Z.to_nat l + n)%nat
      end
  end.

Definition qname_size (p : spkt) : nat := default O (name_size (length (s_wire p)) (drop 12 (s_wire p))).

Definition sample_parse_question (p : spkt) : knot_ret * spkt :=
  if (length (s_wire p) <? 12)%nat then (KNOT_EOTHER, p)
  else if negb (be16_at 4 (s_wire p) =? 1) then (KNOT_EOTHER, p)
  else if (qname_size p =? 0)%nat || (length (s_wire p) <? 12 + qname_size p + 4)%nat
  then (KNOT_EOTHER, p) else (KNOT_EOK, p).

(** The OPT record of a request that holds nothing else after its question. *)
Definition sample_opt_rr (p : spkt) : option (list Z) :=
  if s_full p && (0 <? be16_at 10 (s_wire p)) then
    Some (drop (12 + qname_size p + 4) (s_wire p))
  else None.

(** Presentation of a name: labels followed by dots. *)
Fixpoint name_str (fuel : nat) (w : list Z) : list Z :=
  match fuel, w with
  | S fuel, l :: w =>
      if l =? 0 then [] else take (Z.to_nat l) w ++ [46] ++ name_str fuel (drop (Z.to_nat l) w)
  | _, _ => []
  end.

(** Finds option [code] in the option list of an OPT record's data. *)
Fixpoint find_option (fuel : nat) (code : Z) (w : list Z) : option (list Z) :=
  match fuel with
  | O => None
  | S fuel =>
      if (length w <? 4)%nat then None
      else if be16_at 0 w =? code then Some w
      else find_option fuel code (drop (4 + Z.to_nat (be16_at 2 w)) w)
  end.

Definition flag (i : nat) (bit : Z) (w : list Z) : Z := if Z.testbit (byte_at i w) bit then 1 else 0.

Definition sample_knot : Libknot := {|
  knot_pkt_t := spkt;
  knot_rrset_t := list Z;
  knot_dname_t := list Z;
  sizeof_knot_pkt_t := 200;
  knot_pkt_new w := {| s_wire := w; s_full := false |};
  knot_pkt_parse_question := sample_parse_question;
  knot_pkt_parse p := (KNOT_EOK, {| s_wire := s_wire p; s_full := true |});
  kp_wire := s_wire;
  kp_qname_size p := Z.of_nat (qname_size p);
  kp_opt_rr := sample_opt_rr;
  knot_pkt_qname p := Some (slice 12 (qname_size p) (s_wire p));
  knot_pkt_qtype p := be16_at (12 + qname_size p) (s_wire p);
  knot_pkt_qclass p := be16_at (14 + qname_size p) (s_wire p);
  knot_dname_is_equal a b := bool_decide (a = b);
  knot_dname_to_str d n := match d with
                           | Some d => let s := name_str (length d) d in
                                       let s := if bool_decide (s = []) then [46] else s in
                                       if Z.of_nat (length s) <? n then Some s else None
                           | None => None
                           end;
  knot_wire_get_id := be16_at 0;
  knot_wire_get_qr := flag 2 7;
  knot_wire_get_opcode w := (byte_at 2 w / 8) mod 16;
  knot_wire_get_rcode w := byte_at 3 w mod 16;
  knot_wire_get_aa := flag 2 2;
  knot_wire_get_tc := flag 2 1;
  knot_wire_get_rd := flag 2 0;
  knot_wire_get_ra := flag 3 7;
  knot_wire_get_z := flag 3 6;
  knot_wire_get_ad := flag 3 5;
  knot_wire_get_cd := flag 3 4;
  knot_wire_get_ancount := be16_at 6;
  knot_wire_get_nscount := be16_at 8;
  knot_wire_get_arcount := be16_at 10;
  knot_edns_get_version rr := byte_at 6 rr;
  knot_edns_get_payload rr := be16_at 3 rr;
  knot_edns_do rr := Z.testbit (byte_at 7 rr) 7;
  knot_edns_get_ext_rcode rr := byte_at 5 rr;
  knot_edns_get_option rr code := find_option (length rr) code (drop 11 rr);
  knot_edns_opt_get_length o := be16_at 2 o;
|}.

(** A captured packet, by its decoded layers. *)
Record capture := {
  cap_transport : option (list Z * Z * Z);
  cap_ttl : option Z;
  cap_hlim : option Z;
  cap_syn_fin : option (bool * bool);
  cap_udp_check : option (list Z);
  cap_frag : Z * Z;
  cap_payload_length : Z;
  cap_wire_length : Z;
  cap_time : timeval;
  cap_src : option (list Z);
  cap_dst : option (list Z);
}.

(** Payload after a header of [n] bytes. *)
Definition skip_header (n : Z) (data : list Z) (remaining : Z) : option (list Z) * Z :=
  if remaining <? n then (None, 0) else (Some (drop (Z.to_nat n) data), remaining - n).

Definition sample_trace : Libtrace := {|
  libtrace_packet_t := capture;
  trace_get_transport := cap_transport;
  trace_get_ip_ttl := cap_ttl;
  trace_get_ip6_hlim := cap_hlim;
  trace_get_tcp_syn_fin := cap_syn_fin;
  trace_get_udp_check := cap_udp_check;
  trace_get_fragment_offset := cap_frag;
  trace_get_payload_from_tcp data := skip_header (byte_at 12 data / 16 * 4) data;
  trace_get_payload_from_udp := skip_header 8;
  trace_get_payload_from_icmp := skip_header 8;
  trace_get_payload_from_icmp6 := skip_header 8;
  trace_get_payload_length := cap_payload_length;
  trace_get_wire_length := cap_wire_length;
  trace_get_timeval := cap_time;
  trace_get_timespec c := {| ts_sec := tv_sec (cap_time c); ts_nsec := 1000 * tv_usec (cap_time c) |};
  trace_get_source_address := cap_src;
  trace_get_destination_address := cap_dst;
|}.

(** [struct sockaddr_in] for 10.0.0.[host]:[port], in 28 bytes. *)
Definition sockaddr4 (host port : Z) : list Z :=
  [2; 0] ++ be_bytes 2 port ++ [10; 0; 0; host] ++ replicate 20 0.

(** A query for [a.cz.] of type A, or its answer when [qr] is 128. *)
Definition message (id qr : Z) : list Z :=
  be_bytes 2 id ++ [qr; 0; 0; 1; 0; 0; 0; 0; 0; 0] ++ [1; 97; 2; 99; 122; 0; 0; 1; 0; 1].

(** A UDP packet with the given DNS message. *)
Definition udp_capture (src dst : list Z) (sec usec : Z) (dns : list Z) : capture :=
  let n := Z.of_nat (length dns) in
  {| cap_transport := Some (replicate 8 0 ++ dns, 17, 8 + n);
     cap_ttl := Some 64; cap_hlim := None; cap_syn_fin := None;
     cap_udp_check := Some [18; 52]; cap_frag := (0, 0);
     cap_payload_length := n; cap_wire_length := 42 + n;
     cap_time := {| tv_sec := sec; tv_usec := usec |};
     cap_src := Some src; cap_dst := Some dst |}.

(** A TCP packet with header length 20 bytes and the given payload. *)
Definition tcp_capture (src dst : list Z) (sec usec : Z) (payload : list Z) : capture :=
  let n := Z.of_nat (length payload) in
  {| cap_transport := Some (replicate 12 0 ++ [80] ++ replicate 7 0 ++ payload, 6, 20 + n);
     cap_ttl := Some 64; cap_hlim := None; cap_syn_fin := Some (false, false);
     cap_udp_check := None; cap_frag := (0, 0);
     cap_payload_length := n; cap_wire_length := 54 + n;
     cap_time := {| tv_sec := sec; tv_usec := usec |};
     cap_src := Some src; cap_dst := Some dst |}.

End Sample.
