(* ===== verification/Packet.v ===== *)
(** * DNS packets ([src/packet.h], [src/packet.c])

    The packet structure with its address and direction getters, creation
    from a captured libtrace packet, and the two operations request-response
    matching rests on: the primary key comparison and the primary hash.

    libknot and libtrace are the classes of [Libs]. *)

From stdpp Require Import base numbers strings gmap list.
From S2P Require Import Prelude Doubles Common Libs.

(** ** Socket addresses

    A [struct sockaddr_in6] is its 28 bytes on x86-64 Linux: the family
    (little endian), the port (network order), then [sin_addr] at offset 4
    (IPv4) or [sin6_addr] at offset 8 (IPv6). *)

Definition AF_INET : Z := 2.
Definition AF_INET6 : Z := 10.
Definition SOCKADDR_SIZE : nat := 28.

Definition DNS_SOCKADDR_AF (sa : list Z) : Z := le_int (slice 0 2 sa).

(** Both branches of the macro read the two bytes at offset 2. *)
Definition DNS_SOCKADDR_PORT (sa : list Z) : Z :=
  if DNS_SOCKADDR_AF sa =? AF_INET then be_int (slice 2 2 sa) else be_int (slice 2 2 sa).

(** The memory the address pointer points into. *)
Definition DNS_SOCKADDR_ADDR (sa : list Z) : list Z :=
  if DNS_SOCKADDR_AF sa =? AF_INET then drop 4 sa else drop 8 sa.

Definition DNS_SOCKADDR_ADDRLEN (sa : list Z) : Z :=
  if DNS_SOCKADDR_AF sa =? AF_INET then 4 else 16.

(** [memcmp(a, b, n) == 0]. *)
Definition memeq (n : nat) (a b : list Z) : bool := bool_decide (take n a = take n b).

(** [((uint32_t * )a)[i]] on a little-endian machine. *)
Definition word32 (a : list Z) (i : nat) : Z := le_int (slice (4 * i) 4 a).

(** ** The packet structure *)

(** Packets live in a store; a pointer to a packet is its location. *)
Definition loc : Set := positive.

Section packet.
Context `{K : Libknot}.

(** [struct dns_packet]; the list nodes [node] and [secnode] are the lists
    that hold the packet's location. *)
Record dns_packet : Type := {
  ts : Z;
  src_addr : list Z;
  dst_addr : list Z;
  net_protocol : Z;
  net_size : Z;
  net_ttl : Z;
  net_udp_sum : Z;
  dns_id : Z;
  response : option loc;
  dns_data : list Z;
  dns_data_size : Z;
  dns_data_size_orig : Z;
  knot_packet : knot_pkt_t;
  memory_size : Z;
}.

Definition sizeof_dns_packet_t : Z := 168.

(** [pkt->response = r]. *)
Definition set_response (p : dns_packet) (r : option loc) : dns_packet :=
  {| ts := ts p; src_addr := src_addr p; dst_addr := dst_addr p;
     net_protocol := net_protocol p; net_size := net_size p; net_ttl := net_ttl p;
     net_udp_sum := net_udp_sum p; dns_id := dns_id p; response := r;
     dns_data := dns_data p; dns_data_size := dns_data_size p;
     dns_data_size_orig := dns_data_size_orig p; knot_packet := knot_packet p;
     memory_size := memory_size p |}.

(** [DNS_PACKET_IS_RESPONSE], [DNS_PACKET_IS_REQUEST]. *)
Definition DNS_PACKET_IS_RESPONSE (p : dns_packet) : bool :=
  negb (knot_wire_get_qr (kp_wire (knot_packet p)) =? 0).

Definition DNS_PACKET_IS_REQUEST (p : dns_packet) : bool := negb (DNS_PACKET_IS_RESPONSE p).

Definition DNS_PACKET_CLIENT_SOCKADDR (p : dns_packet) : list Z :=
  if DNS_PACKET_IS_REQUEST p then src_addr p else dst_addr p.

Definition DNS_PACKET_SERVER_SOCKADDR (p : dns_packet) : list Z :=
  if DNS_PACKET_IS_REQUEST p then dst_addr p else src_addr p.

Definition DNS_PACKET_AF (p : dns_packet) : Z := DNS_SOCKADDR_AF (src_addr p).

Definition DNS_PACKET_CLIENT_PORT (p : dns_packet) : Z :=
  DNS_SOCKADDR_PORT (DNS_PACKET_CLIENT_SOCKADDR p).

Definition DNS_PACKET_SERVER_PORT (p : dns_packet) : Z :=
  DNS_SOCKADDR_PORT (DNS_PACKET_SERVER_SOCKADDR p).

Definition DNS_PACKET_CLIENT_ADDR (p : dns_packet) : list Z :=
  DNS_SOCKADDR_ADDR (DNS_PACKET_CLIENT_SOCKADDR p).

Definition DNS_PACKET_SERVER_ADDR (p : dns_packet) : list Z :=
  DNS_SOCKADDR_ADDR (DNS_PACKET_SERVER_SOCKADDR p).

(** ** Creation *)

(** [dns_packet_create]: a zeroed packet with a copy of the data, or with a
    zeroed block when [data] is NULL. *)
Definition dns_packet_create (data : option (list Z)) (size : Z) : outcome dns_packet :=
  d ← match data with
      | None => Ok (replicate (Z.to_nat size) 0)
      | Some bs => if Z.of_nat (length bs) <? size then Fail UndefinedBehaviour
                   else Ok (take (Z.to_nat size) bs)
      end;
  Ok {| ts := 0; src_addr := replicate SOCKADDR_SIZE 0; dst_addr := replicate SOCKADDR_SIZE 0;
        net_protocol := 0; net_size := 0; net_ttl := 0; net_udp_sum := 0; dns_id := 0;
        response := None; dns_data := d; dns_data_size := size; dns_data_size_orig := 0;
        knot_packet := knot_pkt_new d;
        memory_size := u64 (sizeof_dns_packet_t + size + sizeof_knot_pkt_t) |}.

(** The members filled in after [dns_packet_create] by
    [dns_packet_create_from_libtrace]. *)
Definition fill_packet (p : dns_packet) (orig t : Z) (src dst : list Z)
    (proto wire_len ttl sum id : Z) (kp : knot_pkt_t) : dns_packet :=
  {| ts := t; src_addr := src; dst_addr := dst; net_protocol := proto;
     net_size := wire_len; net_ttl := ttl; net_udp_sum := sum; dns_id := id;
     response := response p; dns_data := dns_data p; dns_data_size := dns_data_size p;
     dns_data_size_orig := orig; knot_packet := kp; memory_size := memory_size p |}.

Context `{T : Libtrace}.

(** The protocol switch of [dns_packet_create_from_libtrace]: the DNS data
    and its captured length, or the reason to drop the packet.  For TCP the
    first two payload bytes are the DNS message length. *)
Definition skip_protocol_header (tp : libtrace_packet_t) (transport_data : list Z)
    (proto remaining : Z) : outcome (dns_ret + (option (list Z) * Z)) :=
  if proto =? TRACE_IPPROTO_TCP then
    '(syn, fin) ← deref (trace_get_tcp_syn_fin tp);
    if syn || fin then Ok (inl DNS_RET_DROP_TRANSPORT)
    else if remaining <? 2 then Ok (inl DNS_RET_DROP_NETWORK)
    else
      let '(payload, remaining) := trace_get_payload_from_tcp transport_data remaining in
      bs ← deref payload;
      if (length bs <? 2)%nat then Fail UndefinedBehaviour
      else
        let message_size := be_int (take 2 bs) in
        let remaining := u32 (remaining - 2) in
        if negb (message_size + 2 =? trace_get_payload_length tp)
        then Ok (inl DNS_RET_DROP_TRANSPORT)
        else Ok (inr (Some (drop 2 bs), remaining))
  else if proto =? TRACE_IPPROTO_UDP then
    Ok (inr (trace_get_payload_from_udp transport_data remaining))
  else if proto =? TRACE_IPPROTO_ICMP then
    Ok (inr (trace_get_payload_from_icmp transport_data remaining))
  else if proto =? TRACE_IPPROTO_ICMPV6 then
    Ok (inr (trace_get_payload_from_icmp6 transport_data remaining))
  else Ok (inl DNS_RET_DROP_TRANSPORT).

(** The parsing steps at the end: the question of every packet, all records
    of a request. *)
Definition parse_packet (kp : knot_pkt_t) : outcome (dns_ret + knot_pkt_t) :=
  let '(r, kp) := knot_pkt_parse_question kp in
  if negb (bool_decide (r = KNOT_EOK)) then Ok (inl DNS_RET_DROP_MALF)
  else if negb (knot_wire_get_qr (kp_wire kp) =? 0) then Ok (inr kp)
  else
    let '(r, kp) := knot_pkt_parse kp in
    match r with
    | KNOT_EOK => Ok (inr kp)
    | KNOT_ENOMEM => Fail (Died "Out of memory allocating packet structures.")
    | KNOT_EOTHER => Ok (inl DNS_RET_DROP_MALF)
    end.

(** [dns_packet_create_from_libtrace]. *)
Definition dns_packet_create_from_libtrace (tp : libtrace_packet_t)
    : outcome (dns_ret * option dns_packet) :=
  match trace_get_transport tp with
  | None => Ok (DNS_RET_DROP_NETWORK, None)
  | Some (transport_data, proto, remaining) =>
      let '(frag_offset, frag_more) := trace_get_fragment_offset tp in
      if (frag_offset >? 0) || negb (frag_more =? 0) then Ok (DNS_RET_DROP_FRAGMENTED, None)
      else
        sw ← skip_protocol_header tp transport_data proto remaining;
        match sw with
        | inl r => Ok (r, None)
        | inr (data, remaining) =>
            pkt ← dns_packet_create data remaining;
            t ← dns_us_time_from_timeval (trace_get_timeval tp);
            match trace_get_source_address tp, trace_get_destination_address tp with
            | Some src, Some dst =>
                parsed ← parse_packet (knot_packet pkt);
                match parsed with
                | inl r => Ok (r, None)
                | inr kp =>
                    let ttl := match trace_get_ip6_hlim tp, trace_get_ip_ttl tp with
                               | Some h, _ => h
                               | None, Some t => t
                               | None, None => 0
                               end in
                    let sum := match trace_get_udp_check tp with
                               | Some bs => be_int (take 2 bs)
                               | None => 0
                               end in
                    Ok (DNS_RET_OK,
                        Some (fill_packet pkt (trace_get_payload_length tp) t src dst proto
                                (trace_get_wire_length tp) ttl sum
                                (knot_wire_get_id (dns_data pkt)) kp))
                end
            | _, _ => Ok (DNS_RET_DROP_NETWORK, None)
            end
        end
  end.

Lemma dns_packet_create_spec data size p :
  dns_packet_create data size = Ok p ->
  response p = None /\
  (0 <= dns_data_size p -> dns_data_size p = Z.of_nat (length (dns_data p))) /\
  memory_size p = u64 (sizeof_dns_packet_t + dns_data_size p + sizeof_knot_pkt_t) /\
  dns_data_size p = size.
Proof.
  unfold dns_packet_create. intros H. inv_ok. cbn. repeat split. intros Hs.
  destruct data as [bs|]; cbn in *.
  - destruct (Z.ltb_spec (Z.of_nat (length bs)) size); inv_ok. rewrite length_take. lia.
  - inv_ok. rewrite length_replicate. lia.
Qed.

(** A packet is dropped with a reason other than success. *)
Lemma skip_protocol_header_drop tp td proto rem :
  skip_protocol_header tp td proto rem = Ok (inl DNS_RET_OK) -> False.
Proof.
  unfold skip_protocol_header. intros H.
  repeat first [case_match | progress inv_ok]; simplify_eq.
Qed.

Lemma parse_packet_drop kp : parse_packet kp = Ok (inl DNS_RET_OK) -> False.
Proof. unfold parse_packet. intros H. repeat case_match; simplify_eq. Qed.

Lemma skip_protocol_header_tcp tp td rem data rem1 :
  skip_protocol_header tp td TRACE_IPPROTO_TCP rem = Ok (inr (data, rem1)) ->
  exists bs rem', trace_get_payload_from_tcp td rem = (Some bs, rem') /\
    data = Some (drop 2 bs) /\ rem1 = u32 (rem' - 2) /\
    be_int (take 2 bs) + 2 = trace_get_payload_length tp.
Proof.
  unfold skip_protocol_header. rewrite Z.eqb_refl. intros H. inv_ok. destruct a as [syn fin].
  destruct (syn || fin); [done|]. destruct (rem <? 2); [done|].
  destruct (trace_get_payload_from_tcp td rem) as [payload rem'].
  inv_ok. subst. destruct (_ <? 2)%nat; [done|].
  destruct (Z.eqb_spec (be_int (take 2 a) + 2) (trace_get_payload_length tp)); cbn in H; [|done].
  simplify_eq. eauto 10.
Qed.

(** ** Hash and comparison *)

(** One step of the address loop of [dns_packet_primary_hash]. *)
Definition hash_addr_step (p : dns_packet) (param : Z) (hash : Z) (i : nat) : Z :=
  let hash := u64 (hash + u64 (Z.shiftl (word32 (DNS_SOCKADDR_ADDR (src_addr p)) i) 32)) in
  let hash := u64 (hash + u64 (Z.shiftl (word32 (DNS_SOCKADDR_ADDR (dst_addr p)) i) 32)) in
  hash mod param.

Definition dns_packet_primary_hash (p : dns_packet) (param : Z) : outcome Z :=
  _ ← c_assert (param >? 256);
  let hash := 0 in
  let hash := u64 (hash + DNS_PACKET_AF p) in
  let hash := u64 (hash + u64 (Z.shiftl (net_protocol p) 16)) in
  let hash := u64 (hash + u64 (Z.shiftl (DNS_SOCKADDR_PORT (dst_addr p)) 32)) in
  let hash := u64 (hash + u64 (Z.shiftl (DNS_SOCKADDR_PORT (src_addr p)) 32)) in
  let hash := u64 (hash + u64 (Z.shiftl (dns_id p) 48)) in
  let hash := hash mod param in
  Ok (foldl (hash_addr_step p param) hash
        (seq 0 (Z.to_nat (DNS_SOCKADDR_ADDRLEN (src_addr p) / 4)))).

(** [dns_packet_qname_match]. *)
Definition dns_packet_qname_match (request response : dns_packet) : outcome bool :=
  _ ← c_assert (DNS_PACKET_IS_REQUEST request && DNS_PACKET_IS_RESPONSE response);
  if kp_qname_size (knot_packet response) =? 1 then Ok true
  else if negb (kp_qname_size (knot_packet request) =? kp_qname_size (knot_packet response))
  then Ok false
  else
    match knot_pkt_qname (knot_packet request), knot_pkt_qname (knot_packet response) with
    | None, None => Ok true
    | Some req_q, Some res_q => Ok (knot_dname_is_equal res_q req_q)
    | _, _ => Ok false
    end.

(** [dns_packet_primary_match]. *)
Definition dns_packet_primary_match (p1 p2 : dns_packet) : bool :=
  let addr_len := Z.to_nat (DNS_SOCKADDR_ADDRLEN (src_addr p1)) in
  if negb (DNS_PACKET_AF p1 =? DNS_PACKET_AF p2)
     || negb (net_protocol p1 =? net_protocol p2)
     || negb (dns_id p1 =? dns_id p2) then false
  else if eqb (negb (DNS_PACKET_IS_REQUEST p1)) (negb (DNS_PACKET_IS_REQUEST p2)) then
    (DNS_SOCKADDR_PORT (src_addr p1) =? DNS_SOCKADDR_PORT (src_addr p2)) &&
    (DNS_SOCKADDR_PORT (dst_addr p1) =? DNS_SOCKADDR_PORT (dst_addr p2)) &&
    memeq addr_len (DNS_SOCKADDR_ADDR (src_addr p1)) (DNS_SOCKADDR_ADDR (src_addr p2)) &&
    memeq addr_len (DNS_SOCKADDR_ADDR (dst_addr p1)) (DNS_SOCKADDR_ADDR (dst_addr p2))
  else
    (DNS_SOCKADDR_PORT (src_addr p1) =? DNS_SOCKADDR_PORT (dst_addr p2)) &&
    (DNS_SOCKADDR_PORT (dst_addr p1) =? DNS_SOCKADDR_PORT (src_addr p2)) &&
    memeq addr_len (DNS_SOCKADDR_ADDR (src_addr p1)) (DNS_SOCKADDR_ADDR (dst_addr p2)) &&
    memeq addr_len (DNS_SOCKADDR_ADDR (dst_addr p1)) (DNS_SOCKADDR_ADDR (src_addr p2)).

(** ** The primary key

    What the comparison compares, written as a value: address family,
    protocol, DNS id, and the two endpoints by role. *)
Record primary_key : Set := {
  key_af : Z;
  key_proto : Z;
  key_id : Z;
  key_client : Z * list Z;
  key_server : Z * list Z;
}.

#[global] Instance primary_key_eq_dec : EqDecision primary_key.
Proof. solve_decision. Defined.

Definition endpoint (p : dns_packet) (sa : list Z) : Z * list Z :=
  (DNS_SOCKADDR_PORT sa,
   take (Z.to_nat (DNS_SOCKADDR_ADDRLEN (src_addr p))) (DNS_SOCKADDR_ADDR sa)).

Definition packet_key (p : dns_packet) : primary_key :=
  {| key_af := DNS_PACKET_AF p; key_proto := net_protocol p; key_id := dns_id p;
     key_client := endpoint p (DNS_PACKET_CLIENT_SOCKADDR p);
     key_server := endpoint p (DNS_PACKET_SERVER_SOCKADDR p) |}.

Lemma addrlen_af p1 p2 : DNS_PACKET_AF p1 = DNS_PACKET_AF p2 ->
  DNS_SOCKADDR_ADDRLEN (src_addr p1) = DNS_SOCKADDR_ADDRLEN (src_addr p2).
Proof. unfold DNS_PACKET_AF, DNS_SOCKADDR_ADDRLEN. by intros ->. Qed.

Lemma memeq_spec n a b : memeq n a b = true <-> take n a = take n b.
Proof. apply bool_decide_eq_true. Qed.

Lemma primary_match_key p1 p2 :
  dns_packet_primary_match p1 p2 = true <-> packet_key p1 = packet_key p2.
Proof.
  unfold dns_packet_primary_match.
  destruct (Z.eqb_spec (DNS_PACKET_AF p1) (DNS_PACKET_AF p2)) as [Haf|Haf]; cbn [negb orb].
  2: { split; [done|]. intros H. apply (f_equal key_af) in H. done. }
  destruct (Z.eqb_spec (net_protocol p1) (net_protocol p2)) as [Hpr|Hpr]; cbn [negb orb].
  2: { split; [done|]. intros H. apply (f_equal key_proto) in H. done. }
  destruct (Z.eqb_spec (dns_id p1) (dns_id p2)) as [Hid|Hid]; cbn [negb orb].
  2: { split; [done|]. intros H. apply (f_equal key_id) in H. done. }
  unfold packet_key, endpoint, DNS_PACKET_CLIENT_SOCKADDR, DNS_PACKET_SERVER_SOCKADDR.
  rewrite <- (addrlen_af p1 p2 Haf), <- Haf, <- Hpr, <- Hid.
  destruct (DNS_PACKET_IS_REQUEST p1), (DNS_PACKET_IS_REQUEST p2); cbn [negb eqb];
    rewrite !andb_true_iff, !memeq_spec, !Z.eqb_eq;
    (split; [intros [[[-> ->] ->] ->]; done | intros [=]; auto]).
Qed.

Lemma primary_match_key_false p1 p2 :
  dns_packet_primary_match p1 p2 = false <-> packet_key p1 <> packet_key p2.
Proof. rewrite <- primary_match_key. destruct dns_packet_primary_match; naive_solver. Qed.

Lemma primary_match_decide p1 p2 :
  dns_packet_primary_match p1 p2 = bool_decide (packet_key p1 = packet_key p2).
Proof.
  destruct (dns_packet_primary_match p1 p2) eqn:E; symmetry.
  - by apply bool_decide_eq_true, primary_match_key.
  - by apply bool_decide_eq_false, primary_match_key_false.
Qed.

(** ** The hash is a function of the key *)

Lemma word32_take n a i : (4 * i + 4 <= n)%nat -> word32 (take n a) i = word32 a i.
Proof.
  intros H. unfold word32, slice. f_equal.
  rewrite skipn_firstn_comm, take_take. f_equal. lia.
Qed.

Definition key_hash_step (k : primary_key) (param : Z) (hash : Z) (i : nat) : Z :=
  u64 (hash + Z.shiftl (word32 (key_client k).2 i) 32
            + Z.shiftl (word32 (key_server k).2 i) 32) mod param.

(** The hash as a function of the primary key. *)
Definition key_hash (k : primary_key) (param : Z) : Z :=
  foldl (key_hash_step k param)
    (u64 (key_af k + Z.shiftl (key_proto k) 16 + Z.shiftl (key_client k).1 32
          + Z.shiftl (key_server k).1 32 + Z.shiftl (key_id k) 48) mod param)
    (seq 0 (Z.to_nat ((if key_af k =? AF_INET then 4 else 16) / 4))).

Lemma foldl_ext_in {A B} (f g : A -> B -> A) (l : list B) (a : A) :
  (forall a b, b ∈ l -> f a b = g a b) -> foldl f a l = foldl g a l.
Proof.
  revert a; induction l as [|b l IH]; intros a H; cbn; [done|].
  rewrite (H a b) by set_solver. apply IH. intros. apply H. set_solver.
Qed.

Lemma hash_addr_step_key p param hash i :
  (4 * i + 4 <= Z.to_nat (DNS_SOCKADDR_ADDRLEN (src_addr p)))%nat ->
  hash_addr_step p param hash i = key_hash_step (packet_key p) param hash i.
Proof.
  intros Hi. unfold hash_addr_step, key_hash_step, packet_key, endpoint. cbn [key_client key_server snd].
  rewrite !word32_take by done. u64_norm.
  unfold DNS_PACKET_CLIENT_SOCKADDR, DNS_PACKET_SERVER_SOCKADDR.
  destruct (DNS_PACKET_IS_REQUEST p); f_equal; f_equal; lia.
Qed.

Lemma primary_hash_key p param : 256 < param ->
  dns_packet_primary_hash p param = Ok (key_hash (packet_key p) param).
Proof.
  intros Hp. unfold dns_packet_primary_hash. rewrite c_assert_true by (apply Z.gtb_lt; lia).
  cbn [mbind outcome_bind]. f_equal. unfold key_hash.
  replace (if key_af (packet_key p) =? AF_INET then 4 else 16)
    with (DNS_SOCKADDR_ADDRLEN (src_addr p)) by done.
  rewrite (foldl_ext_in _ (key_hash_step (packet_key p) param)).
  - f_equal. u64_norm. f_equal. f_equal.
    unfold packet_key, endpoint, DNS_PACKET_CLIENT_SOCKADDR, DNS_PACKET_SERVER_SOCKADDR.
    cbn [key_af key_proto key_id key_client key_server fst].
    destruct (DNS_PACKET_IS_REQUEST p); lia.
  - intros a i Hi. apply hash_addr_step_key. apply list_elem_of_In, in_seq in Hi.
    revert Hi. unfold DNS_SOCKADDR_ADDRLEN. destruct (_ =? _);
      [change (Z.to_nat (4 / 4)) with 1%nat | change (Z.to_nat (16 / 4)) with 4%nat]; lia.
Qed.

Lemma key_hash_range k param : 256 < param -> 0 <= key_hash k param < param.
Proof.
  intros Hp. unfold key_hash.
  assert (H : forall (l : list nat) a, 0 <= a < param -> 0 <= foldl (key_hash_step k param) a l < param).
  { induction l as [|i l IH]; intros a Ha; cbn; [done|]. apply IH.
    unfold key_hash_step. apply Z.mod_pos_bound. lia. }
  apply H, Z.mod_pos_bound. lia.
Qed.

(** ** Properties *)

(** C18: the comparison of two packets is equality of their primary keys:
    same address family, protocol and DNS id, and the same client and server
    endpoint (address and port), where request and response name the two
    endpoints in opposite order.  It is therefore an equivalence. *)
Theorem primary_match_spec (p1 p2 : dns_packet) :
  dns_packet_primary_match p1 p2 = bool_decide (packet_key p1 = packet_key p2).
Proof. apply primary_match_decide. Qed.

(** Packets that match have the same primary hash under every modulus
    the code accepts, so a response is looked up in the bucket chain its
    request was inserted in; the hash is below the modulus. *)
Theorem primary_match_same_hash (p1 p2 : dns_packet) (param : Z) :
  256 < param -> dns_packet_primary_match p1 p2 = true ->
  exists h, dns_packet_primary_hash p1 param = Ok h /\
    dns_packet_primary_hash p2 param = Ok h /\ 0 <= h < param.
Proof.
  intros Hp Hm. apply primary_match_key in Hm. exists (key_hash (packet_key p1) param).
  rewrite !primary_hash_key, Hm by done. auto using key_hash_range.
Qed.

Lemma libtrace_packet_spec (tp : libtrace_packet_t) (r : dns_ret) (o : option dns_packet) :
  dns_packet_create_from_libtrace tp = Ok (r, o) ->
  (r = DNS_RET_OK <-> is_Some o) /\
  forall p, o = Some p ->
    response p = None /\
    (0 <= dns_data_size p -> dns_data_size p = Z.of_nat (length (dns_data p))) /\
    memory_size p = u64 (sizeof_dns_packet_t + dns_data_size p + sizeof_knot_pkt_t) /\
    dns_us_time_from_timeval (trace_get_timeval tp) = Ok (ts p) /\
    trace_get_source_address tp = Some (src_addr p) /\
    trace_get_destination_address tp = Some (dst_addr p) /\
    net_size p = trace_get_wire_length tp /\
    dns_data_size_orig p = trace_get_payload_length tp /\
    dns_id p = knot_wire_get_id (dns_data p).
Proof.
  unfold dns_packet_create_from_libtrace. intros H.
  destruct (trace_get_transport tp) as [[[td proto] remaining]|]; [|by simplify_eq; split].
  destruct (trace_get_fragment_offset tp) as [fo fm].
  destruct (_ || _); [by simplify_eq; split|].
  inv_ok. destruct a as [r'|[data rem]].
  { simplify_eq. split; [|done]. split; [|by intros []]. intros ->.
    by apply skip_protocol_header_drop in H0. }
  inv_ok.
  destruct (trace_get_source_address tp) as [src|]; [|by simplify_eq; split].
  destruct (trace_get_destination_address tp) as [dst|]; [|by simplify_eq; split].
  inv_ok. destruct a1 as [r'|kp].
  { simplify_eq. split; [|done]. split; [|by intros []]. intros ->.
    by apply parse_packet_drop in H3. }
  simplify_eq. split; [done|]. intros p [= <-].
  apply dns_packet_create_spec in H1 as (? & ? & ? & ?). cbn. auto 10.
Qed.

(** Creating a packet from a capture returns a packet exactly when it
    returns [DNS_RET_OK]; the packet has no response yet, owns the captured
    DNS bytes with their count, carries the capture's time and addresses and
    the wire length, and its accounted memory is the sum of its parts. *)
Theorem create_from_libtrace_ok (tp : libtrace_packet_t) (r : dns_ret) (o : option dns_packet) :
  dns_packet_create_from_libtrace tp = Ok (r, o) ->
  (r = DNS_RET_OK <-> is_Some o) /\
  forall p, o = Some p ->
    response p = None /\
    (0 <= dns_data_size p -> dns_data_size p = Z.of_nat (length (dns_data p))) /\
    memory_size p = u64 (sizeof_dns_packet_t + dns_data_size p + sizeof_knot_pkt_t) /\
    dns_us_time_from_timeval (trace_get_timeval tp) = Ok (ts p) /\
    trace_get_source_address tp = Some (src_addr p) /\
    trace_get_destination_address tp = Some (dst_addr p) /\
    net_size p = trace_get_wire_length tp /\
    dns_data_size_orig p = trace_get_payload_length tp /\
    dns_id p = knot_wire_get_id (dns_data p).
Proof. apply libtrace_packet_spec. Qed.

(** A TCP packet is accepted only when its whole payload is one DNS
    message: the first two payload bytes hold the number of bytes that
    follow.  The recorded original DNS length counts those two bytes too. *)
Theorem create_from_libtrace_tcp (tp : libtrace_packet_t) (p : dns_packet) (td : list Z) (rem : Z) :
  trace_get_transport tp = Some (td, TRACE_IPPROTO_TCP, rem) ->
  dns_packet_create_from_libtrace tp = Ok (DNS_RET_OK, Some p) ->
  exists bs rem', trace_get_payload_from_tcp td rem = (Some bs, rem') /\
    dns_data_size_orig p = be_int (take 2 bs) + 2 /\
    dns_data p = take (Z.to_nat (u32 (rem' - 2))) (drop 2 bs).
Proof.
  intros Ht. unfold dns_packet_create_from_libtrace. rewrite Ht. intros H.
  destruct (trace_get_fragment_offset tp) as [fo fm].
  destruct (_ || _); [by simplify_eq|].
  inv_ok. destruct a as [r'|[data rem1]]; [by simplify_eq|]. inv_ok.
  destruct (trace_get_source_address tp) as [src|]; [|by simplify_eq].
  destruct (trace_get_destination_address tp) as [dst|]; [|by simplify_eq].
  inv_ok. destruct a1 as [r'|kp]; [by simplify_eq|]. simplify_eq.
  apply skip_protocol_header_tcp in H0 as (bs & rem' & Hp & -> & -> & Hlen).
  exists bs, rem'. split; [done|]. cbn [fill_packet dns_data_size_orig dns_data]. split; [lia|].
  unfold dns_packet_create in H1. inv_ok. destruct (_ <? _); [done|]. by simplify_eq.
Qed.

(** A TCP packet that is neither SYN nor FIN and whose payload is
    missing or shorter than the two length bytes, such as a bare ACK, makes
    the code read the length through a null pointer or past the captured
    data: [remaining] is tested before the TCP header is skipped. *)
Theorem create_from_libtrace_tcp_short (tp : libtrace_packet_t) (td : list Z) (rem rem' : Z)
    (payload : option (list Z)) :
  trace_get_transport tp = Some (td, TRACE_IPPROTO_TCP, rem) ->
  trace_get_fragment_offset tp = (0, 0) ->
  trace_get_tcp_syn_fin tp = Some (false, false) ->
  2 <= rem ->
  trace_get_payload_from_tcp td rem = (payload, rem') ->
  (length (default [] payload) < 2)%nat ->
  dns_packet_create_from_libtrace tp = Fail UndefinedBehaviour.
Proof.
  intros Ht Hf Hs Hr Hp Hl. unfold dns_packet_create_from_libtrace, skip_protocol_header.
  rewrite Ht, Hf, Hs. cbn. destruct (Z.ltb_spec rem 2); [lia|]. rewrite Hp.
  destruct payload as [[|b1 [|b2 bs]]|]; cbn in *; [done | done | lia | done].
Qed.

End packet.

(** ** Closed examples *)

Section examples.
#[local] Existing Instance Sample.sample_knot.
#[local] Existing Instance Sample.sample_trace.

(** A query from client 10.0.0.1:5000 to server 10.0.0.2:53. *)
Definition sample_query : Sample.capture :=
  Sample.udp_capture (Sample.sockaddr4 1 5000) (Sample.sockaddr4 2 53) 100 5 (Sample.message 77 1).

(** Its answer. *)
Definition sample_answer : Sample.capture :=
  Sample.udp_capture (Sample.sockaddr4 2 53) (Sample.sockaddr4 1 5000) 100 905 (Sample.message 77 128).

(** The packet a capture gives, or a zeroed packet. *)
Definition packet_of (c : Sample.capture) : dns_packet :=
  match dns_packet_create_from_libtrace c with
  | Ok (_, Some p) => p
  | _ => {| ts := 0; src_addr := []; dst_addr := []; net_protocol := 0; net_size := 0;
            net_ttl := 0; net_udp_sum := 0; dns_id := 0; response := None; dns_data := [];
            dns_data_size := 0; dns_data_size_orig := 0;
            knot_packet := {| Sample.s_wire := []; Sample.s_full := false |}; memory_size := 0 |}
  end.

Lemma primary_match_same_hash_witness : exists h,
  dns_packet_primary_hash (packet_of sample_query) 1000003 = Ok h /\
  dns_packet_primary_hash (packet_of sample_answer) 1000003 = Ok h /\ 0 <= h < 1000003.
Proof.
  apply (primary_match_same_hash (packet_of sample_query) (packet_of sample_answer) 1000003).
  - lia.
  - vm_compute. reflexivity.
Defined.

Lemma create_from_libtrace_ok_witness :
  is_Some (Some (packet_of sample_query)) /\
  dns_us_time_from_timeval (Sample.cap_time sample_query) = Ok (ts (packet_of sample_query)).
Proof.
  destruct (create_from_libtrace_ok (T:=Sample.sample_trace) sample_query DNS_RET_OK (Some (packet_of sample_query)))
    as [H1 H2]; [vm_compute; reflexivity|].
  split; [by apply H1 | by destruct (H2 _ eq_refl) as (_ & _ & _ & Ht & _)].
Defined.

(** A DNS message over TCP, with its length in front. *)
Definition sample_tcp : Sample.capture :=
  Sample.tcp_capture (Sample.sockaddr4 1 5000) (Sample.sockaddr4 2 53) 100 5
    (be_bytes 2 22 ++ Sample.message 77 1).

Lemma create_from_libtrace_tcp_witness : exists bs rem',
  trace_get_payload_from_tcp
    (replicate 12 0 ++ [80] ++ replicate 7 0 ++ be_bytes 2 22 ++ Sample.message 77 1) 44
    = (Some bs, rem') /\
  dns_data_size_orig (packet_of sample_tcp) = be_int (take 2 bs) + 2 /\
  dns_data (packet_of sample_tcp) = take (Z.to_nat (u32 (rem' - 2))) (drop 2 bs).
Proof.
  apply (create_from_libtrace_tcp (T:=Sample.sample_trace) sample_tcp (packet_of sample_tcp)).
  - vm_compute. reflexivity.
  - vm_compute. reflexivity.
Defined.

Lemma create_from_libtrace_tcp_short_witness :
  dns_packet_create_from_libtrace
    (Sample.tcp_capture (Sample.sockaddr4 1 5000) (Sample.sockaddr4 2 53) 100 5 [])
  = Fail UndefinedBehaviour.
Proof.
  apply (create_from_libtrace_tcp_short (T:=Sample.sample_trace)
           (Sample.tcp_capture (Sample.sockaddr4 1 5000) (Sample.sockaddr4 2 53) 100 5 [])
           (replicate 12 0 ++ [80] ++ replicate 7 0) 20 0 (Some [])).
  - vm_compute. reflexivity.
  - vm_compute. reflexivity.
  - vm_compute. reflexivity.
  - lia.
  - vm_compute. reflexivity.
  - cbn. lia.
Defined.

End examples.
