(* ===== verification/PacketFrame.v ===== *)
(** * Packet frames ([src/packet_frame.h], [src/packet_frame.c])

    A frame is a group of packets of a short time interval.  Packets are
    locations of a store; a frame owns its packets, and a packet owns its
    response.  Destruction frees the packets of a frame with their
    responses. *)

From stdpp Require Import base numbers gmap list.
From S2P Require Import Prelude Doubles Common Libs Packet.

Section frame.
Context `{K : Libknot}.

(** The heap of packets. *)
Abbreviation mem := (gmap loc dns_packet).

(** [struct dns_packet_frame]; the [clist] of packets is the list of their
    locations. *)
Record dns_packet_frame : Type := {
  time_start : Z;
  time_end : Z;
  frame_type : Z;
  packets : list loc;
  frame_count : Z;
  frame_size : Z;
}.

Definition dns_packet_frame_create (start fin : Z) : dns_packet_frame :=
  {| time_start := start; time_end := fin; frame_type := 0; packets := [];
     frame_count := 0; frame_size := 0 |}.

Definition dns_packet_frame_create_final (time : Z) : dns_packet_frame :=
  let f := dns_packet_frame_create time time in
  {| time_start := time_start f; time_end := time_end f; frame_type := 1;
     packets := packets f; frame_count := frame_count f; frame_size := frame_size f |}.

(** [frame->time_end = t]. *)
Definition set_time_end (f : dns_packet_frame) (t : Z) : dns_packet_frame :=
  {| time_start := time_start f; time_end := t; frame_type := frame_type f;
     packets := packets f; frame_count := frame_count f; frame_size := frame_size f |}.

(** [frame->packets = ps] (after a packet was taken off the list). *)
Definition set_packets (f : dns_packet_frame) (ps : list loc) : dns_packet_frame :=
  {| time_start := time_start f; time_end := time_end f; frame_type := frame_type f;
     packets := ps; frame_count := frame_count f; frame_size := frame_size f |}.

(** [dns_packet_frame_append_packet]. *)
Definition dns_packet_frame_append_packet (m : mem) (f : dns_packet_frame) (l : loc)
    : outcome dns_packet_frame :=
  p ← deref (m !! l);
  let fin := if (time_end f =? DNS_NO_TIME) || (time_end f <? ts p) then ts p else time_end f in
  Ok {| time_start := time_start f; time_end := fin; frame_type := frame_type f;
        packets := packets f ++ [l];
        frame_count := u64 (frame_count f + 1);
        frame_size := u64 (frame_size f + memory_size p) |}.

(** [dns_packet_destroy]: frees the response first, then the packet.  The
    fuel bounds the length of the response chain. *)
Fixpoint packet_destroy (fuel : nat) (m : mem) (l : loc) : outcome mem :=
  match fuel with
  | O => Fail OutOfFuel
  | S fuel =>
      p ← deref (m !! l);
      m' ← match response p with
           | Some r => packet_destroy fuel m r
           | None => Ok m
           end;
      Ok (delete l m')
  end.

Definition dns_packet_destroy (m : mem) (l : loc) : outcome mem :=
  packet_destroy (S (size m)) m l.

(** [dns_packet_frame_destroy]. *)
Definition dns_packet_frame_destroy (m : mem) (f : dns_packet_frame) : outcome mem :=
  foldM dns_packet_destroy m (packets f).

(** ** Ownership *)

(** What a packet owns: itself and its response. *)
Definition owned (m : mem) (l : loc) : list loc :=
  match m !! l with
  | Some p => l :: option_list (response p)
  | None => [l]
  end.

(** A packet that can be destroyed: it is live, and so is its response, which
    has no response of its own. *)
Definition destructible (m : mem) (l : loc) : Prop :=
  exists p, m !! l = Some p /\
    forall r, response p = Some r -> r <> l /\ exists pr, m !! r = Some pr /\ response pr = None.

Definition delete_all (ls : list loc) (m : mem) : mem := foldr delete m ls.

Lemma lookup_delete_all ls (m : mem) l :
  delete_all ls m !! l = if decide (l ∈ ls) then None else m !! l.
Proof.
  induction ls as [|x ls IH]; cbn; [done|].
  rewrite lookup_delete. repeat case_decide; set_solver.
Qed.

Lemma delete_all_app l1 l2 (m : mem) : delete_all (l1 ++ l2) m = delete_all l2 (delete_all l1 m).
Proof.
  apply map_eq. intros l. rewrite !lookup_delete_all. repeat case_decide; set_solver.
Qed.

Lemma delete_all_outside ls (m : mem) l : l ∉ ls -> delete_all ls m !! l = m !! l.
Proof. intros H. rewrite lookup_delete_all. by rewrite decide_False. Qed.

Lemma packet_destroy_owned (m : mem) l : destructible m l ->
  dns_packet_destroy m l = Ok (delete_all (owned m l) m).
Proof.
  intros (p & Hl & Hr). unfold dns_packet_destroy, owned. rewrite Hl.
  assert (Hsz : (0 < size m)%nat).
  { destruct (size m) eqn:E; [|lia]. apply map_size_empty_inv in E. subst.
    by rewrite lookup_empty in Hl. }
  destruct (size m) as [|n]; [lia|].
  cbn [packet_destroy]. rewrite Hl. cbn [deref mbind outcome_bind].
  destruct (response p) as [r|]; cbn [option_list]; [|done].
  destruct (Hr r eq_refl) as (Hne & pr & Hpr & Hnone).
  rewrite Hpr. cbn. rewrite Hnone. cbn. f_equal.
Qed.

(** Destroying one packet leaves the others it does not own as they were. *)
Lemma destructible_delete_all (m : mem) ls l :
  destructible m l -> (forall x, x ∈ owned m l -> x ∉ ls) ->
  destructible (delete_all ls m) l /\ owned (delete_all ls m) l = owned m l.
Proof.
  intros (p & Hl & Hr) Hout. unfold owned in *. rewrite Hl in *.
  assert (Hl' : delete_all ls m !! l = Some p) by (rewrite delete_all_outside; set_solver).
  rewrite Hl'. split; [|done]. exists p. split; [done|]. intros r Hresp.
  destruct (Hr r Hresp) as (Hne & pr & Hpr & Hn). split; [done|]. exists pr.
  split; [|done]. rewrite delete_all_outside; [done|].
  apply Hout. rewrite Hresp. cbn. set_solver.
Qed.

Lemma foldM_destroy (m : mem) ls :
  Forall (destructible m) ls -> NoDup (flat_map (owned m) ls) ->
  foldM dns_packet_destroy m ls = Ok (delete_all (flat_map (owned m) ls) m).
Proof.
  revert m; induction ls as [|l ls IH]; intros m Hd Hnd; cbn [foldM flat_map]; [done|].
  inversion Hd as [|? ? Hl Hls]; subst. cbn [flat_map] in Hnd.
  apply NoDup_app in Hnd as (Hnd1 & Hdis & Hnd2).
  rewrite packet_destroy_owned by done. cbn [mbind outcome_bind].
  assert (Heach : forall x, x ∈ ls ->
            destructible (delete_all (owned m l) m) x /\
            owned (delete_all (owned m l) m) x = owned m x).
  { intros x Hx. apply destructible_delete_all.
    - by eapply Forall_forall in Hls.
    - intros y Hy Hy'. apply (Hdis y Hy'). apply list_elem_of_In, in_flat_map.
      exists x. rewrite <- !list_elem_of_In. done. }
  assert (Hfm : flat_map (owned (delete_all (owned m l) m)) ls = flat_map (owned m) ls).
  { rewrite !flat_map_concat_map. f_equal. apply map_ext_in. intros x Hx.
    apply Heach. by apply list_elem_of_In. }
  rewrite IH.
  - rewrite Hfm. f_equal. symmetry. apply delete_all_app.
  - apply Forall_forall. intros x Hx. by apply Heach.
  - by rewrite Hfm.
Qed.

(** ** Properties *)

(** Destroying a frame whose packets are live and owned once frees
    exactly its packets and their responses, each once, and touches nothing
    else in the heap. *)
Theorem frame_destroy_frees_owned (m : mem) (f : dns_packet_frame) :
  Forall (destructible m) (packets f) ->
  NoDup (flat_map (owned m) (packets f)) ->
  dns_packet_frame_destroy m f = Ok (delete_all (flat_map (owned m) (packets f)) m).
Proof. apply foldM_destroy. Qed.

Lemma append_packet_spec (m : mem) f l p : m !! l = Some p ->
  exists f', dns_packet_frame_append_packet m f l = Ok f' /\
    packets f' = packets f ++ [l] /\ time_start f' = time_start f /\
    frame_type f' = frame_type f /\
    time_end f' = (if (time_end f =? DNS_NO_TIME) || (time_end f <? ts p)
                   then ts p else time_end f) /\
    frame_count f' = u64 (frame_count f + 1) /\
    frame_size f' = u64 (frame_size f + memory_size p).
Proof.
  intros Hl. unfold dns_packet_frame_append_packet. rewrite Hl. cbn. eexists.
  split; [reflexivity|]. done.
Qed.

End frame.


(** ** Closed examples *)

Section examples.
#[local] Existing Instance Sample.sample_knot.

(** A request with its response attached, and an unrelated packet. *)
Definition destroy_mem : gmap loc dns_packet :=
  {[ 1%positive := set_response (packet_of sample_query) (Some 2%positive);
     2%positive := packet_of sample_answer; 3%positive := packet_of sample_query ]}.

Definition destroy_frame : dns_packet_frame :=
  {| time_start := 0; time_end := 0; frame_type := 0; packets := [1%positive];
     frame_count := 1; frame_size := 0 |}.

Lemma frame_destroy_frees_owned_witness :
  dns_packet_frame_destroy destroy_mem destroy_frame =
    Ok (delete_all [1; 2]%positive destroy_mem).
Proof.
  apply (frame_destroy_frees_owned destroy_mem destroy_frame).
  - apply Forall_cons. split; [|apply Forall_nil; exact I].
    eexists. split; [reflexivity|]. intros r [= <-]. split; [discriminate|].
    eexists. split; reflexivity.
  - apply (bool_decide_eq_true_1 (NoDup [1; 2]%positive)). reflexivity.
Defined.

End examples.
