(* ===== verification/FrameLogger.v ===== *)
(** * The frame logger ([src/worker_frame_logger.h], [src/worker_frame_logger.c])

    A worker that passes frames from one queue to another and reports them.
    As in [Matcher], the input queue is the stream of frames it will deliver
    and the output queue the list of frames it received.  The reports are the
    purpose of this worker, so they are part of the state. *)

From stdpp Require Import base numbers strings gmap list.
From S2P Require Import Prelude Doubles Common Libs Packet PacketFrame.

Section logger.
Context `{K : Libknot}.
Abbreviation mem := (gmap loc dns_packet).

(** What is reported of a frame: its type, the numbers of packets and bytes,
    the interval in seconds if it has one, and the numbers of requests, of
    requests with a response and of responses without request. *)
Record report : Type := {
  r_type : Z;
  r_count : Z;
  r_size : Z;
  r_interval : option (Double.double * Double.double);
  r_requests : Z;
  r_matched : Z;
  r_unmatched : Z;
}.

(** [struct dns_worker_frame_logger]; [lg_has_out] is false for a NULL output
    queue, [lg_running] is whether the mutex [running] is held. *)
Record dns_worker_frame_logger : Type := {
  lg_in : list dns_packet_frame;
  lg_has_out : bool;
  lg_name : list Z;
  lg_running : bool;
  lg_mem : mem;
  lg_out : list dns_packet_frame;
  lg_reports : list report;
}.

(** [dns_worker_frame_logger_create]; NULL arguments fail an assertion. *)
Definition dns_worker_frame_logger_create (name : option (list Z)) (input : option (list dns_packet_frame))
    (has_out : bool) (m : mem) : outcome dns_worker_frame_logger :=
  _ ← c_assert (bool_decide (is_Some input));
  _ ← c_assert (bool_decide (is_Some name));
  Ok {| lg_in := default [] input; lg_has_out := has_out; lg_name := default [] name;
        lg_running := false; lg_mem := m; lg_out := []; lg_reports := [] |}.

(** The end of a frame's passage: what is left to read, the heap, the frames
    handed over and the reports. *)
Definition set_logger (l : dns_worker_frame_logger) (running : bool) (fs : list dns_packet_frame) (m : mem)
    (out : list dns_packet_frame) (rs : list report) : dns_worker_frame_logger :=
  {| lg_in := fs; lg_has_out := lg_has_out l; lg_name := lg_name l; lg_running := running;
     lg_mem := m; lg_out := out; lg_reports := rs |}.

(** [dns_worker_frame_logger_start]: the mutex is taken for the thread. *)
Definition dns_worker_frame_logger_start (l : dns_worker_frame_logger) : outcome dns_worker_frame_logger :=
  if lg_running l then Fail (Died "starting a running logger"%string)
  else Ok (set_logger l true (lg_in l) (lg_mem l) (lg_out l) (lg_reports l)).

(** [dns_worker_frame_logger_destroy]; the structure is freed. *)
Definition dns_worker_frame_logger_destroy (l : dns_worker_frame_logger) : outcome unit :=
  if lg_running l then Fail (Died "destroying a running logger"%string) else Ok ().

(** [n++] on an [int]. *)
Definition incr_int (n : Z) : outcome Z :=
  if n <? 2 ^ 31 - 1 then Ok (n + 1) else Fail UndefinedBehaviour.

(** The loop over the packets: requests, matched requests, lone responses. *)
Definition count_step (m : mem) (c : Z * Z * Z) (l : loc) : outcome (Z * Z * Z) :=
  let '(requests, requests_matched, responses_unmatched) := c in
  p ← deref (m !! l);
  if DNS_PACKET_IS_REQUEST p then
    requests ← incr_int requests;
    requests_matched ← (if bool_decide (is_Some (response p)) then incr_int requests_matched
                        else Ok requests_matched);
    Ok (requests, requests_matched, responses_unmatched)
  else responses_unmatched ← incr_int responses_unmatched;
       Ok (requests, requests_matched, responses_unmatched).

Definition frame_report (m : mem) (f : dns_packet_frame) : outcome report :=
  interval ← (if time_start f =? DNS_NO_TIME then Ok None
              else a ← dns_us_time_to_fsec (time_start f); b ← dns_us_time_to_fsec (time_end f);
                   Ok (Some (a, b)));
  '(requests, requests_matched, responses_unmatched) ← foldM (count_step m) (0, 0, 0) (packets f);
  Ok {| r_type := frame_type f; r_count := frame_count f; r_size := frame_size f;
        r_interval := interval; r_requests := requests; r_matched := requests_matched;
        r_unmatched := responses_unmatched |}.

(** [dns_worker_frame_logger_main]: the loop waits forever when no final
    frame comes. *)
Fixpoint logger_loop (l : dns_worker_frame_logger) (fs : list dns_packet_frame) : outcome dns_worker_frame_logger :=
  match fs with
  | [] => Fail Blocked
  | f :: fs =>
      r ← frame_report (lg_mem l) f;
      '(m, out) ← (if lg_has_out l then Ok (lg_mem l, lg_out l ++ [f])
                   else m ← dns_packet_frame_destroy (lg_mem l) f; Ok (m, lg_out l));
      let l := set_logger l (lg_running l) fs m out (lg_reports l ++ [r]) in
      if frame_type f =? 1 then Ok l else logger_loop l fs
  end.

Definition dns_worker_frame_logger_main (l : dns_worker_frame_logger) : outcome dns_worker_frame_logger :=
  l ← logger_loop l (lg_in l);
  Ok (set_logger l false (lg_in l) (lg_mem l) (lg_out l) (lg_reports l)).

(** ** Properties *)

(** The numbers that a report should give. *)
Definition count_by (m : mem) (sel : dns_packet -> bool) (ls : list loc) : Z :=
  Z.of_nat (length (filter (fun l => from_option sel false (m !! l) = true) ls)).

Definition matched_request (p : dns_packet) : bool :=
  DNS_PACKET_IS_REQUEST p && bool_decide (is_Some (response p)).

(** A frame that can be reported: the end of an interval is a time, and the
    packets are live and fewer than an [int] can count. *)
Definition reportable (m : mem) (f : dns_packet_frame) : Prop :=
  (time_start f = DNS_NO_TIME \/ time_end f <> DNS_NO_TIME) /\
  (forall l, l ∈ packets f -> is_Some (m !! l)) /\ Z.of_nat (length (packets f)) < 2 ^ 31.

Definition report_of (m : mem) (f : dns_packet_frame) (r : report) : Prop :=
  r_type r = frame_type f /\ r_count r = frame_count f /\ r_size r = frame_size f /\
  (r_interval r = None <-> time_start f = DNS_NO_TIME) /\
  r_requests r = count_by m DNS_PACKET_IS_REQUEST (packets f) /\
  r_matched r = count_by m matched_request (packets f) /\
  r_unmatched r = count_by m DNS_PACKET_IS_RESPONSE (packets f).

Lemma count_by_cons m sel l ls :
  count_by m sel (l :: ls) = (if from_option sel false (m !! l) then 1 else 0) + count_by m sel ls.
Proof.
  unfold count_by. rewrite filter_cons. case_decide as H; destruct (from_option sel false (m !! l)); try done.
  cbn [length]. lia.
Qed.

Lemma count_by_range m sel ls : 0 <= count_by m sel ls <= Z.of_nat (length ls).
Proof. unfold count_by. pose proof (length_filter (fun l => from_option sel false (m !! l) = true) ls). lia. Qed.

Lemma incr_int_ok n : n < 2 ^ 31 - 1 -> incr_int n = Ok (n + 1).
Proof. intros H. unfold incr_int. by rewrite (proj2 (Z.ltb_lt _ _) H). Qed.

Lemma count_step_ok m l p a b c : m !! l = Some p -> a < 2 ^ 31 - 1 -> b < 2 ^ 31 - 1 -> c < 2 ^ 31 - 1 ->
  count_step m (a, b, c) l =
    Ok (a + (if DNS_PACKET_IS_REQUEST p then 1 else 0), b + (if matched_request p then 1 else 0),
        c + (if DNS_PACKET_IS_RESPONSE p then 1 else 0)).
Proof.
  intros Hp Ha Hb Hc. unfold count_step, matched_request, DNS_PACKET_IS_REQUEST. rewrite Hp. cbn.
  destruct (DNS_PACKET_IS_RESPONSE p); cbn; [|destruct (bool_decide _); cbn];
    rewrite ?incr_int_ok by done; cbn; rewrite ?incr_int_ok by done; cbn; by rewrite ?Z.add_0_r.
Qed.

Lemma count_ok m ls : (forall l, l ∈ ls -> is_Some (m !! l)) -> forall a b c,
  a + Z.of_nat (length ls) < 2 ^ 31 -> b + Z.of_nat (length ls) < 2 ^ 31 ->
  c + Z.of_nat (length ls) < 2 ^ 31 ->
  foldM (count_step m) (a, b, c) ls =
    Ok (a + count_by m DNS_PACKET_IS_REQUEST ls, b + count_by m matched_request ls,
        c + count_by m DNS_PACKET_IS_RESPONSE ls).
Proof.
  induction ls as [|l ls IH]; intros Hl a b c Ha Hb Hc.
  - cbn. unfold count_by. cbn. by rewrite !Z.add_0_r.
  - cbn [length] in Ha, Hb, Hc. destruct (Hl l) as [p Hp]; [set_solver|]. cbn [foldM].
    rewrite (count_step_ok m l p) by (done || lia). cbn [mbind outcome_bind].
    rewrite IH; [|set_solver | repeat case_match; lia..].
    rewrite !count_by_cons, Hp. cbn [from_option]. by rewrite !Z.add_assoc.
Qed.

Lemma frame_report_ok m f : reportable m f -> exists r, frame_report m f = Ok r /\ report_of m f r.
Proof.
  intros (Ht & Hl & Hn). unfold frame_report.
  assert (exists i, (if time_start f =? DNS_NO_TIME then Ok None
    else a ← dns_us_time_to_fsec (time_start f); b ← dns_us_time_to_fsec (time_end f); Ok (Some (a, b))) = Ok i
    /\ (i = None <-> time_start f = DNS_NO_TIME)) as (i & -> & Hi).
  { destruct (Z.eqb_spec (time_start f) DNS_NO_TIME) as [E|E]; [by eexists|].
    destruct Ht as [?|Ht]; [done|]. unfold dns_us_time_to_fsec.
    rewrite !c_assert_true by (apply negb_true_iff, Z.eqb_neq; done). cbn. eexists. split; [done|]. done. }
  cbn [mbind outcome_bind]. rewrite count_ok by (done || lia). cbn.
  eexists. split; [done|]. unfold report_of. cbn. done.
Qed.

(** The reports of the frames, one each and in order. *)
Definition reported (m : mem) (fs : list dns_packet_frame) (rs : list report) : Prop :=
  Forall2 (report_of m) fs rs.

Lemma logger_loop_ok fs fin l : lg_has_out l = true ->
  Forall (reportable (lg_mem l)) (fs ++ [fin]) -> Forall (fun f => frame_type f <> 1) fs -> frame_type fin = 1 ->
  exists rs, logger_loop l (fs ++ [fin]) =
    Ok (set_logger l (lg_running l) [] (lg_mem l) (lg_out l ++ fs ++ [fin]) (lg_reports l ++ rs)) /\
    reported (lg_mem l) (fs ++ [fin]) rs.
Proof.
  intros Ho Hr Hty Hfin. revert l Ho Hr. induction fs as [|f fs IH]; intros l Ho Hr; cbn [app] in *.
  - apply Forall_cons in Hr as [Hr _]. destruct (frame_report_ok _ _ Hr) as (r & Hf & Hrep). cbn [logger_loop].
    rewrite Hf, Ho. cbn [mbind outcome_bind]. rewrite Hfin. exists [r]. split; [done | by constructor].
  - apply Forall_cons in Hr as [Hf Hr]. apply Forall_cons in Hty as [Hf1 Hty].
    destruct (frame_report_ok _ _ Hf) as (r & Hrep & Hr1). cbn [logger_loop]. rewrite Hrep, Ho.
    cbn [mbind outcome_bind]. destruct (Z.eqb_spec (frame_type f) 1); [done|].
    edestruct (IH Hty (set_logger l (lg_running l) (fs ++ [fin]) (lg_mem l) (lg_out l ++ [f]) (lg_reports l ++ [r])))
      as (rs & -> & Hrs); [done | done |].
    exists (r :: rs). split; [|by constructor]. unfold set_logger. cbn. rewrite <- !app_assoc. done.
Qed.

(** A logger with an output queue, given regular frames followed by the
    final frame, runs once it is started, passes all frames on unchanged and
    in order including the final one, leaves the packets alone, reports every
    frame with its numbers of requests, of matched requests and of lone
    responses, and can then be joined and destroyed. *)
Theorem logger_forwards (name : list Z) (m : mem) (fs : list dns_packet_frame) (fin : dns_packet_frame) :
  Forall (reportable m) (fs ++ [fin]) -> Forall (fun f => frame_type f <> 1) fs -> frame_type fin = 1 ->
  exists l l', (l ← dns_worker_frame_logger_create (Some name) (Some (fs ++ [fin])) true m;
                dns_worker_frame_logger_start l) = Ok l /\
    dns_worker_frame_logger_start l = Fail (Died "starting a running logger"%string) /\
    dns_worker_frame_logger_main l = Ok l' /\
    lg_out l' = fs ++ [fin] /\ lg_mem l' = m /\ lg_in l' = [] /\ reported m (fs ++ [fin]) (lg_reports l') /\
    dns_worker_frame_logger_destroy l' = Ok ().
Proof.
  intros Hr Hty Hfin.
  set (l := {| lg_in := fs ++ [fin]; lg_has_out := true; lg_name := name; lg_running := true;
               lg_mem := m; lg_out := []; lg_reports := [] |}).
  destruct (logger_loop_ok fs fin l) as (rs & Hrun & Hrs); [done..|].
  exists l. eexists. split; [done|]. split; [done|].
  unfold dns_worker_frame_logger_main. change (lg_in l) with (fs ++ [fin]). rewrite Hrun.
  split; [reflexivity|]. cbn. done.
Qed.

Lemma reportable_delete m del f : (forall l, l ∈ packets f -> l ∉ del) ->
  reportable m f -> reportable (delete_all del m) f.
Proof.
  intros Hd (Ht & Hl & Hn). split; [done|]. split; [|done]. intros l Hin.
  rewrite delete_all_outside by auto. auto.
Qed.

Lemma logger_discard_loop fs fin l : lg_has_out l = false ->
  Forall (reportable (lg_mem l)) (fs ++ [fin]) -> Forall (fun f => frame_type f <> 1) fs -> frame_type fin = 1 ->
  let ls := flat_map packets (fs ++ [fin]) in
  Forall (destructible (lg_mem l)) ls -> NoDup (flat_map (owned (lg_mem l)) ls) ->
  exists l', logger_loop l (fs ++ [fin]) = Ok l' /\ lg_out l' = lg_out l /\
    lg_mem l' = delete_all (flat_map (owned (lg_mem l)) ls) (lg_mem l).
Proof.
  intros Ho Hr Hty Hfin. revert l Ho Hr. induction fs as [|f fs IH]; intros l Ho Hr ls Hd Hnd; subst ls; cbn [app] in *.
  - cbn [flat_map] in *. rewrite app_nil_r in *. apply Forall_cons in Hr as [Hr _].
    destruct (frame_report_ok _ _ Hr) as (r & Hf & _). cbn [logger_loop]. rewrite Hf, Ho. cbn [mbind outcome_bind].
    unfold dns_packet_frame_destroy. rewrite foldM_destroy by done. cbn [mbind outcome_bind]. rewrite Hfin. by eexists.
  - apply Forall_cons in Hr as [Hf Hr]. apply Forall_cons in Hty as [Hf1 Hty]. cbn [flat_map] in *.
    apply Forall_app in Hd as [Hd1 Hd2]. rewrite flat_map_app in Hnd |- *. apply NoDup_app in Hnd as (Hnd1 & Hdis & Hnd2).
    destruct (frame_report_ok _ _ Hf) as (r & Hrep & _). cbn [logger_loop]. rewrite Hrep, Ho. cbn [mbind outcome_bind].
    unfold dns_packet_frame_destroy. rewrite foldM_destroy by done. cbn [mbind outcome_bind].
    destruct (Z.eqb_spec (frame_type f) 1); [done|].
    set (del := flat_map (owned (lg_mem l)) (packets f)) in *. set (rest := flat_map packets (fs ++ [fin])) in *.
    assert (Hkeep : forall x, x ∈ rest -> destructible (delete_all del (lg_mem l)) x /\
      owned (delete_all del (lg_mem l)) x = owned (lg_mem l) x).
    { intros x Hx. apply destructible_delete_all; [by eapply Forall_forall in Hd2|].
      intros y Hy Hy'. apply (Hdis y Hy'). apply list_elem_of_In, in_flat_map.
      exists x. rewrite <- !list_elem_of_In. done. }
    assert (Hown : flat_map (owned (delete_all del (lg_mem l))) rest = flat_map (owned (lg_mem l)) rest).
    { rewrite !flat_map_concat_map. f_equal. apply map_ext_in. intros x Hx. apply Hkeep. by apply list_elem_of_In. }
    edestruct (IH Hty (set_logger l (lg_running l) (fs ++ [fin]) (delete_all del (lg_mem l)) (lg_out l) (lg_reports l ++ [r])))
      as (l' & -> & Ho' & Hm'); [done | | | |].
    + cbn. rewrite Forall_forall in Hr |- *. intros g Hg. apply reportable_delete; [|by apply Hr].
      intros x Hx Hx'. apply (Hdis x Hx'). apply list_elem_of_In, in_flat_map. exists x.
      rewrite <- !list_elem_of_In. split; [|unfold owned; destruct (lg_mem l !! x); set_solver].
      apply list_elem_of_In, in_flat_map. exists g. by rewrite <- !list_elem_of_In.
    + cbn. apply Forall_forall. intros x Hx. by apply Hkeep.
    + cbn. fold rest. by rewrite Hown.
    + exists l'. split; [done|]. split; [done|]. rewrite Hm'. cbn. fold rest. by rewrite Hown, delete_all_app.
Qed.

(** A logger without an output queue discards the frames: their packets and
    the responses of these are freed, each once. *)
Theorem logger_discards (name : list Z) (m : mem) (fs : list dns_packet_frame) (fin : dns_packet_frame) :
  Forall (reportable m) (fs ++ [fin]) -> Forall (fun f => frame_type f <> 1) fs -> frame_type fin = 1 ->
  let ls := flat_map packets (fs ++ [fin]) in
  Forall (destructible m) ls -> NoDup (flat_map (owned m) ls) ->
  exists l l', dns_worker_frame_logger_create (Some name) (Some (fs ++ [fin])) false m = Ok l /\
    dns_worker_frame_logger_main l = Ok l' /\ lg_out l' = [] /\
    lg_mem l' = delete_all (flat_map (owned m) ls) m.
Proof.
  intros Hr Hty Hfin ls Hd Hnd.
  set (l := {| lg_in := fs ++ [fin]; lg_has_out := false; lg_name := name; lg_running := false;
               lg_mem := m; lg_out := []; lg_reports := [] |}).
  destruct (logger_discard_loop fs fin l) as (l' & Hrun & Ho & Hm); [done..|].
  exists l. eexists. split; [done|]. unfold dns_worker_frame_logger_main.
  change (lg_in l) with (fs ++ [fin]). rewrite Hrun. cbn [mbind outcome_bind].
  split; [reflexivity|]. cbn. split; [exact Ho | exact Hm].
Qed.

End logger.

(** ** Closed examples *)

Section examples.
#[local] Existing Instance Sample.sample_knot.

Definition logged_mem : gmap loc dns_packet :=
  {[ 1%positive := set_response (packet_of sample_query) (Some 2%positive);
     2%positive := packet_of sample_answer; 3%positive := packet_of sample_answer ]}.

Definition logged_frame : dns_packet_frame :=
  {| time_start := 100000000; time_end := 100003000; frame_type := 0; packets := [1; 3]%positive;
     frame_count := 2; frame_size := 0 |}.

Lemma logger_forwards_witness : exists l l',
  dns_worker_frame_logger_main l = Ok l' /\
  lg_out l' = [logged_frame; dns_packet_frame_create_final 100003000] /\
  map (fun r => (r_requests r, r_matched r, r_unmatched r)) (lg_reports l') = [(1, 1, 1); (0, 0, 0)].
Proof.
  destruct (logger_forwards [108] logged_mem [logged_frame] (dns_packet_frame_create_final 100003000))
    as (l & l' & _ & _ & Hrun & Ho & _ & _ & Hr & _).
  - apply Forall_cons. split; [|apply Forall_cons; split; [|apply Forall_nil_2]].
    + split; [right; vm_compute; discriminate|]. split; [|vm_compute; reflexivity].
      intros x [->|[->|H]%elem_of_cons]%elem_of_cons; [eexists; reflexivity..|set_solver].
    + split; [right; vm_compute; discriminate|]. split; [|vm_compute; reflexivity].
      intros x H. cbn in H. set_solver.
  - by apply Forall_singleton.
  - done.
  - exists l, l'. split; [exact Hrun|]. split; [exact Ho|].
    destruct (lg_reports l') as [|r1 [|r2 [|r3 rs]]].
    all: cbn [app] in Hr; try (by apply Forall2_cons_nil_inv in Hr).
    all: apply Forall2_cons in Hr as [H1 Hr]; try (by apply Forall2_cons_nil_inv in Hr).
    all: apply Forall2_cons in Hr as [H2 Hr]; try (by apply Forall2_nil_cons_inv in Hr).
    cbn [map]. destruct H1 as (_ & _ & _ & _ & -> & -> & ->). destruct H2 as (_ & _ & _ & _ & -> & -> & ->).
    vm_compute. reflexivity.
Defined.

End examples.
