(* ===== verification/FrameQueue.v ===== *)
(** * Frame queues ([src/frame_queue.h], [src/frame_queue.c])

    The bounded circular queue between two threads.  [dns_frame_queue] and
    its operations follow the source; [represents] relates a queue to the
    list of frames it holds, oldest first.  The critical sections of
    [dns_frame_queue_enqueue] and [dns_frame_queue_dequeue] are the steps
    the concurrent system of [FrameChannel] interleaves. *)

From stdpp Require Import base numbers gmap list.
From S2P Require Import Prelude Doubles Common Libs Packet PacketFrame.

Inductive dns_frame_queue_on_full : Set :=
| DNS_QUEUE_BLOCK
| DNS_QUEUE_DROP_NEWEST
| DNS_QUEUE_DROP_OLDEST.

#[global] Instance on_full_eq_dec : EqDecision dns_frame_queue_on_full.
Proof. solve_decision. Defined.

(** [struct dns_frame_queue] without its mutex and conditions; a slot that
    was never written is [None]. *)
Record dns_frame_queue : Type := {
  q_queue : list (option dns_packet_frame);
  q_length : Z;
  q_start : Z;
  q_capacity : Z;
  q_on_full : dns_frame_queue_on_full;
  q_total_size : Z;
}.

Definition dns_frame_queue_create (capacity : Z) (on_full : dns_frame_queue_on_full)
    : dns_frame_queue :=
  {| q_queue := replicate (Z.to_nat capacity) None; q_length := 0; q_start := 0;
     q_capacity := capacity; q_on_full := on_full; q_total_size := 0 |}.

(** The frames [dns_frame_queue_destroy] passes to
    [dns_packet_frame_destroy]: slots [0 .. length - 1]. *)
Definition dns_frame_queue_destroy (q : dns_frame_queue) : outcome (list dns_packet_frame) :=
  mapO (fun i => s ← deref (q_queue q !! i); deref s) (seq 0 (Z.to_nat (q_length q))).

Definition dns_frame_queue_dequeue_internal (q : dns_frame_queue)
    : outcome (dns_packet_frame * dns_frame_queue) :=
  s ← deref (q_queue q !! Z.to_nat (q_start q));
  f ← deref s;
  if q_capacity q =? 0 then Fail UndefinedBehaviour
  else Ok (f, {| q_queue := q_queue q;
                 q_length := u64 (q_length q - 1);
                 q_start := u64 (q_start q + 1) mod q_capacity q;
                 q_capacity := q_capacity q; q_on_full := q_on_full q;
                 q_total_size := u64 (q_total_size q - frame_size f) |}).

(** The [while] loop of [dns_frame_queue_enqueue]: [None] when the caller has
    to wait, otherwise the queue, the frame still to be inserted (if any) and
    the frames destroyed.  Each turn with [DNS_QUEUE_DROP_OLDEST] removes a
    frame, so [length] turns suffice. *)
Fixpoint enqueue_loop (fuel : nat) (q : dns_frame_queue) (f : dns_packet_frame)
    : outcome (option (dns_frame_queue * option dns_packet_frame * list dns_packet_frame)) :=
  if u64 (q_length q + 1) >? q_capacity q then
    _ ← c_assert (1 <=? q_length q);
    match q_on_full q with
    | DNS_QUEUE_BLOCK => Ok None
    | DNS_QUEUE_DROP_NEWEST => Ok (Some (q, None, [f]))
    | DNS_QUEUE_DROP_OLDEST =>
        match fuel with
        | O => Fail OutOfFuel
        | S fuel =>
            '(g, q) ← dns_frame_queue_dequeue_internal q;
            r ← enqueue_loop fuel q f;
            Ok (match r with
                | Some (q, o, ds) => Some (q, o, g :: ds)
                | None => None
                end)
        end
    end
  else Ok (Some (q, Some f, [])).

(** [q->queue[(q->start + q->length) % q->capacity] = f; ...]. *)
Definition enqueue_insert (q : dns_frame_queue) (f : dns_packet_frame) : outcome dns_frame_queue :=
  if q_capacity q =? 0 then Fail UndefinedBehaviour
  else
    let i := u64 (q_start q + q_length q) mod q_capacity q in
    _ ← deref (q_queue q !! Z.to_nat i);
    Ok {| q_queue := <[Z.to_nat i := Some f]> (q_queue q);
          q_length := u64 (q_length q + 1); q_start := q_start q;
          q_capacity := q_capacity q; q_on_full := q_on_full q;
          q_total_size := u64 (q_total_size q + frame_size f) |}.

(** [dns_frame_queue_enqueue], one pass through the critical section: [None]
    when the thread waits for room, otherwise the queue and the destroyed
    frames.  A NULL queue destroys the frame. *)
Definition dns_frame_queue_enqueue (q : option dns_frame_queue) (f : dns_packet_frame)
    : outcome (option (option dns_frame_queue * list dns_packet_frame)) :=
  match q with
  | None => Ok (Some (None, [f]))
  | Some q =>
      r ← enqueue_loop (Z.to_nat (q_length q)) q f;
      match r with
      | None => Ok None
      | Some (q, Some f, ds) => q ← enqueue_insert q f; Ok (Some (Some q, ds))
      | Some (q, None, ds) => Ok (Some (Some q, ds))
      end
  end.

(** [dns_frame_queue_dequeue], one pass: [None] when the thread waits. *)
Definition dns_frame_queue_dequeue (q : dns_frame_queue)
    : outcome (option (dns_packet_frame * dns_frame_queue)) :=
  if q_length q =? 0 then Ok None
  else fq ← dns_frame_queue_dequeue_internal q; Ok (Some fq).

(** ** The queue as a list *)

Definition slot (q : dns_frame_queue) (i : Z) : nat :=
  Z.to_nat ((q_start q + i) mod q_capacity q).

Definition total_size (l : list dns_packet_frame) : Z := foldr Z.add 0 (map frame_size l).

(** [represents q l]: the queue holds the frames [l], oldest first. *)
Record represents (q : dns_frame_queue) (l : list dns_packet_frame) : Prop := {
  rep_capacity : 0 < q_capacity q < 2 ^ 63;
  rep_array : Z.of_nat (length (q_queue q)) = q_capacity q;
  rep_start : 0 <= q_start q < q_capacity q;
  rep_length : q_length q = Z.of_nat (length l);
  rep_bound : Z.of_nat (length l) <= q_capacity q;
  rep_slots : forall i f, l !! i = Some f -> q_queue q !! slot q (Z.of_nat i) = Some (Some f);
  rep_total : q_total_size q = u64 (total_size l);
}.

Lemma slot_lt q i : 0 < q_capacity q -> Z.of_nat (length (q_queue q)) = q_capacity q ->
  (slot q i < length (q_queue q))%nat.
Proof.
  intros Hc Hl. unfold slot. pose proof (Z.mod_pos_bound (q_start q + i) (q_capacity q) Hc). lia.
Qed.

Lemma slot_inj q i j : 0 < q_capacity q -> 0 <= i -> 0 <= j ->
  Z.abs (i - j) < q_capacity q -> slot q i = slot q j -> i = j.
Proof.
  intros Hc Hi Hj Hd Heq. unfold slot in Heq.
  pose proof (Z.mod_pos_bound (q_start q + i) (q_capacity q) Hc).
  pose proof (Z.mod_pos_bound (q_start q + j) (q_capacity q) Hc).
  assert (Hm : (q_start q + i) mod q_capacity q = (q_start q + j) mod q_capacity q) by lia.
  pose proof (Z.div_mod (q_start q + i) (q_capacity q)).
  pose proof (Z.div_mod (q_start q + j) (q_capacity q)).
  set (a := (q_start q + i) / q_capacity q) in *.
  set (b := (q_start q + j) / q_capacity q) in *.
  assert (i - j = q_capacity q * (a - b)) by lia.
  assert (a = b) by nia. nia.
Qed.

Lemma total_size_app l1 l2 : total_size (l1 ++ l2) = total_size l1 + total_size l2.
Proof. unfold total_size. induction l1 as [|f l1 IH]; cbn in *; lia. Qed.

Lemma create_represents capacity on_full : 0 < capacity < 2 ^ 63 ->
  represents (dns_frame_queue_create capacity on_full) [].
Proof.
  intros H. split; cbn; try lia; try done.
  rewrite length_replicate. lia.
Qed.

Lemma dequeue_internal_represents q f l : represents q (f :: l) ->
  exists q', dns_frame_queue_dequeue_internal q = Ok (f, q') /\ represents q' l /\
    q_capacity q' = q_capacity q /\ q_on_full q' = q_on_full q.
Proof.
  intros [Hc Ha Hs Hl Hb Hsl Ht]. unfold dns_frame_queue_dequeue_internal.
  pose proof (Hsl O f eq_refl) as H0. unfold slot in H0.
  rewrite Z.add_0_r, Z.mod_small in H0 by lia. rewrite H0. cbn [deref mbind outcome_bind].
  destruct (Z.eqb_spec (q_capacity q) 0); [lia|].
  eexists. split; [reflexivity|]. cbn [length] in *. split; [|done].
  rewrite (u64_small (q_length q - 1)), (u64_small (q_start q + 1)) by lia.
  split; cbn [q_capacity q_queue q_start q_length q_total_size]; try lia.
  - apply Z.mod_pos_bound. lia.
  - intros i g Hg. pose proof (Hsl (S i) g Hg) as Hi. rewrite <- Hi. unfold slot. cbn.
    do 2 f_equal. rewrite Zplus_mod_idemp_l. f_equal. lia.
  - rewrite Ht. cbn [total_size map foldr]. unfold total_size. cbn. unfold u64.
    rewrite Zminus_mod_idemp_l. f_equal. lia.
Qed.

Lemma insert_represents q f l : represents q l -> Z.of_nat (length l) < q_capacity q ->
  exists q', enqueue_insert q f = Ok q' /\ represents q' (l ++ [f]) /\
    q_capacity q' = q_capacity q /\ q_on_full q' = q_on_full q.
Proof.
  intros [Hc Ha Hs Hl Hb Hsl Ht] Hlt. unfold enqueue_insert.
  destruct (Z.eqb_spec (q_capacity q) 0); [lia|].
  rewrite u64_small by lia.
  change (Z.to_nat ((q_start q + q_length q) mod q_capacity q)) with (slot q (q_length q)).
  assert (Hslot := slot_lt q (q_length q) ltac:(lia) Ha).
  destruct (lookup_lt_is_Some_2 _ _ Hslot) as [x Hx]. rewrite Hx. cbn [deref mbind outcome_bind].
  eexists. split; [reflexivity|]. split; [|done].
  rewrite (u64_small (q_length q + 1)) by lia.
  split; cbn [q_capacity q_queue q_start q_length q_total_size]; rewrite ?length_app, ?length_insert;
    cbn [length]; try lia.
  - intros i g Hg. unfold slot. cbn [q_start q_capacity].
    change (Z.to_nat ((q_start q + Z.of_nat i) mod q_capacity q)) with (slot q (Z.of_nat i)).
    apply lookup_app_Some in Hg as [Hg|[Hge Hg]].
    + rewrite list_lookup_insert_ne; [by apply Hsl|].
      pose proof (lookup_lt_Some _ _ _ Hg). intros Heq.
      apply slot_inj in Heq; lia.
    + destruct (i - length l)%nat as [|k] eqn:E; [|by destruct k]. cbn in Hg. simplify_eq.
      replace (Z.of_nat i) with (q_length q) by lia. by apply list_lookup_insert_eq.
  - rewrite total_size_app, Ht, u64_add_l.
    by replace (total_size [f]) with (frame_size f) by (cbn; lia).
Qed.

(** ** Specification of an enqueue on a list of frames *)

(** What an enqueue does to a queue of capacity [cap] that holds [l]. *)
Definition enqueue_spec (on_full : dns_frame_queue_on_full) (cap : Z)
    (l : list dns_packet_frame) (f : dns_packet_frame)
    : option (list dns_packet_frame * list dns_packet_frame) :=
  if Z.of_nat (length l) <? cap then Some (l ++ [f], [])
  else match on_full with
       | DNS_QUEUE_BLOCK => None
       | DNS_QUEUE_DROP_NEWEST => Some (l, [f])
       | DNS_QUEUE_DROP_OLDEST => Some (drop 1 l ++ [f], take 1 l)
       end.

Lemma enqueue_loop_room q f l fuel : represents q l -> Z.of_nat (length l) < q_capacity q ->
  enqueue_loop fuel q f = Ok (Some (q, Some f, [])).
Proof.
  intros R Hlt. pose proof (rep_length _ _ R). pose proof (rep_capacity _ _ R).
  assert (Hg : (u64 (q_length q + 1) >? q_capacity q) = false).
  { rewrite u64_small by lia. rewrite Z.gtb_ltb. apply Z.ltb_ge. lia. }
  destruct fuel; cbn [enqueue_loop]; by rewrite Hg.
Qed.

Lemma enqueue_represents q f l : represents q l ->
  match enqueue_spec (q_on_full q) (q_capacity q) l f with
  | None => dns_frame_queue_enqueue (Some q) f = Ok None
  | Some (l', ds) => exists q', dns_frame_queue_enqueue (Some q) f = Ok (Some (Some q', ds)) /\
      represents q' l' /\ q_capacity q' = q_capacity q /\ q_on_full q' = q_on_full q
  end.
Proof.
  intros R. pose proof (rep_length _ _ R) as Hlen. pose proof (rep_capacity _ _ R) as Hcap.
  pose proof (rep_bound _ _ R) as Hb.
  unfold enqueue_spec, dns_frame_queue_enqueue.
  destruct (Z.ltb_spec (Z.of_nat (length l)) (q_capacity q)) as [Hlt|Hge].
  { rewrite (enqueue_loop_room q f l) by done. cbn [mbind outcome_bind].
    destruct (insert_represents q f l R Hlt) as (q' & -> & R' & ?). cbn. eauto. }
  assert (Hgt : (u64 (q_length q + 1) >? q_capacity q) = true).
  { rewrite u64_small by lia. apply Z.gtb_lt. lia. }
  destruct l as [|g l]; [cbn in *; lia|].
  destruct (Z.to_nat (q_length q)) as [|n] eqn:En; [cbn in *; lia|].
  cbn [enqueue_loop]. rewrite Hgt, c_assert_true by (cbn in *; lia). cbn [mbind outcome_bind].
  destruct (q_on_full q) eqn:Eof; [done | eauto |].
  destruct (dequeue_internal_represents q g l R) as (q1 & -> & R1 & Hc1 & Ho1).
  cbn [mbind outcome_bind]. cbn [length] in *.
  rewrite (enqueue_loop_room q1 f l) by (done || lia). cbn [mbind outcome_bind].
  destruct (insert_represents q1 f l R1 ltac:(lia)) as (q2 & -> & R2 & Hc2 & Ho2).
  cbn. exists q2. split; [done|]. split; [done|]. split; congruence.
Qed.

Lemma dequeue_represents q l : represents q l ->
  match l with
  | [] => dns_frame_queue_dequeue q = Ok None
  | f :: l => exists q', dns_frame_queue_dequeue q = Ok (Some (f, q')) /\
      represents q' l /\ q_capacity q' = q_capacity q /\ q_on_full q' = q_on_full q
  end.
Proof.
  intros R. pose proof (rep_length _ _ R) as Hlen. unfold dns_frame_queue_dequeue.
  destruct l as [|f l]; cbn [length] in Hlen.
  - by rewrite Hlen.
  - destruct (Z.eqb_spec (q_length q) 0); [lia|].
    destruct (dequeue_internal_represents q f l R) as (q' & -> & ?). cbn. eauto.
Qed.

(** ** Properties *)

(** The circular queue implements a bounded list of frames: an enqueue
    appends at the end when there is room; on a full queue it waits, destroys
    the new frame, or destroys the oldest frame and appends, as [on_full]
    says, and the capacity bound and the byte total stay right. *)
Theorem frame_queue_enqueue_refines (q : dns_frame_queue) (f : dns_packet_frame)
    (l : list dns_packet_frame) :
  represents q l ->
  match enqueue_spec (q_on_full q) (q_capacity q) l f with
  | None => dns_frame_queue_enqueue (Some q) f = Ok None
  | Some (l', destroyed) =>
      exists q', dns_frame_queue_enqueue (Some q) f = Ok (Some (Some q', destroyed)) /\
        represents q' l'
  end.
Proof.
  intros R. pose proof (enqueue_represents q f l R) as H.
  destruct enqueue_spec as [[l' ds]|]; [|done].
  destruct H as (q' & H & R' & _). eauto.
Qed.

(** A dequeue returns the oldest frame and leaves the others in order;
    it waits exactly when the queue is empty. *)
Theorem frame_queue_dequeue_refines (q : dns_frame_queue) (l : list dns_packet_frame) :
  represents q l ->
  match l with
  | [] => dns_frame_queue_dequeue q = Ok None
  | f :: l => exists q', dns_frame_queue_dequeue q = Ok (Some (f, q')) /\ represents q' l
  end.
Proof.
  intros R. pose proof (dequeue_represents q l R) as H.
  destruct l as [|f l]; [done|]. destruct H as (q' & H & R' & _). eauto.
Qed.

(** A frame with a given start time and size. *)
Definition sample_frame (t s : Z) : dns_packet_frame :=
  {| time_start := t; time_end := t; frame_type := 0; packets := [];
     frame_count := 0; frame_size := s |}.

(** A queue of capacity 2 after two enqueues and one dequeue. *)
Definition sample_queue : dns_frame_queue :=
  {| q_queue := [Some (sample_frame 1 10); Some (sample_frame 2 20)]; q_length := 1;
     q_start := 1; q_capacity := 2; q_on_full := DNS_QUEUE_DROP_OLDEST; q_total_size := 20 |}.

Lemma sample_queue_represents : represents sample_queue [sample_frame 2 20].
Proof.
  split; cbn; try lia; try done. intros [|i] f Hf; [|done]. injection Hf as <-. vm_compute. reflexivity.
Qed.

Lemma frame_queue_enqueue_refines_witness : exists q',
  dns_frame_queue_enqueue (Some sample_queue) (sample_frame 3 30) = Ok (Some (Some q', [])) /\
  represents q' [sample_frame 2 20; sample_frame 3 30].
Proof.
  exact (frame_queue_enqueue_refines sample_queue (sample_frame 3 30) [sample_frame 2 20]
           sample_queue_represents).
Defined.

Lemma frame_queue_dequeue_refines_witness : exists q',
  dns_frame_queue_dequeue sample_queue = Ok (Some (sample_frame 2 20, q')) /\ represents q' [].
Proof.
  exact (frame_queue_dequeue_refines sample_queue [sample_frame 2 20] sample_queue_represents).
Defined.

(** Destroying a queue frees the slots from index 0, not from the start
    of the circular list: on a queue of capacity 2 after two enqueues and
    one dequeue it frees the frame that was already handed to the consumer
    and leaks the one still queued. *)
Theorem frame_queue_destroy_wrong_slots :
  dns_frame_queue_destroy sample_queue = Ok [sample_frame 1 10] /\
  represents sample_queue [sample_frame 2 20].
Proof. split; [reflexivity | apply sample_queue_represents]. Qed.

(** Destruction is right for an empty queue, and for a queue whose
    oldest frame is in slot 0: it frees exactly the queued frames. *)
Theorem frame_queue_destroy_unrotated (q : dns_frame_queue) (l : list dns_packet_frame) :
  represents q l -> q_start q = 0 \/ l = [] -> dns_frame_queue_destroy q = Ok l.
Proof.
  intros R Hs. unfold dns_frame_queue_destroy. rewrite (rep_length _ _ R), Nat2Z.id.
  destruct Hs as [Hs| ->]; [|done].
  assert (H : forall k n, k ++ n = l ->
    mapO (fun i => s ← deref (q_queue q !! i); deref s) (seq (length k) (length n)) = Ok n).
  { intros k n; revert k; induction n as [|f n IH]; intros k Hk; cbn [length seq mapO]; [done|].
    assert (Hf : l !! length k = Some f) by (rewrite <- Hk; by rewrite list_lookup_middle).
    apply (rep_slots _ _ R) in Hf. unfold slot in Hf. rewrite Hs in Hf.
    rewrite Z.mod_small, Z.add_0_l, Nat2Z.id in Hf.
    2: { pose proof (rep_bound _ _ R) as Hb. rewrite <- Hk, length_app in Hb. cbn in Hb. lia. }
    rewrite Hf. cbn [deref mbind outcome_bind].
    specialize (IH (k ++ [f])). rewrite length_app, Nat.add_1_r in IH.
    rewrite IH; [done|]. by rewrite <- Hk, <- app_assoc. }
  by apply (H []).
Qed.

Lemma frame_queue_destroy_unrotated_witness :
  dns_frame_queue_destroy (dns_frame_queue_create 8 DNS_QUEUE_BLOCK) = Ok [].
Proof.
  apply frame_queue_destroy_unrotated; [apply create_represents; lia | right; reflexivity].
Defined.
