(* ===== verification/FrameChannel.v ===== *)
(** * Threads on a frame queue ([src/frame_queue.c])

    The mutex and the two condition variables of a queue.  [BlockingFifo] is
    what the waiting loops of [dns_frame_queue_enqueue] and
    [dns_frame_queue_dequeue] need of the queue inside the critical section;
    [dns_frame_queue] in mode [DNS_QUEUE_BLOCK] is an instance.  Over any
    instance, [step] interleaves the calls of any number of threads at the
    granularity of lock, wait and critical section, with spurious wakeups.
    The theorems hold for every interleaving. *)

From stdpp Require Import base numbers gmap list relations.
From S2P Require Import Prelude Doubles Common Libs Packet PacketFrame FrameQueue.

(** ** Interface *)

Class BlockingFifo (Q F : Type) : Type := {
  fifo_push : Q -> F -> outcome (option Q);
  fifo_pop : Q -> outcome (option (F * Q));
  fifo_rep : Q -> list F -> Prop;
  fifo_cap : Q -> Z;
  fifo_bound q l : fifo_rep q l -> 0 < fifo_cap q /\ Z.of_nat (length l) <= fifo_cap q;
  fifo_push_room q l f : fifo_rep q l -> Z.of_nat (length l) < fifo_cap q ->
    exists q', fifo_push q f = Ok (Some q') /\ fifo_rep q' (l ++ [f]) /\ fifo_cap q' = fifo_cap q;
  fifo_push_full q l f : fifo_rep q l -> Z.of_nat (length l) = fifo_cap q ->
    fifo_push q f = Ok None;
  fifo_pop_empty q : fifo_rep q [] -> fifo_pop q = Ok None;
  fifo_pop_cons q f l : fifo_rep q (f :: l) ->
    exists q', fifo_pop q = Ok (Some (f, q')) /\ fifo_rep q' l /\ fifo_cap q' = fifo_cap q;
}.

(** The frame queue in blocking mode discharges the interface. *)
Definition queue_push (q : dns_frame_queue) (f : dns_packet_frame)
    : outcome (option dns_frame_queue) :=
  r ← dns_frame_queue_enqueue (Some q) f;
  Ok (match r with Some (q', _) => q' | None => None end).

#[global, program] Instance dns_frame_queue_fifo : BlockingFifo dns_frame_queue dns_packet_frame := {|
  fifo_push := queue_push;
  fifo_pop := dns_frame_queue_dequeue;
  fifo_rep q l := represents q l /\ q_on_full q = DNS_QUEUE_BLOCK;
  fifo_cap := q_capacity;
|}.
Next Obligation.
  intros q l [R _]. pose proof (rep_capacity _ _ R). pose proof (rep_bound _ _ R). lia.
Qed.
Next Obligation.
  intros q l f [R Hb] Hlt. pose proof (enqueue_represents q f l R) as H.
  unfold enqueue_spec in H. rewrite (proj2 (Z.ltb_lt _ _) Hlt) in H.
  destruct H as (q' & H & R' & Hc & Ho). exists q'. unfold queue_push. rewrite H. cbn.
  split; [done|]. split; [split; [done | congruence] | done].
Qed.
Next Obligation.
  intros q l f [R Hb] Heq. pose proof (enqueue_represents q f l R) as H.
  unfold enqueue_spec in H. rewrite (proj2 (Z.ltb_ge _ _)), Hb in H by lia.
  unfold queue_push. by rewrite H.
Qed.
Next Obligation. intros q [R _]. exact (dequeue_represents q [] R). Qed.
Next Obligation.
  intros q f l [R Hb]. destruct (dequeue_represents q (f :: l) R) as (q' & H & R' & Hc & Ho).
  exists q'. split; [done|]. split; [split; [done | congruence] | done].
Qed.

(** ** The concurrent system *)

Section channel.
Context {Q F : Type} `{BF : !BlockingFifo Q F}.

(** Where a thread is: outside, asking for the mutex, inside the critical
    section (at the loop test), waiting on a condition, or woken and asking
    for the mutex again. *)
Inductive tstate : Type :=
| TIdle
| TEnqLock (f : F) | TEnqIn (f : F) | TEnqWait (f : F) | TEnqWoken (f : F)
| TDeqLock | TDeqIn | TDeqWait | TDeqWoken.

(** The queue, the mutex owner, the threads, and the histories of frames
    that went in and came out. *)
Record sys : Type := {
  s_q : Q;
  s_mutex : option nat;
  s_threads : gmap nat tstate;
  s_enq : list F;
  s_deq : list F;
}.

(** [pthread_cond_broadcast(&q->empty_cond)], [... (&q->full_cond)]. *)
Definition wake_deq (t : tstate) : tstate :=
  match t with TDeqWait => TDeqWoken | t => t end.
Definition wake_enq (t : tstate) : tstate :=
  match t with TEnqWait f => TEnqWoken f | t => t end.

Definition in_cs (t : tstate) : Prop :=
  match t with TEnqIn _ | TDeqIn => True | _ => False end.

(** Asking for the mutex. *)
Definition wants_lock (t : tstate) : option tstate :=
  match t with
  | TEnqLock f | TEnqWoken f => Some (TEnqIn f)
  | TDeqLock | TDeqWoken => Some TDeqIn
  | _ => None
  end.

(** Steps inside a call: taking the mutex, and the critical sections. *)
Inductive work_step : sys -> sys -> Prop :=
| step_lock s t st st' :
    s_mutex s = None -> s_threads s !! t = Some st -> wants_lock st = Some st' ->
    work_step s {| s_q := s_q s; s_mutex := Some t; s_threads := <[t := st']> (s_threads s);
                   s_enq := s_enq s; s_deq := s_deq s |}
| step_enq_wait s t f :
    s_mutex s = Some t -> s_threads s !! t = Some (TEnqIn f) ->
    fifo_push (s_q s) f = Ok None ->
    work_step s {| s_q := s_q s; s_mutex := None; s_threads := <[t := TEnqWait f]> (s_threads s);
                   s_enq := s_enq s; s_deq := s_deq s |}
| step_enq_done s t f q' :
    s_mutex s = Some t -> s_threads s !! t = Some (TEnqIn f) ->
    fifo_push (s_q s) f = Ok (Some q') ->
    work_step s {| s_q := q'; s_mutex := None;
                   s_threads := <[t := TIdle]> (wake_deq <$> s_threads s);
                   s_enq := s_enq s ++ [f]; s_deq := s_deq s |}
| step_deq_wait s t :
    s_mutex s = Some t -> s_threads s !! t = Some TDeqIn ->
    fifo_pop (s_q s) = Ok None ->
    work_step s {| s_q := s_q s; s_mutex := None; s_threads := <[t := TDeqWait]> (s_threads s);
                   s_enq := s_enq s; s_deq := s_deq s |}
| step_deq_done s t f q' :
    s_mutex s = Some t -> s_threads s !! t = Some TDeqIn ->
    fifo_pop (s_q s) = Ok (Some (f, q')) ->
    work_step s {| s_q := q'; s_mutex := None;
                   s_threads := <[t := TIdle]> (wake_enq <$> s_threads s);
                   s_enq := s_enq s; s_deq := s_deq s ++ [f] |}.

(** All steps: also the start of a call and spurious wakeups. *)
Inductive step : sys -> sys -> Prop :=
| step_work s s' : work_step s s' -> step s s'
| step_call s t st :
    s_threads s !! t = Some TIdle -> (exists f, st = TEnqLock f) \/ st = TDeqLock ->
    step s {| s_q := s_q s; s_mutex := s_mutex s; s_threads := <[t := st]> (s_threads s);
              s_enq := s_enq s; s_deq := s_deq s |}
| step_spurious s t st :
    s_threads s !! t = Some st ->
    step s {| s_q := s_q s; s_mutex := s_mutex s;
              s_threads := <[t := wake_enq (wake_deq st)]> (s_threads s);
              s_enq := s_enq s; s_deq := s_deq s |}.

(** A fresh system: an empty queue and idle threads. *)
Definition initial (q : Q) (s : sys) : Prop :=
  fifo_rep q [] /\ s_q s = q /\ s_mutex s = None /\
  (forall t st, s_threads s !! t = Some st -> st = TIdle) /\ s_enq s = [] /\ s_deq s = [].

(** The invariant of every reachable state; [l] is what the queue holds. *)
Record inv (cap : Z) (s : sys) (l : list F) : Prop := {
  inv_rep : fifo_rep (s_q s) l;
  inv_cap : fifo_cap (s_q s) = cap;
  inv_hist : s_enq s = s_deq s ++ l;
  inv_mutex : forall t, s_mutex s = Some t <-> exists st, s_threads s !! t = Some st /\ in_cs st;
  inv_deq_wait : forall t, s_threads s !! t = Some TDeqWait -> l = [];
  inv_enq_wait : forall t f, s_threads s !! t = Some (TEnqWait f) -> Z.of_nat (length l) = cap;
}.

Lemma initial_inv q s : initial q s -> inv (fifo_cap q) s [].
Proof.
  intros (R & Hq & Hm & Ht & He & Hd). rewrite <- Hq in R.
  split; try done.
  - by rewrite Hq.
  - by rewrite He, Hd.
  - intros t. rewrite Hm. split; [done|]. intros (st & Hst & Hc). by rewrite (Ht _ _ Hst) in Hc.
  - intros t f Hst. by apply Ht in Hst.
Qed.

(** A step that moves one thread from outside to outside the critical
    section keeps the mutex clause; similarly for entering and leaving. *)
Lemma mutex_stay (th : gmap nat tstate) m t st st' :
  (forall u, m = Some u <-> exists x, th !! u = Some x /\ in_cs x) ->
  th !! t = Some st -> ~ in_cs st -> ~ in_cs st' ->
  forall u, m = Some u <-> exists x, <[t:=st']> th !! u = Some x /\ in_cs x.
Proof.
  intros H Ht Hn Hn' u. rewrite H. rewrite lookup_insert. case_decide; subst; naive_solver.
Qed.

Lemma mutex_enter (th : gmap nat tstate) t st st' :
  (forall u, None = Some u <-> exists x, th !! u = Some x /\ in_cs x) ->
  th !! t = Some st -> in_cs st' ->
  forall u, Some t = Some u <-> exists x, <[t:=st']> th !! u = Some x /\ in_cs x.
Proof.
  intros H Ht Hc u. rewrite lookup_insert. specialize (H u).
  case_decide; subst; naive_solver.
Qed.

Lemma mutex_leave (th th' : gmap nat tstate) t st' (g : tstate -> tstate) :
  (forall u, Some t = Some u <-> exists x, th !! u = Some x /\ in_cs x) ->
  ~ in_cs st' -> (forall x, in_cs (g x) -> in_cs x) -> th' = g <$> th ->
  forall u, None = Some u <-> exists x, <[t:=st']> th' !! u = Some x /\ in_cs x.
Proof.
  intros H Hn Hg -> u. split; [done|]. intros (x & Hx & Hc).
  rewrite lookup_insert in Hx. case_decide; [naive_solver|].
  rewrite lookup_fmap_Some in Hx. destruct Hx as (y & <- & Hy).
  destruct (H u) as [_ Hu]. assert (Some t = Some u) by (apply Hu; eauto). congruence.
Qed.

Ltac lookup_case :=
  match goal with
  | H : <[_ := _]> _ !! _ = Some _ |- _ =>
      rewrite lookup_insert in H; case_decide; simplify_eq
  end.

Lemma in_cs_wake_deq x : in_cs (wake_deq x) -> in_cs x.
Proof. by destruct x. Qed.

Lemma in_cs_wake_enq x : in_cs (wake_enq x) -> in_cs x.
Proof. by destruct x. Qed.

Lemma in_cs_id x : in_cs (id x) -> in_cs x.
Proof. done. Qed.

Lemma inv_work_step cap s s' l : inv cap s l -> work_step s s' -> exists l', inv cap s' l'.
Proof.
  intros I Hs. destruct I as [R C H M D E]. destruct (fifo_bound _ _ R) as [Hpos Hle].
  destruct Hs as [s t st st' Hm Ht Hw | s t f Hm Ht Hp | s t f q' Hm Ht Hp
                 | s t Hm Ht Hp | s t f q' Hm Ht Hp]; cbn in *.
  - exists l. split; cbn; try done.
    + rewrite Hm in M. eapply mutex_enter; [done | done |]. destruct st; cbn in Hw; simplify_eq; done.
    + intros u Hu. lookup_case; [by destruct st|eauto].
    + intros u g Hu. lookup_case; [by destruct st|eauto].
  - exists l. rewrite Hm in M. split; cbn; try done.
    + eapply (mutex_leave _ _ _ _ id); eauto. by rewrite map_fmap_id.
    + intros u Hu. lookup_case. eauto.
    + intros u g Hu. lookup_case; [|eauto].
      destruct (Z.eq_dec (Z.of_nat (length l)) (fifo_cap (s_q s))) as [|Hne]; [done|].
      destruct (fifo_push_room _ _ g R ltac:(lia)) as (q' & Hq & _). congruence.
  - rewrite Hm in M.
    destruct (Z.eq_dec (Z.of_nat (length l)) (fifo_cap (s_q s))) as [Heq|Hne].
    { rewrite (fifo_push_full _ _ f R Heq) in Hp. done. }
    destruct (fifo_push_room _ _ f R ltac:(lia)) as (q2 & Hq & R2 & C2).
    rewrite Hq in Hp. simplify_eq. exists (l ++ [f]). split; cbn; try done.
    + by rewrite H, app_assoc.
    + eapply (mutex_leave _ _ _ _ wake_deq); eauto using in_cs_wake_deq.
    + intros u Hu. lookup_case. rewrite lookup_fmap_Some in Hu.
      destruct Hu as ([] & ? & ?); done.
    + intros u g Hu. lookup_case. rewrite lookup_fmap_Some in Hu.
      destruct Hu as ([] & ? & Hu); simplify_eq. apply E in Hu. lia.
  - exists l. rewrite Hm in M. split; cbn; try done.
    + eapply (mutex_leave _ _ _ _ id); eauto. by rewrite map_fmap_id.
    + intros u Hu. lookup_case; [|eauto].
      destruct l as [|g l]; [done|]. destruct (fifo_pop_cons _ _ _ R) as (q' & Hq & _). congruence.
    + intros u g Hu. lookup_case. eauto.
  - rewrite Hm in M. destruct l as [|g l].
    { rewrite (fifo_pop_empty _ R) in Hp. done. }
    destruct (fifo_pop_cons _ _ _ R) as (q2 & Hq & R2 & C2).
    rewrite Hq in Hp. simplify_eq. exists l. split; cbn; try done.
    + by rewrite H, <- app_assoc.
    + eapply (mutex_leave _ _ _ _ wake_enq); eauto using in_cs_wake_enq.
    + intros u Hu. lookup_case. rewrite lookup_fmap_Some in Hu.
      destruct Hu as ([] & ? & Hu); simplify_eq. by apply D in Hu.
    + intros u g Hu. lookup_case. rewrite lookup_fmap_Some in Hu.
      destruct Hu as ([] & ? & ?); done.
Qed.

Lemma inv_step cap s s' l : inv cap s l -> step s s' -> exists l', inv cap s' l'.
Proof.
  intros I Hs. destruct Hs as [s s' Hs | s t st Ht Hst | s t st Ht].
  { by eapply inv_work_step. }
  - destruct I as [R C H M D E]. exists l. split; cbn; try done.
    + eapply mutex_stay; eauto. naive_solver.
    + intros u Hu. lookup_case; [naive_solver | eauto].
    + intros u g Hu. lookup_case; [naive_solver | eauto].
  - destruct I as [R C H M D E]. exists l. split; cbn; try done.
    + destruct (decide (s_mutex s = Some t)) as [Hm|Hm].
      * destruct (proj1 (M t) Hm) as (x & Hx & Hc). rewrite Ht in Hx. simplify_eq.
        replace (wake_enq (wake_deq x)) with x by (by destruct x). by rewrite insert_id.
      * eapply mutex_stay; eauto.
        -- intros Hc. apply Hm, M. eauto.
        -- intros Hc. apply Hm, M. exists st. split; [done|].
           by apply in_cs_wake_deq, in_cs_wake_enq.
    + intros u Hu. lookup_case; [by destruct st | eauto].
    + intros u g Hu. lookup_case; [by destruct st | eauto].
Qed.

Lemma inv_reachable q s s' : initial q s -> rtc step s s' -> exists l, inv (fifo_cap q) s' l.
Proof.
  intros Hi Hr. apply initial_inv in Hi. revert Hi. generalize (@nil F).
  induction Hr as [s|s s1 s' Hst Hr IH]; intros l Hi; [eauto|].
  destruct (inv_step _ _ _ _ Hi Hst) as (l' & Hi'). by eapply IH.
Qed.

(** In a state of the invariant with a thread inside a call, work is possible
    unless every thread inside a call waits for room or every one waits for a
    frame. *)
Lemma inv_progress cap s l t st : inv cap s l -> s_threads s !! t = Some st -> st <> TIdle ->
  (exists s', work_step s s') \/
  (Z.of_nat (length l) = cap /\
   forall u x, s_threads s !! u = Some x -> x = TIdle \/ exists f, x = TEnqWait f) \/
  (l = [] /\ forall u x, s_threads s !! u = Some x -> x = TIdle \/ x = TDeqWait).
Proof.
  intros I Ht Hst. destruct (fifo_bound _ _ (inv_rep _ _ _ I)) as [Hpos Hle].
  rewrite (inv_cap _ _ _ I) in *.
  destruct (s_mutex s) as [o|] eqn:Hm.
  { left. pose proof (proj1 (inv_mutex _ _ _ I o) Hm) as (x & Hx & Hc).
    destruct x as [|f|f|f|f| | | |]; try done.
    - destruct (Z.eq_dec (Z.of_nat (length l)) cap) as [Heq|Hne].
      + eexists. eapply step_enq_wait; eauto. eapply fifo_push_full; [apply I|].
        by rewrite (inv_cap _ _ _ I).
      + destruct (fifo_push_room _ _ f (inv_rep _ _ _ I)) as (q' & Hq & _).
        { rewrite (inv_cap _ _ _ I). lia. }
        eexists. eapply step_enq_done; eauto.
    - pose proof (inv_rep _ _ _ I) as R. destruct l as [|g l].
      + eexists. eapply step_deq_wait; eauto. by apply fifo_pop_empty.
      + destruct (fifo_pop_cons _ _ _ R) as (q' & Hq & _).
        eexists. eapply step_deq_done; eauto. }
  destruct (decide (map_Forall (fun _ x => wants_lock x = None) (s_threads s))) as [Hno|Hyes].
  2: { left. apply map_not_Forall in Hyes as (u & x & Hu & Hw); [|apply _].
       destruct (wants_lock x) as [x'|] eqn:Ew; [|done].
       eexists. eapply step_lock; eauto. }
  right.
  assert (Hcases : forall u x, s_threads s !! u = Some x ->
            x = TIdle \/ (exists f, x = TEnqWait f) \/ x = TDeqWait).
  { intros u x Hu. pose proof (Hno u x Hu) as Hw.
    destruct x; try discriminate Hw; eauto.
    - assert (s_mutex s = Some u) by (apply (inv_mutex _ _ _ I); eexists; by split). congruence.
    - assert (s_mutex s = Some u) by (apply (inv_mutex _ _ _ I); eexists; by split). congruence. }
  destruct (Hcases t st Ht) as [->|[[f ->]| ->]]; [done| |].
  - left. pose proof (inv_enq_wait _ _ _ I _ _ Ht) as Hfull. split; [done|].
    intros u x Hu. destruct (Hcases u x Hu) as [|[|]]; [eauto | eauto | subst].
    apply (inv_deq_wait _ _ _ I) in Hu. subst. cbn in *. lia.
  - right. pose proof (inv_deq_wait _ _ _ I _ Ht) as Hempty. split; [done|].
    intros u x Hu. destruct (Hcases u x Hu) as [|[[f ?]|]]; [eauto | subst | eauto].
    apply (inv_enq_wait _ _ _ I) in Hu. cbn in *. lia.
Qed.

End channel.

Arguments tstate : clear implicits.
Arguments sys : clear implicits.

(** ** Properties *)

(** C10: for every interleaving of any number of producers and consumers on a
    blocking frame queue, the frames that came out are a prefix of the frames
    that went in, in order, and the queue holds exactly the rest: nothing is
    lost, duplicated or reordered, and never more than the capacity is
    held. *)
Theorem frame_queue_fifo (q : dns_frame_queue) (s s' : sys dns_frame_queue dns_packet_frame) :
  initial q s -> rtc step s s' ->
  exists l, represents (s_q s') l /\ s_enq s' = s_deq s' ++ l /\
    Z.of_nat (length l) <= q_capacity q.
Proof.
  intros Hi Hr. destruct (inv_reachable q s s' Hi Hr) as (l & I).
  exists l. destruct (inv_rep _ _ _ I) as [R _]. split; [done|]. split; [apply I|].
  pose proof (rep_bound _ _ R). pose proof (inv_cap _ _ _ I). cbn in *. lia.
Qed.

(** C11: no wakeup is lost: whenever some thread is inside an enqueue or
    dequeue, either a thread can go on, or the queue is full and every thread
    inside a call is a producer that waits for room, or the queue is empty and
    every thread inside a call is a consumer that waits for a frame.  So no
    producer waits while there is room, no consumer while there is a frame,
    and a producer and a consumer never wait for each other. *)
Theorem frame_queue_no_deadlock (q : dns_frame_queue)
    (s s' : sys dns_frame_queue dns_packet_frame) (t : nat) (st : tstate dns_packet_frame) :
  initial q s -> rtc step s s' -> s_threads s' !! t = Some st -> st <> TIdle ->
  (exists s'', work_step s' s'') \/
  exists l, represents (s_q s') l /\
    (Z.of_nat (length l) = q_capacity q /\
       (forall u x, s_threads s' !! u = Some x -> x = TIdle \/ exists f, x = TEnqWait f) \/
     l = [] /\ forall u x, s_threads s' !! u = Some x -> x = TIdle \/ x = TDeqWait).
Proof.
  intros Hi Hr Ht Hst. destruct (inv_reachable q s s' Hi Hr) as (l & I).
  destruct (inv_progress _ _ _ _ _ I Ht Hst) as [|Hw]; [by left|]. right. exists l.
  split; [apply (inv_rep _ _ _ I) | exact Hw].
Qed.

(** ** Closed examples *)

Definition sample_sys : sys dns_frame_queue dns_packet_frame :=
  {| s_q := dns_frame_queue_create 1 DNS_QUEUE_BLOCK; s_mutex := None;
     s_threads := {[ 0%nat := TIdle; 1%nat := TIdle ]}; s_enq := []; s_deq := [] |}.

Lemma sample_sys_initial : initial (dns_frame_queue_create 1 DNS_QUEUE_BLOCK) sample_sys.
Proof.
  split; [split; [apply create_represents; lia | done]|]. repeat split; try done.
  intros t st Hst. cbn in Hst. apply lookup_insert_Some in Hst as [[_ <-]|[_ Hst]]; [done|].
  by apply lookup_singleton_Some in Hst as [_ <-].
Qed.

(** One producer inside its call. *)
Definition sample_sys_called : sys dns_frame_queue dns_packet_frame :=
  {| s_q := dns_frame_queue_create 1 DNS_QUEUE_BLOCK; s_mutex := None;
     s_threads := <[0%nat := TEnqLock (sample_frame 1 10)]> (s_threads sample_sys);
     s_enq := []; s_deq := [] |}.

Lemma sample_sys_reach : rtc step sample_sys sample_sys_called.
Proof.
  eapply rtc_l; [|apply rtc_refl].
  exact (step_call sample_sys 0%nat (TEnqLock (sample_frame 1 10)) eq_refl
           (or_introl (ex_intro _ _ eq_refl))).
Qed.

Lemma frame_queue_fifo_witness : exists l,
  represents (s_q sample_sys_called) l /\ s_enq sample_sys_called = s_deq sample_sys_called ++ l /\
  Z.of_nat (length l) <= 1.
Proof.
  exact (frame_queue_fifo _ sample_sys sample_sys_called sample_sys_initial sample_sys_reach).
Defined.

Lemma frame_queue_no_deadlock_witness :
  (exists s'', work_step sample_sys_called s'') \/
  exists l, represents (s_q sample_sys_called) l /\
    (Z.of_nat (length l) = 1 /\
       (forall u x, s_threads sample_sys_called !! u = Some x -> x = TIdle \/ exists f, x = TEnqWait f) \/
     l = [] /\ forall u x, s_threads sample_sys_called !! u = Some x -> x = TIdle \/ x = TDeqWait).
Proof.
  apply (frame_queue_no_deadlock _ sample_sys sample_sys_called 0
           (TEnqLock (sample_frame 1 10)) sample_sys_initial sample_sys_reach).
  - reflexivity.
  - discriminate.
Defined.
