(* ===== verification/PacketHash.v ===== *)
(** * The request hash table ([src/packet_hash.h], [src/packet_hash.c])

    Requests waiting for their response, hashed by primary key.  Buckets are
    heap objects; a chain of the table is the list of its buckets' addresses
    (the [next] pointers), and a bucket's [clist] the list of its packets'
    locations, first element first.  The representation relation [hrep]
    relates a table to the finite map from primary keys to the waiting
    requests of that key, newest first; every operation is proved to
    implement the corresponding map operation, through all resizes. *)

From stdpp Require Import base numbers gmap list.
From S2P Require Import Prelude Doubles Common Libs Packet PacketFrame.

(** ** Data *)

(** [struct dns_packet_hash_bucket]; [next] and [prevp] are the position in
    the chain. *)
Record dns_packet_hash_bucket : Set := {
  hash_value : Z;
  bpackets : list loc;
}.

Definition DNS_PACKET_HASH_MIN_PERCENT : Z := 25.
Definition DNS_PACKET_HASH_BEST_PERCENT : Z := 50.
Definition DNS_PACKET_HASH_MAX_PERCENT : Z := 75.
Definition DNS_PACKET_HASH_MAX_SEARCH : Z := 32.

(** [struct dns_packet_hash], with the heap of buckets. *)
Record dns_packet_hash : Type := {
  h_capacity : Z;
  h_min_capacity : Z;
  h_buckets : Z;
  h_seed : Z;
  h_data : list (list loc);
  h_bmem : gmap loc dns_packet_hash_bucket;
}.

(** [dns_packet_hash_create]; [r1] and [r2] are the values of the two calls
    of [random], used when the seed is 0 ([RAND_MAX] is [2^31 - 1]). *)
Definition dns_packet_hash_create (r1 r2 : Z) (capacity seed : Z) : dns_packet_hash :=
  {| h_capacity := capacity; h_min_capacity := capacity; h_buckets := 0;
     h_seed := if seed =? 0 then u64 (r1 + u64 (Z.shiftl r2 32)) else seed;
     h_data := replicate (Z.to_nat capacity) []; h_bmem := ∅ |}.

Definition set_data (h : dns_packet_hash) (d : list (list loc)) : dns_packet_hash :=
  {| h_capacity := h_capacity h; h_min_capacity := h_min_capacity h; h_buckets := h_buckets h;
     h_seed := h_seed h; h_data := d; h_bmem := h_bmem h |}.

Definition set_bmem (h : dns_packet_hash) (bm : gmap loc dns_packet_hash_bucket)
    : dns_packet_hash :=
  {| h_capacity := h_capacity h; h_min_capacity := h_min_capacity h; h_buckets := h_buckets h;
     h_seed := h_seed h; h_data := h_data h; h_bmem := bm |}.

Definition set_buckets (h : dns_packet_hash) (n : Z) : dns_packet_hash :=
  {| h_capacity := h_capacity h; h_min_capacity := h_min_capacity h; h_buckets := n;
     h_seed := h_seed h; h_data := h_data h; h_bmem := h_bmem h |}.

(** [dns_packet_hash_destroy]: every bucket of every chain is freed; what is
    left of the bucket heap. *)
Definition free_bucket (bm : gmap loc dns_packet_hash_bucket) (b : loc)
    : outcome (gmap loc dns_packet_hash_bucket) :=
  _ ← deref (bm !! b); Ok (delete b bm).

Definition dns_packet_hash_destroy (h : dns_packet_hash) : outcome (gmap loc dns_packet_hash_bucket) :=
  foldM (fun bm i => chain ← deref (h_data h !! i); foldM free_bucket bm chain)
    (h_bmem h) (seq 0 (Z.to_nat (h_capacity h))).

(** One bucket of the resize loop: it becomes the first of its new chain. *)
Definition resize_step (bm : gmap loc dns_packet_hash_bucket) (new_capacity : Z)
    (new_data : list (list loc)) (b : loc) : outcome (list (list loc)) :=
  bk ← deref (bm !! b);
  if new_capacity =? 0 then Fail UndefinedBehaviour
  else
    let mod_hash := Z.to_nat (hash_value bk mod new_capacity) in
    chain ← deref (new_data !! mod_hash);
    Ok (<[mod_hash := b :: chain]> new_data).

(** [dns_packet_hash_resize]. *)
Definition dns_packet_hash_resize (h : dns_packet_hash) (new_capacity : Z)
    : outcome dns_packet_hash :=
  let new_capacity := if new_capacity <? h_min_capacity h then h_min_capacity h else new_capacity in
  if new_capacity =? h_capacity h then Ok h
  else
    new_data ← foldM (resize_step (h_bmem h) new_capacity)
                 (replicate (Z.to_nat new_capacity) []) (concat (h_data h));
    Ok {| h_capacity := new_capacity; h_min_capacity := h_min_capacity h;
          h_buckets := h_buckets h; h_seed := h_seed h;
          h_data := new_data; h_bmem := h_bmem h |}.

Section hash.
Context `{K : Libknot}.

Abbreviation mem := (gmap loc dns_packet).

(** The walk along one chain: the position of the packet's bucket, or of the
    terminating NULL. *)
Fixpoint find_in_chain (m : mem) (bm : gmap loc dns_packet_hash_bucket) (p : dns_packet)
    (hv : Z) (chain : list loc) : outcome nat :=
  match chain with
  | [] => Ok O
  | b :: chain =>
      bk ← deref (bm !! b);
      first_packet ← deref (head (bpackets bk));
      if hash_value bk =? hv then
        fp ← deref (m !! first_packet);
        if dns_packet_primary_match p fp then Ok O
        else S <$> find_in_chain m bm p hv chain
      else S <$> find_in_chain m bm p hv chain
  end.

(** [dns_packet_hash_find_bucket]: the pointer to the bucket pointer, as the
    index of the chain and the position in it. *)
Definition dns_packet_hash_find_bucket (m : mem) (h : dns_packet_hash) (p : dns_packet) (hv : Z)
    : outcome (nat * nat) :=
  if h_capacity h =? 0 then Fail UndefinedBehaviour
  else
    let i := Z.to_nat (hv mod h_capacity h) in
    chain ← deref (h_data h !! i);
    j ← find_in_chain m (h_bmem h) p hv chain;
    Ok (i, j).

(** [clist_add_head(&b->packets, &p->secnode)]. *)
Definition bucket_add_head (h : dns_packet_hash) (b l : loc) : outcome dns_packet_hash :=
  bk ← deref (h_bmem h !! b);
  Ok (set_bmem h (<[b := {| hash_value := hash_value bk; bpackets := l :: bpackets bk |}]> (h_bmem h))).

(** [dns_packet_hash_insert_packet]. *)
Definition dns_packet_hash_insert_packet (m : mem) (h : dns_packet_hash) (l : loc)
    : outcome dns_packet_hash :=
  p ← deref (m !! l);
  hv ← dns_packet_primary_hash p (h_seed h);
  '(i, j) ← dns_packet_hash_find_bucket m h p hv;
  chain ← deref (h_data h !! i);
  match chain !! j with
  | Some b => bucket_add_head h b l
  | None =>
      let b := fresh (dom (h_bmem h)) in
      let h := set_bmem h (<[b := {| hash_value := hv; bpackets := [] |}]> (h_bmem h)) in
      let h := set_data h (<[i := chain ++ [b]]> (h_data h)) in
      let h := set_buckets h (u64 (h_buckets h + 1)) in
      h ← (if h_buckets h >? u64 (h_capacity h * DNS_PACKET_HASH_MAX_PERCENT) / 100
           then dns_packet_hash_resize h (u64 (h_buckets h * 100) / DNS_PACKET_HASH_BEST_PERCENT)
           else Ok h);
      bucket_add_head h b l
  end.

(** [dns_packet_hash_remove_from_bucket]; the packet is in the bucket. *)
Definition dns_packet_hash_remove_from_bucket (h : dns_packet_hash) (l : loc) (ij : nat * nat)
    : outcome dns_packet_hash :=
  let '(i, j) := ij in
  chain ← deref (h_data h !! i);
  b ← deref (chain !! j);
  bk ← deref (h_bmem h !! b);
  if negb (bool_decide (l ∈ bpackets bk)) then Fail UndefinedBehaviour
  else
    let rest := filter (.≠ l) (bpackets bk) in
    if bool_decide (rest = []) then
      let h := set_data h (<[i := delete j chain]> (h_data h)) in
      let h := set_bmem h (delete b (h_bmem h)) in
      let h := set_buckets h (u64 (h_buckets h - 1)) in
      if h_buckets h <? u64 (h_capacity h * DNS_PACKET_HASH_MIN_PERCENT) / 100
      then dns_packet_hash_resize h (u64 (h_buckets h * 100) / DNS_PACKET_HASH_BEST_PERCENT)
      else Ok h
    else Ok (set_bmem h (<[b := {| hash_value := hash_value bk; bpackets := rest |}]> (h_bmem h))).

(** The walk over a bucket in [dns_packet_hash_get_match]: the first packet
    that matches, giving up when [cnt] exceeds the search limit. *)
Fixpoint match_search (m : mem) (p : dns_packet) (match_qname : bool) (cnt : Z) (ls : list loc)
    : outcome (option loc) :=
  match ls with
  | [] => Ok None
  | l :: ls =>
      req ← deref (m !! l);
      ok ← (if negb match_qname then Ok true else dns_packet_qname_match req p);
      if (ok : bool) then Ok (Some l)
      else if cnt + 1 >? DNS_PACKET_HASH_MAX_SEARCH then Ok None
      else match_search m p match_qname (cnt + 1) ls
  end.

(** [dns_packet_hash_get_match]: the matching request, taken out of the
    table. *)
Definition dns_packet_hash_get_match (m : mem) (h : dns_packet_hash) (p : dns_packet)
    (match_qname : bool) : outcome (option loc * dns_packet_hash) :=
  hv ← dns_packet_primary_hash p (h_seed h);
  '(i, j) ← dns_packet_hash_find_bucket m h p hv;
  chain ← deref (h_data h !! i);
  match chain !! j with
  | None => Ok (None, h)
  | Some b =>
      bk ← deref (h_bmem h !! b);
      r ← match_search m p match_qname 0 (bpackets bk);
      match r with
      | None => Ok (None, h)
      | Some l => h ← dns_packet_hash_remove_from_bucket h l (i, j); Ok (Some l, h)
      end
  end.

(** [dns_packet_hash_remove_packet]. *)
Definition dns_packet_hash_remove_packet (m : mem) (h : dns_packet_hash) (l : loc)
    : outcome dns_packet_hash :=
  p ← deref (m !! l);
  hv ← dns_packet_primary_hash p (h_seed h);
  '(i, j) ← dns_packet_hash_find_bucket m h p hv;
  chain ← deref (h_data h !! i);
  _ ← c_assert (bool_decide (is_Some (chain !! j)));
  dns_packet_hash_remove_from_bucket h l (i, j).

End hash.

(** ** The abstract table *)

#[global] Program Instance primary_key_countable : Countable primary_key :=
  inj_countable' (fun k => (key_af k, key_proto k, key_id k, key_client k, key_server k))
    (fun '(a, b, c, d, e) =>
       {| key_af := a; key_proto := b; key_id := c; key_client := d; key_server := e |}) _.
Next Obligation. by intros []. Qed.

(** The buckets of chain [i] are the buckets whose hash falls on [i]. *)
Record index_ok (cap : Z) (data : list (list loc)) (bm : gmap loc dns_packet_hash_bucket) : Prop := {
  idx_cap : 0 < cap < 2 ^ 56;
  idx_length : Z.of_nat (length data) = cap;
  idx_mem : forall i chain b, data !! i = Some chain ->
    b ∈ chain <-> exists bk, bm !! b = Some bk /\ hash_value bk mod cap = Z.of_nat i;
  idx_nodup : forall i chain, data !! i = Some chain -> NoDup chain;
}.

Section rep.
Context `{K : Libknot}.
Abbreviation mem := (gmap loc dns_packet).

(** [hrep m h A]: the table [h] over the packet heap [m] holds, for every key
    [k], the requests [A !! k], newest first. *)
Record hrep (m : mem) (h : dns_packet_hash) (A : gmap primary_key (list loc)) : Prop := {
  hr_index : index_ok (h_capacity h) (h_data h) (h_bmem h);
  hr_min : 0 < h_min_capacity h <= h_capacity h;
  hr_seed : 256 < h_seed h;
  hr_buckets : h_buckets h = Z.of_nat (size (h_bmem h));
  hr_load : h_buckets h <= h_capacity h * 75 / 100;
  hr_fwd : forall k ls, A !! k = Some ls -> ls <> [] /\
    exists b, h_bmem h !! b = Some {| hash_value := key_hash k (h_seed h); bpackets := ls |};
  hr_bwd : forall b bk, h_bmem h !! b = Some bk ->
    exists k, A !! k = Some (bpackets bk) /\ hash_value bk = key_hash k (h_seed h);
  hr_inj : forall b1 b2 bk1 bk2, h_bmem h !! b1 = Some bk1 -> h_bmem h !! b2 = Some bk2 ->
    bpackets bk1 = bpackets bk2 -> b1 = b2;
  hr_packets : forall k ls l, A !! k = Some ls -> l ∈ ls ->
    exists p, m !! l = Some p /\ packet_key p = k /\ DNS_PACKET_IS_REQUEST p = true;
  hr_nodup : forall k ls, A !! k = Some ls -> NoDup ls;
}.

(** The packets of one key determine the key. *)
Lemma hrep_key_inj m h A k1 k2 ls : hrep m h A ->
  A !! k1 = Some ls -> A !! k2 = Some ls -> k1 = k2.
Proof.
  intros R H1 H2. destruct ls as [|l ls]; [by apply (hr_fwd _ _ _ R) in H1 as [? _]|].
  destruct (hr_packets _ _ _ R _ _ l H1) as (p1 & Hp1 & <- & _); [set_solver|].
  destruct (hr_packets _ _ _ R _ _ l H2) as (p2 & Hp2 & <- & _); [set_solver|].
  by rewrite Hp1 in Hp2; simplify_eq.
Qed.

(** A bucket is identified by its key. *)
Lemma hrep_bucket m h A k ls b bk : hrep m h A -> A !! k = Some ls ->
  h_bmem h !! b = Some bk -> bpackets bk = ls -> hash_value bk = key_hash k (h_seed h).
Proof.
  intros R Hk Hb <-. destruct (hr_bwd _ _ _ R _ _ Hb) as (k' & Hk' & ->).
  by rewrite (hrep_key_inj _ _ _ _ _ _ R Hk Hk').
Qed.

Lemma find_in_chain_spec m h A p chain : hrep m h A ->
  (forall b, b ∈ chain -> is_Some (h_bmem h !! b)) ->
  exists j, find_in_chain m (h_bmem h) p (key_hash (packet_key p) (h_seed h)) chain = Ok j /\
    ((exists b bk, chain !! j = Some b /\ h_bmem h !! b = Some bk /\
        A !! packet_key p = Some (bpackets bk)) \/
     (j = length chain /\
      forall b bk, b ∈ chain -> h_bmem h !! b = Some bk -> A !! packet_key p <> Some (bpackets bk))).
Proof.
  intros R. induction chain as [|b chain IH]; intros Hin; cbn [find_in_chain].
  { exists O. split; [done|]. right. split; [done|]. set_solver. }
  destruct (Hin b) as [bk Hb]; [set_solver|]. rewrite Hb. cbn [deref mbind outcome_bind].
  destruct (hr_bwd _ _ _ R _ _ Hb) as (k & Hk & Hhv).
  destruct (bpackets bk) as [|l ls] eqn:Hls; [by apply (hr_fwd _ _ _ R) in Hk as [? _]|].
  cbn [head deref mbind outcome_bind].
  destruct (hr_packets _ _ _ R _ _ l Hk) as (fp & Hfp & Hfk & _); [set_solver|].
  destruct IH as (j & Hj & Hcase); [set_solver|].
  destruct (decide (k = packet_key p)) as [->|Hne].
  - exists O. rewrite Hhv, Z.eqb_refl, Hfp. cbn [deref mbind outcome_bind].
    rewrite primary_match_decide, bool_decide_eq_true_2 by done.
    split; [done|]. left. exists b, bk. by rewrite Hls.
  - exists (S j).
    assert (Hno : dns_packet_primary_match p fp = false).
    { rewrite primary_match_decide. apply bool_decide_eq_false_2. congruence. }
    split.
    { rewrite Hj, Hfp. cbn [deref mbind outcome_bind]. rewrite Hno. by destruct (_ =? _). }
    destruct Hcase as [(b' & bk' & Hb' & Hbk' & HA)|[-> Hnone]].
    + left. exists b', bk'. done.
    + right. split; [done|]. intros b' bk' [->|Hb']%elem_of_cons Hbk'; [|by eapply Hnone].
      rewrite Hbk' in Hb. simplify_eq. rewrite Hls. intros HA.
      apply Hne. by eapply hrep_key_inj.
Qed.

(** Where the bucket of a key is found. *)
Lemma find_bucket_spec m h A p : hrep m h A ->
  exists i j chain,
    dns_packet_hash_find_bucket m h p (key_hash (packet_key p) (h_seed h)) = Ok (i, j) /\
    h_data h !! i = Some chain /\
    Z.of_nat i = key_hash (packet_key p) (h_seed h) mod h_capacity h /\
    match A !! packet_key p with
    | Some ls => exists b, chain !! j = Some b /\
        h_bmem h !! b = Some {| hash_value := key_hash (packet_key p) (h_seed h); bpackets := ls |}
    | None => j = length chain
    end.
Proof.
  intros R. destruct (hr_index _ _ _ R) as [Hcap Hlen Hmem Hnd].
  set (hv := key_hash (packet_key p) (h_seed h)).
  pose proof (Z.mod_pos_bound hv (h_capacity h) ltac:(lia)) as Hmod.
  destruct (lookup_lt_is_Some_2 (h_data h) (Z.to_nat (hv mod h_capacity h))) as [chain Hchain]; [lia|].
  destruct (find_in_chain_spec m h A p chain R) as (j & Hj & Hcase).
  { intros b Hb. apply (Hmem _ _ _ Hchain) in Hb as (bk & Hbk & _). eauto. }
  exists (Z.to_nat (hv mod h_capacity h)), j, chain.
  unfold dns_packet_hash_find_bucket. rewrite Hchain. cbn [deref mbind outcome_bind].
  destruct (Z.eqb_spec (h_capacity h) 0); [lia|]. fold hv in Hj. rewrite Hj. cbn.
  split; [done|]. split; [done|]. split; [lia|].
  destruct (A !! packet_key p) as [ls|] eqn:HA.
  - destruct Hcase as [(b & bk & Hb & Hbk & [= ->])|[_ Hnone]].
    + exists b. split; [done|]. rewrite Hbk. f_equal. destruct bk as [bhv bps]. cbn in *. f_equal.
      by apply (hrep_bucket _ _ _ _ _ _ _ R HA Hbk).
    + exfalso. destruct (hr_fwd _ _ _ R _ _ HA) as (_ & b & Hb).
      eapply Hnone; [|exact Hb|done]. apply (Hmem _ _ _ Hchain). eexists. split; [exact Hb|].
      cbn. fold hv. lia.
  - destruct Hcase as [(b & bk & _ & _ & ?)|[-> _]]; done.
Qed.

(** ** Resizing *)

(** The bucket falls on chain [i] of a table of capacity [n]. *)
Definition falls (bm : gmap loc dns_packet_hash_bucket) (n : Z) (i : nat) (b : loc) : bool :=
  match bm !! b with
  | Some bk => hash_value bk mod n =? Z.of_nat i
  | None => false
  end.

Lemma resize_fold bm n bs d0 : 0 < n -> Z.of_nat (length d0) = n ->
  (forall b, b ∈ bs -> is_Some (bm !! b)) ->
  exists d, foldM (resize_step bm n) d0 bs = Ok d /\ length d = length d0 /\
    forall i chain, d !! i = Some chain -> exists chain0, d0 !! i = Some chain0 /\
      chain = reverse (filter (fun b => falls bm n i b = true) bs) ++ chain0.
Proof.
  intros Hn. revert d0. induction bs as [|b bs IH]; intros d0 Hl Hin; cbn [foldM].
  { exists d0. split; [done|]. split; [done|]. intros i chain Hi. exists chain. by rewrite filter_nil. }
  destruct (Hin b) as [bk Hb]; [set_solver|].
  pose proof (Z.mod_pos_bound (hash_value bk) n Hn) as Hmod.
  destruct (lookup_lt_is_Some_2 d0 (Z.to_nat (hash_value bk mod n))) as [c Hc]; [lia|].
  assert (Hs : resize_step bm n d0 b = Ok (<[Z.to_nat (hash_value bk mod n):=b :: c]> d0)).
  { unfold resize_step. rewrite Hb. cbn [deref mbind outcome_bind].
    destruct (Z.eqb_spec n 0); [lia|]. by rewrite Hc. }
  rewrite Hs. cbn [mbind outcome_bind].
  destruct (IH (<[Z.to_nat (hash_value bk mod n):=b :: c]> d0)) as (d & Hd & Hlen & Hch).
  { by rewrite length_insert. }
  { intros b' Hb'. apply Hin. set_solver. }
  exists d. split; [done|]. split; [by rewrite Hlen, length_insert|].
  intros i chain Hi. destruct (Hch i chain Hi) as (c0 & Hc0 & ->).
  rewrite list_lookup_insert in Hc0. rewrite filter_cons.
  assert (Hf : falls bm n i b = (hash_value bk mod n =? Z.of_nat i)) by (unfold falls; by rewrite Hb).
  rewrite Hf. case_decide as Hcase.
  - destruct Hcase as [<- Hlt]. simplify_eq. exists c. split; [done|].
    rewrite decide_True by (apply Z.eqb_eq; lia). by rewrite reverse_cons, <- app_assoc.
  - exists c0. split; [done|]. rewrite decide_False; [done|].
    intros Heq%Z.eqb_eq. apply Hcase. apply lookup_lt_Some in Hc. split; lia.
Qed.

Lemma NoDup_concat (data : list (list loc)) :
  (forall i c, data !! i = Some c -> NoDup c) ->
  (forall i j c1 c2 b, data !! i = Some c1 -> data !! j = Some c2 -> b ∈ c1 -> b ∈ c2 -> i = j) ->
  NoDup (concat data).
Proof.
  induction data as [|c data IH]; intros Hnd Hdis; cbn [concat]; [constructor|].
  apply NoDup_app. split; [by apply (Hnd O)|]. split.
  - intros b Hb (c2 & Hc2 & Hb2)%list_elem_of_In%in_concat.
    apply list_elem_of_In, list_elem_of_lookup in Hc2 as [j Hj].
    by apply list_elem_of_In in Hb2; specialize (Hdis O (S j) c c2 b eq_refl Hj Hb Hb2).
  - apply IH.
    + intros i c' Hc'. by apply (Hnd (S i)).
    + intros i j c1 c2 b H1 H2 Hb1 Hb2. specialize (Hdis (S i) (S j) c1 c2 b H1 H2 Hb1 Hb2). lia.
Qed.

Lemma index_concat cap data bm : index_ok cap data bm ->
  NoDup (concat data) /\ forall b, b ∈ concat data <-> is_Some (bm !! b).
Proof.
  intros [Hcap Hlen Hmem Hnd]. split.
  - apply NoDup_concat; [done|]. intros i j c1 c2 b H1 H2 Hb1 Hb2.
    apply (Hmem _ _ _ H1) in Hb1 as (bk1 & Hk1 & E1).
    apply (Hmem _ _ _ H2) in Hb2 as (bk2 & Hk2 & E2). simplify_eq. lia.
  - intros b. rewrite list_elem_of_In, in_concat. split.
    + intros (c & Hc & Hb). apply list_elem_of_In, list_elem_of_lookup in Hc as [i Hi].
      apply list_elem_of_In, (Hmem _ _ _ Hi) in Hb as (bk & Hbk & _). eauto.
    + intros [bk Hbk]. pose proof (Z.mod_pos_bound (hash_value bk) cap ltac:(lia)).
      destruct (lookup_lt_is_Some_2 data (Z.to_nat (hash_value bk mod cap))) as [c Hc]; [lia|].
      exists c. split.
      * apply list_elem_of_In, list_elem_of_lookup. eauto.
      * apply list_elem_of_In, (Hmem _ _ _ Hc). exists bk. split; [done|lia].
Qed.

Lemma resize_index h nc : index_ok (h_capacity h) (h_data h) (h_bmem h) ->
  0 < h_min_capacity h <= h_capacity h -> 0 <= nc < 2 ^ 56 ->
  exists h', dns_packet_hash_resize h nc = Ok h' /\
    index_ok (h_capacity h') (h_data h') (h_bmem h') /\ h_bmem h' = h_bmem h /\
    h_seed h' = h_seed h /\ h_min_capacity h' = h_min_capacity h /\
    h_buckets h' = h_buckets h /\ h_capacity h' = Z.max nc (h_min_capacity h).
Proof.
  intros I Hmin Hnc. destruct (index_concat _ _ _ I) as [Hnd Hin].
  unfold dns_packet_hash_resize.
  replace (if nc <? h_min_capacity h then h_min_capacity h else nc)
    with (Z.max nc (h_min_capacity h)) by (destruct (Z.ltb_spec nc (h_min_capacity h)); lia).
  set (n := Z.max nc (h_min_capacity h)).
  destruct (Z.eqb_spec n (h_capacity h)) as [Heq|Hne]; [exists h; auto 10|].
  destruct (resize_fold (h_bmem h) n (concat (h_data h)) (replicate (Z.to_nat n) []))
    as (d & -> & Hlen & Hch).
  { lia. }
  { rewrite length_replicate. lia. }
  { intros b. apply Hin. }
  cbn. eexists. split; [reflexivity|]. split; [|auto 10]. cbn.
  assert (Hchain : forall i chain, d !! i = Some chain ->
            chain = reverse (filter (fun b => falls (h_bmem h) n i b = true) (concat (h_data h)))).
  { intros i chain Hi. destruct (Hch i chain Hi) as (c0 & Hc0 & ->).
    apply lookup_replicate in Hc0 as [-> _]. by rewrite app_nil_r. }
  destruct I as [Hcap _ _ _]. split.
  - lia.
  - rewrite Hlen, length_replicate. lia.
  - intros i chain b Hi. rewrite (Hchain i chain Hi), elem_of_reverse, list_elem_of_filter, Hin.
    unfold falls. split.
    + intros [Hf [bk Hbk]]. rewrite Hbk in Hf. apply Z.eqb_eq in Hf. eauto.
    + intros (bk & Hbk & Hf). rewrite Hbk. split; [by apply Z.eqb_eq | eauto].
  - intros i chain Hi. rewrite (Hchain i chain Hi). rewrite (reverse_Permutation _). by apply NoDup_filter.
Qed.

(** ** Index of a changed bucket heap *)

Lemma index_update cap data bm b bk bk' : index_ok cap data bm ->
  bm !! b = Some bk -> hash_value bk' = hash_value bk ->
  index_ok cap data (<[b := bk']> bm).
Proof.
  intros [Hcap Hlen Hmem Hnd] Hb Hhv. split; try done.
  intros i chain x Hi. rewrite (Hmem _ _ _ Hi). rewrite lookup_insert.
  case_decide; subst; [|done]. split.
  - intros (y & Hy & Hm). simplify_eq. exists bk'. by rewrite Hhv.
  - intros (y & Hy & Hm). simplify_eq. exists bk. by rewrite <- Hhv.
Qed.

Lemma index_add cap data bm b bk i chain : index_ok cap data bm ->
  bm !! b = None -> data !! i = Some chain -> Z.of_nat i = hash_value bk mod cap ->
  index_ok cap (<[i := chain ++ [b]]> data) (<[b := bk]> bm).
Proof.
  intros [Hcap Hlen Hmem Hnd] Hb Hi Hhv.
  assert (Hnew : forall j c, data !! j = Some c -> b ∉ c).
  { intros j c Hj Hin. apply (Hmem _ _ _ Hj) in Hin as (x & Hx & _). congruence. }
  split; [done | by rewrite length_insert | |].
  - intros j c x Hj. rewrite list_lookup_insert in Hj. rewrite lookup_insert.
    case_decide as Hc; [destruct Hc as [<- _]; simplify_eq|].
    + rewrite elem_of_app, list_elem_of_singleton, (Hmem _ _ _ Hi).
      case_decide; subst; [|naive_solver]. split; [eauto|]. auto.
    + rewrite (Hmem _ _ _ Hj). case_decide; subst; [|done]. split.
      * intros (y & Hy & _). congruence.
      * intros (y & Hy & Hm). simplify_eq. exfalso. apply Hc. apply lookup_lt_Some in Hi. split; lia.
  - intros j c Hj. rewrite list_lookup_insert in Hj.
    case_decide as Hc; [destruct Hc as [<- _]; simplify_eq|by eapply Hnd].
    apply NoDup_app. split; [by eapply Hnd|]. split; [|apply NoDup_singleton].
    intros x Hx ->%list_elem_of_singleton. by eapply Hnew.
Qed.

Lemma index_remove cap data bm b i j chain : index_ok cap data bm ->
  data !! i = Some chain -> chain !! j = Some b ->
  index_ok cap (<[i := delete j chain]> data) (delete b bm).
Proof.
  intros [Hcap Hlen Hmem Hnd] Hi Hj.
  assert (Hb : b ∈ chain) by (apply list_elem_of_lookup; eauto).
  pose proof (Hnd _ _ Hi) as Hndc.
  assert (Hsplit : chain = take j chain ++ b :: drop (S j) chain) by (by rewrite take_drop_middle).
  assert (Hdel : delete j chain = take j chain ++ drop (S j) chain) by apply delete_take_drop.
  rewrite Hsplit in Hndc. apply NoDup_app in Hndc as (Hn1 & Hdis & Hn2).
  apply NoDup_cons in Hn2 as [Hb2 Hn2].
  assert (Hmd : forall x, x ∈ delete j chain <-> x ∈ chain /\ x <> b).
  { intros x. rewrite Hdel. rewrite Hsplit at 3. rewrite !elem_of_app, elem_of_cons.
    split; [|naive_solver]. intros [Hx|Hx]; (split; [auto|]); intros ->;
      [apply (Hdis _ Hx); set_solver | done]. }
  split; [done | by rewrite length_insert | |].
  - intros k c x Hk. rewrite list_lookup_insert in Hk. rewrite lookup_delete.
    case_decide as Hc; [destruct Hc as [<- _]; simplify_eq|].
    + rewrite Hmd, (Hmem _ _ _ Hi). case_decide; naive_solver.
    + rewrite (Hmem _ _ _ Hk). case_decide; subst; [|done]. split; [|naive_solver].
      intros (y & Hy & Hm). exfalso. apply Hc. apply (Hmem _ _ _ Hi) in Hb as (z & Hz & Hm').
      simplify_eq. apply lookup_lt_Some in Hi. split; lia.
  - intros k c Hk. rewrite list_lookup_insert in Hk.
    case_decide as Hc; [destruct Hc as [<- _]; simplify_eq|by eapply Hnd].
    rewrite Hdel. apply NoDup_app. set_solver.
Qed.

(** ** The operations on the abstract table *)

(** What is known of the bucket at address [b] for key [k]: it is absent, or
    it holds the requests of [k]. *)
Definition bucket_of (h : dns_packet_hash) (A : gmap primary_key (list loc)) (b : loc)
    (k : primary_key) : Prop :=
  (h_bmem h !! b = None /\ A !! k = None) \/
  (exists ls, h_bmem h !! b = Some {| hash_value := key_hash k (h_seed h); bpackets := ls |} /\
     A !! k = Some ls).

Lemma bucket_of_unique m h A b b' bk k : hrep m h A -> bucket_of h A b k ->
  h_bmem h !! b' = Some bk -> A !! k = Some (bpackets bk) -> b' = b.
Proof.
  intros R [[_ Hn]|(ls & Hb & HA)] Hb' HA'; simplify_eq.
  by eapply (hr_inj _ _ _ R).
Qed.

(** Replacing the requests of one key. *)
Lemma hrep_set m h h' A b k ls : hrep m h A -> bucket_of h A b k -> ls <> [] -> NoDup ls ->
  (forall l, l ∈ ls -> exists p, m !! l = Some p /\ packet_key p = k /\ DNS_PACKET_IS_REQUEST p = true) ->
  h_bmem h' = <[b := {| hash_value := key_hash k (h_seed h); bpackets := ls |}]> (h_bmem h) ->
  index_ok (h_capacity h') (h_data h') (h_bmem h') ->
  0 < h_min_capacity h' <= h_capacity h' -> h_seed h' = h_seed h ->
  h_buckets h' = Z.of_nat (size (h_bmem h')) -> h_buckets h' <= h_capacity h' * 75 / 100 ->
  hrep m h' (<[k := ls]> A).
Proof.
  intros R Hbo Hne Hnd Hls Hbm Hidx Hmin Hseed Hbuckets Hload.
  assert (Hk : forall b2 bk2, b2 <> b -> h_bmem h !! b2 = Some bk2 ->
            exists k2, k2 <> k /\ A !! k2 = Some (bpackets bk2) /\
              hash_value bk2 = key_hash k2 (h_seed h)).
  { intros b2 bk2 Hb2 Hbk2. destruct (hr_bwd _ _ _ R _ _ Hbk2) as (k2 & HA2 & Hh2).
    exists k2. split; [|done]. intros ->. apply Hb2. by eapply bucket_of_unique. }
  assert (Hdisj : forall k2 ls2, k2 <> k -> A !! k2 = Some ls2 -> ls2 <> ls).
  { intros k2 ls2 Hk2 HA2 ->. destruct ls as [|l ls]; [done|].
    destruct (Hls l) as (p & Hp & Hpk & _); [set_solver|].
    destruct (hr_packets _ _ _ R _ _ l HA2) as (p2 & Hp2 & Hpk2 & _); [set_solver|].
    congruence. }
  split; rewrite ?Hseed, ?Hbm in *; try done; try apply R.
  - intros k2 ls2. rewrite lookup_insert. case_decide as Hd.
    + intros [= <-]. subst. split; [done|]. exists b. by rewrite lookup_insert_eq.
    + intros HA2. destruct (hr_fwd _ _ _ R _ _ HA2) as (Hne2 & b2 & Hb2). split; [done|].
      exists b2. rewrite lookup_insert_ne; [done|]. intros <-.
      destruct Hbo as [[Hn _]|(ls' & Hb & HA)]; [congruence|]. rewrite Hb in Hb2. simplify_eq.
      apply Hd. symmetry. by eapply hrep_key_inj.
  - intros b2 bk2. rewrite lookup_insert. case_decide as Hd.
    + intros [= <-]. exists k. by rewrite lookup_insert_eq.
    + intros Hb2. destruct (Hk b2 bk2) as (k2 & Hk2 & HA2 & Hh2); [done|done|].
      exists k2. by rewrite lookup_insert_ne.
  - intros b1 b2 bk1 bk2. rewrite !lookup_insert. repeat case_decide; subst; try done.
    + intros [= <-] Hb2 Heq. cbn in Heq. destruct (Hk b2 bk2) as (k2 & Hk2 & HA2 & _); [done|done|].
      exfalso. by eapply Hdisj.
    + intros Hb1 [= <-] Heq. cbn in Heq. destruct (Hk b1 bk1) as (k1 & Hk1 & HA1 & _); [done|done|].
      exfalso. by eapply Hdisj.
    + apply (hr_inj _ _ _ R).
  - intros k2 ls2 l. rewrite lookup_insert. case_decide as Hd.
    + intros [= <-]. subst. apply Hls.
    + apply (hr_packets _ _ _ R).
  - intros k2 ls2. rewrite lookup_insert. case_decide as Hd.
    + by intros [= <-].
    + apply (hr_nodup _ _ _ R).
Qed.

(** Removing the last request of a key. *)
Lemma hrep_del m h h' A b k ls : hrep m h A ->
  h_bmem h !! b = Some {| hash_value := key_hash k (h_seed h); bpackets := ls |} ->
  A !! k = Some ls -> h_bmem h' = delete b (h_bmem h) ->
  index_ok (h_capacity h') (h_data h') (h_bmem h') ->
  0 < h_min_capacity h' <= h_capacity h' -> h_seed h' = h_seed h ->
  h_buckets h' = Z.of_nat (size (h_bmem h')) -> h_buckets h' <= h_capacity h' * 75 / 100 ->
  hrep m h' (delete k A).
Proof.
  intros R Hb HA Hbm Hidx Hmin Hseed Hbuckets Hload.
  assert (Hbo : bucket_of h A b k) by (right; eauto).
  split; rewrite ?Hseed, ?Hbm in *; try done; try apply R.
  - intros k2 ls2. rewrite lookup_delete. case_decide as Hd; [done|]. intros HA2.
    destruct (hr_fwd _ _ _ R _ _ HA2) as (Hne2 & b2 & Hb2). split; [done|]. exists b2.
    rewrite lookup_delete_ne; [done|]. intros <-. rewrite Hb in Hb2. simplify_eq.
    apply Hd. by eapply hrep_key_inj.
  - intros b2 bk2. rewrite lookup_delete. case_decide as Hd; [done|]. intros Hb2.
    destruct (hr_bwd _ _ _ R _ _ Hb2) as (k2 & HA2 & Hh2). exists k2. split; [|done].
    rewrite lookup_delete_ne; [done|]. intros <-. apply Hd. symmetry. by eapply bucket_of_unique.
  - intros b1 b2 bk1 bk2. rewrite !lookup_delete. repeat case_decide; try done.
    apply (hr_inj _ _ _ R).
  - intros k2 ls2 l. rewrite lookup_delete. case_decide; [done|]. apply (hr_packets _ _ _ R).
  - intros k2 ls2. rewrite lookup_delete. case_decide; [done|]. apply (hr_nodup _ _ _ R).
Qed.

(** Insertion on the abstract table. *)
Definition table_insert (A : gmap primary_key (list loc)) (k : primary_key) (l : loc) :=
  <[k := l :: default [] (A !! k)]> A.

(** Removal on the abstract table. *)
Definition table_remove (A : gmap primary_key (list loc)) (k : primary_key) (l : loc) :=
  let rest := filter (.≠ l) (default [] (A !! k)) in
  if bool_decide (rest = []) then delete k A else <[k := rest]> A.

(** Growing after a bucket has been added restores the load factor. *)
Lemma grow_index h : index_ok (h_capacity h) (h_data h) (h_bmem h) ->
  0 < h_min_capacity h <= h_capacity h -> 0 < h_buckets h <= 2 ^ 54 ->
  exists h', (if h_buckets h >? u64 (h_capacity h * DNS_PACKET_HASH_MAX_PERCENT) / 100
              then dns_packet_hash_resize h (u64 (h_buckets h * 100) / DNS_PACKET_HASH_BEST_PERCENT)
              else Ok h) = Ok h' /\ index_ok (h_capacity h') (h_data h') (h_bmem h') /\
    h_bmem h' = h_bmem h /\ h_seed h' = h_seed h /\ h_min_capacity h' = h_min_capacity h /\
    h_buckets h' = h_buckets h /\ h_min_capacity h <= h_capacity h' /\ h_buckets h' <= h_capacity h' * 75 / 100.
Proof.
  intros I Hmin Hsz. pose proof (idx_cap _ _ _ I) as Hcap.
  unfold DNS_PACKET_HASH_MAX_PERCENT, DNS_PACKET_HASH_BEST_PERCENT.
  rewrite (u64_small (h_capacity h * 75)), (u64_small (h_buckets h * 100)) by lia.
  destruct (Z.gtb_spec (h_buckets h) (h_capacity h * 75 / 100)) as [Hgt|Hle].
  - destruct (resize_index h (h_buckets h * 100 / 50)) as (h2 & Hr & ? & ? & ? & ? & ? & Hc2); [done | lia | div_lia |].
    exists h2. rewrite Hr, Hc2. repeat (split; [done || congruence|]). split; [lia|]. div_lia.
  - exists h. repeat (split; [done|]). lia.
Qed.

Lemma insert_hrep m h A l p : hrep m h A -> m !! l = Some p ->
  DNS_PACKET_IS_REQUEST p = true -> (forall k ls, A !! k = Some ls -> l ∉ ls) ->
  h_buckets h < 2 ^ 54 ->
  exists h', dns_packet_hash_insert_packet m h l = Ok h' /\
    hrep m h' (table_insert A (packet_key p) l) /\ h_seed h' = h_seed h /\
    h_buckets h <= h_buckets h' <= h_buckets h + 1.
Proof.
  intros R Hl Hreq Hnew Hsz. unfold dns_packet_hash_insert_packet, table_insert.
  rewrite Hl. cbn [deref mbind outcome_bind].
  rewrite primary_hash_key by apply R. cbn [mbind outcome_bind].
  destruct (find_bucket_spec m h A p R) as (i & j & chain & -> & Hi & Hhv & Hcase).
  cbn [mbind outcome_bind]. rewrite Hi. cbn [deref mbind outcome_bind].
  set (k := packet_key p) in *. set (hv := key_hash k (h_seed h)) in *.
  pose proof (hr_index _ _ _ R) as I. pose proof (idx_cap _ _ _ I) as Hcap.
  pose proof (hr_min _ _ _ R) as Hmin. pose proof (hr_buckets _ _ _ R) as Hbk.
  destruct (A !! k) as [ls|] eqn:HA.
  - destruct Hcase as (b & -> & Hb). unfold bucket_add_head. rewrite Hb.
    cbn. eexists. split; [reflexivity|]. split; [|cbn; lia].
    eapply (hrep_set m h _ A b k); try done; cbn; try apply R.
    + right. eauto.
    + apply NoDup_cons. split; [by eapply Hnew | by eapply (hr_nodup _ _ _ R)].
    + intros x [->|Hx]%elem_of_cons; [eauto | by eapply (hr_packets _ _ _ R)].
    + by eapply index_update.
    + rewrite map_size_insert_Some by done. apply R.
  - subst j. rewrite (lookup_ge_None_2 chain) by done.
    set (b := fresh (dom (h_bmem h))).
    assert (Hb : h_bmem h !! b = None) by (apply not_elem_of_dom, is_fresh).
    set (h1 := set_buckets _ _).
    assert (Hsize : size (<[b := {| hash_value := hv; bpackets := [] |}]> (h_bmem h)) =
                    S (size (h_bmem h))) by (by rewrite map_size_insert_None).
    assert (I1 : index_ok (h_capacity h1) (h_data h1) (h_bmem h1)) by (cbn; by apply index_add).
    assert (Hb1 : h_buckets h1 = h_buckets h + 1) by (cbn; rewrite u64_small by lia; done).
    assert (Hc1 : h_capacity h1 = h_capacity h) by done.
    assert (Hn1 : h_min_capacity h1 = h_min_capacity h) by done.
    assert (Hs1 : h_seed h1 = h_seed h) by done.
    assert (Hm1 : h_bmem h1 = <[b := {| hash_value := hv; bpackets := [] |}]> (h_bmem h)) by done.
    clearbody h1.
    destruct (grow_index h1) as (h2 & -> & I2 & Hm2 & Hs2 & Hmin2 & Hb2 & Hmc2 & Hl2); [done | lia | lia |].
    rewrite Hs1 in Hs2. rewrite Hn1 in Hmin2, Hmc2.
    cbn [mbind outcome_bind]. unfold bucket_add_head. rewrite Hm2.
    assert (Hb1' : h_bmem h1 !! b = Some {| hash_value := hv; bpackets := [] |})
      by (by rewrite Hm1, lookup_insert_eq).
    rewrite Hb1'. cbn [deref mbind outcome_bind hash_value bpackets default].
    eexists. split; [reflexivity|]. split; [|cbn [h_seed h_buckets set_bmem]; lia].
    eapply (hrep_set m h _ A b k); try done; cbn [set_bmem h_bmem h_capacity h_data h_min_capacity h_buckets h_seed].
    + left. done.
    + apply NoDup_singleton.
    + intros x ->%list_elem_of_singleton. eauto.
    + by rewrite Hm1, insert_insert_eq.
    + rewrite <- Hm2. eapply index_update; [done | by rewrite Hm2 | done].
    + lia.
    + rewrite Hb2, Hb1, map_size_insert_Some by eauto. rewrite Hm1, Hsize, Hbk. lia.
Qed.

Lemma remove_from_bucket_hrep m h A k l ls i j chain b : hrep m h A ->
  h_data h !! i = Some chain -> chain !! j = Some b ->
  h_bmem h !! b = Some {| hash_value := key_hash k (h_seed h); bpackets := ls |} ->
  A !! k = Some ls -> l ∈ ls ->
  exists h', dns_packet_hash_remove_from_bucket h l (i, j) = Ok h' /\
    hrep m h' (table_remove A k l) /\ h_seed h' = h_seed h /\ h_buckets h' <= h_buckets h.
Proof.
  intros R Hi Hj Hb HA Hl. unfold dns_packet_hash_remove_from_bucket, table_remove.
  rewrite Hi. cbn [deref mbind outcome_bind]. rewrite Hj. cbn [deref mbind outcome_bind].
  rewrite Hb. cbn [deref mbind outcome_bind hash_value bpackets]. rewrite HA.
  change (default [] (Some ls)) with ls.
  rewrite (bool_decide_eq_true_2 (l ∈ ls)) by done. cbn [negb].
  pose proof (hr_index _ _ _ R) as I. pose proof (idx_cap _ _ _ I) as Hcap.
  pose proof (hr_min _ _ _ R) as Hmin. pose proof (hr_buckets _ _ _ R) as Hbk.
  pose proof (hr_load _ _ _ R) as Hload.
  destruct (bool_decide_reflect (filter (.≠ l) ls = [])) as [Hnil|Hne].
  - set (h1 := set_buckets _ _).
    assert (Hsize : size (h_bmem h) = S (size (delete b (h_bmem h)))).
    { rewrite map_size_delete_Some by eauto.
      assert (size (h_bmem h) <> 0%nat) by (intros E; apply map_size_empty_inv in E;
        rewrite E, lookup_empty in Hb; done). lia. }
    assert (I1 : index_ok (h_capacity h1) (h_data h1) (h_bmem h1)) by (cbn; by apply index_remove).
    assert (Hle : Z.of_nat (size (h_bmem h)) < 2 ^ 56) by div_lia.
    assert (Hb1 : h_buckets h1 = h_buckets h - 1) by (cbn; rewrite u64_small by lia; done).
    assert (Hc1 : h_capacity h1 = h_capacity h) by done.
    assert (Hn1 : h_min_capacity h1 = h_min_capacity h) by done.
    assert (Hs1 : h_seed h1 = h_seed h) by done.
    assert (Hm1 : h_bmem h1 = delete b (h_bmem h)) by done.
    clearbody h1.
    assert (Hend : forall h2, index_ok (h_capacity h2) (h_data h2) (h_bmem h2) ->
      h_bmem h2 = h_bmem h1 -> h_seed h2 = h_seed h1 -> h_min_capacity h2 = h_min_capacity h1 ->
      h_buckets h2 = h_buckets h1 -> h_min_capacity h1 <= h_capacity h2 ->
      h_buckets h1 <= h_capacity h2 * 75 / 100 ->
      hrep m h2 (delete k A) /\ h_seed h2 = h_seed h /\ h_buckets h2 <= h_buckets h).
    { intros h2 I2 Hm2 Hs2 Hn2 Hb2 Hmc2 Hl2. split; [|split; [congruence | lia]].
      eapply (hrep_del m h _ A b k); try done; try congruence; try lia.
      rewrite Hb2, Hb1, Hm2, Hm1. lia. }
    unfold DNS_PACKET_HASH_MIN_PERCENT, DNS_PACKET_HASH_BEST_PERCENT.
    rewrite Hb1, Hc1, (u64_small (h_capacity h * 25)), (u64_small ((h_buckets h - 1) * 100)) by lia.
    destruct (Z.ltb_spec (h_buckets h - 1) (h_capacity h * 25 / 100)) as [Hlt|Hge].
    + destruct (resize_index h1 ((h_buckets h - 1) * 100 / 50)) as (h2 & Hr & ? & ? & ? & ? & ? & Hc2);
        [done | lia | div_lia |].
      exists h2. split; [done|]. apply Hend; try done; rewrite Hc2; div_lia.
    + exists h1. split; [done|]. apply Hend; try done; div_lia.
  - cbn. eexists. split; [reflexivity|]. split; [|cbn; lia].
    eapply (hrep_set m h _ A b k); try done; cbn; try apply R.
    + right. eauto.
    + by apply NoDup_filter, (hr_nodup _ _ _ R k).
    + intros x [_ Hx]%list_elem_of_filter. by eapply (hr_packets _ _ _ R).
    + by eapply index_update.
    + rewrite map_size_insert_Some by done. apply R.
Qed.

Lemma remove_packet_hrep m h A l p ls : hrep m h A -> m !! l = Some p ->
  A !! packet_key p = Some ls -> l ∈ ls ->
  exists h', dns_packet_hash_remove_packet m h l = Ok h' /\
    hrep m h' (table_remove A (packet_key p) l) /\ h_seed h' = h_seed h /\
    h_buckets h' <= h_buckets h.
Proof.
  intros R Hl HA Hin. unfold dns_packet_hash_remove_packet.
  rewrite Hl. cbn [deref mbind outcome_bind].
  rewrite primary_hash_key by apply R. cbn [mbind outcome_bind].
  destruct (find_bucket_spec m h A p R) as (i & j & chain & -> & Hi & _ & Hcase).
  cbn [mbind outcome_bind]. rewrite Hi. cbn [deref mbind outcome_bind].
  rewrite HA in Hcase. destruct Hcase as (b & Hj & Hb).
  rewrite c_assert_true by (apply bool_decide_eq_true_2; eauto). cbn [mbind outcome_bind].
  by eapply remove_from_bucket_hrep.
Qed.

(** Whether a request in the bucket satisfies the search of
    [dns_packet_hash_get_match]. *)
Definition is_match (m : mem) (p : dns_packet) (match_qname : bool) (l : loc) : bool :=
  match m !! l with
  | Some req => negb match_qname ||
      match dns_packet_qname_match req p with Ok b => b | Fail _ => false end
  | None => false
  end.

Lemma qname_match_total req p : DNS_PACKET_IS_REQUEST req = true ->
  DNS_PACKET_IS_REQUEST p = false -> exists b, dns_packet_qname_match req p = Ok b.
Proof.
  intros Hr Hp. unfold dns_packet_qname_match. unfold DNS_PACKET_IS_REQUEST in Hp.
  apply negb_false_iff in Hp. rewrite Hr, Hp. cbn.
  repeat case_match; eauto.
Qed.

Lemma match_search_spec m p mq ls cnt : 0 <= cnt <= 32 -> DNS_PACKET_IS_REQUEST p = false ->
  (forall l, l ∈ ls -> exists req, m !! l = Some req /\ DNS_PACKET_IS_REQUEST req = true) ->
  match_search m p mq cnt ls = Ok (List.find (is_match m p mq) (take (Z.to_nat (33 - cnt)) ls)).
Proof.
  intros Hcnt Hp. revert cnt Hcnt. induction ls as [|l ls IH]; intros cnt Hcnt Hin; cbn [match_search].
  { by rewrite take_nil. }
  destruct (Hin l) as (req & Hl & Hreq); [set_solver|].
  replace (Z.to_nat (33 - cnt)) with (S (Z.to_nat (33 - (cnt + 1)))) by lia.
  cbn [take List.find]. unfold is_match at 1. rewrite Hl. cbn [deref mbind outcome_bind].
  destruct (qname_match_total req p Hreq Hp) as [b Hb].
  assert (Hok : (if negb mq then Ok true else dns_packet_qname_match req p) =
                Ok (negb mq || match dns_packet_qname_match req p with Ok b => b | Fail _ => false end)).
  { rewrite Hb. by destruct mq. }
  rewrite Hok. cbn [mbind outcome_bind].
  destruct (negb mq || _); [done|].
  unfold DNS_PACKET_HASH_MAX_SEARCH. destruct (Z.gtb_spec (cnt + 1) 32).
  - by replace (Z.to_nat (33 - (cnt + 1))) with O by lia.
  - apply IH; [lia | intros; apply Hin; set_solver].
Qed.

Lemma get_match_hrep m h A p mq : hrep m h A -> DNS_PACKET_IS_REQUEST p = false ->
  let r := List.find (is_match m p mq) (take 33 (default [] (A !! packet_key p))) in
  exists h', dns_packet_hash_get_match m h p mq = Ok (r, h') /\
    hrep m h' (match r with Some l => table_remove A (packet_key p) l | None => A end) /\
    h_seed h' = h_seed h /\ h_buckets h' <= h_buckets h.
Proof.
  intros R Hp r. unfold dns_packet_hash_get_match.
  rewrite primary_hash_key by apply R. cbn [mbind outcome_bind].
  destruct (find_bucket_spec m h A p R) as (i & j & chain & -> & Hi & _ & Hcase).
  cbn [mbind outcome_bind]. rewrite Hi. cbn [deref mbind outcome_bind]. subst r.
  destruct (A !! packet_key p) as [ls|] eqn:HA;
    [change (default [] (Some ls)) with ls | change (default [] (@None (list loc))) with (@nil loc)].
  2: { rewrite lookup_ge_None_2 by lia. exists h. split; [done|]. split; [done|]. split; [done|lia]. }
  destruct Hcase as (b & Hj & Hb). rewrite Hj, Hb. cbn [deref mbind outcome_bind bpackets].
  rewrite (match_search_spec m p mq ls 0); [|lia|done|].
  2: { intros l Hl. destruct (hr_packets _ _ _ R _ _ _ HA Hl) as (q & ? & _ & ?). eauto. }
  change (Z.to_nat (33 - 0)) with 33%nat. cbn [mbind outcome_bind].
  destruct (List.find (is_match m p mq) (take 33 ls)) as [l|] eqn:Hf.
  - assert (Hl : l ∈ ls).
    { apply List.find_some in Hf as [Hin _]. apply list_elem_of_In in Hin.
      rewrite <- (take_drop 33 ls). set_solver. }
    destruct (remove_from_bucket_hrep m h A _ l ls i j chain b R Hi Hj Hb HA Hl) as (h' & -> & ?).
    cbn. eauto.
  - exists h. split; [done|]. split; [done|]. split; [done|lia].
Qed.

Lemma create_hrep m r1 r2 capacity seed : 0 < capacity < 2 ^ 56 ->
  256 < (if seed =? 0 then u64 (r1 + u64 (Z.shiftl r2 32)) else seed) ->
  hrep m (dns_packet_hash_create r1 r2 capacity seed) ∅.
Proof.
  intros Hcap Hseed. unfold dns_packet_hash_create. split; cbn; try done; try lia.
  - split; [done | rewrite length_replicate; lia | |].
    + intros i chain b [-> _]%lookup_replicate. split; [set_solver|].
      intros (bk & Hbk & _). by rewrite lookup_empty in Hbk.
    + intros i chain [-> _]%lookup_replicate. constructor.
  - div_lia.
Qed.

(** Only the keys and directions of the packets matter to the table. *)
Lemma hrep_mem m m' h A : hrep m h A ->
  (forall l p, m !! l = Some p -> (exists k ls, A !! k = Some ls /\ l ∈ ls) ->
     exists p', m' !! l = Some p' /\ packet_key p' = packet_key p /\
       DNS_PACKET_IS_REQUEST p' = DNS_PACKET_IS_REQUEST p) ->
  hrep m' h A.
Proof.
  intros R H. split; try apply R. intros k ls l HA Hl.
  destruct (hr_packets _ _ _ R _ _ _ HA Hl) as (p & Hp & Hk & Hr).
  destruct (H l p Hp) as (p' & Hp' & Hk' & Hr'); [eauto|].
  exists p'. split; [done|]. split; congruence.
Qed.

(** ** Destruction *)

Lemma free_buckets_ok ls : forall bm, NoDup ls -> (forall b, b ∈ ls -> is_Some (bm !! b)) ->
  exists bm', foldM free_bucket bm ls = Ok bm' /\
    forall b, bm' !! b = if decide (b ∈ ls) then None else bm !! b.
Proof.
  induction ls as [|x ls IH]; intros bm Hnd Hin; cbn [foldM].
  - exists bm. split; [done|]. intros b. by rewrite decide_False by set_solver.
  - apply NoDup_cons in Hnd as [Hx Hnd].
    destruct (Hin x) as [bk Hbk]; [set_solver|].
    assert (free_bucket bm x = Ok (delete x bm)) as -> by (unfold free_bucket; by rewrite Hbk). cbn [mbind outcome_bind].
    destruct (IH (delete x bm) Hnd) as (bm' & -> & Hl).
    { intros b Hb. rewrite lookup_delete_ne by (intros ->; done). apply Hin. set_solver. }
    exists bm'. split; [done|]. intros b. rewrite Hl, lookup_delete.
    repeat case_decide; set_solver.
Qed.

Lemma foldM_concat {S A} (f : S -> A -> outcome S) (ls : list (list A)) : forall s,
  foldM (fun s i => l ← deref (ls !! i); foldM f s l) s (seq 0 (length ls)) = foldM f s (concat ls).
Proof.
  induction ls as [|l ls IH] using rev_ind; intros s; [done|].
  rewrite length_app, Nat.add_comm. cbn [length Nat.add]. rewrite seq_S, foldM_app, concat_app, foldM_app.
  assert (E : foldM (fun s i => l ← deref ((ls ++ [l]) !! i); foldM f s l) s (seq 0 (length ls)) =
              foldM f s (concat ls)).
  { rewrite <- IH. assert (H : forall i, i ∈ seq 0 (length ls) -> (ls ++ [l]) !! i = ls !! i).
    { intros i [_ Hi]%elem_of_seq. by rewrite lookup_app_l. }
    revert s H. generalize (seq 0 (length ls)) as ids. intros ids; induction ids as [|i ids IHi]; intros s H; [done|].
    cbn [foldM]. rewrite H by set_solver. destruct (deref (ls !! i)) as [c|e]; cbn; [|done].
    destruct (foldM f s c) as [s'|e]; cbn; [|done]. apply IHi. set_solver. }
  rewrite E. destruct (foldM f s (concat ls)) as [s'|e]; cbn; [|done].
  rewrite lookup_app_r, Nat.sub_diag by lia. cbn. rewrite app_nil_r. by destruct (foldM f s' l).
Qed.

(** Destroying a table frees every bucket exactly once: nothing is freed
    twice and none is left. *)
Theorem hash_destroy_frees (m : mem) (h : dns_packet_hash) (A : gmap primary_key (list loc)) :
  hrep m h A -> dns_packet_hash_destroy h = Ok ∅.
Proof.
  intros R. pose proof (hr_index _ _ _ R) as Hi. destruct (index_concat _ _ _ Hi) as [Hnd Hin].
  unfold dns_packet_hash_destroy.
  replace (Z.to_nat (h_capacity h)) with (length (h_data h)) by (pose proof (idx_length _ _ _ Hi); lia).
  rewrite foldM_concat. destruct (free_buckets_ok (concat (h_data h)) (h_bmem h) Hnd) as (bm & -> & Hbm).
  { intros b. apply Hin. }
  f_equal. apply map_eq. intros b. rewrite Hbm, lookup_empty. case_decide as Hb; [done|].
  apply eq_None_not_Some. intros Hs. apply Hb. by apply Hin.
Qed.

(** ** Properties *)

(** C15: inserting a request into a table that represents [A] succeeds and
    gives a table that represents [A] with the request put in front of the
    requests of its key, whether the bucket existed, was created, or the
    creation made the table grow; at most 75% of the chains' number are
    buckets afterwards. *)
Theorem hash_insert_refines (m : mem) (h : dns_packet_hash) (A : gmap primary_key (list loc))
    (l : loc) (p : dns_packet) :
  hrep m h A -> m !! l = Some p -> DNS_PACKET_IS_REQUEST p = true ->
  (forall k ls, A !! k = Some ls -> l ∉ ls) -> h_buckets h < 2 ^ 54 ->
  exists h', dns_packet_hash_insert_packet m h l = Ok h' /\
    hrep m h' (table_insert A (packet_key p) l) /\
    h_buckets h' <= h_capacity h' * DNS_PACKET_HASH_MAX_PERCENT / 100.
Proof.
  intros R Hl Hr Hn Hb. destruct (insert_hrep m h A l p R Hl Hr Hn Hb) as (h' & -> & R' & _).
  exists h'. split; [done|]. split; [done|]. apply (hr_load _ _ _ R').
Qed.

(** C16: removing a waiting request removes it from the requests of its key
    and nothing else; the bucket disappears with its last request, and the
    table may shrink. *)
Theorem hash_remove_refines (m : mem) (h : dns_packet_hash) (A : gmap primary_key (list loc))
    (l : loc) (p : dns_packet) (ls : list loc) :
  hrep m h A -> m !! l = Some p -> A !! packet_key p = Some ls -> l ∈ ls ->
  exists h', dns_packet_hash_remove_packet m h l = Ok h' /\
    hrep m h' (table_remove A (packet_key p) l).
Proof.
  intros R Hl HA Hin. destruct (remove_packet_hrep m h A l p ls R Hl HA Hin) as (h' & -> & R' & _).
  eauto.
Qed.

(** C17: looking up the request of a response always succeeds.  It searches
    the first 33 waiting requests of the response's primary key, newest
    first, for one whose name matches (any, when names are not compared),
    returns it and takes exactly it out of the table; otherwise the table
    is unchanged. *)
Theorem hash_get_match_refines (m : mem) (h : dns_packet_hash) (A : gmap primary_key (list loc))
    (p : dns_packet) (match_qname : bool) :
  hrep m h A -> DNS_PACKET_IS_REQUEST p = false ->
  let r := List.find (is_match m p match_qname) (take 33 (default [] (A !! packet_key p))) in
  exists h', dns_packet_hash_get_match m h p match_qname = Ok (r, h') /\
    hrep m h' (match r with Some l => table_remove A (packet_key p) l | None => A end).
Proof.
  intros R Hp r. destruct (get_match_hrep m h A p match_qname R Hp) as (h' & ? & R' & _). eauto.
Qed.

(** Of two waiting requests with the same primary key the one inserted
    last is matched, not the oldest: the newer request is at the head of the
    bucket, where the search starts. *)
Theorem hash_match_newest (m : mem) (h h1 h2 : dns_packet_hash)
    (A : gmap primary_key (list loc)) (l1 l2 : loc) (p1 p2 r : dns_packet) :
  hrep m h A -> h_buckets h < 2 ^ 53 ->
  m !! l1 = Some p1 -> m !! l2 = Some p2 -> l1 <> l2 ->
  DNS_PACKET_IS_REQUEST p1 = true -> DNS_PACKET_IS_REQUEST p2 = true ->
  DNS_PACKET_IS_REQUEST r = false ->
  packet_key p1 = packet_key r -> packet_key p2 = packet_key r ->
  (forall k ls, A !! k = Some ls -> l1 ∉ ls /\ l2 ∉ ls) ->
  dns_packet_hash_insert_packet m h l1 = Ok h1 ->
  dns_packet_hash_insert_packet m h1 l2 = Ok h2 ->
  exists h3, dns_packet_hash_get_match m h2 r false = Ok (Some l2, h3).
Proof.
  intros R Hb Hl1 Hl2 Hne Hr1 Hr2 Hr Hk1 Hk2 Hout H1 H2.
  destruct (insert_hrep m h A l1 p1 R Hl1 Hr1) as (h1' & E1 & R1 & _ & Hb1);
    [intros k ls HA; by apply Hout in HA as [] | lia|].
  rewrite H1 in E1. injection E1 as <-.
  destruct (insert_hrep m h1 _ l2 p2 R1 Hl2 Hr2) as (h2' & E2 & R2 & _); [|lia|].
  { intros k ls. unfold table_insert. rewrite lookup_insert. case_decide.
    - intros [= <-]. subst. destruct (A !! packet_key p1) as [ls|] eqn:HA; cbn; [|set_solver].
      apply Hout in HA as []. set_solver.
    - intros HA. by apply Hout in HA as []. }
  rewrite H2 in E2. injection E2 as <-.
  destruct (get_match_hrep m h2 _ r false R2 Hr) as (h3 & Hg & _). exists h3. rewrite Hg.
  unfold table_insert. rewrite <- Hk2, lookup_insert_eq. cbn. unfold is_match. by rewrite Hl2.
Qed.

End rep.

(** ** Closed examples *)

Section examples.
#[local] Existing Instance Sample.sample_knot.

(** Two requests with the same primary key, five microseconds apart. *)
Definition sample_query2 : Sample.capture :=
  Sample.udp_capture (Sample.sockaddr4 1 5000) (Sample.sockaddr4 2 53) 100 10 (Sample.message 77 1).

Definition sample_mem : gmap loc dns_packet :=
  {[ 1%positive := packet_of sample_query; 2%positive := packet_of sample_query2 ]}.

Definition sample_hash : dns_packet_hash := dns_packet_hash_create 0 0 4 1000003.

Definition hash_after (m : gmap loc dns_packet) (h : dns_packet_hash) (l : loc) : dns_packet_hash :=
  match dns_packet_hash_insert_packet m h l with Ok h => h | Fail _ => h end.

Definition sample_hash1 : dns_packet_hash := hash_after sample_mem sample_hash 1%positive.
Definition sample_hash2 : dns_packet_hash := hash_after sample_mem sample_hash1 2%positive.

Lemma sample_hash_hrep : hrep sample_mem sample_hash ∅.
Proof. apply create_hrep; [lia | vm_compute; reflexivity]. Qed.

Lemma sample_hash1_hrep :
  hrep sample_mem sample_hash1 (table_insert ∅ (packet_key (packet_of sample_query)) 1%positive).
Proof.
  destruct (insert_hrep sample_mem sample_hash ∅ 1%positive (packet_of sample_query))
    as (h' & Hi & R & _).
  - apply sample_hash_hrep.
  - reflexivity.
  - vm_compute. reflexivity.
  - intros k ls Hk. by rewrite lookup_empty in Hk.
  - vm_compute. reflexivity.
  - unfold sample_hash1, hash_after. by rewrite Hi.
Qed.

Lemma hash_insert_refines_witness : exists h',
  dns_packet_hash_insert_packet sample_mem sample_hash 1%positive = Ok h' /\
  hrep sample_mem h' (table_insert ∅ (packet_key (packet_of sample_query)) 1%positive) /\
  h_buckets h' <= h_capacity h' * DNS_PACKET_HASH_MAX_PERCENT / 100.
Proof.
  apply (hash_insert_refines sample_mem sample_hash ∅ 1%positive (packet_of sample_query)).
  - apply sample_hash_hrep.
  - reflexivity.
  - vm_compute. reflexivity.
  - intros k ls Hk. rewrite lookup_empty in Hk. discriminate.
  - vm_compute. reflexivity.
Defined.

Lemma hash_remove_refines_witness : exists h',
  dns_packet_hash_remove_packet sample_mem sample_hash1 1%positive = Ok h' /\
  hrep sample_mem h'
    (table_remove (table_insert ∅ (packet_key (packet_of sample_query)) 1%positive)
       (packet_key (packet_of sample_query)) 1%positive).
Proof.
  apply (hash_remove_refines sample_mem sample_hash1
           (table_insert ∅ (packet_key (packet_of sample_query)) 1%positive)
           1%positive (packet_of sample_query) [1%positive]).
  - apply sample_hash1_hrep.
  - reflexivity.
  - unfold table_insert. apply lookup_insert_eq.
  - apply list_elem_of_singleton. reflexivity.
Defined.

Lemma hash_get_match_refines_witness : exists h',
  dns_packet_hash_get_match sample_mem sample_hash1 (packet_of sample_answer) true =
    Ok (Some 1%positive, h').
Proof.
  destruct (hash_get_match_refines sample_mem sample_hash1
              (table_insert ∅ (packet_key (packet_of sample_query)) 1%positive)
              (packet_of sample_answer) true) as (h' & Hg & _).
  - apply sample_hash1_hrep.
  - vm_compute. reflexivity.
  - exists h'. rewrite Hg. f_equal.
Defined.

Lemma hash_match_newest_witness : exists h3,
  dns_packet_hash_get_match sample_mem sample_hash2 (packet_of sample_answer) false =
    Ok (Some 2%positive, h3).
Proof.
  apply (hash_match_newest sample_mem sample_hash sample_hash1 sample_hash2 ∅
           1%positive 2%positive (packet_of sample_query) (packet_of sample_query2)).
  - apply sample_hash_hrep.
  - vm_compute. reflexivity.
  - reflexivity.
  - reflexivity.
  - discriminate.
  - vm_compute. reflexivity.
  - vm_compute. reflexivity.
  - vm_compute. reflexivity.
  - vm_compute. reflexivity.
  - vm_compute. reflexivity.
  - intros k ls Hk. rewrite lookup_empty in Hk. discriminate.
  - vm_compute. reflexivity.
  - vm_compute. reflexivity.
Defined.

End examples.
