(* ===== verification/Matcher.v ===== *)
(** * The packet matcher ([src/worker_packet_matcher.h], [src/worker_packet_matcher.c])

    The worker that pairs responses with requests inside a time window.  The
    state is the source's structure with the packet heap; the two frame
    queues are the streams of frames still to be read and of frames handed
    over (see [FrameChannel] for the queues themselves).  Log messages are
    not modelled. *)

From stdpp Require Import base numbers gmap list.
From S2P Require Import Prelude Doubles Common Libs Packet PacketFrame PacketHash.

Section packet_matcher.
Context `{K : Libknot}.

Abbreviation mem := (gmap loc dns_packet).

(** [struct dns_worker_packet_matcher]; [pm_in] is what the input queue will
    deliver, [pm_out] what the output queue received ([pm_has_out] is false
    when the output queue is NULL). *)
Record matcher : Type := {
  pm_mem : mem;
  pm_hash : dns_packet_hash;
  pm_queue : list loc;
  pm_matching_duration : Z;
  pm_frame_max_duration : Z;
  pm_match_qname : bool;
  pm_frame_max_size : Z;
  pm_inframe : option dns_packet_frame;
  pm_outframe : option dns_packet_frame;
  pm_current_time : Z;
  pm_in : list dns_packet_frame;
  pm_has_out : bool;
  pm_out : list dns_packet_frame;
}.

Definition WORKER_PACKET_MATCHER_MIN_HASH_SIZE : Z := 1024.

(** [dns_worker_packet_matcher_create]; the durations are configured in
    seconds, [r1] and [r2] seed the hash. *)
Definition dns_worker_packet_matcher_create (m : mem) (match_window_sec max_frame_duration_sec : Double.double)
    (match_qname : bool) (max_frame_size r1 r2 : Z) (input : list dns_packet_frame) (has_out : bool)
    : outcome matcher :=
  md ← dns_fsec_to_us_time match_window_sec;
  fd ← dns_fsec_to_us_time max_frame_duration_sec;
  _ ← c_assert (md >? 0);
  Ok {| pm_mem := m;
        pm_hash := dns_packet_hash_create r1 r2 WORKER_PACKET_MATCHER_MIN_HASH_SIZE 0;
        pm_queue := []; pm_matching_duration := md; pm_frame_max_duration := fd;
        pm_match_qname := match_qname; pm_frame_max_size := max_frame_size;
        pm_inframe := None; pm_outframe := None; pm_current_time := DNS_NO_TIME;
        pm_in := input; pm_has_out := has_out; pm_out := [] |}.

(** Assignments to single members. *)
Definition with_mem (pm : matcher) (m : mem) : matcher :=
  {| pm_mem := m; pm_hash := pm_hash pm; pm_queue := pm_queue pm;
     pm_matching_duration := pm_matching_duration pm;
     pm_frame_max_duration := pm_frame_max_duration pm; pm_match_qname := pm_match_qname pm;
     pm_frame_max_size := pm_frame_max_size pm; pm_inframe := pm_inframe pm;
     pm_outframe := pm_outframe pm; pm_current_time := pm_current_time pm; pm_in := pm_in pm;
     pm_has_out := pm_has_out pm; pm_out := pm_out pm |}.

Definition with_hash (pm : matcher) (h : dns_packet_hash) : matcher :=
  {| pm_mem := pm_mem pm; pm_hash := h; pm_queue := pm_queue pm;
     pm_matching_duration := pm_matching_duration pm;
     pm_frame_max_duration := pm_frame_max_duration pm; pm_match_qname := pm_match_qname pm;
     pm_frame_max_size := pm_frame_max_size pm; pm_inframe := pm_inframe pm;
     pm_outframe := pm_outframe pm; pm_current_time := pm_current_time pm; pm_in := pm_in pm;
     pm_has_out := pm_has_out pm; pm_out := pm_out pm |}.

Definition with_queue (pm : matcher) (q : list loc) : matcher :=
  {| pm_mem := pm_mem pm; pm_hash := pm_hash pm; pm_queue := q;
     pm_matching_duration := pm_matching_duration pm;
     pm_frame_max_duration := pm_frame_max_duration pm; pm_match_qname := pm_match_qname pm;
     pm_frame_max_size := pm_frame_max_size pm; pm_inframe := pm_inframe pm;
     pm_outframe := pm_outframe pm; pm_current_time := pm_current_time pm; pm_in := pm_in pm;
     pm_has_out := pm_has_out pm; pm_out := pm_out pm |}.

Definition with_inframe (pm : matcher) (f : option dns_packet_frame) : matcher :=
  {| pm_mem := pm_mem pm; pm_hash := pm_hash pm; pm_queue := pm_queue pm;
     pm_matching_duration := pm_matching_duration pm;
     pm_frame_max_duration := pm_frame_max_duration pm; pm_match_qname := pm_match_qname pm;
     pm_frame_max_size := pm_frame_max_size pm; pm_inframe := f;
     pm_outframe := pm_outframe pm; pm_current_time := pm_current_time pm; pm_in := pm_in pm;
     pm_has_out := pm_has_out pm; pm_out := pm_out pm |}.

Definition with_outframe (pm : matcher) (f : option dns_packet_frame) : matcher :=
  {| pm_mem := pm_mem pm; pm_hash := pm_hash pm; pm_queue := pm_queue pm;
     pm_matching_duration := pm_matching_duration pm;
     pm_frame_max_duration := pm_frame_max_duration pm; pm_match_qname := pm_match_qname pm;
     pm_frame_max_size := pm_frame_max_size pm; pm_inframe := pm_inframe pm;
     pm_outframe := f; pm_current_time := pm_current_time pm; pm_in := pm_in pm;
     pm_has_out := pm_has_out pm; pm_out := pm_out pm |}.

Definition with_time (pm : matcher) (t : Z) : matcher :=
  {| pm_mem := pm_mem pm; pm_hash := pm_hash pm; pm_queue := pm_queue pm;
     pm_matching_duration := pm_matching_duration pm;
     pm_frame_max_duration := pm_frame_max_duration pm; pm_match_qname := pm_match_qname pm;
     pm_frame_max_size := pm_frame_max_size pm; pm_inframe := pm_inframe pm;
     pm_outframe := pm_outframe pm; pm_current_time := t; pm_in := pm_in pm;
     pm_has_out := pm_has_out pm; pm_out := pm_out pm |}.

Definition with_in (pm : matcher) (fs : list dns_packet_frame) : matcher :=
  {| pm_mem := pm_mem pm; pm_hash := pm_hash pm; pm_queue := pm_queue pm;
     pm_matching_duration := pm_matching_duration pm;
     pm_frame_max_duration := pm_frame_max_duration pm; pm_match_qname := pm_match_qname pm;
     pm_frame_max_size := pm_frame_max_size pm; pm_inframe := pm_inframe pm;
     pm_outframe := pm_outframe pm; pm_current_time := pm_current_time pm; pm_in := fs;
     pm_has_out := pm_has_out pm; pm_out := pm_out pm |}.

Definition with_out (pm : matcher) (fs : list dns_packet_frame) : matcher :=
  {| pm_mem := pm_mem pm; pm_hash := pm_hash pm; pm_queue := pm_queue pm;
     pm_matching_duration := pm_matching_duration pm;
     pm_frame_max_duration := pm_frame_max_duration pm; pm_match_qname := pm_match_qname pm;
     pm_frame_max_size := pm_frame_max_size pm; pm_inframe := pm_inframe pm;
     pm_outframe := pm_outframe pm; pm_current_time := pm_current_time pm; pm_in := pm_in pm;
     pm_has_out := pm_has_out pm; pm_out := fs |}.

(** [dns_frame_queue_enqueue(pm->out, f)]: a NULL queue destroys the frame. *)
Definition matcher_enqueue (pm : matcher) (f : dns_packet_frame) : outcome matcher :=
  if pm_has_out pm then Ok (with_out pm (pm_out pm ++ [f]))
  else m ← dns_packet_frame_destroy (pm_mem pm) f; Ok (with_mem pm m).

(** [dns_worker_packet_matcher_output_frame]. *)
Definition dns_worker_packet_matcher_output_frame (pm : matcher) : outcome matcher :=
  ofr ← deref (pm_outframe pm);
  let new_frame := dns_packet_frame_create (time_end ofr) (time_end ofr) in
  pm ← matcher_enqueue pm ofr;
  Ok (with_outframe pm (Some new_frame)).

(** The packet branch of the loop once the frame has room: packet [l] (whose
    contents are [p]) leaves the queue, and the hash table if it still waits
    there, for the output frame. *)
Definition move_packet (pm : matcher) (l : loc) (p : dns_packet) (ev_time : Z) : outcome matcher :=
  let pm := with_queue pm (tail (pm_queue pm)) in
  pm ← (if DNS_PACKET_IS_REQUEST p && negb (bool_decide (is_Some (response p)))
        then h ← dns_packet_hash_remove_packet (pm_mem pm) (pm_hash pm) l; Ok (with_hash pm h)
        else Ok pm);
  ofr ← deref (pm_outframe pm);
  ofr ← dns_packet_frame_append_packet (pm_mem pm) ofr l;
  Ok (with_time (with_outframe pm (Some ofr)) ev_time).

(** The whole packet branch: a frame the packet would make too big is handed
    over first. *)
Definition output_packet (pm : matcher) (l : loc) (ev_time : Z) : outcome matcher :=
  ofr ← deref (pm_outframe pm);
  p ← deref (pm_mem pm !! l);
  pm ← (if u64 (frame_size ofr + memory_size p) >? u64 (pm_frame_max_size pm)
        then dns_worker_packet_matcher_output_frame pm else Ok pm);
  move_packet pm l p ev_time.

(** The body of the frame branch: the output frame ends at its maximal
    duration. *)
Definition end_frame (pm : matcher) (ev_time : Z) : outcome matcher :=
  ofr ← deref (pm_outframe pm);
  fin ← i64 (ev_time - pm_matching_duration pm);
  _ ← c_assert (time_end ofr <=? fin);
  dns_worker_packet_matcher_output_frame
    (with_time (with_outframe pm (Some (set_time_end ofr fin))) ev_time).

(** When the output frame, and when the oldest queued packet, has to leave. *)
Definition frame_eviction (pm : matcher) : outcome Z :=
  ofr ← deref (pm_outframe pm);
  t ← i64 (time_start ofr + pm_frame_max_duration pm);
  i64 (t + pm_matching_duration pm).

Definition next_eviction (pm : matcher) : outcome Z :=
  fe ← frame_eviction pm;
  match head (pm_queue pm) with
  | None => Ok fe
  | Some l => p ← deref (pm_mem pm !! l);
              pe ← i64 (ts p + pm_matching_duration pm);
              Ok (MIN fe pe)
  end.

(** The [while] loop of [dns_worker_packet_matcher_advance_time_to]. *)
Fixpoint advance_loop (fuel : nat) (pm : matcher) (time : Z) : outcome matcher :=
  if pm_current_time pm <? time then
    match fuel with
    | O => Fail OutOfFuel
    | S fuel =>
        ev_time ← next_eviction pm;
        if ev_time >? time then advance_loop fuel (with_time pm time) time
        else
          fe ← frame_eviction pm;
          pm ← (if ev_time =? fe then end_frame pm ev_time
                else l ← deref (head (pm_queue pm)); output_packet pm l ev_time);
          advance_loop fuel pm time
    end
  else Ok pm.

(** Enough turns for the loop: one for every queued packet, one for every
    frame that may end, and one to reach the time. *)
Definition advance_fuel (pm : matcher) (time : Z) : nat :=
  match pm_outframe pm with
  | Some ofr => length (pm_queue pm) +
      Z.to_nat ((time - time_start ofr) / pm_frame_max_duration pm) + 2
  | None => 1
  end.

(** [dns_worker_packet_matcher_advance_time_to]. *)
Definition dns_worker_packet_matcher_advance_time_to (pm : matcher) (time : Z) : outcome matcher :=
  _ ← c_assert (negb (time =? DNS_NO_TIME) && negb (pm_current_time pm =? DNS_NO_TIME));
  grace ← i64 (pm_current_time pm - 1000);
  if time <? grace then Ok pm else advance_loop (advance_fuel pm time) pm time.

(** [dns_worker_packet_matcher_next_packet]: the next packet, or [None] after
    the final frame.  Each turn either reads a frame or ends one. *)
Fixpoint next_packet_loop (fuel : nat) (pm : matcher) : outcome (option loc * matcher) :=
  match fuel with
  | O => Fail OutOfFuel
  | S fuel =>
      match pm_inframe pm with
      | None =>
          match pm_in pm with
          | [] => Fail Blocked
          | f :: rest =>
              let pm := with_in pm rest in
              if frame_type f =? 1 then
                m ← dns_packet_frame_destroy (pm_mem pm) f; Ok (None, with_mem pm m)
              else if (frame_count f =? 0) && (time_start f =? DNS_NO_TIME) then
                m ← dns_packet_frame_destroy (pm_mem pm) f; next_packet_loop fuel (with_mem pm m)
              else
                _ ← c_assert (negb (time_start f =? DNS_NO_TIME));
                let pm := with_inframe pm (Some f) in
                let pm := match pm_outframe pm with
                          | Some _ => pm
                          | None =>
                              with_time (with_outframe pm
                                (Some (dns_packet_frame_create (time_start f) (time_start f))))
                                (time_start f)
                          end in
                pm ← dns_worker_packet_matcher_advance_time_to pm (time_start f);
                next_packet_loop fuel pm
          end
      | Some f =>
          match packets f with
          | [] =>
              pm ← dns_worker_packet_matcher_advance_time_to pm (time_end f);
              m ← dns_packet_frame_destroy (pm_mem pm) f;
              next_packet_loop fuel (with_inframe (with_mem pm m) None)
          | l :: ps =>
              let pm := with_inframe pm (Some (set_packets f ps)) in
              p ← deref (pm_mem pm !! l);
              pm ← dns_worker_packet_matcher_advance_time_to pm (ts p);
              Ok (Some l, pm)
          end
      end
  end.

Definition dns_worker_packet_matcher_next_packet (pm : matcher) : outcome (option loc * matcher) :=
  next_packet_loop (2 * length (pm_in pm) + 2) pm.

(** The body of the main loop: a request is hashed and queued, a response is
    attached to its request or queued. *)
Definition process_packet (pm : matcher) (l : loc) : outcome matcher :=
  p ← deref (pm_mem pm !! l);
  if DNS_PACKET_IS_REQUEST p then
    h ← dns_packet_hash_insert_packet (pm_mem pm) (pm_hash pm) l;
    Ok (with_queue (with_hash pm h) (pm_queue pm ++ [l]))
  else
    '(r, h) ← dns_packet_hash_get_match (pm_mem pm) (pm_hash pm) p (pm_match_qname pm);
    let pm := with_hash pm h in
    match r with
    | Some req =>
        rp ← deref (pm_mem pm !! req);
        Ok (with_mem pm (<[req := set_response rp (Some l)]> (pm_mem pm)))
    | None => Ok (with_queue pm (pm_queue pm ++ [l]))
    end.

(** The [while] loop of [dns_worker_packet_matcher_main]. *)
Fixpoint main_loop (fuel : nat) (pm : matcher) : outcome matcher :=
  match fuel with
  | O => Fail OutOfFuel
  | S fuel =>
      '(o, pm) ← dns_worker_packet_matcher_next_packet pm;
      match o with
      | None => Ok pm
      | Some l => pm ← process_packet pm l; main_loop fuel pm
      end
  end.

(** The packets still to be read. *)
Definition todo (pm : matcher) : list loc :=
  match pm_inframe pm with Some f => packets f | None => [] end ++ flat_map packets (pm_in pm).

(** [dns_worker_packet_matcher_main]. *)
Definition dns_worker_packet_matcher_main (pm : matcher) : outcome matcher :=
  pm ← main_loop (S (length (todo pm))) pm;
  pm ← (if pm_current_time pm =? DNS_NO_TIME then Ok pm
        else t ← i64 (pm_current_time pm + pm_matching_duration pm);
             t ← i64 (t + 1);
             dns_worker_packet_matcher_advance_time_to pm t);
  pm ← match pm_outframe pm with
       | Some ofr => pm ← matcher_enqueue pm ofr; Ok (with_outframe pm None)
       | None => Ok pm
       end;
  matcher_enqueue pm (dns_packet_frame_create_final (pm_current_time pm)).

End packet_matcher.
