(* ===== verification/MatcherInv.v ===== *)
(** * Correctness of the packet matcher

    The invariant of [Matcher] in two parts: [heap_inv], on the packets, the
    hash table and what was read so far, and [time_inv], on the output frame,
    the clock and the queue.  Moving the time forward is described by the
    step relation [adv]; the loop follows it and terminates.  A third
    invariant, [window_inv], holds when the packets come in time order. *)

From stdpp Require Import base numbers gmap list sorting.
From S2P Require Import Prelude Doubles Common Libs Packet PacketFrame PacketHash Matcher.

(** ** Membership in the abstract hash table *)

Definition waiting (A : gmap primary_key (list loc)) (l : loc) : Prop :=
  exists k ls, A !! k = Some ls /\ l ∈ ls.

Lemma waiting_insert A k l x : waiting (table_insert A k l) x <-> x = l \/ waiting A x.
Proof.
  unfold waiting, table_insert. split.
  - intros (k' & ls & Hk & Hx). rewrite lookup_insert in Hk. case_decide; [|eauto].
    simplify_eq. apply elem_of_cons in Hx as [->|Hx]; [auto|]. right.
    destruct (A !! k') as [ls|] eqn:E; cbn in Hx; [eauto | set_solver].
  - intros [->|(k' & ls & Hk & Hx)].
    + exists k. eexists. rewrite lookup_insert_eq. split; [done|]. set_solver.
    + destruct (decide (k = k')) as [->|Hne].
      * exists k'. eexists. rewrite lookup_insert_eq, Hk. split; [done|]. cbn. set_solver.
      * exists k', ls. by rewrite lookup_insert_ne.
Qed.

Lemma lookup_table_remove A k l k' :
  table_remove A k l !! k' =
    if decide (k = k')
    then match filter (.≠ l) (default [] (A !! k)) with [] => None | rest => Some rest end
    else A !! k'.
Proof.
  unfold table_remove. case_bool_decide as E.
  - rewrite E, lookup_delete. done.
  - rewrite lookup_insert. case_decide; [|done]. by destruct (filter _ _).
Qed.

Section inv.
Context `{K : Libknot}.
Abbreviation mem := (gmap loc dns_packet).

Lemma waiting_remove (m : mem) h A l p x : hrep m h A -> m !! l = Some p ->
  waiting (table_remove A (packet_key p) l) x <-> waiting A x /\ x <> l.
Proof.
  intros R Hl. unfold waiting. split.
  - intros (k & ls & Hk & Hx). rewrite lookup_table_remove in Hk. case_decide as Hkk.
    + subst k. destruct (A !! packet_key p) as [ls0|] eqn:E; [|done].
      assert (Hin : x ∈ filter (.≠ l) ls0).
      { cbn in Hk. destruct (filter _ ls0) eqn:F; [done|]. simplify_eq. done. }
      apply list_elem_of_filter in Hin as [? ?]. split; [|done]. eauto.
    + split; [eauto|]. intros ->.
      destruct (hr_packets _ _ _ R _ _ _ Hk Hx) as (p' & Hp' & Hkey & _).
      rewrite Hl in Hp'. simplify_eq.
  - intros [(k & ls & Hk & Hx) Hne].
    destruct (decide (packet_key p = k)) as [Heq|Hkk].
    + assert (Hin : x ∈ filter (.≠ l) ls) by (apply list_elem_of_filter; done).
      exists k, (filter (.≠ l) ls). split; [|done]. rewrite lookup_table_remove, decide_True by done.
      rewrite Heq, Hk. cbn. destruct (filter _ ls) eqn:F; [set_solver|done].
    + exists k, ls. by rewrite lookup_table_remove, decide_False.
Qed.

(** ** Ownership of what the matcher holds *)

(** Packets of the output queue and of the output frame. *)
Definition out_items (pm : matcher) : list loc :=
  flat_map packets (pm_out pm) ++ match pm_outframe pm with Some f => packets f | None => [] end.

(** Everything read that was not attached to a request, in the order of
    arrival. *)
Definition items (pm : matcher) : list loc := out_items pm ++ pm_queue pm.

(** A waiting request: still without a response. *)
Definition unanswered (m : mem) (l : loc) : Prop :=
  exists p, m !! l = Some p /\ DNS_PACKET_IS_REQUEST p = true /\ response p = None.

(** [r] is a proper response to the request [p]. *)
Definition paired (mq : bool) (m : mem) (p : dns_packet) (r : loc) : Prop :=
  exists pr, m !! r = Some pr /\ response pr = None /\
    DNS_PACKET_IS_REQUEST p = true /\ DNS_PACKET_IS_REQUEST pr = false /\
    packet_key p = packet_key pr /\
    (mq = true -> dns_packet_qname_match p pr = Ok true).

(** Largest time stamp considered: [2^60] microseconds is 36 thousand years. *)
Definition TMAX : Z := 2 ^ 60.

(** A packet as the input delivers it. *)
Definition packet_ok (m : mem) (l : loc) : Prop :=
  exists p, m !! l = Some p /\ response p = None /\ 0 <= ts p <= TMAX.

(** The packet without its response: what the matcher never changes. *)
Definition bare (m : mem) (l : loc) : option dns_packet :=
  (fun p => set_response p None) <$> m !! l.

(** [m0] is the heap at the start, [read] the packets read so far and
    [unread] those still to come. *)
Record heap_inv (m0 : mem) (read unread : list loc) (pm : matcher) : Prop := {
  hi_same : forall l, bare (pm_mem pm) l = bare m0 l;
  hi_ok : forall l, l ∈ read ++ unread -> packet_ok m0 l;
  hi_nodup : NoDup (read ++ unread);
  hi_owned : flat_map (owned (pm_mem pm)) (items pm) ≡ₚ read;
  hi_order : items pm `sublist_of` read;
  hi_unread : forall l, l ∈ unread -> packet_ok (pm_mem pm) l;
  hi_paired : forall l p r, l ∈ items pm -> pm_mem pm !! l = Some p -> response p = Some r ->
    paired (pm_match_qname pm) (pm_mem pm) p r;
  hi_hash : exists A, hrep (pm_mem pm) (pm_hash pm) A /\
    forall l, waiting A l <-> l ∈ pm_queue pm /\ unanswered (pm_mem pm) l;
  hi_buckets : h_buckets (pm_hash pm) <= Z.of_nat (length read);
  hi_small : Z.of_nat (length (read ++ unread)) < 2 ^ 53;
}.

Lemma elem_of_owned (m : mem) l : l ∈ owned m l.
Proof. unfold owned. destruct (m !! l); set_solver. Qed.

Lemma elem_of_flat_map {A B} (f : A -> list B) l y :
  y ∈ flat_map f l <-> exists x, x ∈ l /\ y ∈ f x.
Proof. rewrite list_elem_of_In, in_flat_map. by setoid_rewrite list_elem_of_In. Qed.

Lemma NoDup_flat_map_inv {A} (f : A -> list A) l : (forall x, x ∈ f x) ->
  NoDup (flat_map f l) -> NoDup l.
Proof.
  intros Hf. induction l as [|x l IH]; cbn; [constructor|]. intros (_ & Hd & Hnd)%NoDup_app.
  constructor; [|auto]. intros Hx. apply (Hd x (Hf x)). apply elem_of_flat_map. eauto.
Qed.

Lemma flat_map_owned_ext (m m' : mem) ls :
  (forall x, x ∈ ls -> m' !! x = m !! x) -> flat_map (owned m') ls = flat_map (owned m) ls.
Proof.
  intros H. rewrite !flat_map_concat_map. f_equal. apply map_ext_in. intros x Hx.
  unfold owned. by rewrite H by by apply list_elem_of_In.
Qed.

(** Attaching a response to one of the items adds it to what they own. *)
Lemma owned_attach (m : mem) ls req rp l : NoDup ls -> req ∈ ls -> m !! req = Some rp ->
  response rp = None ->
  flat_map (owned (<[req := set_response rp (Some l)]> m)) ls ≡ₚ flat_map (owned m) ls ++ [l].
Proof.
  intros Hnd Hin Hreq Hnone. apply elem_of_Permutation in Hin as [rest Hrest].
  rewrite Hrest in Hnd |- *. apply NoDup_cons in Hnd as [Hout _]. cbn [flat_map].
  rewrite (flat_map_owned_ext m).
  - unfold owned at 1 3. rewrite lookup_insert_eq, Hreq. cbn. rewrite Hnone. cbn.
    apply perm_skip, Permutation_cons_append.
  - intros x Hx. rewrite lookup_insert_ne; [done|]. by intros ->.
Qed.

Lemma hi_items_nodup m0 read unread pm : heap_inv m0 read unread pm -> NoDup (items pm).
Proof.
  intros H. apply (NoDup_flat_map_inv (owned (pm_mem pm))); [apply elem_of_owned|].
  rewrite (hi_owned _ _ _ _ H). pose proof (hi_nodup _ _ _ _ H) as Hnd.
  by apply NoDup_app in Hnd as [? _].
Qed.

Lemma hi_items_read m0 read unread pm l : heap_inv m0 read unread pm -> l ∈ items pm -> l ∈ read.
Proof.
  intros H Hl. rewrite <- (hi_owned _ _ _ _ H). apply elem_of_flat_map. exists l.
  split; [done | apply elem_of_owned].
Qed.

(** The packet at a location read or unread, with what it keeps from the start. *)
Lemma hi_packet m0 read unread pm l : heap_inv m0 read unread pm -> l ∈ read ++ unread ->
  exists p p0, pm_mem pm !! l = Some p /\ m0 !! l = Some p0 /\
    set_response p None = p0 /\ 0 <= ts p <= TMAX.
Proof.
  intros H Hl. destruct (hi_ok _ _ _ _ H l Hl) as (p0 & Hp0 & Hr & Ht).
  pose proof (hi_same _ _ _ _ H l) as Hs. unfold bare in Hs. rewrite Hp0 in Hs.
  destruct (pm_mem pm !! l) as [p|]; [|done]. cbn in Hs. injection Hs as Hs1.
  exists p, p0. split; [done|]. split; [done|].
  assert (E : set_response p None = p0).
  { destruct p, p0; cbn in *. simplify_eq. done. }
  split; [done|]. rewrite <- E in Ht. done.
Qed.

Lemma hi_queue_packet m0 read unread pm l : heap_inv m0 read unread pm -> l ∈ pm_queue pm ->
  exists p, pm_mem pm !! l = Some p /\ 0 <= ts p <= TMAX.
Proof.
  intros H Hl. destruct (hi_packet m0 read unread pm l H) as (p & _ & ? & _ & _ & ?); [|eauto].
  apply elem_of_app. left. eapply hi_items_read; [done|]. unfold items. set_solver.
Qed.

(** ** One packet *)

(** What the body of the main loop does with packet [l]. *)
Inductive processed (pm : matcher) (l : loc) : matcher -> Prop :=
| proc_queued h :
    processed pm l (with_queue (with_hash pm h) (pm_queue pm ++ [l]))
| proc_attached h req rp :
    req ∈ pm_queue pm -> pm_mem pm !! req = Some rp -> response rp = None ->
    processed pm l
      (with_mem (with_hash pm h) (<[req := set_response rp (Some l)]> (pm_mem pm))).

Lemma items_queue pm h l :
  items (with_queue (with_hash pm h) (pm_queue pm ++ [l])) = items pm ++ [l].
Proof. unfold items, out_items. cbn. by rewrite <- !app_assoc. Qed.

Lemma heap_inv_enqueue m0 read unread pm l h A : heap_inv m0 read (l :: unread) pm ->
  hrep (pm_mem pm) h A ->
  (forall x, waiting A x <-> x ∈ pm_queue pm ++ [l] /\ unanswered (pm_mem pm) x) ->
  h_buckets h <= h_buckets (pm_hash pm) + 1 ->
  heap_inv m0 (read ++ [l]) unread (with_queue (with_hash pm h) (pm_queue pm ++ [l])).
Proof.
  intros H R HA Hb. destruct (hi_unread _ _ _ _ H l) as (p & Hp & Hnone & _); [set_solver|].
  split; rewrite <- ?app_assoc; try rewrite items_queue; cbn; try apply H.
  - rewrite flat_map_app, (hi_owned _ _ _ _ H). cbn. unfold owned. by rewrite Hp, Hnone.
  - apply sublist_app; [apply H | done].
  - intros x Hx. apply (hi_unread _ _ _ _ H). set_solver.
  - intros x q r [Hx|Hx]%elem_of_app Hq Hr; [by eapply (hi_paired _ _ _ _ H)|].
    apply list_elem_of_singleton in Hx as ->. congruence.
  - eauto.
  - rewrite length_app. cbn. pose proof (hi_buckets _ _ _ _ H). lia.
Qed.

Lemma heap_inv_attach m0 read unread pm l pl h A req rp : heap_inv m0 read (l :: unread) pm ->
  hrep (pm_mem pm) h A ->
  (forall x, waiting A x <-> (x ∈ pm_queue pm /\ unanswered (pm_mem pm) x) /\ x <> req) ->
  h_buckets h <= h_buckets (pm_hash pm) ->
  req ∈ pm_queue pm -> pm_mem pm !! req = Some rp -> response rp = None ->
  DNS_PACKET_IS_REQUEST rp = true -> pm_mem pm !! l = Some pl ->
  DNS_PACKET_IS_REQUEST pl = false -> packet_key rp = packet_key pl ->
  (pm_match_qname pm = true -> dns_packet_qname_match rp pl = Ok true) ->
  heap_inv m0 (read ++ [l]) unread
    (with_mem (with_hash pm h) (<[req := set_response rp (Some l)]> (pm_mem pm))).
Proof.
  intros H R HA Hb Hq Hrp Hnone Hreq Hl Hresp Hkey Hqn.
  assert (Hitem : req ∈ items pm) by (unfold items; set_solver).
  assert (Hread : req ∈ read) by (by eapply hi_items_read).
  pose proof (hi_nodup _ _ _ _ H) as Hnd. apply NoDup_app in Hnd as (_ & Hdis & _).
  assert (Hne : forall x, x ∈ l :: unread -> req <> x) by (intros x Hx ->; by eapply Hdis).
  assert (Hlnone : response pl = None).
  { destruct (hi_unread _ _ _ _ H l) as (p & Hp & ? & _); [set_solver|]. congruence. }
  split; rewrite <- ?app_assoc; cbn; try apply H.
  - intros x. rewrite <- (hi_same _ _ _ _ H). unfold bare. rewrite lookup_insert.
    case_decide; [|done]. subst. by rewrite Hrp.
  - change (items (with_mem _ _)) with (items pm).
    rewrite owned_attach; [by rewrite (hi_owned _ _ _ _ H) | by eapply hi_items_nodup | done..].
  - apply sublist_inserts_r, H.
  - intros x Hx. unfold packet_ok. rewrite lookup_insert_ne by (apply Hne; set_solver).
    apply (hi_unread _ _ _ _ H). set_solver.
  - intros x q r Hx Hlx Hr. change (items (with_mem _ _)) with (items pm) in Hx.
    unfold paired. destruct (decide (x = req)) as [->|Hxr].
    + rewrite lookup_insert_eq in Hlx. injection Hlx as <-. cbn in Hr. injection Hr as <-.
      exists pl. rewrite lookup_insert_ne by (apply Hne; set_solver). done.
    + rewrite lookup_insert_ne in Hlx by done.
      destruct (hi_paired _ _ _ _ H x q r Hx Hlx Hr) as (pr & Hpr & Hn & ? & Hrq & ?).
      exists pr. rewrite lookup_insert_ne; [done|]. intros ->. congruence.
  - exists A. split.
    + eapply hrep_mem; [done|]. intros x q Hx _. rewrite lookup_insert. case_decide; [|eauto].
      subst. rewrite Hrp in Hx. simplify_eq. eexists. split; [done|]. by split.
    + intros x. rewrite HA. unfold unanswered. destruct (decide (x = req)) as [->|Hx].
      * rewrite lookup_insert_eq. split; [by intros []|]. intros [_ (q & [= <-] & _ & ?)]. done.
      * rewrite lookup_insert_ne by done. split; [by intros [] | by intros ?].
  - rewrite length_app. cbn. pose proof (hi_buckets _ _ _ _ H). lia.
Qed.

Lemma find_match_inv (m : mem) p mq ls l : List.find (is_match m p mq) ls = Some l ->
  l ∈ ls /\ is_match m p mq l = true.
Proof. intros H. apply find_some in H as [H1 H2]. by rewrite list_elem_of_In. Qed.

Lemma elem_of_take {A} (x : A) n l : x ∈ take n l -> x ∈ l.
Proof. intros H. rewrite <- (take_drop n l). set_solver. Qed.

Lemma process_response m0 read unread pm l p : heap_inv m0 read (l :: unread) pm ->
  pm_mem pm !! l = Some p -> DNS_PACKET_IS_REQUEST p = false ->
  exists pm', process_packet pm l = Ok pm' /\ processed pm l pm' /\
    heap_inv m0 (read ++ [l]) unread pm'.
Proof.
  intros H Hp Hresp. unfold process_packet. rewrite Hp. cbn [deref mbind outcome_bind].
  rewrite Hresp. destruct (hi_hash _ _ _ _ H) as (A & R & HA).
  destruct (get_match_hrep (pm_mem pm) (pm_hash pm) A p (pm_match_qname pm) R Hresp)
    as (h' & -> & R' & _ & Hb). cbn [mbind outcome_bind].
  destruct (List.find _ _) as [req|] eqn:Hfind.
  - apply find_match_inv in Hfind as [Hin Hm]. apply elem_of_take in Hin.
    destruct (A !! packet_key p) as [ls|] eqn:Hk; cbn in Hin; [|set_solver].
    destruct (proj1 (HA req)) as [Hq (rp & Hrp & Hrq & Hnone)].
    { by exists (packet_key p), ls. }
    destruct (hr_packets _ _ _ R _ _ _ Hk Hin) as (rp' & Hrp' & Hkey & _).
    rewrite Hrp in Hrp'. injection Hrp' as <-. cbn [pm_mem with_hash]. rewrite Hrp. cbn [deref mbind outcome_bind].
    eexists. split; [done|]. split; [by econstructor|].
    eapply heap_inv_attach; eauto.
    + intros x. rewrite <- Hkey, (waiting_remove _ _ _ _ _ _ R Hrp), HA. done.
    + intros Hmq. unfold is_match in Hm. rewrite Hrp, Hmq in Hm. cbn in Hm.
      by destruct (dns_packet_qname_match rp p) as [[]|].
  - eexists. split; [done|]. split; [apply (proc_queued pm l h')|].
    apply (heap_inv_enqueue m0 read unread pm l h' A); auto; [|lia].
    intros x. rewrite HA. split; [set_solver|]. intros [[?| ->%list_elem_of_singleton]%elem_of_app Hu]; [done|].
    exfalso. destruct Hu as (q & Hq & Hr & _). congruence.
Qed.

Lemma process_spec m0 read unread pm l : heap_inv m0 read (l :: unread) pm ->
  exists pm', process_packet pm l = Ok pm' /\ processed pm l pm' /\
    heap_inv m0 (read ++ [l]) unread pm'.
Proof.
  intros H. destruct (hi_unread _ _ _ _ H l) as (p & Hp & Hnone & _); [set_solver|].
  destruct (DNS_PACKET_IS_REQUEST p) eqn:Hreq; [|by eapply process_response].
  unfold process_packet. rewrite Hp. cbn [deref mbind outcome_bind]. rewrite Hreq.
  destruct (hi_hash _ _ _ _ H) as (A & R & HA).
  assert (Hnew : forall k ls, A !! k = Some ls -> l ∉ ls).
  { intros k ls Hk Hin. destruct (proj1 (HA l)) as [Hq _]; [by exists k, ls|].
    pose proof (hi_nodup _ _ _ _ H) as Hnd. apply NoDup_app in Hnd as (_ & Hdis & _).
    apply (Hdis l); [|set_solver]. eapply hi_items_read; [done|]. unfold items. set_solver. }
  pose proof (hi_buckets _ _ _ _ H) as Hb. pose proof (hi_small _ _ _ _ H) as Hs.
  rewrite length_app in Hs.
  destruct (insert_hrep _ _ _ l p R Hp Hreq Hnew) as (h' & -> & R' & _ & Hb'); [lia|].
  cbn [mbind outcome_bind]. eexists. split; [done|]. split; [apply (proc_queued pm l h')|].
  eapply heap_inv_enqueue; eauto; [|lia].
  intros x. rewrite waiting_insert, HA. unfold unanswered. split.
  - intros [->|[? ?]]; [|set_solver]. split; [set_solver|]. eauto.
  - intros [[?| ->%list_elem_of_singleton]%elem_of_app Hu]; auto.
Qed.

(** ** Moving the time forward *)

(** Time stamp and accounted size of a packet, by its location. *)
Definition ts_at (m0 : mem) (l : loc) : Z := from_option ts 0 (m0 !! l).
Definition size_at (m0 : mem) (l : loc) : Z := from_option memory_size 0 (m0 !! l).

(** When frame [f], and packet [l], leave the matcher. *)
Definition frame_leaves (pm : matcher) (f : dns_packet_frame) : Z :=
  time_start f + pm_frame_max_duration pm + pm_matching_duration pm.
Definition packet_leaves (m0 : mem) (pm : matcher) (l : loc) : Z :=
  ts_at m0 l + pm_matching_duration pm.

(** The output frame is handed over and the next one begins at time [t]. *)
Definition handed_over (pm : matcher) (f : dns_packet_frame) (t : Z) : matcher :=
  with_outframe (with_out pm (pm_out pm ++ [f])) (Some (dns_packet_frame_create t t)).

(** The hash table without the packet, if it was waiting there. *)
Definition unhashed (pm : matcher) (l : loc) (p : dns_packet) (h : dns_packet_hash) : Prop :=
  if DNS_PACKET_IS_REQUEST p && negb (bool_decide (is_Some (response p)))
  then dns_packet_hash_remove_packet (pm_mem pm) (pm_hash pm) l = Ok h
  else h = pm_hash pm.

(** One event on the way to [time]: nothing leaves any more, the frame
    reaches its maximal duration, the frame is full, or a packet leaves. *)
Inductive adv (m0 : mem) (time : Z) : matcher -> matcher -> Prop :=
| adv_idle pm f :
    pm_outframe pm = Some f -> pm_current_time pm < time ->
    time < frame_leaves pm f ->
    (forall l, head (pm_queue pm) = Some l -> time < packet_leaves m0 pm l) ->
    adv m0 time pm (with_time pm time)
| adv_frame pm f :
    pm_outframe pm = Some f -> pm_current_time pm < time ->
    frame_leaves pm f <= time ->
    (forall l, head (pm_queue pm) = Some l -> frame_leaves pm f <= packet_leaves m0 pm l) ->
    adv m0 time pm
      (with_time (handed_over pm (set_time_end f (time_start f + pm_frame_max_duration pm))
                    (time_start f + pm_frame_max_duration pm)) (frame_leaves pm f))
| adv_full pm f :
    pm_outframe pm = Some f ->
    adv m0 time pm (handed_over pm f (time_end f))
| adv_packet pm f f' l q p h :
    pm_outframe pm = Some f -> pm_queue pm = l :: q -> pm_current_time pm < time ->
    packet_leaves m0 pm l <= time -> packet_leaves m0 pm l < frame_leaves pm f ->
    pm_mem pm !! l = Some p -> unhashed pm l p h ->
    u64 (frame_size f + memory_size p) <= u64 (pm_frame_max_size pm) \/ packets f = [] ->
    dns_packet_frame_append_packet (pm_mem pm) f l = Ok f' ->
    adv m0 time pm
      (with_time (with_outframe (with_hash (with_queue pm q) h) (Some f'))
         (packet_leaves m0 pm l)).

Lemma items_handed_over pm f t f' : pm_outframe pm = Some f -> packets f' = packets f ->
  items (handed_over pm f' t) = items pm.
Proof.
  intros Hf Hp. unfold items, out_items. cbn. rewrite Hf, flat_map_app. cbn.
  by rewrite Hp, !app_nil_r.
Qed.

Lemma items_packet pm f f' l q : pm_outframe pm = Some f -> pm_queue pm = l :: q ->
  packets f' = packets f ++ [l] ->
  items (with_outframe (with_queue pm q) (Some f')) = items pm.
Proof.
  intros Hf Hq Hp. unfold items, out_items. cbn. rewrite Hf, Hp, Hq. by rewrite <- !app_assoc.
Qed.

(** Events that keep the heap, the hash, the queue and the items keep the
    invariant on the heap. *)
Lemma heap_inv_view m0 read unread pm pm' : heap_inv m0 read unread pm ->
  pm_mem pm' = pm_mem pm -> pm_hash pm' = pm_hash pm -> pm_queue pm' = pm_queue pm ->
  pm_match_qname pm' = pm_match_qname pm -> items pm' = items pm ->
  heap_inv m0 read unread pm'.
Proof.
  intros H Hm Hh Hq Hmq Hi. split; rewrite ?Hm, ?Hh, ?Hq, ?Hmq, ?Hi; apply H.
Qed.

Lemma hi_queue_nodup m0 read unread pm : heap_inv m0 read unread pm -> NoDup (pm_queue pm).
Proof. intros H. apply hi_items_nodup in H. unfold items in H. by apply NoDup_app in H as (_ & _ & ?). Qed.

(** The table once the packet at the head of the queue left. *)
Lemma unhashed_spec m0 read unread pm l q p : heap_inv m0 read unread pm ->
  pm_queue pm = l :: q -> pm_mem pm !! l = Some p ->
  exists h, unhashed pm l p h.
Proof.
  intros H Hq Hp. unfold unhashed. destruct (_ && _) eqn:E; [|eauto].
  apply andb_true_iff in E as [Hr Hn]. destruct (response p) eqn:Er; [done|].
  destruct (hi_hash _ _ _ _ H) as (A & R & HA).
  destruct (proj2 (HA l)) as (k & ls & Hk & Hin).
  { rewrite Hq. split; [set_solver|]. by exists p. }
  destruct (hr_packets _ _ _ R _ _ _ Hk Hin) as (p' & Hp' & Hkey & _).
  assert (p' = p) as -> by congruence.
  destruct (remove_packet_hrep _ _ _ l p ls R Hp) as (h & Hh & _); [congruence | done |]. eauto.
Qed.

Lemma heap_inv_unhash m0 read unread pm pm' l q p h : heap_inv m0 read unread pm ->
  pm_queue pm = l :: q -> pm_mem pm !! l = Some p -> unhashed pm l p h ->
  pm_mem pm' = pm_mem pm -> pm_hash pm' = h -> pm_queue pm' = q ->
  pm_match_qname pm' = pm_match_qname pm -> items pm' = items pm ->
  heap_inv m0 read unread pm'.
Proof.
  intros H Hq Hp Hu Hm Hh Hq' Hmq Hi.
  pose proof (hi_queue_nodup _ _ _ _ H) as Hnd. rewrite Hq in Hnd. apply NoDup_cons in Hnd as [Hout _].
  destruct (hi_hash _ _ _ _ H) as (A & R & HA). pose proof (hi_buckets _ _ _ _ H) as Hb.
  assert (HR : (exists A, hrep (pm_mem pm) h A /\
      forall x, waiting A x <-> x ∈ q /\ unanswered (pm_mem pm) x) /\
      h_buckets h <= h_buckets (pm_hash pm)).
  { unfold unhashed in Hu. destruct (_ && _) eqn:E.
    - apply andb_true_iff in E as [Hr Hn]. destruct (response p) eqn:Er; [done|].
      destruct (proj2 (HA l)) as (k & ls & Hk & Hin).
      { rewrite Hq. split; [set_solver|]. by exists p. }
      destruct (hr_packets _ _ _ R _ _ _ Hk Hin) as (p' & Hp' & Hkey & _).
      assert (p' = p) as -> by congruence.
      destruct (remove_packet_hrep _ _ _ l p ls R Hp) as (h1 & Hh1 & R1 & _ & Hb1); [congruence | done |].
      rewrite Hu in Hh1. injection Hh1 as <-. split; [|done]. eexists. split; [exact R1|].
      intros x. rewrite (waiting_remove _ _ _ _ _ _ R Hp), HA, Hq. set_solver.
    - subst h. split; [|lia]. exists A. split; [done|]. intros x. rewrite HA, Hq.
      split; [|set_solver]. intros [[->|?]%elem_of_cons Hun]; [|done]. exfalso.
      destruct Hun as (p' & Hp' & Hr & Hn). assert (p' = p) as -> by congruence.
      rewrite Hr, Hn in E. done. }
  destruct HR as [HR Hb']. rewrite <- Hh in *. rewrite <- Hm, <- Hq' in HR.
  split; rewrite ?Hm, ?Hmq, ?Hi; try apply H; [by rewrite Hm in HR | lia].
Qed.

Lemma adv_heap_inv m0 read unread time pm pm' : adv m0 time pm pm' ->
  heap_inv m0 read unread pm -> heap_inv m0 read unread pm'.
Proof.
  intros Hadv H. destruct Hadv as [| |pm f Hf|pm f f' l q p h Hf Hq _ _ _ Hp Hu _ Happ].
  - by eapply heap_inv_view.
  - eapply heap_inv_view; [done..|]. by apply (items_handed_over pm f).
  - eapply heap_inv_view; [done..|]. by apply (items_handed_over pm f).
  - eapply (heap_inv_unhash m0 read unread pm); try done.
    apply (items_packet pm f f' l q); [done..|].
    destruct (append_packet_spec (pm_mem pm) f l p Hp) as (f2 & Hf2 & ? & _). congruence.
Qed.

(** ** Frames and times *)

Definition sum_size (m0 : mem) (ls : list loc) : Z := foldr (fun l n => size_at m0 l + n) 0 ls.

(** An output frame: an interval not longer than the maximal duration, whose
    packets are no later than its end, with its counters, and within the size
    limit unless it holds a single packet. *)
Record frame_good (m0 : mem) (fmd limit : Z) (f : dns_packet_frame) : Prop := {
  fg_type : frame_type f = 0;
  fg_start : 0 <= time_start f <= time_end f;
  fg_span : time_end f <= time_start f + fmd;
  fg_packets : forall l, l ∈ packets f -> ts_at m0 l <= time_end f;
  fg_count : frame_count f = u64 (Z.of_nat (length (packets f)));
  fg_size : frame_size f = u64 (sum_size m0 (packets f));
  fg_fits : frame_size f <= u64 limit \/ (length (packets f) <= 1)%nat;
}.

(** Every frame begins where the previous one ended. *)
Fixpoint contiguous (fs : list dns_packet_frame) : Prop :=
  match fs with
  | a :: ((b :: _) as rest) => time_start b = time_end a /\ contiguous rest
  | _ => True
  end.

Lemma contiguous_snoc fs f : contiguous (fs ++ [f]) <->
  contiguous fs /\ forall a, last fs = Some a -> time_start f = time_end a.
Proof.
  induction fs as [|a [|b fs] IH]; cbn [app contiguous].
  - cbn. naive_solver.
  - cbn. naive_solver.
  - cbn [app contiguous] in IH. rewrite IH. cbn [last]. naive_solver.
Qed.

(** The frames handed over and the current one, with the queued packets and
    the frame's end no later than [cap]. *)
Record time_inv (m0 : mem) (cap : Z) (pm : matcher) (f : dns_packet_frame) : Prop := {
  ti_frame : pm_outframe pm = Some f;
  ti_good : Forall (frame_good m0 (pm_frame_max_duration pm) (pm_frame_max_size pm)) (pm_out pm ++ [f]);
  ti_contiguous : contiguous (pm_out pm ++ [f]);
  ti_end : time_end f <= cap;
  ti_current : 0 <= pm_current_time pm <= cap;
  ti_queue : forall l, l ∈ pm_queue pm -> ts_at m0 l <= cap;
}.

(** The configured parameters are usable. *)
Record config_ok (pm : matcher) : Prop := {
  cf_md : 0 < pm_matching_duration pm <= TMAX;
  cf_fmd : 0 < pm_frame_max_duration pm <= TMAX;
  cf_out : pm_has_out pm = true;
}.

(** The parameters are never assigned. *)
Definition same_config (pm pm' : matcher) : Prop :=
  pm_matching_duration pm' = pm_matching_duration pm /\
  pm_frame_max_duration pm' = pm_frame_max_duration pm /\
  pm_match_qname pm' = pm_match_qname pm /\
  pm_frame_max_size pm' = pm_frame_max_size pm /\
  pm_has_out pm' = pm_has_out pm /\
  pm_in pm' = pm_in pm /\ pm_inframe pm' = pm_inframe pm /\ pm_mem pm' = pm_mem pm.

Lemma adv_same_config m0 time pm pm' : adv m0 time pm pm' -> same_config pm pm'.
Proof. by destruct 1. Qed.

Lemma config_ok_same pm pm' : same_config pm pm' -> config_ok pm -> config_ok pm'.
Proof. intros (E1 & E2 & _ & _ & E3 & _) [H1 H2 H3]. split; by rewrite ?E1, ?E2, ?E3. Qed.

Lemma ts_at_mem m0 read unread pm l p : heap_inv m0 read unread pm ->
  pm_mem pm !! l = Some p -> ts_at m0 l = ts p /\ size_at m0 l = memory_size p.
Proof.
  intros H Hp. pose proof (hi_same _ _ _ _ H l) as Hs. unfold bare in Hs.
  unfold ts_at, size_at. rewrite Hp in Hs. destruct (m0 !! l) as [p0|]; [|done].
  cbn in *. injection Hs as Hs. destruct p, p0; cbn in *. by simplify_eq.
Qed.

Lemma frame_good_create m0 fmd limit t : 0 <= t -> 0 < fmd ->
  frame_good m0 fmd limit (dns_packet_frame_create t t).
Proof. intros. split; cbn; try done; try lia; try set_solver. Qed.

Lemma frame_good_end m0 fmd limit f t : frame_good m0 fmd limit f ->
  time_end f <= t <= time_start f + fmd -> frame_good m0 fmd limit (set_time_end f t).
Proof.
  intros [] Ht. split; cbn; try done; try lia.
  intros l Hl. transitivity (time_end f); [auto | lia].
Qed.

Lemma sum_size_snoc m0 ls l : sum_size m0 (ls ++ [l]) = sum_size m0 ls + size_at m0 l.
Proof. unfold sum_size. induction ls as [|x ls IH]; cbn; lia. Qed.

Lemma frame_good_append m0 fmd limit m f f' l p : frame_good m0 fmd limit f ->
  m !! l = Some p -> ts_at m0 l = ts p -> size_at m0 l = memory_size p ->
  ts p <= time_start f + fmd ->
  u64 (frame_size f + memory_size p) <= u64 limit \/ packets f = [] ->
  dns_packet_frame_append_packet m f l = Ok f' ->
  frame_good m0 fmd limit f' /\ time_start f' = time_start f /\
  time_end f <= time_end f' /\ time_end f' = Z.max (time_end f) (ts p) /\
  packets f' = packets f ++ [l].
Proof.
  intros [] Hp Hts Hsz Hspan Hfit Happ.
  destruct (append_packet_spec m f l p Hp) as (f2 & Hf2 & E1 & E2 & E3 & E4 & E5 & E6).
  rewrite Happ in Hf2. injection Hf2 as <-.
  assert (Hend : time_end f' = Z.max (time_end f) (ts p)).
  { rewrite E4. unfold DNS_NO_TIME, INT64_MIN. destruct (Z.eqb_spec (time_end f) (- 2 ^ 63)); [lia|].
    cbn [orb]. destruct (Z.ltb_spec (time_end f) (ts p)); lia. }
  split; [|split; [done|]; split; [lia|]; done].
  split; rewrite ?E1, ?E2, ?E3, ?Hend; try done; try lia.
  - intros x [Hx| ->%list_elem_of_singleton]%elem_of_app; [|lia].
    transitivity (time_end f); [auto | lia].
  - rewrite E5, fg_count0, u64_add_l, length_app. cbn. f_equal. lia.
  - rewrite E6, fg_size0, u64_add_l, sum_size_snoc. f_equal. lia.
  - destruct Hfit as [?| ->]; [left; lia | right; cbn; lia].
Qed.

Lemma adv_time_inv m0 read unread time pm pm' f : adv m0 time pm pm' ->
  heap_inv m0 read unread pm -> config_ok pm -> time_inv m0 time pm f ->
  exists f', time_inv m0 time pm' f' /\ time_start f <= time_start f' /\ time_end f <= time_end f'.
Proof.
  intros Hadv H C [Tf Tg Tc Te Tn Tq]. pose proof (cf_md _ C). pose proof (cf_fmd _ C).
  apply Forall_app in Tg as [Tg Gf]. rewrite Forall_singleton in Gf. pose proof Gf as [].
  destruct Hadv as [pm f1 Hf|pm f1 Hf Hcur Hfe Hq|pm f1 Hf|pm f1 f' l q p h Hf Hq Hcur Hle Hlt Hp Hu Hfit Happ];
    rewrite Tf in Hf; injection Hf as <-.
  - exists f. split; [|lia]. split; cbn; try done; try lia. apply Forall_app. rewrite Forall_singleton. by split.
  - unfold frame_leaves in *. set (t := time_start f + pm_frame_max_duration pm).
    exists (dns_packet_frame_create t t). split; [|cbn; lia].
    split; cbn; [reflexivity | | | lia | lia | done].
    + rewrite !Forall_app, !Forall_singleton. split; [split|]; [done | |].
      * apply frame_good_end; [done|lia].
      * apply frame_good_create; lia.
    + apply contiguous_snoc. split.
      * apply contiguous_snoc in Tc as [Tc1 Tc2]. apply contiguous_snoc. by split.
      * intros a. rewrite last_snoc. by intros [= <-].
  - exists (dns_packet_frame_create (time_end f) (time_end f)). split; [|cbn; lia].
    split; cbn; [done | | | lia | done | done].
    + rewrite !Forall_app, !Forall_singleton. split; [by split|]. apply frame_good_create; lia.
    + apply contiguous_snoc. split; [done|]. intros a. rewrite last_snoc. by intros [= <-].
  - unfold packet_leaves, frame_leaves in *. destruct (ts_at_mem _ _ _ _ _ _ H Hp) as [E1 E2].
    destruct (frame_good_append m0 _ _ _ f f' l p Gf Hp E1 E2 ltac:(lia) Hfit Happ)
      as (G' & S' & Ele & E' & P').
    destruct (hi_queue_packet _ _ _ _ l H) as (p' & Hp' & Hrange); [rewrite Hq; set_solver|].
    assert (p' = p) as -> by congruence.
    exists f'. split; [|lia]. split; cbn; [reflexivity | | | | lia |].
    + apply Forall_app. rewrite Forall_singleton. by split.
    + apply contiguous_snoc in Tc as [Tc1 Tc2]. apply contiguous_snoc. split; [done|].
      intros a Ha. rewrite S'. auto.
    + rewrite E'. specialize (Tq l). rewrite Hq in Tq. specialize (Tq ltac:(set_solver)). lia.
    + intros x Hx. apply Tq. rewrite Hq. set_solver.
Qed.

(** *** The loop follows the events *)

Lemma frame_eviction_ok m0 cap pm f : time_inv m0 cap pm f -> config_ok pm ->
  cap <= 2 * TMAX + 1 -> frame_eviction pm = Ok (frame_leaves pm f).
Proof.
  intros [Tf Tg _ Te _ _] [C1 C2 _] Hcap. unfold frame_eviction, frame_leaves. rewrite Tf. cbn.
  apply Forall_app in Tg as [_ Gf]. rewrite Forall_singleton in Gf. destruct Gf.
  unfold TMAX in *. rewrite i64_in by int_lia. cbn. rewrite i64_in by int_lia. done.
Qed.

Lemma next_eviction_ok m0 read unread cap pm f : heap_inv m0 read unread pm ->
  time_inv m0 cap pm f -> config_ok pm -> cap <= 2 * TMAX + 1 ->
  next_eviction pm = Ok (match head (pm_queue pm) with
                         | None => frame_leaves pm f
                         | Some l => Z.min (frame_leaves pm f) (packet_leaves m0 pm l)
                         end).
Proof.
  intros H T C Hcap. unfold next_eviction. erewrite frame_eviction_ok by done. cbn.
  destruct (pm_queue pm) as [|l q] eqn:Hq; cbn; [done|].
  destruct (hi_queue_packet _ _ _ _ l H) as (p & Hp & Hr); [rewrite Hq; set_solver|].
  destruct (ts_at_mem _ _ _ _ _ _ H Hp) as [Et _]. rewrite Hp. cbn. pose proof (cf_md _ C).
  unfold packet_leaves, TMAX in *. rewrite i64_in by int_lia. cbn. by rewrite MIN_min, Et.
Qed.

Lemma end_frame_ok m0 time pm f : time_inv m0 time pm f -> config_ok pm ->
  time <= 2 * TMAX + 1 ->
  end_frame pm (frame_leaves pm f) =
    Ok (with_time (handed_over pm (set_time_end f (time_start f + pm_frame_max_duration pm))
                     (time_start f + pm_frame_max_duration pm)) (frame_leaves pm f)).
Proof.
  intros [Tf Tg _ Te _ _] [C1 C2 C3] Ht. unfold end_frame. rewrite Tf. cbn [deref mbind outcome_bind].
  apply Forall_app in Tg as [_ Gf]. rewrite Forall_singleton in Gf. destruct Gf.
  unfold frame_leaves, TMAX in *. rewrite i64_in by int_lia. cbn [mbind outcome_bind].
  rewrite c_assert_true by lia. cbn [mbind outcome_bind].
  replace (time_start f + pm_frame_max_duration pm + pm_matching_duration pm - pm_matching_duration pm)
    with (time_start f + pm_frame_max_duration pm) by lia.
  unfold dns_worker_packet_matcher_output_frame, matcher_enqueue. cbn. by rewrite C3.
Qed.

(** The packet is appended to a frame with room for it. *)
Lemma move_packet_ok m0 read unread time pm f l q p : heap_inv m0 read unread pm ->
  pm_outframe pm = Some f -> pm_queue pm = l :: q -> pm_mem pm !! l = Some p ->
  pm_current_time pm < time ->
  packet_leaves m0 pm l <= time -> packet_leaves m0 pm l < frame_leaves pm f ->
  u64 (frame_size f + memory_size p) <= u64 (pm_frame_max_size pm) \/ packets f = [] ->
  exists pm', move_packet pm l p (packet_leaves m0 pm l) = Ok pm' /\
    adv m0 time pm pm' /\ pm_queue pm' = q.
Proof.
  intros H Hf Hq Hp Hcur Hle Hlt Hfit.
  destruct (unhashed_spec _ _ _ _ l q p H Hq Hp) as [h Hu].
  destruct (append_packet_spec (pm_mem pm) f l p Hp) as (f' & Ha & _).
  exists (with_time (with_outframe (with_hash (with_queue pm q) h) (Some f')) (packet_leaves m0 pm l)).
  split; [|split; [by eapply adv_packet | done]].
  unfold move_packet. rewrite Hq. cbn [tail].
  pose proof Hu as Hrun. unfold unhashed in Hrun. destruct (_ && _).
  - cbn [pm_mem pm_hash with_queue]. rewrite Hrun. cbn [mbind outcome_bind pm_outframe with_hash with_queue].
    rewrite Hf. cbn [deref mbind outcome_bind pm_mem with_hash with_queue]. by rewrite Ha.
  - cbn [mbind outcome_bind pm_outframe with_queue]. rewrite Hf.
    cbn [deref mbind outcome_bind pm_mem with_queue]. by rewrite Ha, Hrun.
Qed.

Lemma output_packet_ok m0 read unread time pm f l q : heap_inv m0 read unread pm ->
  time_inv m0 time pm f -> config_ok pm -> pm_queue pm = l :: q -> pm_current_time pm < time ->
  packet_leaves m0 pm l <= time -> packet_leaves m0 pm l < frame_leaves pm f ->
  exists pm', output_packet pm l (packet_leaves m0 pm l) = Ok pm' /\
    rtc (adv m0 time) pm pm' /\ pm_queue pm' = q.
Proof.
  intros H T C Hq Hcur Hle Hlt. pose proof (ti_frame _ _ _ _ T) as Hf.
  destruct (hi_queue_packet _ _ _ _ l H) as (p & Hp & Hr); [rewrite Hq; set_solver|].
  unfold output_packet. rewrite Hf, Hp. cbn [deref mbind outcome_bind].
  destruct (Z.gtb_spec (u64 (frame_size f + memory_size p)) (u64 (pm_frame_max_size pm))) as [Hbig|Hsmall].
  - assert (E : dns_worker_packet_matcher_output_frame pm = Ok (handed_over pm f (time_end f))).
    { unfold dns_worker_packet_matcher_output_frame, matcher_enqueue. rewrite Hf, (cf_out _ C). done. }
    rewrite E. cbn [mbind outcome_bind]. pose proof (adv_full m0 time pm f Hf) as Hfull.
    pose proof (adv_heap_inv _ _ _ _ _ _ Hfull H) as H1. pose proof (ti_good _ _ _ _ T) as Tg.
    apply Forall_app in Tg as [_ Gf]. rewrite Forall_singleton in Gf. pose proof (fg_start _ _ _ _ Gf).
    destruct (move_packet_ok m0 read unread time (handed_over pm f (time_end f))
                (dns_packet_frame_create (time_end f) (time_end f)) l q p)
      as (pm' & Hrun & Hadv & Hq'); auto.
    { unfold frame_leaves, packet_leaves in *. cbn in *. lia. }
    exists pm'. split; [done|]. split; [|done]. eapply rtc_l; [exact Hfull|]. by apply rtc_once.
  - cbn [mbind outcome_bind].
    destruct (move_packet_ok m0 read unread time pm f l q p) as (pm' & Hrun & Hadv & Hq'); auto.
    exists pm'. split; [done|]. split; [by apply rtc_once | done].
Qed.

(** *** Termination of the loop *)

(** How many frames and packets may still leave before [time]. *)
Definition pending (time : Z) (pm : matcher) (f : dns_packet_frame) : nat :=
  (length (pm_queue pm) + Z.to_nat ((time - time_start f) / pm_frame_max_duration pm))%nat.

Lemma rtc_adv_inv m0 read unread time pm pm' f : rtc (adv m0 time) pm pm' ->
  heap_inv m0 read unread pm -> config_ok pm -> time_inv m0 time pm f ->
  heap_inv m0 read unread pm' /\ config_ok pm' /\ same_config pm pm' /\
  exists f', time_inv m0 time pm' f' /\ time_start f <= time_start f'.
Proof.
  intros Hrtc. revert f. induction Hrtc as [pm|pm pm1 pm2 Hadv _ IH]; intros f H C T.
  - split; [done|]. split; [done|]. split; [done|]. exists f. split; [done|lia].
  - destruct (adv_time_inv _ _ _ _ _ _ _ Hadv H C T) as (f1 & T1 & Hs1 & _).
    pose proof (adv_same_config _ _ _ _ Hadv) as Hsame.
    destruct (IH f1) as (H2 & C2 & Hs2 & f2 & T2 & Hs); auto.
    + by eapply adv_heap_inv.
    + by eapply config_ok_same.
    + split; [done|]. split; [done|]. split; [|exists f2; split; [done|lia]].
      unfold same_config in *. destruct_and!. repeat split; congruence.
Qed.

Lemma pending_div time s s' d : 0 < d -> s <= s' ->
  (Z.to_nat ((time - s') / d) <= Z.to_nat ((time - s) / d))%nat.
Proof. intros. pose proof (Z.div_le_mono (time - s') (time - s) d). lia. Qed.

(** One turn of the loop: the time is reached, or something left. *)
Lemma advance_turn m0 read unread time pm f : heap_inv m0 read unread pm -> config_ok pm ->
  time_inv m0 time pm f -> pm_current_time pm < time <= 2 * TMAX + 1 ->
  exists pm', (forall fuel, advance_loop (S fuel) pm time = advance_loop fuel pm' time) /\
    rtc (adv m0 time) pm pm' /\
    (time <= pm_current_time pm' \/
     exists f', time_inv m0 time pm' f' /\ (pending time pm' f' < pending time pm f)%nat).
Proof.
  intros H C T [Hcur Ht]. pose proof (ti_frame _ _ _ _ T) as Hf.
  pose proof (next_eviction_ok _ _ _ _ _ _ H T C Ht) as Hne.
  pose proof (frame_eviction_ok _ _ _ _ T C Ht) as Hfe.
  pose proof (cf_md _ C). pose proof (cf_fmd _ C).
  cbn [advance_loop]. destruct (Z.ltb_spec (pm_current_time pm) time); [|lia].
  set (ev := match head (pm_queue pm) with None => _ | Some l => _ end) in Hne.
  destruct (Z.gtb_spec ev time) as [Hgt|Hle].
  { exists (with_time pm time). split; [|split].
    - intros fuel. rewrite Hne. cbn [mbind outcome_bind]. by destruct (Z.gtb_spec ev time); [|lia].
    - apply rtc_once. eapply adv_idle; [done..| |]; unfold ev in *; destruct (pm_queue pm); cbn in *;
        [lia | lia | done | intros l' [= <-]; lia].
    - left. cbn. lia. }
  destruct (Z.eqb_spec ev (frame_leaves pm f)) as [Heq|Hneq].
  - exists (with_time (handed_over pm (set_time_end f (time_start f + pm_frame_max_duration pm))
              (time_start f + pm_frame_max_duration pm)) (frame_leaves pm f)).
    assert (Hadv : adv m0 time pm (with_time (handed_over pm (set_time_end f (time_start f + pm_frame_max_duration pm))
              (time_start f + pm_frame_max_duration pm)) (frame_leaves pm f))).
    { apply adv_frame; [done..|lia|]. intros l Hl. unfold ev in Heq. rewrite Hl in Heq. lia. }
    split; [|split; [by apply rtc_once|right]].
    + intros fuel. rewrite Hne. cbn [mbind outcome_bind]. destruct (Z.gtb_spec ev time); [lia|].
      rewrite Hfe. cbn [mbind outcome_bind]. rewrite Heq, Z.eqb_refl.
      by rewrite (end_frame_ok m0 time) by done.
    + destruct (adv_time_inv _ _ _ _ _ _ _ Hadv H C T) as (f1 & T1 & _).
      exists f1. split; [done|]. pose proof (ti_frame _ _ _ _ T1) as Hf1. cbn in Hf1. injection Hf1 as <-.
      unfold pending. cbn. unfold frame_leaves in *.
      replace (time - (time_start f + pm_frame_max_duration pm))
        with (time - time_start f + (-1) * pm_frame_max_duration pm) by lia.
      rewrite Z.div_add by lia.
      assert (1 <= (time - time_start f) / pm_frame_max_duration pm) by (apply Z.div_le_lower_bound; lia).
      lia.
  - destruct (pm_queue pm) as [|l q] eqn:Hq; [done|]. cbn in ev.
    assert (Hev : ev = packet_leaves m0 pm l) by (unfold ev in *; lia).
    destruct (output_packet_ok m0 read unread time pm f l q) as (pm' & Hrun & Hadv & Hq'); auto;
      [unfold ev in *; lia..|].
    exists pm'. split; [|split; [done|right]].
    + intros fuel. rewrite Hne. cbn [mbind outcome_bind]. destruct (Z.gtb_spec ev time); [lia|].
      rewrite Hfe. cbn [mbind outcome_bind]. destruct (Z.eqb_spec ev (frame_leaves pm f)); [done|].
      cbn [deref mbind outcome_bind head]. rewrite Hev, Hrun. done.
    + destruct (rtc_adv_inv _ _ _ _ _ _ _ Hadv H C T) as (_ & _ & Hs & f' & T' & Hstart).
      exists f'. split; [done|]. unfold pending. rewrite Hq, Hq'.
      destruct Hs as (_ & -> & _). cbn [length].
      pose proof (pending_div time (time_start f) (time_start f') (pm_frame_max_duration pm)). lia.
Qed.

Lemma adv_current m0 time pm pm' : adv m0 time pm pm' ->
  pm_current_time pm <= time -> pm_current_time pm' <= time.
Proof. by destruct 1. Qed.

Lemma advance_loop_ok m0 read unread time fuel pm f : heap_inv m0 read unread pm ->
  config_ok pm -> time_inv m0 time pm f -> time <= 2 * TMAX + 1 ->
  (pending time pm f < fuel)%nat ->
  exists pm', advance_loop fuel pm time = Ok pm' /\ rtc (adv m0 time) pm pm' /\
    pm_current_time pm' = time.
Proof.
  revert pm f. induction fuel as [|fuel IH]; intros pm f H C T Ht Hfuel; [lia|].
  destruct (Z.lt_ge_cases (pm_current_time pm) time) as [Hcur|Hcur].
  2: { exists pm. cbn [advance_loop]. destruct (Z.ltb_spec (pm_current_time pm) time); [lia|].
       split; [done|]. split; [done|]. pose proof (ti_current _ _ _ _ T). lia. }
  destruct (advance_turn m0 read unread time pm f) as (pm1 & Hrun & Hadv & Hcase); auto.
  destruct (rtc_adv_inv _ _ _ _ _ _ _ Hadv H C T) as (H1 & C1 & _ & f1 & T1 & _).
  rewrite Hrun. destruct Hcase as [Hdone|(f' & T' & Hless)].
  - exists pm1. split; [|split; [done|]; pose proof (ti_current _ _ _ _ T1); lia].
    destruct fuel; cbn [advance_loop]; by destruct (Z.ltb_spec (pm_current_time pm1) time); [lia|].
  - destruct (IH pm1 f' H1 C1 T' Ht ltac:(lia)) as (pm' & Hloop & Hadv' & Hend).
    exists pm'. split; [done|]. split; [by etrans | done].
Qed.

Lemma time_inv_mono m0 cap cap' pm f : time_inv m0 cap pm f -> cap <= cap' -> time_inv m0 cap' pm f.
Proof.
  intros [] H. split; try done; try lia. intros l Hl. transitivity cap; auto.
Qed.

Lemma advance_loop_past fuel pm time : time <= pm_current_time pm -> advance_loop fuel pm time = Ok pm.
Proof. intros H. destruct fuel; cbn; by destruct (Z.ltb_spec (pm_current_time pm) time); [lia|]. Qed.

(** Moving to [time] always succeeds; it never goes back, and otherwise ends
    exactly at [time]. *)
Lemma advance_time_to_ok m0 read unread pm f time : heap_inv m0 read unread pm ->
  config_ok pm -> time_inv m0 (pm_current_time pm) pm f -> pm_current_time pm <= 2 * TMAX + 1 ->
  0 <= time <= 2 * TMAX + 1 ->
  exists pm', dns_worker_packet_matcher_advance_time_to pm time = Ok pm' /\
    rtc (adv m0 (Z.max (pm_current_time pm) time)) pm pm' /\
    pm_current_time pm' = Z.max (pm_current_time pm) time.
Proof.
  intros H C T Hcur Ht. unfold dns_worker_packet_matcher_advance_time_to.
  pose proof (ti_current _ _ _ _ T) as Hc. unfold TMAX in *.
  rewrite c_assert_true; cbn [mbind outcome_bind].
  2: { unfold DNS_NO_TIME, INT64_MIN.
       destruct (Z.eqb_spec time (- 2 ^ 63)); [lia|].
       destruct (Z.eqb_spec (pm_current_time pm) (- 2 ^ 63)); [lia|]. done. }
  rewrite i64_in by int_lia. cbn [mbind outcome_bind].
  destruct (Z.lt_ge_cases (pm_current_time pm) time) as [Hlt|Hge].
  - destruct (Z.ltb_spec time (pm_current_time pm - 1000)); [lia|].
    replace (Z.max (pm_current_time pm) time) with time by lia.
    eapply advance_loop_ok; eauto.
    + apply (time_inv_mono _ (pm_current_time pm)); [done|lia].
    + unfold TMAX. lia.
    + unfold advance_fuel, pending. rewrite (ti_frame _ _ _ _ T). lia.
  - exists pm. replace (Z.max (pm_current_time pm) time) with (pm_current_time pm) by lia.
    split; [|done]. destruct (_ <? _); [done|]. by apply advance_loop_past.
Qed.

(** ** Packets in time order *)

(** What holds in addition when the time never has to go back: the queue is
    ordered and within the window, frames hold the packets of their
    interval, and a response follows its request within the window. *)
Record window_inv (m0 : mem) (pm : matcher) : Prop := {
  wi_sorted : StronglySorted (fun a b => ts_at m0 a <= ts_at m0 b) (pm_queue pm);
  wi_late : forall l, l ∈ pm_queue pm -> pm_current_time pm <= packet_leaves m0 pm l;
  wi_end : forall f l, pm_outframe pm = Some f -> l ∈ pm_queue pm -> time_end f <= ts_at m0 l;
  wi_frames : forall f l, f ∈ pm_out pm ++ option_list (pm_outframe pm) -> l ∈ packets f ->
    time_start f <= ts_at m0 l;
  wi_delay : forall l p r, l ∈ items pm -> pm_mem pm !! l = Some p -> response p = Some r ->
    0 <= ts_at m0 r - ts_at m0 l <= pm_matching_duration pm;
}.

Lemma sorted_head m0 pm l x : window_inv m0 pm -> head (pm_queue pm) = Some l ->
  x ∈ pm_queue pm -> ts_at m0 l <= ts_at m0 x.
Proof.
  intros W Hh Hx. pose proof (wi_sorted _ _ W) as Hs. destruct (pm_queue pm) as [|l0 q]; [done|].
  cbn in Hh. injection Hh as ->. apply StronglySorted_inv in Hs as [_ Hall].
  apply elem_of_cons in Hx as [->|Hx]; [lia|]. rewrite Forall_forall in Hall. auto.
Qed.

(** A lower bound on the head is one on the whole queue. *)
Lemma queue_bound m0 pm b : window_inv m0 pm ->
  (forall l, head (pm_queue pm) = Some l -> b <= packet_leaves m0 pm l) ->
  forall x, x ∈ pm_queue pm -> b <= packet_leaves m0 pm x.
Proof.
  intros W Hb x Hx. destruct (head (pm_queue pm)) as [l|] eqn:Hh.
  - pose proof (sorted_head _ _ _ _ W Hh Hx). specialize (Hb l eq_refl). unfold packet_leaves in *. lia.
  - destruct (pm_queue pm); [set_solver | done].
Qed.

Lemma wi_delay_view m0 pm pm' : window_inv m0 pm -> items pm' = items pm ->
  pm_mem pm' = pm_mem pm -> pm_matching_duration pm' = pm_matching_duration pm ->
  forall l p r, l ∈ items pm' -> pm_mem pm' !! l = Some p -> response p = Some r ->
    0 <= ts_at m0 r - ts_at m0 l <= pm_matching_duration pm'.
Proof. intros W -> -> ->. apply W. Qed.

Lemma window_handed_over m0 pm f f' t : window_inv m0 pm -> pm_outframe pm = Some f ->
  packets f' = packets f -> time_start f' = time_start f ->
  (forall l, l ∈ pm_queue pm -> t <= ts_at m0 l) -> window_inv m0 (handed_over pm f' t).
Proof.
  intros W Hf Hp Hs Ht. split; cbn; try apply W.
  - intros g l [= <-] Hl. by apply Ht.
  - intros g l Hg Hl. rewrite !elem_of_app, !list_elem_of_singleton in Hg.
    destruct Hg as [[Hg| ->]| ->].
    + apply (wi_frames _ _ W g); [set_solver | done].
    + rewrite Hs. rewrite Hp in Hl. apply (wi_frames _ _ W f); [rewrite Hf; set_solver | done].
    + cbn in Hl. set_solver.
  - apply (wi_delay_view m0 pm (handed_over pm f' t)); [done | by apply (items_handed_over pm f) | done..].
Qed.

Lemma window_set_time m0 pm t : window_inv m0 pm ->
  (forall l, head (pm_queue pm) = Some l -> t <= packet_leaves m0 pm l) ->
  window_inv m0 (with_time pm t).
Proof.
  intros W Ht. split; cbn; try apply W. intros l Hl.
  by apply (queue_bound m0 pm t W).
Qed.

Lemma adv_window m0 read unread time pm pm' f : adv m0 time pm pm' ->
  heap_inv m0 read unread pm -> config_ok pm -> time_inv m0 time pm f ->
  window_inv m0 pm -> window_inv m0 pm'.
Proof.
  intros Hadv H C T W.
  destruct Hadv as [pm f1 Hf Hcur Hfe Hq|pm f1 Hf Hcur Hfe Hq|pm f1 Hf|pm f1 f' l q p h Hf Hq Hcur Hle Hlt Hp Hu Hfit Happ].
  - apply window_set_time; [done|]. intros l Hl. apply Hq in Hl. lia.
  - apply window_set_time; [|done]. apply (window_handed_over m0 pm f1); try done.
    intros l Hl. pose proof (queue_bound m0 pm _ W Hq l Hl). unfold frame_leaves, packet_leaves in *. lia.
  - apply (window_handed_over m0 pm f1); try done. intros l Hl. by apply (wi_end _ _ W).
  - destruct (ts_at_mem _ _ _ _ _ _ H Hp) as [E1 E2].
    pose proof (ti_frame _ _ _ _ T) as Tf. rewrite Hf in Tf. injection Tf as <-.
    pose proof (ti_good _ _ _ _ T) as Tg. apply Forall_app in Tg as [_ Gf]. rewrite Forall_singleton in Gf.
    unfold packet_leaves, frame_leaves in *.
    destruct (frame_good_append m0 _ _ _ f1 f' l p Gf Hp E1 E2 ltac:(lia) Hfit Happ)
      as (_ & S' & _ & E' & P').
    assert (Hl : l ∈ pm_queue pm) by (rewrite Hq; set_solver).
    pose proof (wi_end _ _ W f1 l Hf Hl) as He. pose proof (fg_start _ _ _ _ Gf).
    assert (Hrest : forall x, x ∈ q -> ts_at m0 l <= ts_at m0 x).
    { intros x Hx. apply (sorted_head m0 pm); [done | by rewrite Hq | rewrite Hq; set_solver]. }
    pose proof (wi_sorted _ _ W) as Hs. rewrite Hq in Hs. apply StronglySorted_inv in Hs as [Hs _].
    split; cbn; [done | | | |].
    + intros x Hx. apply Hrest in Hx. unfold packet_leaves. cbn. lia.
    + intros g x [= <-] Hx. apply Hrest in Hx. lia.
    + intros g x Hg Hx. rewrite elem_of_app, list_elem_of_singleton in Hg. destruct Hg as [Hg| ->].
      * apply (wi_frames _ _ W g); [set_solver | done].
      * rewrite P' in Hx. apply elem_of_app in Hx as [Hx| ->%list_elem_of_singleton]; [|lia].
        rewrite S'. apply (wi_frames _ _ W f1); [rewrite Hf; set_solver | done].
    + apply (wi_delay_view m0 pm (with_time (with_outframe (with_hash (with_queue pm q) h) (Some f')) 0));
        [done | by apply (items_packet pm f1 f' l q) | done..].
Qed.

Lemma rtc_adv_window m0 read unread time pm pm' f : rtc (adv m0 time) pm pm' ->
  heap_inv m0 read unread pm -> config_ok pm -> time_inv m0 time pm f ->
  window_inv m0 pm -> window_inv m0 pm'.
Proof.
  intros Hrtc. revert f. induction Hrtc as [pm|pm pm1 pm2 Hadv _ IH]; intros f H C T W; [done|].
  destruct (adv_time_inv _ _ _ _ _ _ _ Hadv H C T) as (f1 & T1 & _).
  apply (IH f1); auto.
  - by eapply adv_heap_inv.
  - eapply config_ok_same; [by eapply adv_same_config | done].
  - by eapply adv_window.
Qed.

(** When every queued packet has to leave before [time], the queue is empty
    once [time] is reached. *)
Lemma rtc_adv_drains m0 time pm pm' : rtc (adv m0 time) pm pm' ->
  (forall l, l ∈ pm_queue pm -> packet_leaves m0 pm l < time) ->
  (pm_queue pm <> [] -> pm_current_time pm < time) ->
  pm_queue pm' <> [] -> pm_current_time pm' < time.
Proof.
  induction 1 as [pm|pm pm1 pm2 Hadv _ IH]; intros Hq Hc; [done|]. apply IH; clear IH.
  - intros l Hl. destruct Hadv as [| | |pm f f' l0 q p h Hf Hqq]; try by apply Hq.
    apply Hq. rewrite Hqq. cbn in Hl. set_solver.
  - destruct Hadv as [pm f Hf Hcur Hfe Hh|pm f Hf Hcur Hfe Hh|pm f Hf|pm f f' l0 q p h Hf Hqq]; cbn.
    + destruct (pm_queue pm) as [|l q]; [done|]. specialize (Hh l eq_refl).
      specialize (Hq l ltac:(set_solver)). lia.
    + destruct (pm_queue pm) as [|l q]; [done|]. specialize (Hh l eq_refl).
      specialize (Hq l ltac:(set_solver)). lia.
    + done.
    + intros _. apply Hq. rewrite Hqq. set_solver.
Qed.

End inv.
