(* ===== verification/MatcherMain.v ===== *)
(** * The whole run of the packet matcher

    The invariants of [MatcherInv] through reading the input, the main loop
    and the end of [dns_worker_packet_matcher_main], and the theorems about
    a complete run. *)

From stdpp Require Import base numbers gmap list sorting.
From S2P Require Import Prelude Doubles Common Libs Packet PacketFrame PacketHash Matcher MatcherInv.

Section main.
Context `{K : Libknot}.
Abbreviation mem := (gmap loc dns_packet).

(** ** The input *)

(** A frame without packets and without time, which the matcher skips. *)
Definition skipped (f : dns_packet_frame) : bool :=
  (frame_count f =? 0) && (time_start f =? DNS_NO_TIME).

(** A regular input frame. *)
Definition in_frame_ok (f : dns_packet_frame) : Prop :=
  frame_type f <> 1 /\
  ((skipped f = true /\ packets f = []) \/
   (0 <= time_start f <= TMAX /\ 0 <= time_end f <= TMAX)).

(** The input: regular frames, then the final frame. *)
Definition feed_ok (pm : matcher) : Prop :=
  exists fs fin, pm_in pm = fs ++ [fin] /\ Forall in_frame_ok fs /\
    frame_type fin = 1 /\ packets fin = [].

(** The times the matcher will move to, in order. *)
Definition frame_times (m0 : mem) (f : dns_packet_frame) : list Z :=
  if (frame_type f =? 1) || skipped f then []
  else time_start f :: map (ts_at m0) (packets f) ++ [time_end f].

Definition upcoming (m0 : mem) (pm : matcher) : list Z :=
  match pm_inframe pm with
  | Some f => map (ts_at m0) (packets f) ++ [time_end f]
  | None => []
  end ++ flat_map (frame_times m0) (pm_in pm).

Definition in_order (m0 : mem) (pm : matcher) : Prop :=
  StronglySorted Z.le (pm_current_time pm :: upcoming m0 pm).

(** ** The invariant between two packets *)

(** Before the first frame there is no output frame and no time. *)
Definition started (m0 : mem) (pm : matcher) : Prop :=
  match pm_outframe pm with
  | None => pm_out pm = [] /\ pm_queue pm = [] /\ pm_current_time pm = DNS_NO_TIME /\
            pm_inframe pm = None
  | Some f => time_inv m0 (pm_current_time pm) pm f /\ pm_current_time pm <= TMAX
  end.

(** [ord] says whether the input is in time order. *)
Record run_inv (m0 : mem) (ord : Prop) (pm : matcher) : Prop := {
  ri_config : config_ok pm;
  ri_started : started m0 pm;
  ri_inframe : forall f, pm_inframe pm = Some f -> 0 <= time_end f <= TMAX;
  ri_window : ord -> in_order m0 pm /\ window_inv m0 pm;
}.

(** The parameters of the matcher, which no operation assigns. *)
Definition same_params (pm pm' : matcher) : Prop :=
  pm_matching_duration pm' = pm_matching_duration pm /\
  pm_frame_max_duration pm' = pm_frame_max_duration pm /\
  pm_match_qname pm' = pm_match_qname pm /\
  pm_frame_max_size pm' = pm_frame_max_size pm.

Lemma same_params_trans pm1 pm2 pm3 : same_params pm1 pm2 -> same_params pm2 pm3 ->
  same_params pm1 pm3.
Proof. unfold same_params. intros. destruct_and!. repeat split; congruence. Qed.

Lemma same_config_params pm pm' : same_config pm pm' -> same_params pm pm'.
Proof. unfold same_config, same_params. intros. by destruct_and!. Qed.

(** Moving to time [t], which the input order allows to be the next. *)
Lemma advance_step m0 ord read unread pm f t : heap_inv m0 read unread pm ->
  config_ok pm -> time_inv m0 (pm_current_time pm) pm f -> pm_current_time pm <= TMAX ->
  0 <= t <= TMAX ->
  (ord -> window_inv m0 pm) ->
  exists pm' f', dns_worker_packet_matcher_advance_time_to pm t = Ok pm' /\
    heap_inv m0 read unread pm' /\ same_config pm pm' /\
    time_inv m0 (pm_current_time pm') pm' f' /\
    pm_current_time pm' = Z.max (pm_current_time pm) t /\
    (ord -> window_inv m0 pm').
Proof.
  intros H C T Hc Ht W.
  destruct (advance_time_to_ok m0 read unread pm f t) as (pm' & Hrun & Hadv & Hcur); auto;
    [unfold TMAX in *; lia..|].
  assert (T' : time_inv m0 (Z.max (pm_current_time pm) t) pm f)
    by (apply (time_inv_mono _ (pm_current_time pm)); [done|lia]).
  destruct (rtc_adv_inv _ _ _ _ _ _ _ Hadv H C T') as (H1 & _ & Hs & f1 & T1 & _).
  exists pm', f1. rewrite Hcur. do 4 (split; [done|]). split; [done|].
  intros Hord. eapply rtc_adv_window; eauto.
Qed.

Lemma in_order_step m0 pm pm' t : in_order m0 pm -> upcoming m0 pm = t :: upcoming m0 pm' ->
  pm_current_time pm' = Z.max (pm_current_time pm) t ->
  in_order m0 pm' /\ pm_current_time pm' = t.
Proof.
  unfold in_order. intros Ho Hu ->. rewrite Hu in Ho. apply StronglySorted_inv in Ho as [Hs Hall].
  apply Forall_cons in Hall as [Hle _]. by replace (Z.max (pm_current_time pm) t) with t by lia.
Qed.

(** ** Reading the input *)

(** The first regular frame sets the output frame and the time. *)
Definition begin_output (pm : matcher) (f : dns_packet_frame) : matcher :=
  match pm_outframe pm with
  | Some _ => pm
  | None => with_time (with_outframe pm (Some (dns_packet_frame_create (time_start f) (time_start f))))
              (time_start f)
  end.

Lemma begin_output_inv m0 ord read pm f rest : heap_inv m0 read (todo pm) pm ->
  run_inv m0 ord pm -> 0 <= time_start f <= TMAX ->
  let pm2 := begin_output (with_inframe (with_in pm rest) (Some f)) f in
  heap_inv m0 read (todo pm) pm2 /\ config_ok pm2 /\ same_params pm pm2 /\
  pm_in pm2 = rest /\ pm_inframe pm2 = Some f /\
  Z.max (pm_current_time pm2) (time_start f) = Z.max (pm_current_time pm) (time_start f) /\
  pm_current_time pm2 <= TMAX /\
  (exists g, time_inv m0 (pm_current_time pm2) pm2 g) /\
  (ord -> window_inv m0 pm2).
Proof.
  intros H [C S _ W] Hf pm2. unfold pm2, begin_output, started in *. cbn [pm_outframe with_inframe with_in].
  destruct (pm_outframe pm) as [g|] eqn:Hg.
  - destruct S as [T Hc]. split; [by eapply heap_inv_view|]. split; [by destruct C; split|].
    do 4 (split; [done|]). split; [done|]. split.
    + exists g. by destruct T; split.
    + intros Ho. destruct (W Ho) as [_ []]. by split.
  - destruct S as (Ho & Hq & Hc & _). cbn.
    assert (Hitems : items pm = []) by (unfold items, out_items; by rewrite Ho, Hg, Hq).
    split; [|split; [by destruct C; split|]; do 3 (split; [done|])].
    { eapply heap_inv_view; [done..|]. unfold items, out_items. cbn. by rewrite Ho, Hg, Hq. }
    split; [rewrite Hc; unfold DNS_NO_TIME, INT64_MIN; lia|]. split; [lia|]. split.
    + exists (dns_packet_frame_create (time_start f) (time_start f)). split; cbn; rewrite ?Ho, ?Hq; cbn; [done | | done | lia | lia | set_solver].
      apply Forall_singleton, frame_good_create; [lia|]. apply (cf_fmd _ C).
    + intros _. split; cbn; rewrite ?Ho, ?Hq; cbn; try set_solver.
      * constructor.
      * intros g l ->%list_elem_of_singleton. cbn. set_solver.
Qed.

Lemma load_frame m0 ord read pm f rest : heap_inv m0 read (todo pm) pm -> run_inv m0 ord pm ->
  pm_inframe pm = None -> pm_in pm = f :: rest -> frame_type f <> 1 -> skipped f = false ->
  0 <= time_start f <= TMAX -> 0 <= time_end f <= TMAX ->
  exists pm', dns_worker_packet_matcher_advance_time_to
      (begin_output (with_inframe (with_in pm rest) (Some f)) f) (time_start f) = Ok pm' /\
    heap_inv m0 read (todo pm) pm' /\ run_inv m0 ord pm' /\ same_params pm pm' /\
    pm_in pm' = rest /\ pm_inframe pm' = Some f /\ is_Some (pm_outframe pm').
Proof.
  intros H R Hin Hpin Hty Hsk Hs He.
  destruct (begin_output_inv m0 ord read pm f rest H R Hs)
    as (H2 & C2 & P2 & I2 & F2 & Hmax & Hc2 & (g & T2) & W2).
  set (pm2 := begin_output _ f) in *.
  destruct (advance_step m0 ord read (todo pm) pm2 g (time_start f)) as (pm' & g' & Hrun & H3 & S3 & T3 & Hcur & W3); auto.
  exists pm'. split; [done|]. split; [done|].
  pose proof (same_config_params _ _ S3) as P3.
  pose proof S3 as (_ & _ & _ & _ & _ & Ein & Efr & _). rewrite I2 in Ein. rewrite F2 in Efr.
  split; [|split; [by eapply same_params_trans|]; split; [done|]; split; [done|];
           rewrite (ti_frame _ _ _ _ T3); eauto].
  split.
  - by eapply config_ok_same.
  - unfold started. rewrite (ti_frame _ _ _ _ T3). split; [done|]. lia.
  - rewrite Efr. by intros ? [= <-].
  - intros Ho. split; [|auto]. apply (in_order_step m0 pm pm' (time_start f)).
    + apply R, Ho.
    + unfold upcoming. rewrite Hin, Hpin, Efr, Ein. cbn. unfold frame_times at 1.
      destruct (Z.eqb_spec (frame_type f) 1); [done|]. rewrite Hsk. cbn. by rewrite <- !app_assoc.
    + lia.
Qed.

(** The end of an input frame, after its last packet. *)
Lemma finish_frame m0 ord read pm f g : heap_inv m0 read (todo pm) pm -> run_inv m0 ord pm ->
  pm_inframe pm = Some f -> pm_outframe pm = Some g -> packets f = [] ->
  exists pm', dns_worker_packet_matcher_advance_time_to pm (time_end f) = Ok pm' /\
    let pm2 := with_inframe (with_mem pm' (pm_mem pm')) None in
    heap_inv m0 read (todo pm) pm2 /\ run_inv m0 ord pm2 /\ same_params pm pm2 /\
    pm_in pm2 = pm_in pm /\ pm_inframe pm2 = None.
Proof.
  intros H [C S F W] Hf Hg Hp. unfold started in S. rewrite Hg in S. destruct S as [T Hc].
  specialize (F f Hf).
  destruct (advance_step m0 ord read (todo pm) pm g (time_end f)) as (pm' & g' & Hrun & H3 & S3 & T3 & Hcur & W3); auto.
  { intros Ho. by apply W. }
  exists pm'. split; [done|]. cbn zeta.
  pose proof S3 as (E1 & E2 & E3 & E4 & E5 & Ein & Efr & _).
  split; [by eapply heap_inv_view|]. split; [|by repeat split].
  split.
  - destruct C. split; cbn; by rewrite ?E1, ?E2, ?E5.
  - unfold started. cbn. rewrite (ti_frame _ _ _ _ T3). split; [by destruct T3; split|]. cbn. lia.
  - cbn. done.
  - intros Ho. destruct (W Ho) as [Hord _]. split.
    + apply (in_order_step m0 pm _ (time_end f)); [done | | done].
      unfold upcoming. cbn. rewrite Hf, Hp, Ein. done.
    + destruct (W3 Ho). by split.
Qed.

(** The next packet of the input frame. *)
Lemma take_packet m0 ord read pm f g l ps : heap_inv m0 read (todo pm) pm -> run_inv m0 ord pm ->
  pm_inframe pm = Some f -> pm_outframe pm = Some g -> packets f = l :: ps ->
  exists p pm', pm_mem pm !! l = Some p /\
    dns_worker_packet_matcher_advance_time_to (with_inframe pm (Some (set_packets f ps))) (ts p) = Ok pm' /\
    heap_inv m0 read (todo pm) pm' /\ run_inv m0 ord pm' /\ same_params pm pm' /\
    pm_in pm' = pm_in pm /\ todo pm = l :: todo pm' /\
    is_Some (pm_outframe pm') /\ ts_at m0 l <= pm_current_time pm' /\
    (ord -> ts_at m0 l = pm_current_time pm').
Proof.
  intros H [C S F W] Hf Hg Hp. unfold started in S. rewrite Hg in S. destruct S as [T Hc].
  assert (Hl : l ∈ todo pm) by (unfold todo; rewrite Hf, Hp; set_solver).
  destruct (hi_unread _ _ _ _ H l Hl) as (p & Hpl & _ & Hts).
  destruct (ts_at_mem _ _ _ _ _ _ H Hpl) as [Et _].
  set (pm1 := with_inframe pm (Some (set_packets f ps))).
  destruct (advance_step m0 ord read (todo pm) pm1 g (ts p)) as (pm' & g' & Hrun & H3 & S3 & T3 & Hcur & W3); auto.
  { by eapply heap_inv_view. }
  { by destruct C; split. }
  { by destruct T; split. }
  { intros Ho. destruct (W Ho) as [_ []]. by split. }
  exists p, pm'. split; [done|]. split; [done|]. split; [done|].
  pose proof S3 as (E1 & E2 & E3 & E4 & E5 & Ein & Efr & _). cbn in *.
  assert (Hord : ord -> in_order m0 pm' /\ pm_current_time pm' = ts p).
  { intros Ho. apply (in_order_step m0 pm pm' (ts p)).
    - apply W, Ho.
    - unfold upcoming. rewrite Hf, Hp, Ein, Efr. cbn. by rewrite Et.
    - done. }
  split; [|split; [by repeat split|]; split; [done|]; split; [|split;
    [rewrite (ti_frame _ _ _ _ T3); eauto | split; [lia|]; intros Ho; apply Hord in Ho; lia]]].
  - split.
    + destruct C. split; by rewrite ?E1, ?E2, ?E5.
    + unfold started. rewrite (ti_frame _ _ _ _ T3). split; [done|]. cbn in Hcur. lia.
    + rewrite Efr. intros ? [= <-]. cbn. by apply F.
    + intros Ho. split; [by apply Hord | auto].
  - unfold todo. rewrite Hf, Hp, Ein, Efr. done.
Qed.

Lemma destroy_empty (m : mem) f : packets f = [] -> dns_packet_frame_destroy m f = Ok m.
Proof. intros H. unfold dns_packet_frame_destroy. by rewrite H. Qed.

Lemma todo_cons pm f rest : pm_inframe pm = None -> pm_in pm = f :: rest ->
  todo pm = packets f ++ flat_map packets rest.
Proof. intros H1 H2. unfold todo. by rewrite H1, H2. Qed.

(** Dropping a frame that the matcher skips, or the final frame. *)
Lemma drop_frame m0 ord read pm f rest : heap_inv m0 read (todo pm) pm -> run_inv m0 ord pm ->
  pm_inframe pm = None -> pm_in pm = f :: rest -> packets f = [] -> frame_times m0 f = [] ->
  let pm' := with_mem (with_in pm rest) (pm_mem pm) in
  heap_inv m0 read (todo pm) pm' /\ run_inv m0 ord pm' /\ same_params pm pm' /\ todo pm' = todo pm.
Proof.
  intros H [C S F W] Hin Hpin Hp Ht pm'. split; [by eapply heap_inv_view|].
  split; [|split; [done|]; rewrite (todo_cons pm f rest Hin Hpin), Hp; unfold todo; cbn; by rewrite Hin].
  split.
  - destruct C. by split.
  - unfold started in *. cbn. destruct (pm_outframe pm); [|done]. destruct S as [[] ?]. by split; [split|].
  - cbn. rewrite Hin. done.
  - intros Ho. destruct (W Ho) as [Hord []]. split; [|by split].
    unfold in_order, upcoming in *. cbn. rewrite Hin, Hpin in *. cbn in Hord. by rewrite Ht in Hord.
Qed.

(** What the next packet, or the end of the input, looks like. *)
Definition next_result (m0 : mem) (ord : Prop) (read : list loc) (pm : matcher)
    (r : option loc * matcher) : Prop :=
  let '(o, pm') := r in
  run_inv m0 ord pm' /\ same_params pm pm' /\ heap_inv m0 read (todo pm) pm' /\
  match o with
  | None => todo pm = [] /\ pm_in pm' = []
  | Some l => todo pm = l :: todo pm' /\ feed_ok pm' /\ is_Some (pm_outframe pm') /\
      ts_at m0 l <= pm_current_time pm' /\ (ord -> ts_at m0 l = pm_current_time pm')
  end.

Lemma next_result_view m0 ord read pm pm1 r : next_result m0 ord read pm1 r ->
  same_params pm pm1 -> todo pm1 = todo pm -> next_result m0 ord read pm r.
Proof.
  destruct r as [o pm']. unfold next_result. intros (R & S & H & Hcase) Hs Ht. rewrite Ht in *.
  split; [done|]. split; [by eapply same_params_trans|]. by split.
Qed.

Definition in_progress (pm : matcher) : nat :=
  match pm_inframe pm with Some _ => 1 | None => 0 end.

(** A turn of the loop ends with a result or leaves less to do. *)
Definition next_turn (m0 : mem) (ord : Prop) (read : list loc) (pm : matcher) : Prop :=
  (exists r, (forall fuel, next_packet_loop (S fuel) pm = Ok r) /\ next_result m0 ord read pm r) \/
  (exists pm1, (forall fuel, next_packet_loop (S fuel) pm = next_packet_loop fuel pm1) /\
     heap_inv m0 read (todo pm) pm1 /\ run_inv m0 ord pm1 /\ feed_ok pm1 /\
     same_params pm pm1 /\ todo pm1 = todo pm /\
     (2 * length (pm_in pm1) + in_progress pm1 < 2 * length (pm_in pm) + in_progress pm)%nat).

Lemma next_turn_inframe m0 ord read pm f : heap_inv m0 read (todo pm) pm ->
  run_inv m0 ord pm -> feed_ok pm -> pm_inframe pm = Some f -> next_turn m0 ord read pm.
Proof.
  intros H R F Hinf. pose proof (ri_started _ _ _ R) as S. unfold started in S.
  destruct (pm_outframe pm) as [g|] eqn:Hg; [|by destruct S as (_ & _ & _ & ?); congruence]. clear S.
  unfold next_turn. cbn [next_packet_loop]. rewrite Hinf.
  destruct (packets f) as [|l ps] eqn:Hp.
  - right. destruct (finish_frame m0 ord read pm f g H R Hinf Hg Hp) as (pm' & -> & H2 & R2 & S2 & I2 & F2).
    eexists. split; [|split; [exact H2|]; split; [exact R2|]].
    + intros fuel. cbn [mbind outcome_bind]. by rewrite destroy_empty.
    + split; [destruct F as (fs & fin & ? & ?); exists fs, fin; by rewrite I2|]. split; [done|].
      unfold todo, in_progress. rewrite F2, I2, Hinf, Hp. split; [done | lia].
  - left. destruct (take_packet m0 ord read pm f g l ps H R Hinf Hg Hp)
      as (p & pm' & Hpl & Hrun & H2 & R2 & S2 & I2 & Et & Hof & Hts & Hord).
    exists (Some l, pm'). split.
    + intros fuel. cbn [pm_mem with_inframe]. rewrite Hpl. cbn [deref mbind outcome_bind].
      by rewrite Hrun.
    + do 4 (split; [done|]). split; [|done].
      destruct F as (fs & fin & ? & ?). exists fs, fin. by rewrite I2.
Qed.

(** The final frame ends the input. *)
Lemma next_turn_final m0 ord read pm fin : heap_inv m0 read (todo pm) pm -> run_inv m0 ord pm ->
  pm_inframe pm = None -> pm_in pm = [fin] -> frame_type fin = 1 -> packets fin = [] ->
  next_turn m0 ord read pm.
Proof.
  intros H R Hinf Hin Hty Hp. left.
  destruct (drop_frame m0 ord read pm fin [] H R Hinf Hin Hp) as (H2 & R2 & S2 & Et).
  { unfold frame_times. by rewrite Hty. }
  eexists (None, _). split.
  - intros fuel. cbn [next_packet_loop]. rewrite Hinf, Hin, Hty. cbn [pm_mem with_in].
    by rewrite destroy_empty.
  - do 3 (split; [done|]). split; [|done]. by rewrite (todo_cons pm fin [] Hinf Hin), Hp.
Qed.

Lemma next_turn_skip m0 ord read pm f rest : heap_inv m0 read (todo pm) pm -> run_inv m0 ord pm ->
  pm_inframe pm = None -> pm_in pm = f :: rest -> frame_type f <> 1 -> skipped f = true ->
  packets f = [] -> feed_ok (with_in pm rest) -> next_turn m0 ord read pm.
Proof.
  intros H R Hinf Hin Hty Hsk Hp F. right.
  destruct (drop_frame m0 ord read pm f rest H R Hinf Hin Hp) as (H2 & R2 & S2 & Et).
  { unfold frame_times. rewrite Hsk. by rewrite orb_true_r. }
  eexists. split; [|split; [exact H2|]; split; [exact R2|]].
  - intros fuel. cbn [next_packet_loop]. rewrite Hinf, Hin.
    destruct (Z.eqb_spec (frame_type f) 1); [done|].
    change ((frame_count f =? 0) && (time_start f =? DNS_NO_TIME)) with (skipped f).
    rewrite Hsk. cbn [pm_mem with_in]. by rewrite destroy_empty.
  - split; [done|]. split; [done|]. split; [done|].
    unfold in_progress. cbn. rewrite Hinf, Hin. cbn. lia.
Qed.

Lemma next_turn_load m0 ord read pm f rest : heap_inv m0 read (todo pm) pm -> run_inv m0 ord pm ->
  pm_inframe pm = None -> pm_in pm = f :: rest -> frame_type f <> 1 -> skipped f = false ->
  0 <= time_start f <= TMAX -> 0 <= time_end f <= TMAX ->
  feed_ok (with_in pm rest) -> next_turn m0 ord read pm.
Proof.
  intros H R Hinf Hin Hty Hsk Hs He F. right.
  destruct (load_frame m0 ord read pm f rest H R Hinf Hin Hty Hsk Hs He)
    as (pm' & Hrun & H2 & R2 & S2 & I2 & F2 & Hof).
  eexists. split; [|split; [exact H2|]; split; [exact R2|]].
  - intros fuel. cbn [next_packet_loop]. rewrite Hinf, Hin.
    destruct (Z.eqb_spec (frame_type f) 1); [done|].
    change ((frame_count f =? 0) && (time_start f =? DNS_NO_TIME)) with (skipped f).
    rewrite Hsk. rewrite c_assert_true; cbn [mbind outcome_bind].
    + unfold begin_output in Hrun. by rewrite Hrun.
    + unfold DNS_NO_TIME, INT64_MIN. by destruct (Z.eqb_spec (time_start f) (- 2 ^ 63)); [lia|].
  - split; [destruct F as (fs & fin & ? & ?); exists fs, fin; by rewrite I2|]. split; [done|].
    split; [rewrite (todo_cons pm f rest Hinf Hin); unfold todo; by rewrite F2, I2|].
    unfold in_progress. rewrite F2, I2, Hinf, Hin. cbn. lia.
Qed.

Lemma next_turn_ok m0 ord read pm : heap_inv m0 read (todo pm) pm -> run_inv m0 ord pm ->
  feed_ok pm -> next_turn m0 ord read pm.
Proof.
  intros H R F. destruct (pm_inframe pm) as [f|] eqn:Hinf; [by eapply next_turn_inframe|].
  destruct F as (fs & fin & Hfs & Hok & Hty & Hfin).
  destruct fs as [|f rest]; [by eapply next_turn_final|].
  apply Forall_cons in Hok as [[Hf Hcase] Hok].
  assert (F : feed_ok (with_in pm (rest ++ [fin]))) by (by exists rest, fin).
  destruct (skipped f) eqn:Hsk.
  - eapply next_turn_skip; try done. destruct Hcase as [[_ ?]|[Hs _]]; [done|].
    unfold skipped, DNS_NO_TIME, INT64_MIN in Hsk. lia.
  - destruct Hcase as [[? _]|[Hs He]]; [congruence|]. by eapply next_turn_load.
Qed.

Lemma next_packet_loop_ok m0 ord read fuel pm : heap_inv m0 read (todo pm) pm ->
  run_inv m0 ord pm -> feed_ok pm -> (2 * length (pm_in pm) + in_progress pm < fuel)%nat ->
  exists r, next_packet_loop fuel pm = Ok r /\ next_result m0 ord read pm r.
Proof.
  revert pm. induction fuel as [|fuel IH]; intros pm H R F Hfuel; [lia|].
  destruct (next_turn_ok m0 ord read pm H R F)
    as [(r & Hr & Hres)|(pm1 & Hrun & H1 & R1 & F1 & S1 & Et & Hless)].
  - exists r. by rewrite Hr.
  - rewrite Hrun. destruct (IH pm1) as (r & Hr & Hres); [by rewrite Et | done | done | lia |].
    exists r. split; [done|]. by eapply next_result_view.
Qed.

Lemma next_packet_ok m0 ord read pm : heap_inv m0 read (todo pm) pm -> run_inv m0 ord pm ->
  feed_ok pm ->
  exists r, dns_worker_packet_matcher_next_packet pm = Ok r /\ next_result m0 ord read pm r.
Proof.
  intros H R F. apply next_packet_loop_ok; [done..|].
  unfold in_progress. destruct (pm_inframe pm); lia.
Qed.

(** ** The main loop *)

Lemma processed_window m0 read unread pm pm' l g : heap_inv m0 read (l :: unread) pm ->
  config_ok pm -> time_inv m0 (pm_current_time pm) pm g -> ts_at m0 l = pm_current_time pm ->
  processed pm l pm' -> window_inv m0 pm -> window_inv m0 pm'.
Proof.
  intros H C T Hts Hproc [W1 W2 W3 W4 W5].
  assert (Hle : forall x, x ∈ pm_queue pm -> ts_at m0 x <= ts_at m0 l).
  { intros x Hx. rewrite Hts. by apply (ti_queue _ _ _ _ T). }
  destruct Hproc as [h|h req rp Hq Hrp Hn]; split; cbn; try done.
  - apply StronglySorted_app_2; [|done|repeat constructor].
    intros x y Hx ->%list_elem_of_singleton. auto.
  - intros x [Hx| ->%list_elem_of_singleton]%elem_of_app; [by apply W2|].
    unfold packet_leaves. cbn. pose proof (cf_md _ C). lia.
  - intros f x Hf [Hx| ->%list_elem_of_singleton]%elem_of_app; [by apply W3|].
    rewrite (ti_frame _ _ _ _ T) in Hf. injection Hf as <-. pose proof (ti_end _ _ _ _ T). lia.
  - intros x p r Hx Hp Hr.
    change (x ∈ items (with_queue (with_hash pm h) (pm_queue pm ++ [l]))) in Hx. rewrite items_queue in Hx.
    apply elem_of_app in Hx as [Hx| ->%list_elem_of_singleton]; [by eapply W5|].
    destruct (hi_unread _ _ _ _ H l) as (p' & Hp' & Hnone & _); [set_solver|]. congruence.
  - intros x p r Hx Hp Hr. change (x ∈ items pm) in Hx.
    destruct (decide (req = x)) as [->|Hne].
    + rewrite lookup_insert_eq in Hp. injection Hp as <-. cbn in Hr. injection Hr as <-.
      specialize (Hle x Hq). specialize (W2 x Hq). unfold packet_leaves in W2. lia.
    + rewrite lookup_insert_ne in Hp by done. by eapply W5.
Qed.

Lemma processed_run_inv m0 ord read unread pm pm' l : heap_inv m0 read (l :: unread) pm ->
  run_inv m0 ord pm -> processed pm l pm' ->
  is_Some (pm_outframe pm) -> ts_at m0 l <= pm_current_time pm ->
  (ord -> ts_at m0 l = pm_current_time pm) -> run_inv m0 ord pm'.
Proof.
  intros H [C S F W] Hproc [g Hg] Hts Hord. unfold started in S. rewrite Hg in S. destruct S as [T Hc].
  assert (HW : ord -> in_order m0 pm' /\ window_inv m0 pm').
  { intros Ho. destruct (W Ho) as [Hio HW]. split; [by destruct Hproc|]. eapply processed_window; eauto. }
  destruct Hproc as [h|h req rp Hq Hrp Hn].
  - split; [destruct C; by split | | done | done].
    unfold started. cbn. rewrite Hg. split; [|done]. destruct T as [T1 T2 T3 T4 T5 T6].
    split; cbn; try done. intros x [Hx| ->%list_elem_of_singleton]%elem_of_app; auto.
  - split; [destruct C; by split | | done | done].
    unfold started. cbn. rewrite Hg. split; [|done]. by destruct T; split.
Qed.

Lemma main_loop_ok m0 ord read fuel pm : heap_inv m0 read (todo pm) pm -> run_inv m0 ord pm ->
  feed_ok pm -> (length (todo pm) < fuel)%nat ->
  exists pm', main_loop fuel pm = Ok pm' /\ heap_inv m0 (read ++ todo pm) [] pm' /\
    run_inv m0 ord pm' /\ same_params pm pm' /\ pm_in pm' = [].
Proof.
  revert read pm. induction fuel as [|fuel IH]; intros read pm H R F Hfuel; [lia|].
  cbn [main_loop]. destruct (next_packet_ok m0 ord read pm H R F) as ([[l|] pm1] & -> & R1 & S1 & H1 & Hcase);
    cbn [mbind outcome_bind].
  - destruct Hcase as (Et & F1 & Hof & Hts & Hord). rewrite Et in H1.
    destruct (process_spec m0 read (todo pm1) pm1 l H1) as (pm2 & -> & Hproc & H2). cbn [mbind outcome_bind].
    pose proof (processed_run_inv m0 ord read (todo pm1) pm1 pm2 l H1 R1 Hproc Hof Hts Hord) as R2.
    assert (Hview : todo pm2 = todo pm1 /\ feed_ok pm2 /\ same_params pm1 pm2) by by destruct Hproc.
    destruct Hview as (Et2 & F2 & S2). rewrite <- Et2 in H2.
    destruct (IH (read ++ [l]) pm2 H2 R2 F2) as (pm' & Hrun & H3 & R3 & S3 & I3).
    { rewrite Et2. rewrite Et in Hfuel. cbn in Hfuel. lia. }
    exists pm'. split; [done|]. rewrite <- app_assoc, Et2 in H3. rewrite Et. split; [done|].
    split; [done|]. split; [|done]. eapply same_params_trans; [|done]. by eapply same_params_trans.
  - destruct Hcase as [Et I1]. exists pm1. rewrite Et, app_nil_r in *. done.
Qed.

(** ** The end of the input *)

(** The last move of the time empties the queue. *)
Lemma last_advance m0 ord read pm : heap_inv m0 read [] pm -> run_inv m0 ord pm ->
  exists pm', (if pm_current_time pm =? DNS_NO_TIME then Ok pm
     else t ← i64 (pm_current_time pm + pm_matching_duration pm); t ← i64 (t + 1);
          dns_worker_packet_matcher_advance_time_to pm t) = Ok pm' /\
    heap_inv m0 read [] pm' /\ same_params pm pm' /\ pm_queue pm' = [] /\
    pm_has_out pm' = true /\ pm_in pm' = pm_in pm /\
    (pm_outframe pm' = None /\ pm_out pm' = [] \/
     exists f, time_inv m0 (pm_current_time pm') pm' f /\ pm_current_time pm' <= 2 * TMAX + 1) /\
    (ord -> window_inv m0 pm').
Proof.
  intros H [C S F W]. unfold started in S. destruct (pm_outframe pm) as [g|] eqn:Hg.
  2: { destruct S as (Ho & Hq & Hc & _). exists pm. rewrite Hc. cbn. destruct C.
       split; [done|]. split; [done|]. split; [done|]. split; [done|]. split; [done|]. split; [done|].
       split; [by left|]. intros Hord. by apply W. }
  destruct S as [T Hc]. pose proof (ti_current _ _ _ _ T) as Ht. pose proof (cf_md _ C) as Hmd.
  unfold DNS_NO_TIME. destruct (Z.eqb_spec (pm_current_time pm) INT64_MIN) as [E|_]; [int_lia|].
  unfold TMAX in *. rewrite i64_in by int_lia. cbn [mbind outcome_bind].
  rewrite i64_in by int_lia. cbn [mbind outcome_bind].
  set (t := pm_current_time pm + pm_matching_duration pm + 1).
  destruct (advance_time_to_ok m0 read [] pm g t) as (pm' & Hrun & Hadv & Hcur); auto;
    [unfold TMAX; lia..|].
  replace (Z.max (pm_current_time pm) t) with t in * by lia.
  assert (T' : time_inv m0 t pm g) by (apply (time_inv_mono _ (pm_current_time pm)); [done|lia]).
  destruct (rtc_adv_inv _ _ _ _ _ _ _ Hadv H C T') as (H1 & C1 & Hs & f1 & T1 & _).
  exists pm'. split; [done|]. split; [done|]. split; [by apply same_config_params|].
  split.
  { destruct (pm_queue pm') as [|l q] eqn:Hq; [done|]. exfalso.
    assert (pm_current_time pm' < t); [|lia].
    eapply rtc_adv_drains; [exact Hadv | | lia | by rewrite Hq].
    intros x Hx. pose proof (ti_queue _ _ _ _ T x Hx). unfold packet_leaves. lia. }
  split; [apply C1|]. split; [apply Hs|]. split.
  - right. exists f1. rewrite Hcur. split; [done|]. unfold TMAX. lia.
  - intros Ho. eapply rtc_adv_window; eauto. by apply W.
Qed.

(** In frames without gaps no frame ends after the last one. *)
Lemma contiguous_end fs f g : contiguous (fs ++ [f]) ->
  (forall x, x ∈ fs ++ [f] -> time_start x <= time_end x) -> g ∈ fs ++ [f] -> time_end g <= time_end f.
Proof.
  revert f. induction fs as [|a fs IH] using rev_ind; intros f Hc Hle Hg.
  - apply list_elem_of_singleton in Hg as ->. lia.
  - apply contiguous_snoc in Hc as [Hc Hs]. rewrite last_snoc in Hs. specialize (Hs a eq_refl).
    apply elem_of_app in Hg as [Hg| ->%list_elem_of_singleton]; [|lia].
    assert (time_end g <= time_end a) by (apply (IH a Hc); [intros x Hx; apply Hle; set_solver | done]).
    pose proof (Hle f ltac:(set_solver)). lia.
Qed.

(** ** A complete run *)

(** A new matcher [pm] whose input is well formed: the durations are
    positive, the hash seed is accepted, the input consists of regular frames
    and a final frame, and every packet of it is live, has no response yet
    and occurs once. *)
Record ready (pm : matcher) (r1 r2 : Z) : Prop := {
  rd_config : config_ok pm;
  rd_seed : 256 < u64 (r1 + u64 (Z.shiftl r2 32));
  rd_feed : feed_ok pm;
  rd_nodup : NoDup (todo pm);
  rd_packets : forall l, l ∈ todo pm -> packet_ok (pm_mem pm) l;
  rd_small : Z.of_nat (length (todo pm)) < 2 ^ 53;
}.

(** The frames of a run, without the final one. *)
Definition run_result (pm pm' : matcher) (body : list dns_packet_frame) : Prop :=
  dns_worker_packet_matcher_main pm = Ok pm' /\
  pm_out pm' = body ++ [dns_packet_frame_create_final (pm_current_time pm')].

Lemma create_inv m w d mq ms r1 r2 input pm :
  dns_worker_packet_matcher_create m w d mq ms r1 r2 input true = Ok pm -> ready pm r1 r2 ->
  heap_inv (pm_mem pm) [] (todo pm) pm /\ run_inv (pm_mem pm) (in_order (pm_mem pm) pm) pm.
Proof.
  unfold dns_worker_packet_matcher_create. intros Hcr [C Hseed F Hnd Hok Hsm]. inv_ok. cbn in *.
  split.
  - split; cbn; try done.
    + set_solver.
    + exists ∅. split; [by apply create_hrep|]. intros l. unfold waiting. split; [|set_solver].
      intros (k & ls & Hk & _). by rewrite lookup_empty in Hk.
  - split; [done | done | done |]. intros Ho. split; [done|]. split; cbn; try set_solver. constructor.
Qed.

(** What follows the last move of the time: the output frame, if there is
    one, and a final frame are handed over. *)
Definition finished (pm : matcher) : matcher :=
  with_out (with_outframe pm None)
    ((pm_out pm ++ option_list (pm_outframe pm)) ++ [dns_packet_frame_create_final (pm_current_time pm)]).

Lemma finish_run pm : pm_has_out pm = true ->
  (pm ← match pm_outframe pm with
        | Some ofr => pm ← matcher_enqueue pm ofr; Ok (with_outframe pm None)
        | None => Ok pm
        end;
   matcher_enqueue pm (dns_packet_frame_create_final (pm_current_time pm))) = Ok (finished pm).
Proof.
  intros Ho. unfold matcher_enqueue, finished. destruct (pm_outframe pm) as [f|] eqn:Hf.
  - rewrite Ho. cbn. by rewrite Ho.
  - cbn. rewrite Ho, app_nil_r. destruct pm. cbn in *. by subst.
Qed.

Lemma items_finished pm : items (finished pm) = items pm.
Proof.
  unfold items, out_items. cbn. rewrite !flat_map_app. cbn. rewrite !app_nil_r.
  destruct (pm_outframe pm); cbn; by rewrite ?app_nil_r.
Qed.

Lemma window_finished m0 pm : window_inv m0 pm -> window_inv m0 (finished pm).
Proof.
  intros [W1 W2 W3 W4 W5]. split; try done.
  - cbn. intros g l Hg Hl. rewrite app_nil_r in Hg.
    apply elem_of_app in Hg as [Hg| ->%list_elem_of_singleton]; [eauto|]. cbn in Hl. set_solver.
  - by rewrite items_finished.
Qed.

Lemma main_run m w d mq ms r1 r2 input pm :
  dns_worker_packet_matcher_create m w d mq ms r1 r2 input true = Ok pm -> ready pm r1 r2 ->
  exists pm' body, run_result pm pm' body /\ heap_inv (pm_mem pm) (todo pm) [] pm' /\
    items pm' = flat_map packets body /\ pm_queue pm' = [] /\ pm_in pm' = [] /\
    pm_outframe pm' = None /\ same_params pm pm' /\
    Forall (frame_good (pm_mem pm) (pm_frame_max_duration pm) (pm_frame_max_size pm)) body /\
    contiguous body /\
    (forall f, f ∈ body -> time_end f <= 2 * TMAX + 1) /\
    (in_order (pm_mem pm) pm -> window_inv (pm_mem pm) pm').
Proof.
  intros Hcr Hrd. destruct (create_inv _ _ _ _ _ _ _ _ _ Hcr Hrd) as [H R].
  destruct (main_loop_ok (pm_mem pm) _ [] (S (length (todo pm))) pm H R)
    as (pm1 & Hloop & H1 & R1 & S1 & I1); [apply Hrd | lia |]. cbn [app] in H1.
  destruct (last_advance _ _ _ pm1 H1 R1) as (pm2 & Hlast & H2 & S2 & Hq & Ho & I2 & Hcase & W2).
  pose proof (same_params_trans _ _ _ S1 S2) as S3.
  exists (finished pm2), (pm_out pm2 ++ option_list (pm_outframe pm2)). split.
  { split; [|done]. unfold dns_worker_packet_matcher_main. rewrite Hloop. cbn [mbind outcome_bind].
    rewrite Hlast. by apply finish_run. }
  split; [eapply heap_inv_view; [done..|apply items_finished]|].
  split. { rewrite items_finished. unfold items, out_items. rewrite Hq, flat_map_app, app_nil_r.
           destruct (pm_outframe pm2); cbn; by rewrite ?app_nil_r. }
  split; [done|]. split; [cbn; congruence|]. split; [done|]. split; [done|].
  pose proof S3 as (_ & <- & _ & <-). destruct Hcase as [[-> ->]|(f & T & Hcur)].
  - split; [constructor|]. split; [done|]. split; [set_solver|]. intros Hord. by apply window_finished, W2.
  - rewrite (ti_frame _ _ _ _ T). split; [apply T|]. split; [apply T|]. split.
    { intros g Hg. pose proof (ti_end _ _ _ _ T). transitivity (time_end f); [|lia].
      apply (contiguous_end (pm_out pm2) f g); [apply T | | done]. intros x Hx.
      pose proof (ti_good _ _ _ _ T) as Hgood. rewrite Forall_forall in Hgood. apply (Hgood x Hx). }
    intros Hord. by apply window_finished, W2.
Qed.

(** ** Properties *)

(** C4: the matcher terminates without failing an assertion, overflowing or
    touching a dead packet, reads its whole input, and hands over every
    packet it read exactly once: as an item of an output frame or as the
    response attached to one.  The last frame is the final frame, the others
    are regular, and packets leave in the order they arrived. *)
Theorem matcher_complete (m : mem) (w d : Double.double) (mq : bool) (ms r1 r2 : Z)
    (input : list dns_packet_frame) (pm : matcher) :
  dns_worker_packet_matcher_create m w d mq ms r1 r2 input true = Ok pm -> ready pm r1 r2 ->
  exists pm' body,
    dns_worker_packet_matcher_main pm = Ok pm' /\
    pm_out pm' = body ++ [dns_packet_frame_create_final (pm_current_time pm')] /\
    Forall (fun f => frame_type f = 0) body /\
    pm_in pm' = [] /\ pm_queue pm' = [] /\ pm_outframe pm' = None /\
    flat_map (owned (pm_mem pm')) (flat_map packets body) ≡ₚ todo pm /\
    flat_map packets body `sublist_of` todo pm.
Proof.
  intros Hcr Hrd. destruct (main_run _ _ _ _ _ _ _ _ _ Hcr Hrd)
    as (pm' & body & [Hrun Hout] & H & Hi & Hq & Hin & Hf & _ & Hg & _).
  exists pm', body. rewrite <- Hi. split; [done|]. split; [done|].
  split; [eapply Forall_impl; [exact Hg|]; by intros f []|].
  do 3 (split; [done|]). split; apply H.
Qed.

(** C5: in the output a packet carries a response only if it is a request and
    the response a packet that answers it: same primary key in the opposite
    direction, itself without response, and with a matching name when names
    are compared.  Apart from that the packets are as they came. *)
Theorem matcher_sound (m : mem) (w d : Double.double) (mq : bool) (ms r1 r2 : Z)
    (input : list dns_packet_frame) (pm : matcher) :
  dns_worker_packet_matcher_create m w d mq ms r1 r2 input true = Ok pm -> ready pm r1 r2 ->
  exists pm', dns_worker_packet_matcher_main pm = Ok pm' /\
    (forall l, bare (pm_mem pm') l = bare (pm_mem pm) l) /\
    forall l p r, l ∈ flat_map packets (pm_out pm') -> pm_mem pm' !! l = Some p ->
      response p = Some r -> r ∈ todo pm /\ paired mq (pm_mem pm') p r.
Proof.
  intros Hcr Hrd. destruct (main_run _ _ _ _ _ _ _ _ _ Hcr Hrd)
    as (pm' & body & [Hrun Hout] & H & Hi & _ & _ & _ & (_ & _ & Hmq & _) & _).
  exists pm'. split; [done|]. split; [apply H|]. intros l p r Hl Hp Hr.
  rewrite Hout, flat_map_app in Hl. cbn in Hl. rewrite app_nil_r, <- Hi in Hl. split.
  - rewrite <- (hi_owned _ _ _ _ H). apply elem_of_flat_map. exists l. split; [done|].
    unfold owned. rewrite Hp, Hr. set_solver.
  - pose proof (hi_paired _ _ _ _ H l p r Hl Hp Hr) as Hpair.
    unfold dns_worker_packet_matcher_create in Hcr. inv_ok. by rewrite Hmq in Hpair.
Qed.

(** C6: the regular output frames follow each other without gap or overlap,
    none is longer than the maximal frame duration, no packet is later than
    the end of its frame, count and size are those of the packets, and a
    frame above the size limit holds a single packet. *)
Theorem matcher_frames (m : mem) (w d : Double.double) (mq : bool) (ms r1 r2 : Z)
    (input : list dns_packet_frame) (pm : matcher) :
  dns_worker_packet_matcher_create m w d mq ms r1 r2 input true = Ok pm -> ready pm r1 r2 ->
  exists pm' body,
    dns_worker_packet_matcher_main pm = Ok pm' /\
    pm_out pm' = body ++ [dns_packet_frame_create_final (pm_current_time pm')] /\
    contiguous body /\
    Forall (frame_good (pm_mem pm) (pm_frame_max_duration pm) ms) body.
Proof.
  intros Hcr Hrd. destruct (main_run _ _ _ _ _ _ _ _ _ Hcr Hrd)
    as (pm' & body & [Hrun Hout] & _ & _ & _ & _ & _ & _ & Hg & Hc & _).
  exists pm', body. split; [done|]. split; [done|]. split; [done|].
  unfold dns_worker_packet_matcher_create in Hcr. inv_ok. done.
Qed.

(** When the input comes in time order, a response is attached only when
    it follows its request by at most the matching window, and every packet
    lies in the interval of its output frame. *)
Theorem matcher_window (m : mem) (w d : Double.double) (mq : bool) (ms r1 r2 : Z)
    (input : list dns_packet_frame) (pm : matcher) :
  dns_worker_packet_matcher_create m w d mq ms r1 r2 input true = Ok pm -> ready pm r1 r2 ->
  in_order (pm_mem pm) pm ->
  exists pm', dns_worker_packet_matcher_main pm = Ok pm' /\
    (forall l p r, l ∈ flat_map packets (pm_out pm') -> pm_mem pm' !! l = Some p ->
       response p = Some r ->
       0 <= ts_at (pm_mem pm) r - ts_at (pm_mem pm) l <= pm_matching_duration pm) /\
    (forall f l, f ∈ pm_out pm' -> l ∈ packets f ->
       time_start f <= ts_at (pm_mem pm) l <= time_end f).
Proof.
  intros Hcr Hrd Hord. destruct (main_run _ _ _ _ _ _ _ _ _ Hcr Hrd)
    as (pm' & body & [Hrun Hout] & _ & Hi & _ & _ & Hf & (Hmd & _) & Hg & _ & _ & HW).
  specialize (HW Hord). exists pm'. split; [done|]. split.
  - intros l p r Hl. rewrite Hout, flat_map_app in Hl. cbn in Hl. rewrite app_nil_r, <- Hi in Hl.
    rewrite <- Hmd. by apply (wi_delay _ _ HW).
  - intros f l Hin Hl. split.
    + apply (wi_frames _ _ HW f); [rewrite Hf, app_nil_r; done | done].
    + rewrite Hout in Hin. apply elem_of_app in Hin as [Hin| ->%list_elem_of_singleton]; [|cbn in Hl; set_solver].
      rewrite Forall_forall in Hg. by apply (Hg f Hin).
Qed.

End main.

(** ** Closed examples *)

Section examples.
#[local] Existing Instance Sample.sample_knot.

(** A query, its answer 0.9 ms later, and the same query again. *)
Definition run_mem : gmap loc dns_packet :=
  {[ 1%positive := packet_of sample_query; 2%positive := packet_of sample_answer;
     3%positive := packet_of (Sample.udp_capture (Sample.sockaddr4 1 5000) (Sample.sockaddr4 2 53)
                                100 2000 (Sample.message 77 1)) ]}.

Definition run_input : list dns_packet_frame :=
  [ dns_packet_frame_create DNS_NO_TIME DNS_NO_TIME;
    {| time_start := 100000000; time_end := 100003000; frame_type := 0;
       packets := [1; 2; 3]%positive; frame_count := 3; frame_size := 0 |};
    dns_packet_frame_create_final 100003000 ].

(** A five second window, frames of at most one second. *)
Definition run_start : matcher :=
  {| pm_mem := run_mem;
     pm_hash := dns_packet_hash_create 300 1 WORKER_PACKET_MATCHER_MIN_HASH_SIZE 0;
     pm_queue := []; pm_matching_duration := 5000000; pm_frame_max_duration := 1000000;
     pm_match_qname := true; pm_frame_max_size := 1000000;
     pm_inframe := None; pm_outframe := None; pm_current_time := DNS_NO_TIME;
     pm_in := run_input; pm_has_out := true; pm_out := [] |}.

Lemma run_create :
  dns_worker_packet_matcher_create run_mem (Double.of_Z 5) (Double.of_Z 1) true 1000000 300 1
    run_input true = Ok run_start.
Proof. vm_compute. reflexivity. Qed.

Lemma run_packets (l : loc) : l ∈ todo run_start -> packet_ok (pm_mem run_start) l.
Proof.
  intros H. change (l ∈ [1; 2; 3]%positive) in H.
  repeat (apply elem_of_cons in H as [->|H]; [eexists; split; [reflexivity|]; vm_compute; repeat split; discriminate|]).
  set_solver.
Qed.

Lemma run_ready : ready run_start 300 1.
Proof.
  split.
  - by split; vm_compute.
  - vm_compute. reflexivity.
  - exists (take 2 run_input), (dns_packet_frame_create_final 100003000).
    split; [reflexivity|]. split; [|by split].
    apply Forall_cons; split; [|apply Forall_cons; split; [|by apply Forall_nil]];
      (split; [vm_compute; discriminate|]).
    + left. by split.
    + right. vm_compute. repeat split; discriminate.
  - by apply (bool_decide_eq_true_1 (NoDup (todo run_start))).
  - apply run_packets.
  - reflexivity.
Qed.

Lemma run_in_order : in_order (pm_mem run_start) run_start.
Proof.
  unfold in_order.
  assert (E : upcoming (pm_mem run_start) run_start =
              [100000000; 100000005; 100000905; 100002000; 100003000]) by (vm_compute; reflexivity).
  rewrite E. cbn. repeat constructor; vm_compute; discriminate.
Qed.

Lemma matcher_complete_witness : exists pm' body,
  dns_worker_packet_matcher_main run_start = Ok pm' /\
  flat_map (owned (pm_mem pm')) (flat_map packets body) ≡ₚ [1; 2; 3]%positive.
Proof.
  destruct (matcher_complete run_mem (Double.of_Z 5) (Double.of_Z 1) true 1000000 300 1
              run_input run_start run_create run_ready)
    as (pm' & body & Hrun & _ & _ & _ & _ & _ & Hown & _).
  exists pm', body. split; [exact Hrun | exact Hown].
Defined.

Lemma matcher_sound_witness : exists pm',
  dns_worker_packet_matcher_main run_start = Ok pm' /\
  forall l p r, l ∈ flat_map packets (pm_out pm') -> pm_mem pm' !! l = Some p ->
    response p = Some r -> r ∈ todo run_start /\ paired true (pm_mem pm') p r.
Proof.
  destruct (matcher_sound run_mem (Double.of_Z 5) (Double.of_Z 1) true 1000000 300 1
              run_input run_start run_create run_ready) as (pm' & Hrun & _ & Hp).
  exists pm'. split; [exact Hrun | exact Hp].
Defined.

Lemma matcher_frames_witness : exists pm' body,
  dns_worker_packet_matcher_main run_start = Ok pm' /\
  pm_out pm' = body ++ [dns_packet_frame_create_final (pm_current_time pm')] /\ contiguous body.
Proof.
  destruct (matcher_frames run_mem (Double.of_Z 5) (Double.of_Z 1) true 1000000 300 1
              run_input run_start run_create run_ready) as (pm' & body & Hrun & Hout & Hc & _).
  exists pm', body. split; [exact Hrun | split; [exact Hout | exact Hc]].
Defined.

Lemma matcher_window_witness : exists pm',
  dns_worker_packet_matcher_main run_start = Ok pm' /\
  forall f l, f ∈ pm_out pm' -> l ∈ packets f ->
    time_start f <= ts_at run_mem l <= time_end f.
Proof.
  destruct (matcher_window run_mem (Double.of_Z 5) (Double.of_Z 1) true 1000000 300 1
              run_input run_start run_create run_ready run_in_order) as (pm' & Hrun & _ & Hf).
  exists pm'. split; [exact Hrun | exact Hf].
Defined.

(** The run itself: the answer is attached to the first query, the second
    query leaves alone, and both leave in frames of one second. *)
Example run_output :
  match dns_worker_packet_matcher_main run_start with
  | Ok pm => flat_map packets (pm_out pm) = [1; 3]%positive /\
             (response <$> pm_mem pm !! 1%positive) = Some (Some 2%positive) /\
             (response <$> pm_mem pm !! 3%positive) = Some None
  | Fail _ => False
  end.
Proof. vm_compute. auto. Qed.

End examples.
