(* ===== verification/Config.v ===== *)
(** * Configuration ([src/config.h], [src/config.c])

    The configuration structure, its default values and the check libucw's
    configuration reader ([ConfLoad]) runs when a load is complete. *)

From stdpp Require Import base numbers strings gmap list.
From S2P Require Import Prelude Doubles Common.

(** [struct dns_config]; a C string is the list of its bytes. *)
Record dns_config : Set := {
  max_frame_duration_sec : Double.double;
  max_frame_size : Z;
  max_queue_len : Z;
  report_period_sec : Z;
  input_uri : list Z;
  input_filter : list Z;
  input_snaplen : Z;
  input_promiscuous : Z;
  input_real_time_grace_sec : Double.double;
  dump_path_fmt : list Z;
  dump_period_sec : Z;
  dump_compress_level : Z;
  dump_compress_type : Z;
  dump_rate_limit : Double.double;
  match_window_sec : Double.double;
  match_qname : Z;
  output_type : Z;
  output_path_fmt : list Z;
  output_pipe_cmd : list Z;
  output_period_sec : Z;
  csv_separator : list Z;
  csv_inline_header : Z;
  csv_external_header_path_fmt : list Z;
  csv_fields : Z;
  cbor_fields : Z;
}.

Definition DNS_OUTPUT_TYPE_CSV : Z := 0.
Definition DNS_OUTPUT_TYPE_CBOR : Z := 1.

(** Decimal constants of the source: the nearest doubles, as quotients of
    exact integers. *)
Definition ratio (a b : Z) : Double.double := Double.div (Double.of_Z a) (Double.of_Z b).

Definition ALL_FIELDS : Z := Z.shiftl 1 dns_of_LAST - 1.

Definition dns_collector_conf_init : dns_config :=
  {| max_frame_duration_sec := ratio 1 2;
     max_frame_size := Z.shiftl 1 18;
     max_queue_len := 8;
     report_period_sec := 60;
     input_uri := [];
     input_filter := [];
     input_snaplen := -1;
     input_promiscuous := 1;
     input_real_time_grace_sec := ratio 1 10;
     dump_path_fmt := [];
     dump_period_sec := 0;
     dump_compress_level := 4;
     dump_compress_type := 0;
     dump_rate_limit := Double.of_Z 0;
     match_window_sec := Double.of_Z 5;
     match_qname := 0;
     output_type := DNS_OUTPUT_TYPE_CSV;
     output_path_fmt := [];
     output_pipe_cmd := [];
     output_period_sec := 0;
     csv_separator := [44];
     csv_inline_header := 1;
     csv_external_header_path_fmt := [];
     csv_fields := ALL_FIELDS;
     cbor_fields := ALL_FIELDS |}.

(** [isalnum] in the C locale, on a [char]; for a negative [char], where the
    standard leaves it undefined, it is false as in the GNU library. *)
Definition isalnum (c : Z) : bool :=
  ((48 <=? c) && (c <=? 57)) || ((65 <=? c) && (c <=? 90)) || ((97 <=? c) && (c <=? 122)).

(** A byte read as a [char] (signed on x86-64). *)
Definition to_char (b : Z) : Z := if b <? 128 then b else b - 256.

(** [strchr(s, c)] for a character that is not NUL. *)
Definition strchr (s : list Z) (c : Z) : bool := existsb (Z.eqb c) s.

(** The characters of the string literal [.-#_\\\n/]. *)
Definition forbidden_separators : list Z := [46; 45; 35; 95; 92; 10; 47].

(** The error messages of the check, in the order of the code. *)
Inductive conf_error : Set :=
| ConfFrameDurationTooSmall
| ConfQueueLenTooSmall
| ConfSeparatorNotOneCharacter
| ConfSeparatorForbidden
| ConfNoCsvFields
| ConfNoCborFields
| ConfOutputTypeUnsupported
| ConfCompressLevel.

(** [dns_collector_conf_commit]: the error, or [None] where the code returns
    NULL. *)
Definition dns_collector_conf_commit (conf : dns_config) : option conf_error :=
  if Double.ltb (max_frame_duration_sec conf) (ratio 1 1000)
  then Some ConfFrameDurationTooSmall
  else if max_queue_len conf <? 1 then Some ConfQueueLenTooSmall
  else
    let check :=
      if output_type conf =? DNS_OUTPUT_TYPE_CSV then
        match csv_separator conf with
        | [b] =>
            let c := to_char b in
            if isalnum c || strchr forbidden_separators c || (c >? 127)
            then Some ConfSeparatorForbidden
            else if csv_fields conf =? 0 then Some ConfNoCsvFields
            else None
        | _ => Some ConfSeparatorNotOneCharacter
        end
      else if output_type conf =? DNS_OUTPUT_TYPE_CBOR then
        if cbor_fields conf =? 0 then Some ConfNoCborFields else None
      else Some ConfOutputTypeUnsupported in
    match check with
    | Some e => Some e
    | None =>
        if (dump_compress_level conf <? 0) || (dump_compress_level conf >? 9)
        then Some ConfCompressLevel
        else None
    end.

(** [dns_dump_compress_types] and [dns_dump_compress_types_num] ([NONE] and
    [ZLIB] to [LZMA] of libtrace's enumeration). *)
Inductive compresstype : Set :=
| COMPRESSTYPE_NONE | COMPRESSTYPE_ZLIB | COMPRESSTYPE_BZ2 | COMPRESSTYPE_LZO | COMPRESSTYPE_LZMA.

#[global] Instance compresstype_eq_dec : EqDecision compresstype.
Proof. solve_decision. Defined.

Definition dns_dump_compress_types : list string := ["none"; "gzip"; "bz2"; "lzo"; "xz"]%string.

Definition dns_dump_compress_types_num : list compresstype :=
  [COMPRESSTYPE_NONE; COMPRESSTYPE_ZLIB; COMPRESSTYPE_BZ2; COMPRESSTYPE_LZO; COMPRESSTYPE_LZMA].

Definition dns_output_types : list string := ["csv"; "cbor"]%string.

(** ** Properties *)

Lemma to_char_range b : 0 <= b < 256 -> -128 <= to_char b <= 127.
Proof. intros H. unfold to_char. destruct (Z.ltb_spec b 128); lia. Qed.

Lemma strchr_spec s c : strchr s c = true <-> c ∈ s.
Proof.
  unfold strchr. rewrite existsb_exists. setoid_rewrite list_elem_of_In. split.
  - intros (x & Hx & ->%Z.eqb_eq). done.
  - intros H. exists c. by rewrite Z.eqb_refl.
Qed.

Lemma strchr_false s c : strchr s c = false <-> c ∉ s.
Proof. rewrite <- strchr_spec. by destruct (strchr s c). Qed.

(** The separator test, on a byte. *)
Lemma separator_ok b : 0 < b < 256 ->
  isalnum (to_char b) || strchr forbidden_separators (to_char b) || (to_char b >? 127) = false <->
  isalnum b = false /\ b ∉ forbidden_separators.
Proof.
  intros Hb. rewrite !orb_false_iff, strchr_false.
  assert (Hbig : forall x, x < 0 \/ 127 < x -> x ∉ forbidden_separators).
  { intros x Hx. unfold forbidden_separators. rewrite !not_elem_of_cons.
    repeat split; try lia. apply not_elem_of_nil. }
  unfold to_char. destruct (Z.ltb_spec b 128).
  - split; [tauto|]. intros []. split; [done | lia].
  - split; intros _; [|split; [split|lia]]; try split; try (apply Hbig; lia); unfold isalnum; lia.
Qed.

(** A configuration that is accepted has a queue of at least one frame,
    a known output type with at least one field, a legal compression level,
    and for CSV a one-byte separator that is no letter or digit, none of the
    forbidden characters, and in particular neither newline nor backslash,
    on which escaping relies.  Bytes above 127 are accepted: the comparison
    with 0x7f is on a signed character. *)
Theorem conf_commit_accepts (conf : dns_config) :
  Forall (fun b => 0 < b < 256) (csv_separator conf) ->
  dns_collector_conf_commit conf = None <->
  Double.ltb (max_frame_duration_sec conf) (ratio 1 1000) = false /\
  1 <= max_queue_len conf /\ 0 <= dump_compress_level conf <= 9 /\
  (output_type conf = DNS_OUTPUT_TYPE_CSV /\ csv_fields conf <> 0 /\
     (exists b, csv_separator conf = [b] /\ isalnum b = false /\ b ∉ forbidden_separators) \/
   output_type conf = DNS_OUTPUT_TYPE_CBOR /\ cbor_fields conf <> 0).
Proof.
  intros Hb. unfold dns_collector_conf_commit, DNS_OUTPUT_TYPE_CSV, DNS_OUTPUT_TYPE_CBOR.
  destruct (Double.ltb _ _); [split; [done | by intros []]|].
  destruct (Z.ltb_spec (max_queue_len conf) 1); [split; [done | lia]|].
  assert (Hlev : (dump_compress_level conf <? 0) || (dump_compress_level conf >? 9) = false <->
                 0 <= dump_compress_level conf <= 9) by lia.
  destruct ((dump_compress_level conf <? 0) || (dump_compress_level conf >? 9)).
  { split; [repeat case_match; done|]. intros (_ & _ & Hl & _). by apply Hlev in Hl. }
  assert (0 <= dump_compress_level conf <= 9) by (by apply Hlev). clear Hlev.
  destruct (Z.eqb_spec (output_type conf) 0) as [Ho|Ho].
  - destruct (csv_separator conf) as [|b [|b2 s]];
      [split; [done | by intros (_ & _ & _ & [(_ & _ & ? & ? & _)|[? _]]); [|lia]] |
      | split; [done | by intros (_ & _ & _ & [(_ & _ & ? & ? & _)|[? _]]); [|lia]] ].
    apply Forall_cons in Hb as [Hb _].
    pose proof (separator_ok b Hb) as Hsep.
    destruct (isalnum (to_char b) || _ || _).
    { split; [done|]. intros (_ & _ & _ & [(_ & _ & b' & [= <-] & Hs)|[? _]]); [|lia].
      apply Hsep in Hs. done. }
    destruct (Z.eqb_spec (csv_fields conf) 0); [split; [done | by intros (_ & _ & _ & [(_ & ? & _)|[? _]]); lia]|].
    split; [|done]. intros _. split; [done|]. split; [done|]. split; [done|]. left.
    split; [done|]. split; [done|]. exists b. split; [done|]. by apply Hsep.
  - destruct (Z.eqb_spec (output_type conf) 1); [|split; [done | by intros (_ & _ & _ & [[? _]|[? _]])]].
    destruct (Z.eqb_spec (cbor_fields conf) 0); [split; [done | by intros (_ & _ & _ & [[? _]|[_ ?]])]|].
    split; [|done]. intros _. do 3 (split; [done|]). by right.
Qed.

(** The default configuration is accepted, and its durations are the
    documented ones. *)
Lemma conf_commit_accepts_witness :
  dns_collector_conf_commit dns_collector_conf_init = None.
Proof.
  apply (conf_commit_accepts dns_collector_conf_init).
  - cbn. apply Forall_cons. split; [lia | apply Forall_nil; exact I].
  - split; [vm_compute; reflexivity|]. cbn. split; [lia|]. split; [lia|]. left.
    split; [reflexivity|]. split; [discriminate|]. exists 44. split; [reflexivity|].
    split; [reflexivity|]. apply (bool_decide_eq_false_1 (44 ∈ forbidden_separators)). reflexivity.
Defined.

(** The default configuration passes the check with a five second
    matching window and frames of half a second. *)
Theorem conf_default :
  dns_collector_conf_commit dns_collector_conf_init = None /\
  dns_fsec_to_us_time (match_window_sec dns_collector_conf_init) = Ok 5000000 /\
  dns_fsec_to_us_time (max_frame_duration_sec dns_collector_conf_init) = Ok 500000 /\
  dns_fsec_to_us_time (input_real_time_grace_sec dns_collector_conf_init) = Ok 100000.
Proof. vm_compute. auto. Qed.
