(* ===== verification/TimeFmt.v ===== *)
(** * Functions of [src/common.c] over the C library

    Path expansion by [strftime] and the text of a socket address.  The two
    library functions behind them are the class [Libc]. *)

From stdpp Require Import base numbers strings gmap list.
From S2P Require Import Prelude Doubles Common Libs Packet.

(** ** Decimal numbers *)

(** The decimal digits of a number below [10 ^ fuel]. *)
Fixpoint print_digits (fuel : nat) (z : Z) : list Z :=
  match fuel with
  | O => []
  | S fuel => if z <? 10 then [48 + z] else print_digits fuel (z / 10) ++ [48 + z mod 10]
  end.

(** [%d], [%zd] and [%PRId64]: 20 digits are enough for 64 bits. *)
Definition print_int (z : Z) : list Z :=
  if z <? 0 then 45 :: print_digits 20 (- z) else print_digits 20 z.

(** [%06PRId64]: at least six characters, filled with zeros. *)
Definition print_int06 (z : Z) : list Z :=
  if z <? 0 then let d := print_digits 20 (- z) in 45 :: replicate (5 - length d) 48 ++ d
  else let d := print_digits 20 z in replicate (6 - length d) 48 ++ d.

(** [strftime_gm fmt t] is the full expansion of [fmt] for the UTC calendar
    time of [t] seconds ([None] when [gmtime_r] fails); [inet_ntop af a] the
    text of the address at [a]. *)
Class Libc : Type := {
  strftime_gm : list Z -> Z -> option (list Z);
  inet_ntop : Z -> list Z -> option (list Z);
}.

Section timefmt.
Context `{L : Libc}.

(** [dns_us_time_strftime]: the text, when it fits into [max] bytes with its
    NUL; the code gets 0 otherwise, and for an empty expansion. *)
Definition dns_us_time_strftime (max : Z) (format : list Z) (time : Z) : outcome (option (list Z)) :=
  _ ← c_assert (negb (time =? DNS_NO_TIME));
  match strftime_gm format (Z.quot time 1000000) with
  | None => Fail AssertFailed
  | Some s => if (Z.of_nat (length s) =? 0) || (max <=? Z.of_nat (length s)) then Ok None else Ok (Some s)
  end.

(** [dns_sockaddr_to_str]: what is written, and whether the result is not
    NULL.  [maxlen] is large enough for every address. *)
Definition dns_sockaddr_to_str (sa : list Z) : option (list Z) * bool :=
  if DNS_SOCKADDR_AF sa =? AF_INET then (inet_ntop AF_INET (drop 4 sa), true)
  else if DNS_SOCKADDR_AF sa =? AF_INET6 then (inet_ntop AF_INET6 (drop 8 sa), true)
  else (Some (bytes_of_string "unknown_AF"), false).

Lemma strftime_fits max fmt time s : dns_us_time_strftime max fmt time = Ok (Some s) ->
  0 < Z.of_nat (length s) < max.
Proof.
  unfold dns_us_time_strftime. intros H. inv_ok. destruct (strftime_gm _ _) as [x|]; [|done].
  destruct ((_ =? _) || _) eqn:E; [done|]. injection H as ->. lia.
Qed.

End timefmt.

(** A C library for evaluation: the format itself is the expansion, and IPv4
    addresses have their dotted text. *)
Definition digits (z : Z) : list Z :=
  if z <? 10 then [48 + z] else if z <? 100 then [48 + z / 10; 48 + z mod 10]
  else [48 + z / 100; 48 + (z / 10) mod 10; 48 + z mod 10].

Definition sample_libc : Libc :=
  {| strftime_gm := fun fmt _ => Some fmt;
     inet_ntop := fun af a =>
       if af =? AF_INET then
         match a with
         | w :: x :: y :: z :: _ => Some (digits w ++ [46] ++ digits x ++ [46] ++ digits y ++ [46] ++ digits z)
         | _ => None
         end
       else Some [58; 58] |}.
