(* ===== verification/Log.v ===== *)
(** * Logging

    libucw/ucw/log.h, log.c, tbf.c and the limiter of log-conf.c: how a message
    is formatted and passed through the streams.  The handlers at the end of
    the streams are an interface, [LogHandlers]; [LogFile] implements it. *)

From stdpp Require Import base numbers list gmap strings.
From S2P Require Import Prelude Doubles TimeFmt.

(** ** Flags of messages *)

Definition LS_LEVEL_BITS : Z := 8.
Definition LS_STRNUM_BITS : Z := 16.
Definition LS_TYPE_BITS : Z := 5.
Definition LS_CTRL_BITS : Z := 3.

Definition LS_LEVEL_POS : Z := 0.
Definition LS_STRNUM_POS : Z := LS_LEVEL_POS + LS_LEVEL_BITS.
Definition LS_TYPE_POS : Z := LS_STRNUM_POS + LS_STRNUM_BITS.
Definition LS_CTRL_POS : Z := LS_TYPE_POS + LS_TYPE_BITS.

Definition LS_LEVEL_MASK : Z := Z.shiftl (Z.shiftl 1 LS_LEVEL_BITS - 1) LS_LEVEL_POS.
Definition LS_STRNUM_MASK : Z := Z.shiftl (Z.shiftl 1 LS_STRNUM_BITS - 1) LS_STRNUM_POS.
Definition LS_TYPE_MASK : Z := Z.shiftl (Z.shiftl 1 LS_TYPE_BITS - 1) LS_TYPE_POS.
Definition LS_CTRL_MASK : Z := Z.shiftl (Z.shiftl 1 LS_CTRL_BITS - 1) LS_CTRL_POS.

Definition LS_GET_LEVEL (flags : Z) : Z := Z.shiftr (Z.land flags LS_LEVEL_MASK) LS_LEVEL_POS.
Definition LS_GET_STRNUM (flags : Z) : Z := Z.shiftr (Z.land flags LS_STRNUM_MASK) LS_STRNUM_POS.
Definition LS_GET_TYPE (flags : Z) : Z := Z.shiftr (Z.land flags LS_TYPE_MASK) LS_TYPE_POS.
Definition LS_SET_STRNUM (strnum : Z) : Z := Z.shiftl strnum LS_STRNUM_POS.
Definition LS_SET_TYPE (type : Z) : Z := Z.shiftl type LS_TYPE_POS.
Definition LS_NUM_TYPES : Z := Z.shiftl 1 LS_TYPE_BITS.

Definition L_DEBUG : Z := 0.
Definition L_INFO : Z := 1.
Definition L_WARN : Z := 2.
Definition L_ERROR : Z := 3.
Definition L_FATAL : Z := 7.
Definition L_SIGHANDLER : Z := 0x80000000.
Definition L_LOGGER_ERR : Z := 0x40000000.

Definition LSFMT_LEVEL : Z := 1.
Definition LSFMT_TIME : Z := 2.
Definition LSFMT_USEC : Z := 4.
Definition LSFMT_TITLE : Z := 8.
Definition LSFMT_PID : Z := 16.
Definition LSFMT_LOGNAME : Z := 32.
Definition LSFMT_TYPE : Z := 64.
Definition LSFMT_DEFAULT : Z := Z.lor LSFMT_LEVEL (Z.lor LSFMT_TIME (Z.lor LSFMT_TITLE LSFMT_PID)).

Definition LSFLAG_ERR_IS_FATAL : Z := 1.
Definition LSFLAG_ERR_REPORTED : Z := 2.

Definition EDEADLK : Z := 35.

(** [flags & mask] as a condition. *)
Definition has_flag (flags mask : Z) : bool := negb (Z.land flags mask =? 0).

(** [LS_LEVEL_LETTER]: an index into a literal of eleven letters. *)
Definition LS_LEVEL_LETTER (level : Z) : outcome Z :=
  deref ((bytes_of_string "DIWEiwe!###" ++ [0]) !! Z.to_nat level).

(** ** Token buckets (tbf.h, tbf.c) *)

Record token_bucket_filter : Set := {
  tbf_rate : Double.double;
  tbf_burst : Z;
  tbf_last_hit : Z;
  tbf_bucket : Double.double;
  tbf_drop_count : Z;
}.

(** Conversion of an unsigned to a signed [int]. *)
Definition s32 (z : Z) : Z := if u32 z <? 2 ^ 31 then u32 z else u32 z - 2 ^ 32.

(** Conversion of a double to [uint]. *)
Definition to_u32 (d : Double.double) : outcome Z :=
  z ← Double.to_i64 d; if (0 <=? z) && (z <? 2 ^ 32) then Ok z else Fail UndefinedBehaviour.

(** [tbf_init]; a filter starts without drops because its memory is zeroed. *)
Definition tbf_init (f : token_bucket_filter) : outcome token_bucket_filter :=
  burst ← (if tbf_burst f =? 0 then
             let d := Double.mul (Double.of_Z 2) (tbf_rate f) in
             to_u32 (if Double.ltb (Double.of_Z 1) d then d else Double.of_Z 1)
           else Ok (tbf_burst f));
  Ok {| tbf_rate := tbf_rate f; tbf_burst := burst; tbf_last_hit := 0; tbf_bucket := Double.of_Z burst;
        tbf_drop_count := tbf_drop_count f |}.

Definition tbf_limit (f : token_bucket_filter) (now : Z) : outcome (Z * token_bucket_filter) :=
  delta_t ← i64 (now - tbf_last_hit f);
  let b := Double.add (tbf_bucket f)
             (Double.div (Double.mul (tbf_rate f) (Double.of_Z delta_t)) (Double.of_Z 1000)) in
  let b := Double.min b (Double.of_Z (tbf_burst f)) in
  if Double.leb (Double.of_Z 1) b then
    Ok (s32 (tbf_drop_count f),
        {| tbf_rate := tbf_rate f; tbf_burst := tbf_burst f; tbf_last_hit := now;
           tbf_bucket := Double.sub b (Double.of_Z 1); tbf_drop_count := 0 |})
  else
    let n := u32 (tbf_drop_count f + 1) in
    Ok (s32 (- n),
        {| tbf_rate := tbf_rate f; tbf_burst := tbf_burst f; tbf_last_hit := now;
           tbf_bucket := b; tbf_drop_count := n |}).

(** ** Messages and streams *)

(** [struct log_msg] without the formatted text; [m_tv] is [tv], [m_tm]
    whether there is a calendar time. *)
Record log_msg : Set := {
  m_flags : Z;
  m_raw_msg : list Z;
  m_stime : list Z;
  m_sutime : list Z;
  m_tv : option (Z * Z);
  m_tm : bool;
  m_depth : Z;
  m_error : bool;
}.

Definition set_depth (m : log_msg) (d : Z) : log_msg :=
  {| m_flags := m_flags m; m_raw_msg := m_raw_msg m; m_stime := m_stime m; m_sutime := m_sutime m; m_tv := m_tv m;
     m_tm := m_tm m; m_depth := d; m_error := m_error m |}.
Definition set_error (m : log_msg) : log_msg :=
  {| m_flags := m_flags m; m_raw_msg := m_raw_msg m; m_stime := m_stime m; m_sutime := m_sutime m; m_tv := m_tv m;
     m_tm := m_tm m; m_depth := m_depth m; m_error := true |}.

(** The same message with other flags and another text. *)
Definition replace_text (m : log_msg) (flags : Z) (raw : list Z) : log_msg :=
  {| m_flags := flags; m_raw_msg := raw; m_stime := m_stime m; m_sutime := m_sutime m; m_tv := m_tv m;
     m_tm := m_tm m; m_depth := m_depth m; m_error := m_error m |}.

(** A handler with its private data.  [log_handle] gets the name of its stream,
    a message and its formatted text: an error number, the data and the name
    afterwards; [log_close_hook] is [close], which does nothing where it is
    NULL. *)
Class LogHandlers (H W : Type) : Type := {
  log_handle : H -> option (list Z) -> log_msg -> list Z -> W -> outcome (Z * H * option (list Z) * W);
  log_close_hook : H -> W -> outcome W;
}.

(** [struct log_stream]; the only filter of the library is [log_limiter],
    whose array of buckets is [user_data]. *)
Record log_stream (H : Type) : Type := {
  ls_name : option (list Z);
  ls_regnum : Z;
  ls_levels : Z;
  ls_types : Z;
  ls_msgfmt : Z;
  ls_use_count : Z;
  ls_stream_flags : Z;
  ls_limits : option (list (option Z));
  ls_substreams : list Z;
  ls_handler : option H;
}.
Arguments ls_name {H}. Arguments ls_regnum {H}. Arguments ls_levels {H}. Arguments ls_types {H}.
Arguments ls_msgfmt {H}. Arguments ls_use_count {H}. Arguments ls_stream_flags {H}. Arguments ls_limits {H}.
Arguments ls_substreams {H}. Arguments ls_handler {H}.

(** The variables of the logging modules: the streams and buckets in memory,
    the registry ([log_streams.ptr] up to [log_streams_after],
    [log_streams_free], [log_initialized]), the names of types, the title, the
    PID and the outside world. *)
Record log_state (H W : Type) : Type := {
  lg_streams : gmap Z (log_stream H);
  lg_tbfs : gmap Z token_bucket_filter;
  lg_ptr : list Z;
  lg_free : Z;
  lg_initialized : bool;
  lg_type_names : option (list (list Z));
  lg_title : option (list Z);
  lg_pid : Z;
  lg_world : W;
}.
Arguments lg_streams {H W}. Arguments lg_tbfs {H W}. Arguments lg_ptr {H W}. Arguments lg_free {H W}.
Arguments lg_initialized {H W}. Arguments lg_type_names {H W}. Arguments lg_title {H W}. Arguments lg_pid {H W}.
Arguments lg_world {H W}.

(** [&log_stream_default]. *)
Definition log_stream_default : Z := 0.

Section updates.
Context {H W : Type}.
Implicit Types (st : log_state H W) (s : log_stream H).

Definition set_streams st (x : gmap Z (log_stream H)) : log_state H W :=
  {| lg_streams := x; lg_tbfs := lg_tbfs st; lg_ptr := lg_ptr st; lg_free := lg_free st;
     lg_initialized := lg_initialized st; lg_type_names := lg_type_names st; lg_title := lg_title st;
     lg_pid := lg_pid st; lg_world := lg_world st |}.
Definition set_tbfs st (x : gmap Z token_bucket_filter) : log_state H W :=
  {| lg_streams := lg_streams st; lg_tbfs := x; lg_ptr := lg_ptr st; lg_free := lg_free st;
     lg_initialized := lg_initialized st; lg_type_names := lg_type_names st; lg_title := lg_title st;
     lg_pid := lg_pid st; lg_world := lg_world st |}.
Definition set_world st (x : W) : log_state H W :=
  {| lg_streams := lg_streams st; lg_tbfs := lg_tbfs st; lg_ptr := lg_ptr st; lg_free := lg_free st;
     lg_initialized := lg_initialized st; lg_type_names := lg_type_names st; lg_title := lg_title st;
     lg_pid := lg_pid st; lg_world := x |}.

(** The pointer [l] to a stream: read and write. *)
Definition get_stream st (l : Z) : outcome (log_stream H) := deref (lg_streams st !! l).
Definition put_stream st (l : Z) s : log_state H W := set_streams st (<[l := s]> (lg_streams st)).

Definition set_stream_flags s (f : Z) : log_stream H :=
  {| ls_name := ls_name s; ls_regnum := ls_regnum s; ls_levels := ls_levels s; ls_types := ls_types s;
     ls_msgfmt := ls_msgfmt s; ls_use_count := ls_use_count s; ls_stream_flags := f; ls_limits := ls_limits s;
     ls_substreams := ls_substreams s; ls_handler := ls_handler s |}.
Definition set_handler s (name : option (list Z)) (h : option H) : log_stream H :=
  {| ls_name := name; ls_regnum := ls_regnum s; ls_levels := ls_levels s; ls_types := ls_types s;
     ls_msgfmt := ls_msgfmt s; ls_use_count := ls_use_count s; ls_stream_flags := ls_stream_flags s;
     ls_limits := ls_limits s; ls_substreams := ls_substreams s; ls_handler := h |}.

Lemma get_put_stream st l s : get_stream (put_stream st l s) l = Ok s.
Proof. unfold get_stream, put_stream. cbn. by rewrite lookup_insert_eq. Qed.

Lemma get_put_stream_ne st l l' s : l <> l' -> get_stream (put_stream st l s) l' = get_stream st l'.
Proof. intros Hl. unfold get_stream, put_stream. cbn. by rewrite lookup_insert_ne. Qed.
End updates.

(** ** Formatting *)

Section format.
Context {H : Type}.

(** [*p++ = ...] for some bytes, in a buffer of [len] bytes of which [buf] is
    written. *)
Definition put_bytes (len : Z) (buf bs : list Z) : outcome (list Z) :=
  if Z.of_nat (length buf) + Z.of_nat (length bs) <=? len then Ok (buf ++ bs) else Fail UndefinedBehaviour.

(** [p += sprintf(p, ...)], which also writes a NUL. *)
Definition put_sprintf (len : Z) (buf bs : list Z) : outcome (list Z) :=
  if Z.of_nat (length buf) + Z.of_nat (length bs) + 1 <=? len then Ok (buf ++ bs) else Fail UndefinedBehaviour.

(** The upper bound on the length. *)
Definition message_bound (s : log_stream H) (m : log_msg) (title type : option (list Z)) : Z :=
  let opt (x : option (list Z)) := match x with Some t => Z.of_nat (length t) | None => 0 end in
  Z.of_nat (length (m_raw_msg m)) + Z.of_nat (length (m_stime m)) + Z.of_nat (length (m_sutime m)) + 32 +
  opt title + opt (ls_name s) + match type with Some t => Z.of_nat (length t) + 3 | None => 0 end.

(** The part of [log_pass_filtered] that formats a message: the text in the
    buffer, without its NUL. *)
Definition format_message (s : log_stream H) (m : log_msg) (title : option (list Z)) (pid : Z)
    (type : option (list Z)) : outcome (list Z) :=
  let str := bytes_of_string in
  len ← i32 (message_bound s m title type);
  p ← (if has_flag (ls_msgfmt s) LSFMT_LEVEL then
         c ← LS_LEVEL_LETTER (LS_GET_LEVEL (m_flags m)); put_bytes len [] [c; 32]
       else Ok []);
  p ← (if has_flag (ls_msgfmt s) LSFMT_TIME then
         p ← put_bytes len p (m_stime m);
         p ← (if has_flag (ls_msgfmt s) LSFMT_USEC then put_bytes len p (m_sutime m) else Ok p);
         put_bytes len p [32]
       else Ok p);
  p ← (let with_pid := has_flag (ls_msgfmt s) LSFMT_PID && negb (pid =? 0) in
       match (if has_flag (ls_msgfmt s) LSFMT_TITLE then title else None) with
       | Some t =>
           if with_pid then put_sprintf len p (str "[" ++ t ++ str " (" ++ print_int pid ++ str ")] ")
           else put_sprintf len p (str "[" ++ t ++ str "] ")
       | None => if with_pid then put_sprintf len p (str "[" ++ print_int pid ++ str "] ") else Ok p
       end);
  p ← (if has_flag (ls_msgfmt s) LSFMT_LOGNAME then
         match ls_name s with
         | Some n => put_sprintf len p (str "<" ++ n ++ str "> ")
         | None => put_sprintf len p (str "<?> ")
         end
       else Ok p);
  p ← (match type with Some t => put_sprintf len p (str "{" ++ t ++ str "} ") | None => Ok p end);
  p ← put_bytes len p (m_raw_msg m);
  p ← put_bytes len p [10];
  _ ← put_bytes len p [0];
  Ok p.
End format.

(** ** Delivery *)

Definition LS_MAX_DEPTH : Z := 64.

Section delivery.
Context {H W : Type} `{LH : LogHandlers H W}.

(** The text of an error number. *)
Context (strerror : Z -> list Z).

Implicit Types (st : log_state H W).

(** [log_type_name]. *)
Definition log_type_name st (flags : Z) : list Z :=
  match lg_type_names st with
  | None => bytes_of_string "default"
  | Some names => default (bytes_of_string "default") (names !! Z.to_nat (LS_GET_TYPE flags))
  end.

(** The three functions that pass a message on are written over [pass], which
    stands for [log_pass_msg]; it returns the message with its new [error] and
    [depth]. *)
Section open.
Context (pass : Z -> log_msg -> log_state H W -> outcome (log_msg * log_state H W)).

Definition error_text (name : option (list Z)) (err : Z) : list Z :=
  take 127 (bytes_of_string "Error logging to " ++ default (bytes_of_string "<unnamed>") name ++
            (if err =? EDEADLK then bytes_of_string ": Maximum nesting level of log streams exceeded"
             else bytes_of_string ": " ++ strerror err)).

Definition log_report_err (l : Z) (m : log_msg) (err : Z) st : outcome (log_state H W) :=
  s ← get_stream st l;
  if has_flag (m_flags m) L_LOGGER_ERR then Ok st
  else if has_flag (ls_stream_flags s) LSFLAG_ERR_REPORTED then Ok st
  else
    let st := put_stream st l (set_stream_flags s (Z.lor (ls_stream_flags s) LSFLAG_ERR_REPORTED)) in
    let fatal := has_flag (ls_stream_flags s) LSFLAG_ERR_IS_FATAL in
    let flags := Z.lor (if fatal then L_FATAL else L_ERROR) (Z.lor L_LOGGER_ERR (Z.land (m_flags m) LS_CTRL_MASK)) in
    '(_, st) ← pass log_stream_default (replace_text m flags (error_text (ls_name s) err)) st;
    if fatal then Fail (Died "error of a log stream") else Ok st.

(** The loop over the substreams; whether the function returns in it. *)
Fixpoint pass_substreams (subs : list Z) (m : log_msg) st : outcome (bool * log_msg * log_state H W) :=
  match subs with
  | [] => Ok (false, m, st)
  | l :: subs =>
      '(m, st) ← pass l m st;
      if m_error m then Ok (true, m, st) else pass_substreams subs m st
  end.

Definition log_pass_filtered (l : Z) (m : log_msg) st : outcome (log_msg * log_state H W) :=
  s ← get_stream st l;
  '(stop, m, st) ← pass_substreams (ls_substreams s) m st;
  if (stop : bool) then Ok (m, st)
  else
    s ← get_stream st l;
    match ls_handler s with
    | None => Ok (m, st)
    | Some h =>
        let type := if has_flag (ls_msgfmt s) LSFMT_TYPE && negb (LS_GET_TYPE (m_flags m) =? 0)
                    then Some (log_type_name st (m_flags m)) else None in
        text ← format_message s m (lg_title st) (lg_pid st) type;
        '(err, h, name, w) ← log_handle h (ls_name s) m text (lg_world st);
        let st := set_world (put_stream st l (set_handler s name (Some h))) w in
        if err =? 0 then Ok (m, st)
        else st ← log_report_err l m err st; Ok (m, st)
    end.

Definition rate_exceeded : list Z :=
  bytes_of_string "(maximum logging rate exceeded, some messages will be suppressed)".

(** [log_limiter] of log-conf.c: whether it discards the message. *)
Definition log_limiter (l : Z) (limits : list (option Z)) (m : log_msg) st : outcome (bool * log_state H W) :=
  b ← deref (limits !! Z.to_nat (LS_GET_TYPE (m_flags m)));
  match b with
  | None => Ok (false, st)
  | Some b =>
      _ ← c_assert (negb (has_flag (m_flags m) L_SIGHANDLER));
      if has_flag (m_flags m) L_LOGGER_ERR then Ok (false, st)
      else
        '(sec, usec) ← deref (m_tv m);
        ms ← i64 (sec * 1000);
        now ← i64 (ms + usec ÷ 1000);
        f ← deref (lg_tbfs st !! b);
        '(res, f) ← tbf_limit f now;
        let st := set_tbfs st (<[b := f]> (lg_tbfs st)) in
        if res <? 0 then
          if res =? -1 then
            '(_, st) ← pass l (replace_text m (Z.lor (m_flags m) L_LOGGER_ERR) rate_exceeded) st;
            Ok (true, st)
          else Ok (true, st)
        else Ok (false, st)
  end.
End open.

(** [1 << n]. *)
Definition bit (n : Z) : outcome Z := if n <? 32 then Ok (Z.shiftl 1 n) else Fail UndefinedBehaviour.

(** [log_pass_msg]. *)
Fixpoint log_pass_msg (fuel : nat) (l : Z) (m : log_msg) st : outcome (log_msg * log_state H W) :=
  match fuel with
  | O => Fail OutOfFuel
  | S fuel =>
      s ← get_stream st l;
      if LS_MAX_DEPTH <? m_depth m then
        st ← log_report_err (log_pass_msg fuel) l m EDEADLK st; Ok (set_error m, st)
      else
        level ← bit (LS_GET_LEVEL (m_flags m));
        type ← bit (LS_GET_TYPE (m_flags m));
        if negb (has_flag level (ls_levels s)) || negb (has_flag type (ls_types s)) then Ok (m, st)
        else
          let m := set_depth m (m_depth m + 1) in
          '(discarded, st) ← (match ls_limits s with
                              | Some limits => log_limiter (log_pass_msg fuel) l limits m st
                              | None => Ok (false, st)
                              end);
          '(m, st) ← (if (discarded : bool) then Ok (m, st) else log_pass_filtered (log_pass_msg fuel) l m st);
          Ok (set_depth m (m_depth m - 1), st)
  end.

(** A message goes at most [LS_MAX_DEPTH] + 2 levels deep, and once more so
    for the report of an error. *)
Definition log_fuel : nat := 134.

(** ** Messages *)

(** What [gettimeofday] and [localtime_r] with [strftime] say. *)
Record log_time : Set := { lt_sec : Z; lt_usec : Z; lt_text : option (list Z) }.

(** [log_stream_by_flags]. *)
Definition log_stream_by_flags st (flags : Z) : outcome (option Z) :=
  let n := LS_GET_STRNUM flags in
  let missing := if n =? 0 then Some log_stream_default else None in
  if (n <? 0) || (Z.of_nat (length (lg_ptr st)) <=? n) then Ok missing
  else
    l ← deref (lg_ptr st !! Z.to_nat n);
    s ← get_stream st l;
    Ok (if ls_regnum s =? -1 then missing else Some l).

(** Control characters but tabs become DEL; bytes from 128 on are negative. *)
Definition sanitize (text : list Z) : list Z :=
  map (fun c => if (c <? 32) && negb (c =? 9) then 127 else c) text.

(** The message [vmsg] passes on: the text is what the format expands to. *)
Definition make_msg (cat : Z) (text : list Z) (now : log_time) : outcome log_msg :=
  let sighandler := has_flag cat L_SIGHANDLER in
  '(tv, tm, stime, sutime) ←
    (match (if sighandler then None else lt_text now) with
     | Some t =>
         if (length t <? 24)%nat then
           Ok (Some (lt_sec now, lt_usec now), true, t, take 11 (46 :: print_int06 (lt_usec now)))
         else Fail UndefinedBehaviour
     | None => Ok (if sighandler then None else Some (lt_sec now, lt_usec now), false,
                   bytes_of_string "????-??-?? ??:??:??", bytes_of_string ".??????")
     end);
  Ok {| m_flags := cat; m_raw_msg := sanitize (if sighandler then take 255 text else text); m_stime := stime;
        m_sutime := sutime; m_tv := tv; m_tm := tm; m_depth := 0; m_error := false |}.

(** [vmsg] after the stream is found. *)
Definition vmsg_to (l : Z) (cat : Z) (text : list Z) (now : log_time) st : outcome (log_state H W) :=
  m ← make_msg cat text now;
  '(m, st) ← log_pass_msg log_fuel l m st;
  if m_error m then
    '(_, st) ← log_pass_msg log_fuel log_stream_default m st; Ok st
  else Ok st.

(** [vmsg]; [warn] is the time of the message about a missing stream, which
    goes to stream 0 and is never missing itself. *)
Definition vmsg (cat : Z) (text : list Z) (now warn : log_time) st : outcome (log_state H W) :=
  if has_flag cat L_SIGHANDLER then vmsg_to log_stream_default cat text now st
  else
    l ← log_stream_by_flags st cat;
    match l with
    | Some l => vmsg_to l cat text now st
    | None =>
        let cat' := Z.lor (Z.land LS_CTRL_MASK cat) L_WARN in
        l ← log_stream_by_flags st cat';
        st ← vmsg_to (default log_stream_default l) cat'
               (bytes_of_string "No log_stream with number " ++ print_int (LS_GET_STRNUM cat) ++
                bytes_of_string "! Logging to the default log.") warn st;
        vmsg_to log_stream_default cat text now st
    end.
End delivery.
