(* ===== verification/LogInv.v ===== *)
(** * Properties of logging

    A formatted message fits into its buffer and is one line; every message is
    delivered after finitely many calls, whatever the graph of the streams; a
    report of too deep nesting is lost. *)

From stdpp Require Import base numbers list gmap strings.
From S2P Require Import Prelude Doubles TimeFmt Log.

(** ** Formatting *)

Lemma length_print_digits fuel z n : (1 <= n)%nat -> 0 <= z < 10 ^ Z.of_nat n ->
  (length (print_digits fuel z) <= n)%nat.
Proof.
  revert z n; induction fuel as [|fuel IH]; intros z n Hn Hz; cbn [print_digits]; [cbn; lia|].
  destruct (Z.ltb_spec z 10) as [Hlt|Hge]; [cbn; lia|]. rewrite length_app. cbn [length].
  destruct n as [|[|n]]; [lia|cbn in Hz; lia|].
  enough (length (print_digits fuel (z / 10)) <= S n)%nat by lia. apply IH; [lia|].
  rewrite Nat2Z.inj_succ, Z.pow_succ_r in Hz by lia. set (p := 10 ^ Z.of_nat (S n)) in *. div_lia.
Qed.

Lemma length_print_int z : INT32_MIN <= z <= INT32_MAX -> (length (print_int z) <= 11)%nat.
Proof.
  unfold INT32_MIN, INT32_MAX. intros Hz. unfold print_int. destruct (Z.ltb_spec z 0); cbn [length].
  - pose proof (length_print_digits 20 (- z) 10). change (10 ^ Z.of_nat 10) with 10000000000 in *. lia.
  - pose proof (length_print_digits 20 z 10). change (10 ^ Z.of_nat 10) with 10000000000 in *. lia.
Qed.

(** Lengths of texts with literals. *)
Ltac length_text :=
  rewrite ?length_app in *;
  repeat match goal with
  | |- context [length (bytes_of_string ?s)] =>
      let n := eval vm_compute in (length (bytes_of_string s)) in change (length (bytes_of_string s)) with n
  end; cbn [length] in *; lia.

Section format.
Context {H : Type} (P : Z -> Prop).

(** [P] holds of the characters the formatter adds itself. *)
Hypothesis P_literal : forall c, 32 <= c < 127 -> P c.

Lemma P_string s : Forall (fun c => 32 <= c < 127) (bytes_of_string s) -> Forall P (bytes_of_string s).
Proof. intros Hs. eapply Forall_impl; [exact Hs|]. apply P_literal. Qed.

Lemma P_digits fuel z : 0 <= z -> Forall P (print_digits fuel z).
Proof.
  revert z; induction fuel as [|fuel IH]; intros z Hz; cbn [print_digits]; [constructor|].
  destruct (Z.ltb_spec z 10); [constructor; [apply P_literal; lia|constructor]|].
  apply Forall_app. split; [apply IH; div_lia|]. constructor; [apply P_literal; div_lia|constructor].
Qed.

Lemma P_int z : Forall P (print_int z).
Proof.
  unfold print_int. destruct (Z.ltb_spec z 0); [constructor; [apply P_literal; lia|]|]; apply P_digits; lia.
Qed.

(** A part of the formatter that appends at most [n] bytes to [buf]. *)
Definition appends (n : Z) (buf : list Z) (o : outcome (list Z)) : Prop :=
  exists out, o = Ok (buf ++ out) /\ Z.of_nat (length out) <= n /\ Forall P out.

Lemma appends_bytes len buf bs n :
  Z.of_nat (length buf) + Z.of_nat (length bs) <= len -> Z.of_nat (length bs) <= n -> Forall P bs ->
  appends n buf (put_bytes len buf bs).
Proof. intros Hl Hn HP. exists bs. unfold put_bytes. by rewrite (proj2 (Z.leb_le _ _)). Qed.

Lemma appends_sprintf len buf bs n :
  Z.of_nat (length buf) + Z.of_nat (length bs) + 1 <= len -> Z.of_nat (length bs) <= n -> Forall P bs ->
  appends n buf (put_sprintf len buf bs).
Proof. intros Hl Hn HP. exists bs. unfold put_sprintf. by rewrite (proj2 (Z.leb_le _ _)). Qed.

Lemma appends_none n buf : 0 <= n -> appends n buf (Ok buf).
Proof. intros Hn. exists []. by rewrite app_nil_r. Qed.

Lemma appends_bind n1 n2 buf o f :
  appends n1 buf o -> (forall out, Z.of_nat (length out) <= n1 -> Forall P out -> appends n2 (buf ++ out) (f (buf ++ out))) ->
  appends (n1 + n2) buf (o ≫= f).
Proof.
  intros (out & -> & Hl & HP) Hf. rewrite bind_Ok. destruct (Hf out Hl HP) as (out' & -> & Hl' & HP').
  exists (out ++ out'). rewrite app_assoc. split; [done|]. rewrite length_app. split; [lia|]. by apply Forall_app.
Qed.

(** Takes the next part of the formatter: its bound, the buffer before it and
    a name for what it appends. *)
Ltac format_step n buf out :=
  match goal with
  | |- exists body, (?o ≫= _) = _ /\ _ =>
      let A := fresh "A" in let E := fresh "E" in let Hl := fresh "Hl" in let HP := fresh "HP" in
      assert (A : appends n buf o);
      [|destruct A as (out & E & Hl & HP); rewrite E, bind_Ok, ?app_nil_l; clear E]
  end.

(** Texts of literals, numbers and the parts of the message. *)
Ltac literal_text :=
  repeat match goal with |- Forall P (_ ++ _) => apply Forall_app; split end;
  first [done | apply P_int | apply P_string; cbn; repeat constructor; lia].

(** A known level has a printable letter. *)
Lemma level_letter level : 0 <= level < 8 -> exists c, LS_LEVEL_LETTER level = Ok c /\ 32 <= c < 127.
Proof.
  intros Hl. unfold LS_LEVEL_LETTER.
  assert (level = 0 \/ level = 1 \/ level = 2 \/ level = 3 \/ level = 4 \/ level = 5 \/ level = 6 \/ level = 7) as Hc by lia.
  destruct Hc as [->|[->|[->|[->|[->|[->|[->| ->]]]]]]]; (eexists; split; [vm_compute; reflexivity|lia]).
Qed.

Definition text_or_nil (x : option (list Z)) : list Z := default [] x.

Lemma format_message_ok (s : log_stream H) m title pid type :
  0 <= LS_GET_LEVEL (m_flags m) < 8 -> INT32_MIN <= pid <= INT32_MAX ->
  message_bound s m title type <= INT32_MAX ->
  Forall P (m_raw_msg m) -> Forall P (m_stime m) -> Forall P (m_sutime m) ->
  Forall P (text_or_nil title) -> Forall P (text_or_nil (ls_name s)) -> Forall P (text_or_nil type) ->
  exists body, format_message s m title pid type = Ok (body ++ [10]) /\ Forall P body /\
    Z.of_nat (length body) + 2 <= message_bound s m title type /\ exists pre, body = pre ++ m_raw_msg m.
Proof.
  intros Hlevel Hpid Hbound Praw Pst Psu Ptitle Pname Ptype. unfold format_message.
  assert (Hmin : INT32_MIN <= message_bound s m title type).
  { unfold message_bound, INT32_MIN. destruct title, (ls_name s), type; lia. }
  rewrite i32_in, bind_Ok by done.
  assert (Hlen : Z.of_nat (length (m_raw_msg m)) + Z.of_nat (length (m_stime m)) + Z.of_nat (length (m_sutime m)) + 32 +
                 Z.of_nat (length (text_or_nil title)) + Z.of_nat (length (text_or_nil (ls_name s))) +
                 match type with Some t => Z.of_nat (length t) + 3 | None => 0 end = message_bound s m title type).
  { unfold message_bound, text_or_nil. destruct title, (ls_name s), type; cbn [from_option id length]; lia. }
  assert (Htype : 0 <= match type with Some t => Z.of_nat (length t) + 3 | None => 0 end) by (destruct type; lia).
  set (len := message_bound s m title type) in *. pose proof (length_print_int pid Hpid) as Hp.
  format_step 2 (@nil Z) p1.
  { destruct (has_flag _ _); [|by apply appends_none].
    destruct (level_letter _ Hlevel) as (c & -> & Hc). rewrite bind_Ok.
    apply appends_bytes; cbn [length]; [lia|lia|]. repeat constructor; apply P_literal; lia. }
  format_step (Z.of_nat (length (m_stime m)) + (Z.of_nat (length (m_sutime m)) + 1)) p1 p2.
  { destruct (has_flag _ _); [|apply appends_none; lia].
    apply appends_bind; [apply appends_bytes; [lia|lia|done]|]. intros o1 Ho1 _. apply appends_bind.
    - destruct (has_flag _ _); [|apply appends_none; lia]. apply appends_bytes; [rewrite length_app; lia|lia|done].
    - intros o2 Ho2 _. apply appends_bytes; [rewrite !length_app; cbn [length]; lia|done|]. repeat constructor; apply P_literal; lia. }
  format_step (Z.of_nat (length (text_or_nil title)) + 17) (p1 ++ p2) p3.
  { destruct (has_flag _ LSFMT_TITLE); [destruct title as [t|]|]; cbn [text_or_nil from_option id length] in *;
      destruct (_ && _); try (apply appends_none; lia); (apply appends_sprintf; [length_text|length_text|literal_text]). }
  format_step (Z.of_nat (length (text_or_nil (ls_name s))) + 4) ((p1 ++ p2) ++ p3) p4.
  { destruct (has_flag _ _); [|apply appends_none; lia]. destruct (ls_name s) as [n|]; cbn [text_or_nil from_option id length] in *;
      (apply appends_sprintf; [length_text|length_text|literal_text]). }
  format_step (match type with Some t => Z.of_nat (length t) + 3 | None => 0 end) (((p1 ++ p2) ++ p3) ++ p4) p5.
  { destruct type as [t|]; [|by apply appends_none]. cbn [text_or_nil from_option id] in *.
    apply appends_sprintf; [length_text|length_text|literal_text]. }
  set (pre := (((p1 ++ p2) ++ p3) ++ p4) ++ p5).
  assert (Htotal : Z.of_nat (length pre) + Z.of_nat (length (m_raw_msg m)) + 2 <= len) by (subst pre; length_text).
  unfold put_bytes. rewrite (proj2 (Z.leb_le _ _)), bind_Ok by lia.
  rewrite (proj2 (Z.leb_le _ _)), bind_Ok by (rewrite length_app; cbn [length]; lia).
  rewrite (proj2 (Z.leb_le _ _)), bind_Ok by (rewrite !length_app; cbn [length]; lia).
  exists (pre ++ m_raw_msg m). split; [done|]. split; [subst pre; by rewrite !Forall_app|].
  split; [rewrite length_app; lia|by exists pre].
Qed.

End format.

(** ** Delivery *)

(** A computation that returns with [P], or exits, which [D] allows. *)
Definition ends {A} (D : Prop) (P : A -> Prop) (o : outcome A) : Prop :=
  match o with
  | Ok a => P a
  | Fail (Died _) => D
  | Fail _ => False
  end.

Lemma ends_bind {A B} D (P : A -> Prop) (Q : B -> Prop) o f :
  ends D P o -> (forall a, P a -> ends D Q (f a)) -> ends D Q (o ≫= f).
Proof. destruct o as [a|[]]; cbn; auto. Qed.

Lemma ends_Ok {A} D (P : A -> Prop) a : P a -> ends D P (Ok a).
Proof. done. Qed.

(** Lengths of texts and times that no sum in the code overflows with. *)
Definition TEXT_MAX : Z := 2 ^ 24.
Definition CLOCK_MAX : Z := 2 ^ 52.

Definition short (t : list Z) : Prop := Z.of_nat (length t) <= TEXT_MAX.

Section delivery.
Context {H W : Type} `{LH : LogHandlers H W} (strerror : Z -> list Z).

(** Whether the program may exit because of an error in logging. *)
Context (D : Prop).

(** A handler whose data is in order returns (or exits), with its data in
    order, and keeps the name of its stream short. *)
Context (handler_ok : H -> Prop).
Hypothesis handlers_end : forall h name m text w, handler_ok h -> short (text_or_nil name) ->
  ends D (fun '(_, h, name, _) => handler_ok h /\ short (text_or_nil name)) (log_handle h name m text w).

(** Streams point to streams and to buckets in memory. *)
Record stream_ok (streams : gmap Z (log_stream H)) (tbfs : gmap Z token_bucket_filter) (s : log_stream H) : Prop := {
  so_subs l : l ∈ ls_substreams s -> is_Some (streams !! l);
  so_name : short (text_or_nil (ls_name s));
  so_handler h : ls_handler s = Some h -> handler_ok h;
  so_fatal : has_flag (ls_stream_flags s) LSFLAG_ERR_IS_FATAL = true -> D;
  so_limits limits : ls_limits s = Some limits -> length limits = 32%nat /\
    forall b, Some b ∈ limits -> is_Some (tbfs !! b);
}.

Record log_ok (st : log_state H W) : Prop := {
  lo_default : is_Some (lg_streams st !! log_stream_default);
  lo_streams l s : lg_streams st !! l = Some s -> stream_ok (lg_streams st) (lg_tbfs st) s;
  lo_tbfs b f : lg_tbfs st !! b = Some f -> 0 <= tbf_last_hit f <= CLOCK_MAX;
  lo_title : short (text_or_nil (lg_title st));
  lo_pid : INT32_MIN <= lg_pid st <= INT32_MAX;
  lo_types names t : lg_type_names st = Some names -> t ∈ names -> short t;
}.

(** Messages as [vmsg] makes them, at any depth. *)
Record msg_ok (m : log_msg) : Prop := {
  mo_level : 0 <= LS_GET_LEVEL (m_flags m) < 8;
  mo_sighandler : has_flag (m_flags m) L_SIGHANDLER = false;
  mo_tv : exists sec usec, m_tv m = Some (sec, usec) /\ 0 <= sec <= 2 ^ 40 /\ 0 <= usec < 1000000;
  mo_raw : short (m_raw_msg m);
  mo_stime : (length (m_stime m) <= 23)%nat;
  mo_sutime : (length (m_sutime m) <= 11)%nat;
  mo_depth : 0 <= m_depth m <= 65;
}.

(** The levels of calls a message still needs. *)
Definition rank (m : log_msg) : Z :=
  (if has_flag (m_flags m) L_LOGGER_ERR then 0 else 67) + (66 - m_depth m).

(** The state keeps its streams. *)
Definition same_streams (st st' : log_state H W) : Prop :=
  log_ok st' /\ forall l, is_Some (lg_streams st !! l) -> is_Some (lg_streams st' !! l).

(** What a call of [log_pass_msg] promises. *)
Definition passes (m : log_msg) (st : log_state H W) (o : outcome (log_msg * log_state H W)) : Prop :=
  ends D (fun '(m', st') => (m' = m \/ m' = set_error m) /\ same_streams st st') o.

Lemma same_refl st : log_ok st -> same_streams st st.
Proof. by split. Qed.

Lemma same_trans st1 st2 st3 : same_streams st1 st2 -> same_streams st2 st3 -> same_streams st1 st3.
Proof. intros [_ H12] [? H23]. split; auto. Qed.

(** Writing a stream that keeps its links. *)
Lemma put_stream_ok st l s s' : log_ok st -> lg_streams st !! l = Some s ->
  ls_substreams s' = ls_substreams s -> ls_limits s' = ls_limits s -> short (text_or_nil (ls_name s')) ->
  (forall h, ls_handler s' = Some h -> handler_ok h) ->
  (has_flag (ls_stream_flags s') LSFLAG_ERR_IS_FATAL = true -> D) ->
  same_streams st (put_stream st l s').
Proof.
  intros [Hd Hs Hb Ht Hp Hty] Hl Esub Elim Hname Hhand Hfatal.
  assert (Hdom : forall k, is_Some (lg_streams st !! k) -> is_Some (<[l:=s']> (lg_streams st) !! k)).
  { intros k Hk. destruct (decide (k = l)) as [->|]; [rewrite lookup_insert_eq; eauto|by rewrite lookup_insert_ne]. }
  split; [|done]. split; cbn; [by apply Hdom| |done..].
  intros k x Hx. destruct (decide (k = l)) as [->|Hne].
  - rewrite lookup_insert_eq in Hx. injection Hx as <-. destruct (Hs l s Hl) as [S1 S2 S3 S4 S5].
    split; [rewrite Esub; auto|done|done|done|by rewrite Elim].
  - rewrite lookup_insert_ne in Hx by done. destruct (Hs k x Hx) as [S1 S2 S3 S4 S5]. split; auto.
Qed.

Lemma set_world_ok st w : log_ok st -> same_streams st (set_world st w).
Proof. intros [? ? ? ? ? ?]. by split. Qed.

Lemma set_tbf_ok st b f : log_ok st -> 0 <= tbf_last_hit f <= CLOCK_MAX -> same_streams st (set_tbfs st (<[b := f]> (lg_tbfs st))).
Proof.
  intros [Hd Hs Hb Ht Hp Hty] Hf. split; [|done]. split; cbn; try done.
  - intros l s Hl. destruct (Hs l s Hl) as [S1 S2 S3 S4 S5]. split; try done. intros limits E.
    destruct (S5 limits E) as [Hlen Hbs]. split; [done|]. intros b' Hb'. destruct (decide (b' = b)) as [->|].
    + rewrite lookup_insert_eq. eauto.
    + rewrite lookup_insert_ne by done. by apply Hbs.
  - intros b' f' Hf'. destruct (decide (b' = b)) as [->|].
    + rewrite lookup_insert_eq in Hf'. by injection Hf' as <-.
    + rewrite lookup_insert_ne in Hf' by done. by apply (Hb b').
Qed.

(** ** Flags of the messages about errors *)

Lemma has_flag_lor a b m : has_flag (Z.lor a b) m = has_flag a m || has_flag b m.
Proof.
  unfold has_flag. rewrite Z.land_lor_distr_l. destruct (Z.eqb_spec (Z.land a m) 0) as [->|Ha], (Z.eqb_spec (Z.land b m) 0) as [->|Hb];
    cbn; rewrite ?Z.lor_0_l, ?Z.lor_0_r; try done.
  - by rewrite (proj2 (Z.eqb_neq _ _) Hb).
  - by rewrite (proj2 (Z.eqb_neq _ _) Ha).
  - rewrite (proj2 (Z.eqb_neq _ _)); [done|]. intros E. by apply Z.lor_eq_0_iff in E as [? _].
Qed.

(** The mask of the control bits does not touch the levels. *)
Lemma level_of_report a f : LS_GET_LEVEL (Z.lor a (Z.lor L_LOGGER_ERR (Z.land f LS_CTRL_MASK))) = LS_GET_LEVEL a.
Proof.
  unfold LS_GET_LEVEL. rewrite !Z.land_lor_distr_l, <- Z.land_assoc.
  change (Z.land L_LOGGER_ERR LS_LEVEL_MASK) with 0. change (Z.land LS_CTRL_MASK LS_LEVEL_MASK) with 0.
  by rewrite Z.land_0_r, !Z.lor_0_r.
Qed.

Lemma level_of_limit f : LS_GET_LEVEL (Z.lor f L_LOGGER_ERR) = LS_GET_LEVEL f.
Proof.
  unfold LS_GET_LEVEL. rewrite Z.land_lor_distr_l. change (Z.land L_LOGGER_ERR LS_LEVEL_MASK) with 0. by rewrite Z.lor_0_r.
Qed.

Lemma sighandler_of_ctrl f : has_flag (Z.land f LS_CTRL_MASK) L_SIGHANDLER = has_flag f L_SIGHANDLER.
Proof. unfold has_flag. rewrite <- Z.land_assoc. done. Qed.

Lemma error_text_short name err : (length (error_text strerror name err) <= 127)%nat.
Proof. unfold error_text. rewrite length_take. lia. Qed.

(** The report of an error is a good message of a lower rank. *)
Lemma report_msg_ok m fatal name err : msg_ok m ->
  let flags := Z.lor (if (fatal : bool) then L_FATAL else L_ERROR) (Z.lor L_LOGGER_ERR (Z.land (m_flags m) LS_CTRL_MASK)) in
  let m' := replace_text m flags (error_text strerror name err) in
  msg_ok m' /\ rank m' = 66 - m_depth m.
Proof.
  intros [M1 M2 M3 M4 M5 M6 M7] flags m'. subst m'. split.
  - split; cbn [replace_text m_flags m_tv m_raw_msg m_stime m_sutime m_depth]; try done.
    + subst flags. rewrite level_of_report. by destruct fatal.
    + subst flags. rewrite !has_flag_lor, sighandler_of_ctrl, M2. by destruct fatal.
    + unfold short, TEXT_MAX. pose proof (error_text_short name err). lia.
  - unfold rank. cbn. subst flags. rewrite !has_flag_lor. change (has_flag L_LOGGER_ERR L_LOGGER_ERR) with true.
    by rewrite orb_true_r.
Qed.

Lemma limit_msg_ok m : msg_ok m ->
  let m' := replace_text m (Z.lor (m_flags m) L_LOGGER_ERR) rate_exceeded in msg_ok m' /\ rank m' = 66 - m_depth m.
Proof.
  intros [M1 M2 M3 M4 M5 M6 M7] m'. subst m'. split.
  - split; cbn [replace_text m_flags m_tv m_raw_msg m_stime m_sutime m_depth]; try done.
    + by rewrite level_of_limit.
    + by rewrite has_flag_lor, M2.
  - unfold rank. cbn. rewrite has_flag_lor. change (has_flag L_LOGGER_ERR L_LOGGER_ERR) with true. by rewrite orb_true_r.
Qed.

Lemma type_range f : 0 <= LS_GET_TYPE f < 32.
Proof.
  unfold LS_GET_TYPE. change LS_TYPE_MASK with (Z.shiftl (Z.ones 5) 24). change LS_TYPE_POS with 24.
  rewrite Z.shiftr_land, Z.shiftr_shiftl_l by lia. change (24 - 24) with 0. rewrite Z.shiftl_0_r, Z.land_ones by lia.
  apply Z.mod_pos_bound. lia.
Qed.

Lemma set_error_ok m : msg_ok m -> msg_ok (set_error m) /\ rank (set_error m) = rank m.
Proof. intros []. by split. Qed.

(** ** The functions over [log_pass_msg] *)

Section open.
Context (N : Z) (pass : Z -> log_msg -> log_state H W -> outcome (log_msg * log_state H W)).
Hypothesis Hpass : forall l m st, rank m < N -> log_ok st -> msg_ok m -> is_Some (lg_streams st !! l) ->
  passes m st (pass l m st).

Lemma report_err_ok l m err st : log_ok st -> msg_ok m -> is_Some (lg_streams st !! l) ->
  (has_flag (m_flags m) L_LOGGER_ERR = false -> 66 - m_depth m < N) ->
  ends D (same_streams st) (log_report_err strerror pass l m err st).
Proof.
  intros Hst Hm [s Hs] HN. unfold log_report_err, get_stream. rewrite Hs. cbn [deref]. rewrite bind_Ok.
  destruct (has_flag (m_flags m) L_LOGGER_ERR) eqn:Ee; [by apply same_refl|].
  destruct (has_flag (ls_stream_flags s) LSFLAG_ERR_REPORTED); [by apply same_refl|].
  set (s' := set_stream_flags s _). destruct (lo_streams _ Hst l s Hs) as [S1 S2 SH S3 S4].
  destruct (put_stream_ok st l s s') as [Hst1 Hdom1]; try done.
  { intros Hf. apply S3. subst s'. cbn in Hf. by rewrite has_flag_lor, orb_false_r in Hf. }
  destruct (report_msg_ok m (has_flag (ls_stream_flags s) LSFLAG_ERR_IS_FATAL) (ls_name s) err Hm) as [Hm' Hr].
  eapply ends_bind; [apply Hpass; [rewrite Hr; by apply HN|done|done|apply (lo_default _ Hst1)]|].
  intros [m' st'] [_ [Hst' Hdom']]. destruct (has_flag _ LSFLAG_ERR_IS_FATAL) eqn:Ef; [by apply S3|].
  apply ends_Ok. split; auto.
Qed.

Lemma pass_substreams_ok subs m st : log_ok st -> msg_ok m -> rank m < N ->
  (forall l, l ∈ subs -> is_Some (lg_streams st !! l)) ->
  ends D (fun '(_, m', st') => (m' = m \/ m' = set_error m) /\ same_streams st st') (pass_substreams pass subs m st).
Proof.
  revert st; induction subs as [|l subs IH]; intros st Hst Hm Hr Hin; cbn [pass_substreams].
  { split; [by left|by apply same_refl]. }
  eapply ends_bind; [apply Hpass; try done; apply Hin; set_solver|]. intros [m' st'] [Em [Hst' Hdom]].
  destruct (m_error m') eqn:Ee; [by apply ends_Ok|]. destruct Em as [->| ->]; [|done].
  pose proof (IH st' Hst' Hm Hr ltac:(intros k Hk; apply Hdom, Hin; set_solver)) as H1. revert H1.
  destruct (pass_substreams pass subs m st') as [[[b m''] st'']|[]]; cbn; try done.
  intros [Em'' Hs'']. split; [done|]. by apply (same_trans _ st').
Qed.

Lemma pass_filtered_ok l m st : log_ok st -> msg_ok m -> rank m < N -> is_Some (lg_streams st !! l) ->
  passes m st (log_pass_filtered strerror pass l m st).
Proof.
  intros Hst Hm Hr [s Hs]. unfold log_pass_filtered, get_stream. rewrite Hs. cbn [deref]. rewrite bind_Ok.
  eapply ends_bind; [apply pass_substreams_ok; try done; apply (lo_streams _ Hst l s Hs)|].
  intros [[stop m'] st'] [Em [Hst' Hdom]]. destruct stop; [by apply ends_Ok|].
  destruct (Hdom l) as [s' Hs']; [eauto|]. rewrite Hs'. cbn [deref]. rewrite bind_Ok.
  destruct (ls_handler s') as [h|] eqn:Eh; [|by apply ends_Ok].
  assert (Hm' : msg_ok m' /\ rank m' = rank m) by (destruct Em as [->| ->]; [done|by apply set_error_ok]).
  destruct Hm' as [Hm' Hr']. set (type := if _ && _ then _ else None).
  assert (Htype : short (text_or_nil type)).
  { subst type. destruct (_ && _); [|done]. unfold log_type_name. destruct (lg_type_names st') as [names|] eqn:En; [|done].
    destruct (names !! _) as [t|] eqn:Et; [|done]. apply (lo_types _ Hst' names); [done|]. by apply list_elem_of_lookup_2 in Et. }
  destruct (lo_streams _ Hst' l s' Hs') as [S1 S2 SH S3 S4]. destruct Hm' as [M1 M2 M3 M4 M5 M6 M7] eqn:Emo.
  destruct (format_message_ok (fun _ => True) ltac:(done) s' m' (lg_title st') (lg_pid st') type) as (body & -> & _);
    try done; try apply Forall_true; try done; try apply Hst'.
  { pose proof (lo_title _ Hst') as Htitle. unfold message_bound, short, TEXT_MAX, INT32_MAX, text_or_nil in *.
    destruct (lg_title st'), (ls_name s'), type; cbn [from_option id length] in *; lia. }
  rewrite bind_Ok. eapply ends_bind; [apply handlers_end; [by apply SH|done]|]. intros [[[err h'] name] w] [Hh' Hname].
  destruct (put_stream_ok st' l s' (set_handler s' name (Some h'))) as [Hst1 Hdom1]; try done.
  { by intros h0 [= <-]. }
  destruct (set_world_ok _ w Hst1) as [Hst2 Hdom2]. destruct (err =? 0).
  { apply ends_Ok. split; [done|]. split; [done|]. auto. }
  eapply ends_bind; [apply report_err_ok|].
  - done.
  - exact Hm'.
  - apply Hdom2, Hdom1. eauto.
  - intros Hf. unfold rank in *. rewrite Hf in Hr'. destruct (has_flag (m_flags m) L_LOGGER_ERR); lia.
  - intros st3 [Hst3 Hdom3]. apply ends_Ok. split; [done|]. split; auto.
Qed.

Lemma tbf_limit_ok f now : 0 <= tbf_last_hit f <= CLOCK_MAX -> 0 <= now <= CLOCK_MAX ->
  exists res f', tbf_limit f now = Ok (res, f') /\ tbf_last_hit f' = now.
Proof.
  intros Hf Hnow. unfold tbf_limit, CLOCK_MAX in *. rewrite i64_in, bind_Ok by int_lia.
  destruct (Double.leb _ _); by do 2 eexists.
Qed.

Lemma limiter_ok l limits m st : log_ok st -> msg_ok m -> is_Some (lg_streams st !! l) ->
  length limits = 32%nat -> (forall b, Some b ∈ limits -> is_Some (lg_tbfs st !! b)) -> 66 - m_depth m < N ->
  ends D (fun '(_, st') => same_streams st st') (log_limiter pass l limits m st).
Proof.
  intros Hst Hm Hl Hlen Hlim HN. unfold log_limiter.
  pose proof (type_range (m_flags m)) as Ht.
  destruct (lookup_lt_is_Some_2 limits (Z.to_nat (LS_GET_TYPE (m_flags m)))) as [b Hb]; [lia|].
  rewrite Hb. cbn [deref]. rewrite bind_Ok. destruct b as [b|]; [|by apply same_refl].
  rewrite (mo_sighandler _ Hm). cbn [negb c_assert]. rewrite bind_Ok.
  destruct (has_flag (m_flags m) L_LOGGER_ERR); [by apply same_refl|].
  destruct (mo_tv _ Hm) as (sec & usec & -> & Hsec & Husec). cbn [deref]. rewrite bind_Ok.
  assert (Hnow : 0 <= sec * 1000 + usec ÷ 1000 <= CLOCK_MAX).
  { unfold CLOCK_MAX. rewrite Z.quot_div_nonneg by lia. div_lia. }
  unfold CLOCK_MAX in Hnow. rewrite (i64_in (sec * 1000)), bind_Ok, i64_in, bind_Ok by int_lia.
  destruct (Hlim b) as [f Hf]; [by apply list_elem_of_lookup_2 in Hb|]. rewrite Hf. cbn [deref]. rewrite bind_Ok.
  destruct (tbf_limit_ok f (sec * 1000 + usec ÷ 1000)) as (res & f' & -> & Hlast); [by apply (lo_tbfs _ Hst b)|done|].
  rewrite bind_Ok. destruct (set_tbf_ok st b f') as [Hst1 Hdom1]; [done|by rewrite Hlast|].
  destruct (res <? 0); [|by apply ends_Ok]. destruct (res =? -1); [|by apply ends_Ok].
  destruct (limit_msg_ok m Hm) as [Hm' Hr].
  eapply ends_bind; [apply Hpass; [by rewrite Hr|done|done|by apply Hdom1]|].
  intros [m' st'] [_ Hs']. apply ends_Ok. by apply (same_trans _ (set_tbfs st (<[b:=f']> (lg_tbfs st)))).
Qed.
End open.

(** Enough fuel for the rank of a message is enough. *)
Lemma log_pass_msg_ok fuel l m st : rank m < Z.of_nat fuel -> log_ok st -> msg_ok m -> is_Some (lg_streams st !! l) ->
  passes m st (log_pass_msg strerror fuel l m st).
Proof.
  revert l m st; induction fuel as [|fuel IH]; intros l m st Hr Hst Hm [s Hs]; cbn [log_pass_msg];
    pose proof (mo_depth _ Hm) as Hd.
  { unfold rank in Hr. destruct (has_flag _ _); lia. }
  unfold get_stream. rewrite Hs. cbn [deref]. rewrite bind_Ok. unfold LS_MAX_DEPTH.
  destruct (Z.ltb_spec 64 (m_depth m)) as [Hdeep|Hdeep].
  { eapply ends_bind; [apply (report_err_ok (Z.of_nat fuel) _ IH l m EDEADLK st Hst Hm); [by eexists|]|].
    - intros Hf. unfold rank in Hr. rewrite Hf in Hr. lia.
    - intros st' Hst'. apply ends_Ok. split; [by right|done]. }
  assert (Hbits : forall z, 0 <= z < 32 -> bit z = Ok (Z.shiftl 1 z)).
  { intros z Hz. unfold bit. by rewrite (proj2 (Z.ltb_lt _ _)) by lia. }
  pose proof (mo_level _ Hm) as Hlevel. rewrite (Hbits (LS_GET_LEVEL _)), bind_Ok, (Hbits (LS_GET_TYPE _)), bind_Ok by (lia || apply type_range).
  destruct (_ || _). { apply ends_Ok. split; [by left|by apply same_refl]. }
  set (m1 := set_depth m (m_depth m + 1)).
  assert (Hm1 : msg_ok m1 /\ rank m1 = rank m - 1).
  { destruct Hm. split; [split; cbn; try done; lia|]. unfold rank. cbn. lia. }
  destruct Hm1 as [Hm1 Hr1].
  assert (HN : 66 - m_depth m1 < Z.of_nat fuel).
  { unfold rank in Hr. cbn. destruct (has_flag _ _); lia. }
  eapply (ends_bind _ (fun '(_, st') => same_streams st st')).
  { destruct (ls_limits s) as [limits|] eqn:El; [|by apply same_refl].
    destruct (so_limits _ _ _ (lo_streams _ Hst l s Hs) limits El). apply (limiter_ok (Z.of_nat fuel)); done. }
  intros [b st1] [Hst1 Hdom1].
  eapply (ends_bind _ (fun '(m', st') => (m' = m1 \/ m' = set_error m1) /\ same_streams st st')).
  { destruct b; [apply ends_Ok; split; [by left|by split]|].
    pose proof (pass_filtered_ok (Z.of_nat fuel) _ IH l m1 st1 Hst1 Hm1 ltac:(lia) ltac:(apply Hdom1; eauto)) as H1.
    revert H1. unfold passes. destruct (log_pass_filtered _ _ _ _ _) as [[m' st']|[]]; cbn; try done.
    intros [Em Hs']. split; [done|]. by apply (same_trans _ st1). }
  intros [m' st'] [Em Hs']. apply ends_Ok. split; [|done].
  destruct Em as [->| ->]; [left|right]; destruct m; unfold set_depth, set_error; cbn; f_equal; lia.
Qed.

(** ** Messages *)

(** A time after 1970 with a text that fits. *)
Definition time_ok (t : log_time) : Prop :=
  0 <= lt_sec t <= 2 ^ 40 /\ 0 <= lt_usec t < 1000000 /\ (length (text_or_nil (lt_text t)) < 24)%nat.

Lemma make_msg_ok cat text now : 0 <= LS_GET_LEVEL cat < 8 -> has_flag cat L_SIGHANDLER = false -> short text ->
  time_ok now -> exists m, make_msg cat text now = Ok m /\ msg_ok m /\ m_depth m = 0.
Proof.
  intros Hl Hs Ht (Hsec & Husec & Htext). unfold make_msg. rewrite Hs.
  destruct (lt_text now) as [t|]; cbn [text_or_nil from_option id] in Htext.
  - rewrite (proj2 (Nat.ltb_lt _ _) Htext), bind_Ok. eexists. split; [done|]. split; [|done].
    split; cbn [m_flags m_tv m_raw_msg m_stime m_sutime m_depth]; try done; try lia.
    + do 2 eexists. split; [done|]. lia.
    + unfold short, sanitize in *. by rewrite length_map.
    + rewrite length_take. lia.
  - rewrite bind_Ok. eexists. split; [done|]. split; [|done].
    split; cbn [m_flags m_tv m_raw_msg m_stime m_sutime m_depth]; try done; try (cbn; lia).
    + do 2 eexists. split; [done|]. lia.
    + unfold short, sanitize in *. by rewrite length_map.
Qed.

Lemma vmsg_to_ok l cat text now st : log_ok st -> is_Some (lg_streams st !! l) -> 0 <= LS_GET_LEVEL cat < 8 ->
  has_flag cat L_SIGHANDLER = false -> short text -> time_ok now ->
  ends D (same_streams st) (vmsg_to strerror l cat text now st).
Proof.
  intros Hst Hl Hc Hs Ht Hnow. unfold vmsg_to. destruct (make_msg_ok cat text now Hc Hs Ht Hnow) as (m & -> & Hm & Hd).
  rewrite bind_Ok. assert (Hr : rank m < Z.of_nat log_fuel).
  { unfold rank. rewrite Hd. destruct (has_flag (m_flags m) _); unfold log_fuel; lia. }
  revert Hr. generalize log_fuel. intros fuel Hr.
  eapply ends_bind; [by apply log_pass_msg_ok|]. intros [m' st'] [Em [Hst' Hdom]].
  destruct (m_error m'); [|by apply ends_Ok].
  assert (Hm' : msg_ok m' /\ rank m' = rank m) by (destruct Em as [->| ->]; [done|by apply set_error_ok]).
  destruct Hm' as [Hm' Hr']. eapply ends_bind; [apply log_pass_msg_ok; [by rewrite Hr'|done|done|apply Hst']|].
  intros [m2 st2] [_ Hs2]. apply ends_Ok. by apply (same_trans _ st').
Qed.

Lemma stream_by_flags_ok st flags : log_ok st -> (forall l, l ∈ lg_ptr st -> is_Some (lg_streams st !! l)) ->
  exists r, log_stream_by_flags st flags = Ok r /\ forall l, r = Some l -> is_Some (lg_streams st !! l).
Proof.
  intros Hst Hptr. unfold log_stream_by_flags.
  assert (Hdef : forall l, (if LS_GET_STRNUM flags =? 0 then Some log_stream_default else None) = Some l -> is_Some (lg_streams st !! l)).
  { intros l. destruct (_ =? 0); [|done]. intros [= <-]. apply Hst. }
  destruct (Z.ltb_spec (LS_GET_STRNUM flags) 0); [by eexists|].
  destruct (Z.leb_spec (Z.of_nat (length (lg_ptr st))) (LS_GET_STRNUM flags)); [by eexists|]. cbn [orb].
  destruct (lookup_lt_is_Some_2 (lg_ptr st) (Z.to_nat (LS_GET_STRNUM flags))) as [l Hl]; [lia|]. rewrite Hl. cbn [deref].
  rewrite bind_Ok. destruct (Hptr l) as [s Hs]; [by apply list_elem_of_lookup_2 in Hl|].
  unfold get_stream. rewrite Hs. cbn [deref]. rewrite bind_Ok. eexists. split; [done|].
  intros k. destruct (_ =? -1); [apply Hdef|]. intros [= <-]. eauto.
Qed.

Lemma vmsg_ok cat text now warn st : log_ok st -> (forall l, l ∈ lg_ptr st -> is_Some (lg_streams st !! l)) ->
  0 <= LS_GET_LEVEL cat < 8 -> has_flag cat L_SIGHANDLER = false -> short text -> time_ok now -> time_ok warn ->
  ends D (same_streams st) (vmsg strerror cat text now warn st).
Proof.
  intros Hst Hptr Hc Hs Ht Hnow Hwarn. unfold vmsg. rewrite Hs.
  destruct (stream_by_flags_ok st cat Hst Hptr) as (r & -> & Hr). rewrite bind_Ok.
  destruct r as [l|]; [apply vmsg_to_ok; try done; by apply Hr|].
  destruct (stream_by_flags_ok st (Z.lor (Z.land LS_CTRL_MASK cat) L_WARN) Hst Hptr) as (r' & -> & Hr'). rewrite bind_Ok.
  eapply ends_bind; [apply vmsg_to_ok; try done|].
  - destruct r' as [l|]; [by apply Hr'|apply Hst].
  - unfold LS_GET_LEVEL. rewrite Z.land_lor_distr_l, (Z.land_comm LS_CTRL_MASK), <- Z.land_assoc.
    change (Z.land LS_CTRL_MASK LS_LEVEL_MASK) with 0. rewrite Z.land_0_r. done.
  - rewrite has_flag_lor, Z.land_comm, sighandler_of_ctrl, Hs. done.
  - assert (Hn : (length (print_int (LS_GET_STRNUM cat)) <= 11)%nat).
    { apply length_print_int. unfold LS_GET_STRNUM. change LS_STRNUM_MASK with (Z.shiftl (Z.ones 16) 8). change LS_STRNUM_POS with 8.
      rewrite Z.shiftr_land, Z.shiftr_shiftl_l by lia. change (8 - 8) with 0. rewrite Z.shiftl_0_r, Z.land_ones by lia.
      pose proof (Z.mod_pos_bound (Z.shiftr cat 8) (2 ^ 16)). unfold INT32_MIN, INT32_MAX. lia. }
    unfold short, TEXT_MAX. length_text.
  - intros st' [Hst' Hdom]. pose proof (vmsg_to_ok log_stream_default cat text now st' Hst' (lo_default _ Hst') Hc Hs Ht Hnow) as H1.
    revert H1. destruct (vmsg_to _ _ _ _ _ _) as [st2|[]]; cbn; try done. intros H1. by apply (same_trans _ st').
Qed.

End delivery.

(** ** Claims *)

Lemma sanitize_no_newline text : Forall (fun c => c <> 10) (sanitize text).
Proof.
  unfold sanitize. apply Forall_map, Forall_true. intros c. destruct (Z.ltb_spec c 32), (Z.eqb_spec c 9); cbn; lia.
Qed.

Lemma print_int06_no_newline z : Forall (fun c => c <> 10) (print_int06 z).
Proof.
  assert (HP : forall c, 32 <= c < 127 -> c <> 10) by lia.
  unfold print_int06. destruct (Z.ltb_spec z 0); [constructor; [lia|]|]; apply Forall_app;
    (split; [apply Forall_replicate; lia|apply P_digits; [done|lia]]).
Qed.

(** The parts of a message have no newlines if the text of the time has none. *)
Lemma make_msg_no_newline cat text now m : make_msg cat text now = Ok m -> 10 ∉ text_or_nil (lt_text now) ->
  Forall (fun c => c <> 10) (m_raw_msg m) /\ Forall (fun c => c <> 10) (m_stime m) /\ Forall (fun c => c <> 10) (m_sutime m).
Proof.
  intros E Ht. unfold make_msg in E. assert (Hno : forall l, 10 ∉ l -> Forall (fun c => c <> 10) l).
  { intros l Hl. apply Forall_forall. intros c Hc ->. done. }
  destruct (if has_flag cat L_SIGHANDLER then None else lt_text now) as [t|] eqn:Et.
  - destruct (length t <? 24)%nat; [|discriminate]. rewrite bind_Ok in E. injection E as <-. cbn [m_raw_msg m_stime m_sutime].
    destruct (has_flag cat L_SIGHANDLER); [discriminate|]. rewrite Et in Ht. split; [apply sanitize_no_newline|].
    split; [by apply Hno|]. constructor; [lia|]. apply Forall_take, print_int06_no_newline.
  - rewrite bind_Ok in E. injection E as <-. cbn [m_raw_msg m_stime m_sutime]. split; [apply sanitize_no_newline|].
    split; apply (bool_decide_unpack _); vm_compute; exact I.
Qed.

(** C36: the text of a message never overflows the buffer whose size is computed
    before, for any stream, format, title, process id and type, and it is one
    line: a newline at the end and, whatever the text passed to [msg], none
    before it, unless the title or a name contains one. *)
Theorem log_line_fits {H : Type} (s : log_stream H) cat text now title pid type m :
  make_msg cat text now = Ok m -> 0 <= LS_GET_LEVEL cat < 8 -> INT32_MIN <= pid <= INT32_MAX ->
  message_bound s m title type <= INT32_MAX ->
  exists body, format_message s m title pid type = Ok (body ++ [10]) /\
    Z.of_nat (length (body ++ [10])) + 1 <= message_bound s m title type /\
    (10 ∉ text_or_nil title -> 10 ∉ text_or_nil (ls_name s) -> 10 ∉ text_or_nil type ->
     10 ∉ text_or_nil (lt_text now) -> 10 ∉ body).
Proof.
  intros E Hl Hp Hb.
  assert (Hf : m_flags m = cat).
  { unfold make_msg in E. apply bind_Ok_inv in E as ([[[tv tm] st] su] & _ & E). by injection E as <-. }
  rewrite <- Hf in Hl.
  destruct (format_message_ok (fun _ => True) ltac:(done) s m title pid type) as (body & Eb & _ & Hlen & _);
    try done; try (by apply Forall_true).
  exists body. split; [done|]. split; [rewrite length_app; cbn [length]; lia|]. intros H1 H2 H3 H4.
  destruct (make_msg_no_newline cat text now m E H4) as (Praw & Pst & Psu).
  assert (Hno : forall l, 10 ∉ l -> Forall (fun c => c <> 10) l).
  { intros l Hl'. apply Forall_forall. intros c Hc ->. done. }
  destruct (format_message_ok (fun c => c <> 10) ltac:(intros c Hc; cbn; lia) s m title pid type) as (body' & Eb' & HP & _);
    try done; try (by apply Hno).
  rewrite Eb in Eb'. injection Eb' as Eb'. apply app_inj_tail in Eb' as [<- _].
  rewrite Forall_forall in HP. intros Hin. by apply (HP 10 Hin).
Qed.

(** A warning of two lines, with all parts of the format. *)
Lemma log_line_fits_witness :
  let s := {| ls_name := Some (bytes_of_string "stderr"); ls_regnum := 256; ls_levels := 255; ls_types := 1;
              ls_msgfmt := 127; ls_use_count := 1; ls_stream_flags := 0; ls_limits := None; ls_substreams := [];
              ls_handler := Some () |} in
  let now := {| lt_sec := 0; lt_usec := 42; lt_text := Some (bytes_of_string "1970-01-01 00:00:00") |} in
  exists m body, make_msg L_WARN [65; 10; 66] now = Ok m /\
    format_message s m (Some (bytes_of_string "dnscol")) 77 (Some (bytes_of_string "spam")) = Ok (body ++ [10]) /\
    body = bytes_of_string "W 1970-01-01 00:00:00.000042 [dnscol (77)] <stderr> {spam} A" ++ [127; 66].
Proof.
  intros s now. destruct (make_msg L_WARN [65; 10; 66] now) as [m|] eqn:E; [|discriminate]. exists m.
  destruct (log_line_fits s L_WARN [65; 10; 66] now (Some (bytes_of_string "dnscol")) 77 (Some (bytes_of_string "spam")) m E)
    as (body & Eb & _); [vm_compute; split; [discriminate|reflexivity]|vm_compute; split; discriminate|
                         vm_compute in E; injection E as <-; vm_compute; discriminate|].
  exists body. split; [reflexivity|]. split; [exact Eb|]. vm_compute in E. injection E as <-.
  vm_compute in Eb. injection Eb as Eb.
  apply (app_inj_tail body (bytes_of_string "W 1970-01-01 00:00:00.000042 [dnscol (77)] <stderr> {spam} A" ++ [127; 66]) 10 10).
  symmetry. exact Eb.
Defined.

(** C35: logging ends for every graph of streams, also a cyclic one: with
    handlers that return, a message that does not come from a signal handler is
    delivered or given up after a bounded depth of calls, without undefined
    behaviour and with the state in order; the program exits only when the
    handlers may exit or a stream makes errors fatal ([D]). *)
Theorem logging_ends {H W : Type} (LH : LogHandlers H W) (strerror : Z -> list Z) (D : Prop) (handler_ok : H -> Prop) st cat text now warn :
  (forall h name m text w, handler_ok h -> short (text_or_nil name) ->
     ends D (fun '(_, h, name, _) => handler_ok h /\ short (text_or_nil name)) (log_handle h name m text w)) ->
  log_ok D handler_ok st -> (forall l, l ∈ lg_ptr st -> is_Some (lg_streams st !! l)) ->
  0 <= LS_GET_LEVEL cat < 8 -> has_flag cat L_SIGHANDLER = false -> short text -> time_ok now -> time_ok warn ->
  match vmsg strerror cat text now warn st with
  | Ok st' => log_ok D handler_ok st'
  | Fail (Died _) => D
  | Fail _ => False
  end.
Proof.
  intros Hh Hst Hptr Hc Hs Ht Hnow Hwarn.
  pose proof (vmsg_ok strerror D handler_ok Hh cat text now warn st Hst Hptr Hc Hs Ht Hnow Hwarn) as H1.
  unfold ends in H1. destruct (vmsg _ _ _ _ _ _) as [st'|[]]; try done. apply H1.
Qed.

(** A handler that collects the lines. *)
Definition collect_lines : LogHandlers () (list (list Z)) :=
  {| log_handle h name _ text w := Ok (0, h, name, w ++ [text]); log_close_hook _ w := Ok w |}.

Definition plain_stream (regnum : Z) (subs : list Z) (handler : option ()) : log_stream () :=
  {| ls_name := None; ls_regnum := regnum; ls_levels := 2 ^ 32 - 1; ls_types := 2 ^ 32 - 1; ls_msgfmt := 0;
     ls_use_count := 1; ls_stream_flags := 0; ls_limits := None; ls_substreams := subs; ls_handler := handler |}.

(** Stream 0 of the registry and a stream that are substreams of each other. *)
Definition cyclic_streams : log_state () (list (list Z)) :=
  {| lg_streams := list_to_map [(0, plain_stream 0 [] (Some ())); (1, plain_stream 0 [2] (Some ())); (2, plain_stream 256 [1] (Some ()))];
     lg_tbfs := ∅; lg_ptr := [1; 2]; lg_free := 2 ^ 32 - 1; lg_initialized := true; lg_type_names := None;
     lg_title := None; lg_pid := 0; lg_world := [] |}.

Lemma cyclic_streams_ok : log_ok False (fun _ => True) cyclic_streams.
Proof.
  assert (Hall : forall l s, lg_streams cyclic_streams !! l = Some s -> l = 0 \/ l = 1 \/ l = 2).
  { intros l s Hl. apply elem_of_list_to_map_2 in Hl. cbn in Hl. set_solver. }
  split; [by eexists| |done|done|split; done|done].
  intros l s Hl. destruct (Hall l s Hl) as [->|[->| ->]]; vm_compute in Hl; injection Hl as <-;
    (split; [intros k Hk; cbn in Hk|done|done|done|done]); [by apply elem_of_nil in Hk|..];
    apply list_elem_of_singleton in Hk as ->; by eexists.
Qed.

(** The message is given up in the cycle and written once, by the default
    stream. *)
Lemma logging_ends_witness :
  exists st', vmsg (LH := collect_lines) (fun _ => []) L_INFO [72; 105]
      {| lt_sec := 0; lt_usec := 0; lt_text := None |} {| lt_sec := 0; lt_usec := 0; lt_text := None |} cyclic_streams = Ok st' /\
    log_ok False (fun _ => True) st' /\ lg_world st' = [[72; 105; 10]].
Proof.
  pose proof (logging_ends collect_lines (fun _ => []) False (fun _ => True) cyclic_streams L_INFO [72; 105]
    {| lt_sec := 0; lt_usec := 0; lt_text := None |} {| lt_sec := 0; lt_usec := 0; lt_text := None |}) as H1.
  assert (Ew : match vmsg (LH := collect_lines) (fun _ => []) L_INFO [72; 105]
      {| lt_sec := 0; lt_usec := 0; lt_text := None |} {| lt_sec := 0; lt_usec := 0; lt_text := None |} cyclic_streams with
      | Ok st' => bool_decide (lg_world st' = [[72; 105; 10]]) | _ => false end = true) by (vm_compute; reflexivity).
  destruct (vmsg _ _ _ _ _ _) as [st'|e]; [|discriminate]. apply bool_decide_eq_true in Ew. exists st'.
  split; [done|]. split; [|done]. apply H1.
  - intros h name m text w _ Hn. exact (conj I Hn).
  - exact cyclic_streams_ok.
  - intros l Hl. cbn in Hl. apply elem_of_cons in Hl as [->|Hl]; [by eexists|]. apply list_elem_of_singleton in Hl as ->. by eexists.
  - vm_compute. split; [discriminate|reflexivity].
  - reflexivity.
  - vm_compute. discriminate.
  - repeat split; vm_compute; (discriminate || reflexivity || lia).
  - repeat split; vm_compute; (discriminate || reflexivity || lia).
Defined.

(** Too deep a nesting is reported to the default stream with the depth of the
    message that was too deep, so that the report is refused as well: nothing is
    written, whatever the streams are. *)
Theorem nesting_report_lost {H W : Type} (LH : LogHandlers H W) strerror fuel l m (st : log_state H W) s d :
  lg_streams st !! l = Some s -> lg_streams st !! log_stream_default = Some d -> LS_MAX_DEPTH < m_depth m ->
  match log_pass_msg strerror (S (S fuel)) l m st with
  | Ok (m', st') => m' = set_error m /\ lg_world st' = lg_world st
  | Fail e => has_flag (ls_stream_flags s) LSFLAG_ERR_IS_FATAL = true
  end.
Proof.
  intros Hs Hd Hm. cbn [log_pass_msg]. unfold log_report_err at 1. unfold get_stream. rewrite Hs. cbn [deref]. rewrite !bind_Ok.
  rewrite (proj2 (Z.ltb_lt _ _) Hm). destruct (has_flag (m_flags m) L_LOGGER_ERR); [done|].
  destruct (has_flag (ls_stream_flags s) LSFLAG_ERR_REPORTED); [done|]. set (st1 := put_stream st l _).
  assert (exists d', lg_streams st1 !! log_stream_default = Some d') as [d' Hd'].
  { subst st1. cbn. destruct (decide (l = log_stream_default)) as [->|]; [rewrite lookup_insert_eq; eauto|rewrite lookup_insert_ne by done; eauto]. }
  set (m1 := replace_text _ _ _). cbn [log_pass_msg]. unfold get_stream. rewrite Hd'. cbn [deref]. rewrite bind_Ok.
  change (m_depth m1) with (m_depth m). rewrite (proj2 (Z.ltb_lt _ _) Hm).
  unfold log_report_err, get_stream. rewrite Hd'. cbn [deref]. rewrite bind_Ok.
  assert (has_flag (m_flags m1) L_LOGGER_ERR = true) as ->.
  { subst m1. cbn [replace_text m_flags]. rewrite !has_flag_lor. change (has_flag L_LOGGER_ERR L_LOGGER_ERR) with true. by rewrite orb_true_r. }
  rewrite !bind_Ok. by destruct (has_flag (ls_stream_flags s) LSFLAG_ERR_IS_FATAL).
Qed.
