(* ===== verification/LogStream.v ===== *)
(** * The registry of log streams

    libucw/ucw/log-stream.c: streams are numbered by their position in an
    array, counted by their references, and recycled through a list of free
    positions that is kept in the member [levels] of closed streams. *)

From stdpp Require Import base numbers list gmap strings.
From S2P Require Import Prelude Log.

(** [~0U], the end of the list of free positions and the mask of everything. *)
Definition ALL_ONES : Z := 2 ^ 32 - 1.

(** A location that is not in use. *)
Definition new_loc {A} (m : gmap Z A) : Z := 1 + map_fold (fun k _ r => Z.max k r) 0 m.

Section registry.
Context {H W : Type} `{LH : LogHandlers H W}.

Definition set_registry (st : log_state H W) (streams : gmap Z (log_stream H)) (ptr : list Z) (free : Z) : log_state H W :=
  {| lg_streams := streams; lg_tbfs := lg_tbfs st; lg_ptr := ptr; lg_free := free; lg_initialized := lg_initialized st;
     lg_type_names := lg_type_names st; lg_title := lg_title st; lg_pid := lg_pid st; lg_world := lg_world st |}.
Definition set_init (st : log_state H W) (b : bool) : log_state H W :=
  {| lg_streams := lg_streams st; lg_tbfs := lg_tbfs st; lg_ptr := lg_ptr st; lg_free := lg_free st; lg_initialized := b;
     lg_type_names := lg_type_names st; lg_title := lg_title st; lg_pid := lg_pid st; lg_world := lg_world st |}.
Definition set_type_names (st : log_state H W) (t : option (list (list Z))) : log_state H W :=
  {| lg_streams := lg_streams st; lg_tbfs := lg_tbfs st; lg_ptr := lg_ptr st; lg_free := lg_free st;
     lg_initialized := lg_initialized st; lg_type_names := t; lg_title := lg_title st; lg_pid := lg_pid st;
     lg_world := lg_world st |}.

Definition set_use_count (s : log_stream H) (n : Z) : log_stream H :=
  {| ls_name := ls_name s; ls_regnum := ls_regnum s; ls_levels := ls_levels s; ls_types := ls_types s;
     ls_msgfmt := ls_msgfmt s; ls_use_count := n; ls_stream_flags := ls_stream_flags s; ls_limits := ls_limits s;
     ls_substreams := ls_substreams s; ls_handler := ls_handler s |}.
Definition set_substreams (s : log_stream H) (l : list Z) : log_stream H :=
  {| ls_name := ls_name s; ls_regnum := ls_regnum s; ls_levels := ls_levels s; ls_types := ls_types s;
     ls_msgfmt := ls_msgfmt s; ls_use_count := ls_use_count s; ls_stream_flags := ls_stream_flags s;
     ls_limits := ls_limits s; ls_substreams := l; ls_handler := ls_handler s |}.
Definition set_msgfmt (s : log_stream H) (f : Z) : log_stream H :=
  {| ls_name := ls_name s; ls_regnum := ls_regnum s; ls_levels := ls_levels s; ls_types := ls_types s;
     ls_msgfmt := f; ls_use_count := ls_use_count s; ls_stream_flags := ls_stream_flags s; ls_limits := ls_limits s;
     ls_substreams := ls_substreams s; ls_handler := ls_handler s |}.
Definition set_closed (s : log_stream H) (next : Z) : log_stream H :=
  {| ls_name := ls_name s; ls_regnum := -1; ls_levels := next; ls_types := ls_types s; ls_msgfmt := ls_msgfmt s;
     ls_use_count := ls_use_count s; ls_stream_flags := ls_stream_flags s; ls_limits := ls_limits s;
     ls_substreams := ls_substreams s; ls_handler := ls_handler s |}.

(** [log_ref_stream]. *)
Definition log_ref_stream (l : Z) (st : log_state H W) : outcome (log_state H W) :=
  s ← get_stream st l; Ok (put_stream st l (set_use_count s (u32 (ls_use_count s + 1)))).

Definition log_add_substream (where_ what : Z) (st : log_state H W) : outcome (log_state H W) :=
  st ← log_ref_stream what st;
  s ← get_stream st where_;
  Ok (put_stream st where_ (set_substreams s (ls_substreams s ++ [what]))).

(** A stream as [log_new_stream] leaves it, with the reference it returns. *)
Definition fresh_stream (index : Z) : log_stream H :=
  {| ls_name := None; ls_regnum := LS_SET_STRNUM index; ls_levels := ALL_ONES; ls_types := ALL_ONES; ls_msgfmt := 0;
     ls_use_count := 1; ls_stream_flags := 0; ls_limits := None; ls_substreams := []; ls_handler := None |}.

(** [log_new_stream] after the initialization.  [xrealloc] is taken to move the
    block, so that pointers to a closed stream are dangling. *)
Definition alloc_stream (st : log_state H W) : outcome (Z * log_state H W) :=
  let l := new_loc (lg_streams st) in
  if lg_free st =? ALL_ONES then
    let index := Z.of_nat (length (lg_ptr st)) in
    Ok (l, set_registry st (<[l := fresh_stream index]> (lg_streams st)) (lg_ptr st ++ [l]) (lg_free st))
  else
    let index := lg_free st in
    old ← deref (lg_ptr st !! Z.to_nat index);
    s ← get_stream st old;
    Ok (l, set_registry st (<[l := fresh_stream index]> (delete old (lg_streams st)))
             (<[Z.to_nat index := l]> (lg_ptr st)) (ls_levels s)).

Definition log_init_module (st : log_state H W) : outcome (log_state H W) :=
  if lg_initialized st then Ok st
  else
    let st := set_init (set_registry st (lg_streams st) [] ALL_ONES) true in
    '(l, st) ← alloc_stream st;
    _ ← c_assert (bool_decide (lg_ptr st !! 0%nat = Some l));
    s ← get_stream st l;
    _ ← c_assert (ls_regnum s =? 0);
    log_add_substream l log_stream_default
      (put_stream st l (set_handler s (Some (bytes_of_string "default")) (ls_handler s))).

Definition log_new_stream (st : log_state H W) : outcome (Z * log_state H W) :=
  st ← log_init_module st; alloc_stream st.

(** [log_rm_substream] over a function that stands for [log_close_stream]:
    [kept] are the nodes passed, [rest] those to come.  A list that changes
    under the loop leaves it with a freed node. *)
Fixpoint rm_substreams (close : Z -> log_state H W -> outcome (bool * log_state H W)) (where_ : Z) (what : option Z)
    (kept rest : list Z) (cnt : Z) (st : log_state H W) : outcome (Z * log_state H W) :=
  match rest with
  | [] => Ok (cnt, st)
  | i :: rest =>
      if bool_decide (what = None \/ what = Some i) then
        s ← get_stream st where_;
        '(_, st) ← close i (put_stream st where_ (set_substreams s (kept ++ rest)));
        s ← get_stream st where_;
        if bool_decide (ls_substreams s = kept ++ rest) then rm_substreams close where_ what kept rest (cnt + 1) st
        else Fail UndefinedBehaviour
      else rm_substreams close where_ what (kept ++ [i]) rest cnt st
  end.

(** [log_close_stream]: whether the stream was closed.  Every closing goes
    with one reference of a stream, so that the number of references is enough
    fuel. *)
Fixpoint log_close_stream (fuel : nat) (l : Z) (st : log_state H W) : outcome (bool * log_state H W) :=
  match fuel with
  | O => Fail OutOfFuel
  | S fuel =>
      s ← get_stream st l;
      _ ← c_assert (negb (ls_use_count s =? 0));
      let st := put_stream st l (set_use_count s (ls_use_count s - 1)) in
      if negb (ls_use_count s - 1 =? 0) then Ok (false, st)
      else
        '(_, st) ← rm_substreams (log_close_stream fuel) l None [] (ls_substreams s) 0 st;
        s ← get_stream st l;
        w ← (match ls_handler s with Some h => log_close_hook h (lg_world st) | None => Ok (lg_world st) end);
        let st := set_world (put_stream st l (set_closed s (lg_free st))) w in
        Ok (true, set_registry st (lg_streams st) (lg_ptr st) (LS_GET_STRNUM (ls_regnum s)))
  end.

Definition log_rm_substream (fuel : nat) (where_ : Z) (what : option Z) (st : log_state H W) : outcome (Z * log_state H W) :=
  s ← get_stream st where_;
  rm_substreams (log_close_stream fuel) where_ what [] (ls_substreams s) 0 st.

(** The number of links between streams. *)
Definition links (st : log_state H W) : nat :=
  map_fold (fun _ s n => (length (ls_substreams s) + n)%nat) 0%nat (lg_streams st).

(** [log_set_format]; the fuel bounds the depth of the streams. *)
Fixpoint log_set_format (fuel : nat) (l mask data : Z) (st : log_state H W) : outcome (log_state H W) :=
  match fuel with
  | O => Fail OutOfFuel
  | S fuel =>
      s ← get_stream st l;
      let st := put_stream st l (set_msgfmt s (Z.lor (Z.land (ls_msgfmt s) mask) data)) in
      foldM (fun st i => log_set_format fuel i mask data st) st (ls_substreams s)
  end.

(** [log_set_default_stream]. *)
Definition log_set_default_stream (ls : Z) (st : log_state H W) : outcome (log_state H W) :=
  def ← log_stream_by_flags st 0;
  def ← deref def;
  '(_, st) ← log_rm_substream (S (links st)) def None st;
  st ← log_add_substream def ls st;
  '(_, st) ← log_close_stream (S (links st)) ls st;
  Ok st.

(** [log_close_all]. *)
Definition log_close_all (st : log_state H W) : outcome (log_state H W) :=
  if negb (lg_initialized st) then Ok st
  else
    st ← foldM (fun st l =>
            s ← get_stream st l;
            if 0 <=? ls_regnum s then '(_, st) ← log_rm_substream (S (links st)) l None st; Ok st else Ok st)
          st (lg_ptr st);
    st ← foldM (fun st l =>
            s ← get_stream st l;
            st ← (if 0 <=? ls_regnum s then '(_, st) ← log_close_stream (S (links st)) l st; Ok st else Ok st);
            s ← get_stream st l;
            _ ← c_assert ((ls_regnum s <? 0) || (ls_use_count s =? 0));
            Ok (set_streams st (delete l (lg_streams st))))
          st (lg_ptr st);
    Ok (set_init (set_registry st (lg_streams st) [] ALL_ONES) false).

(** ** Types of messages *)

(** The loop over the names from position [id] on. *)
Fixpoint find_type (names : list (list Z)) (id : Z) (name : list Z) : option Z :=
  match names with
  | [] => None
  | n :: names => if bool_decide (n = name) then Some id else find_type names (id + 1) name
  end.

Definition log_register_type (name : list Z) (st : log_state H W) : outcome (Z * log_state H W) :=
  let names := default [bytes_of_string "default"] (lg_type_names st) in
  match find_type names 0 name with
  | Some id => Ok (LS_SET_TYPE id, set_type_names st (Some names))
  | None =>
      let id := Z.of_nat (length names) in
      _ ← c_assert (id <? LS_NUM_TYPES);
      Ok (LS_SET_TYPE id, set_type_names st (Some (names ++ [name])))
  end.

Definition log_find_type (name : list Z) (st : log_state H W) : Z :=
  if bool_decide (name = bytes_of_string "default") then 0
  else
    match lg_type_names st with
    | None => -1
    | Some names => match find_type names 0 name with Some id => LS_SET_TYPE id | None => -1 end
    end.

End registry.
