(* ===== verification/LogFile.v ===== *)
(** * Handlers of log streams

    The default handler of libucw/ucw/log.c, log-file.c and log-syslog.c: what
    happens to a formatted message at the end of a stream.  They implement the
    interface [LogHandlers]; what the system answers is an argument. *)

From stdpp Require Import base numbers list gmap strings.
From S2P Require Import Prelude Log LogStream LogInv.

(** ** Data *)

Definition FF_FORMAT_NAME : Z := 1.
Definition FF_CLOSE_FD : Z := 2.
Definition FF_FD2_FOLLOWS : Z := 4.
Definition MAX_EXPAND : Z := 64.

(** The private data of the handlers ([struct file_stream], [struct
    syslog_stream]).  [orig_name] is [None] where the memory was not
    initialized: [log_new_stream] clears only the common part. *)
Inductive log_handler : Set :=
| HDefault
| HFile (fd flags : Z) (orig_name : option (list Z))
| HSyslog (facility : Z).

(** What the handlers ask of the system. *)
Inductive log_event : Set :=
| EvOpen (name : list Z) (fd : Z)
| EvClose (fd : Z)
| EvDup2 (fd fd2 : Z)
| EvWrite (fd : Z) (text : list Z)
| EvOpenlog (options : Z)
| EvSyslog (prio : Z) (text : list Z)
| EvCloselog.

#[global] Instance log_event_eq_dec : EqDecision log_event.
Proof. solve_decision. Defined.

(** The events so far and the static variables of the two modules. *)
Record log_world : Set := {
  lw_events : list log_event;
  lw_switch_nest : Z;
  lw_stderr_replaced : bool;
  lw_syslog_open_count : Z;
}.

Definition event (e : log_event) (w : log_world) : log_world :=
  {| lw_events := lw_events w ++ [e]; lw_switch_nest := lw_switch_nest w; lw_stderr_replaced := lw_stderr_replaced w;
     lw_syslog_open_count := lw_syslog_open_count w |}.
Definition set_stderr_replaced (w : log_world) : log_world :=
  {| lw_events := lw_events w; lw_switch_nest := lw_switch_nest w; lw_stderr_replaced := true;
     lw_syslog_open_count := lw_syslog_open_count w |}.
Definition set_switch_nest (n : Z) (w : log_world) : log_world :=
  {| lw_events := lw_events w; lw_switch_nest := n; lw_stderr_replaced := lw_stderr_replaced w;
     lw_syslog_open_count := lw_syslog_open_count w |}.
Definition set_syslog_count (n : Z) (w : log_world) : log_world :=
  {| lw_events := lw_events w; lw_switch_nest := lw_switch_nest w; lw_stderr_replaced := lw_stderr_replaced w;
     lw_syslog_open_count := n |}.

(** The answers of the system: the error number of a write (0 for success), the
    descriptor of an opened file, the local calendar time formatted. *)
Class LogSystem : Type := {
  sys_write : log_world -> Z -> list Z -> Z;
  sys_open : log_world -> list Z -> option Z;
  sys_strftime : list Z -> Z -> list Z;
}.

(** ** Files *)

Section files.
Context `{LS : LogSystem}.

(** [do_log_reopen]: the new descriptor; the name of the stream becomes
    [name]. *)
Definition do_log_reopen (fd flags : Z) (name : list Z) (w : log_world) : outcome (Z * log_world) :=
  match sys_open w name with
  | None => Fail (Died "Unable to open log file")
  | Some new =>
      let w := event (EvOpen name new) w in
      let w := if 0 <=? fd then event (EvClose fd) w else w in
      let w := if has_flag flags FF_FD2_FOLLOWS then set_stderr_replaced (event (EvDup2 new 2) w) else w in
      Ok (new, w)
  end.

(** [do_log_switch] at a time: whether it switched, the descriptor and the
    name.  [strftime] returns 0 when the expansion does not fit, which the
    check of the code does not catch: the name is then not initialized. *)
Definition do_log_switch (fd flags : Z) (orig_name : option (list Z)) (name : option (list Z)) (time : Z)
    (w : log_world) : outcome (bool * Z * option (list Z) * log_world) :=
  if negb (has_flag flags FF_FORMAT_NAME) then
    if 0 <=? fd then Ok (true, fd, name, w)
    else orig ← deref orig_name; '(fd, w) ← do_log_reopen fd flags orig w; Ok (true, fd, Some orig, w)
  else
    orig ← deref orig_name;
    if lw_switch_nest w =? 0 then
    let expanded := sys_strftime orig time in
    if Z.of_nat (length expanded) <? Z.of_nat (length orig) + MAX_EXPAND then
      if bool_decide (name = Some expanded) then Ok (false, fd, name, w)
      else '(fd, w) ← do_log_reopen fd flags expanded w; Ok (true, fd, Some expanded, w)
    else Fail UndefinedBehaviour
  else Ok (false, fd, name, w).

(** ** The handlers *)

(** [default_log_handler]: errors are ignored. *)
Definition default_log_handler (text : list Z) (w : log_world) : Z * log_world := (0, event (EvWrite 2 text) w).

(** [file_handler]: the error, the descriptor and the name of the stream. *)
Definition file_handler (fd flags : Z) (orig name : option (list Z)) (m : log_msg) (text : list Z) (w : log_world) :
    outcome (Z * Z * option (list Z) * log_world) :=
  '(fd, name, w) ←
    (match m_tv m with
     | Some (sec, _) =>
         if has_flag flags FF_FORMAT_NAME && m_tm m then
           '(_, fd, name, w) ← do_log_switch fd flags orig name sec w; Ok (fd, name, w)
         else Ok (fd, name, w)
     | None => Ok (fd, name, w)
     end);
  Ok (sys_write w fd text, fd, name, event (EvWrite fd text) w).

(** [syslog_level], with the numbers of syslog.h. *)
Definition syslog_level (level : Z) : Z := default 5 ([7; 6; 4; 3; 6; 4; 3; 2] !! Z.to_nat level).

Definition syslog_handler (facility : Z) (m : log_msg) (text : list Z) (w : log_world) : Z * log_world :=
  (0, event (EvSyslog (Z.lor (syslog_level (LS_GET_LEVEL (m_flags m))) facility) text) w).

(** The call of [ls->handler]. *)
Definition call_handler (h : log_handler) (name : option (list Z)) (m : log_msg) (text : list Z) (w : log_world) :
    outcome (Z * log_handler * option (list Z) * log_world) :=
  match h with
  | HDefault => let '(err, w) := default_log_handler text w in Ok (err, h, name, w)
  | HFile fd flags orig => '(err, fd, name, w) ← file_handler fd flags orig name m text w; Ok (err, HFile fd flags orig, name, w)
  | HSyslog facility => let '(err, w) := syslog_handler facility m text w in Ok (err, h, name, w)
  end.

(** [file_close], which frees [orig_name]. *)
Definition file_close (fd flags : Z) (orig : option (list Z)) (w : log_world) : outcome log_world :=
  _ ← deref orig; Ok (if has_flag flags FF_CLOSE_FD && (0 <=? fd) then event (EvClose fd) w else w).

Definition syslog_close (w : log_world) : log_world :=
  let n := lw_syslog_open_count w - 1 in
  if n =? 0 then event EvCloselog (set_syslog_count n w) else set_syslog_count n w.

(** The call of [ls->close]. *)
Definition close_handler (h : log_handler) (w : log_world) : outcome log_world :=
  match h with
  | HDefault => Ok w
  | HFile fd flags orig => file_close fd flags orig w
  | HSyslog _ => Ok (syslog_close w)
  end.

#[global] Instance library_handlers : LogHandlers log_handler log_world :=
  {| log_handle := call_handler; log_close_hook := close_handler |}.

(** ** New streams *)

Abbreviation state := (log_state log_handler log_world).

(** The members a new stream gets. *)
Definition setup_stream (s : log_stream log_handler) (name : option (list Z)) (msgfmt : Z) (h : log_handler) : log_stream log_handler :=
  {| ls_name := name; ls_regnum := ls_regnum s; ls_levels := ls_levels s; ls_types := ls_types s; ls_msgfmt := msgfmt;
     ls_use_count := ls_use_count s; ls_stream_flags := ls_stream_flags s; ls_limits := ls_limits s;
     ls_substreams := ls_substreams s; ls_handler := Some h |}.

(** [log_new_fd]; the name is ["fd%d"] in 16 bytes. *)
Definition log_new_fd (fd flags : Z) (st : state) : outcome (Z * state) :=
  '(l, st) ← log_new_stream st;
  s ← get_stream st l;
  let st := if fd =? 2 then set_world st (set_stderr_replaced (lg_world st)) else st in
  Ok (l, put_stream st l (setup_stream s (Some (take 15 (bytes_of_string "fd" ++ TimeFmt.print_int fd))) LSFMT_DEFAULT
                            (HFile fd flags None))).

(** [log_new_file] at a time. *)
Definition log_new_file (path : list Z) (flags : Z) (time : Z) (st : state) : outcome (Z * state) :=
  '(l, st) ← log_new_stream st;
  s ← get_stream st l;
  let flags := Z.lor (Z.lor FF_CLOSE_FD flags) (if bool_decide (37 ∈ path) then FF_FORMAT_NAME else 0) in
  '(_, fd, name, w) ← do_log_switch (-1) flags (Some path) None time (lg_world st);
  Ok (l, set_world (put_stream st l (setup_stream s name LSFMT_DEFAULT (HFile fd flags (Some path)))) w).

(** [syslog_facility]: the numbers of syslog.h. *)
Definition syslog_facility (name : list Z) : option Z :=
  let table := [("auth", 4); ("authpriv", 10); ("cron", 9); ("daemon", 3); ("ftp", 11); ("kern", 0); ("lpr", 6);
                ("mail", 2); ("news", 7); ("syslog", 5); ("user", 1); ("uucp", 8); ("local0", 16); ("local1", 17);
                ("local2", 18); ("local3", 19); ("local4", 20); ("local5", 21); ("local6", 22); ("local7", 23)]%string in
  fmap (fun x => Z.shiftl x.2 3) (find (fun x => bool_decide (bytes_of_string x.1 = name)) table).

(** [log_new_syslog]. *)
Definition log_new_syslog (facility : list Z) (options : Z) (st : state) : outcome (Z * state) :=
  match syslog_facility facility with
  | None => Fail (Died "No such syslog facility")
  | Some fac =>
      '(l, st) ← log_new_stream st;
      s ← get_stream st l;
      let w := lg_world st in
      let w := if lw_syslog_open_count w =? 0 then event (EvOpenlog options) w else w in
      Ok (l, set_world (put_stream st l (setup_stream s (Some (bytes_of_string "syslog")) 0 (HSyslog fac)))
               (set_syslog_count (lw_syslog_open_count w + 1) w))
  end.

(** [log_switch] at a time: whether any file was switched. *)
Definition log_switch (time : Z) (st : state) : outcome (bool * state) :=
  foldM (fun '(switched, st) l =>
    s ← get_stream st l;
    match ls_handler s with
    | Some (HFile fd flags orig) =>
        '(sw, fd, name, w) ← do_log_switch fd flags orig (ls_name s) time (lg_world st);
        Ok (switched || sw, set_world (put_stream st l (set_handler s name (Some (HFile fd flags orig)))) w)
    | _ => Ok (switched, st)
    end) (false, st) (lg_ptr st).

Definition log_switch_disable (w : log_world) : log_world := set_switch_nest (lw_switch_nest w + 1) w.

Definition log_switch_enable (w : log_world) : outcome log_world :=
  _ ← c_assert (negb (lw_switch_nest w =? 0)); Ok (set_switch_nest (lw_switch_nest w - 1) w).

(** [log_drop_stderr], when [dup2] succeeds. *)
Definition log_drop_stderr (w : log_world) : log_world :=
  if lw_stderr_replaced w then w else set_stderr_replaced (event (EvDup2 1 2) w).

(** [log_file]. *)
Definition log_file (name : option (list Z)) (time : Z) (st : state) : outcome state :=
  match name with
  | None => Ok st
  | Some name => '(l, st) ← log_new_file name FF_FD2_FOLLOWS time st; log_set_default_stream l st
  end.

End files.

(** ** The title *)

(** [log_basename]: what follows the last slash; [p] is the result so far. *)
Fixpoint log_basename (n p : list Z) : list Z :=
  match n with
  | [] => p
  | c :: n => if c =? 47 then log_basename n n else log_basename n p
  end.

Definition set_title {H W} (st : log_state H W) (t : option (list Z)) (pid : Z) : log_state H W :=
  {| lg_streams := lg_streams st; lg_tbfs := lg_tbfs st; lg_ptr := lg_ptr st; lg_free := lg_free st;
     lg_initialized := lg_initialized st; lg_type_names := lg_type_names st; lg_title := t; lg_pid := pid;
     lg_world := lg_world st |}.

(** [log_init], with a buffer of 32 bytes. *)
Definition log_init {H W} (argv0 : option (list Z)) (st : log_state H W) : log_state H W :=
  match argv0 with
  | None => st
  | Some a => set_title st (Some (take 31 (log_basename a a))) (lg_pid st)
  end.

(** [log_fork], with what [getpid] says. *)
Definition log_fork {H W} (getpid : Z) (st : log_state H W) : log_state H W := set_title st (lg_title st) getpid.

(** ** Properties *)

Section handlers.
Context `{LS : LogSystem}.

(** Names of log files whose expansions fit into the buffer. *)
Definition handler_ok (h : log_handler) : Prop :=
  match h with
  | HFile fd flags orig =>
      has_flag flags FF_FORMAT_NAME = true ->
      exists o, orig = Some o /\ forall time, Z.of_nat (length (sys_strftime o time)) < Z.of_nat (length o) + MAX_EXPAND /\
        short (sys_strftime o time)
  | _ => True
  end.

(** The handlers of the library keep their promise to the streams; they exit
    only when a log file cannot be opened. *)
Lemma library_handlers_end h name m text w : handler_ok h -> short (text_or_nil name) ->
  ends (exists w name, sys_open w name = None)
    (fun '(_, h, name, _) => handler_ok h /\ short (text_or_nil name)) (log_handle h name m text w).
Proof.
  intros Hh Hn. cbn [log_handle library_handlers]. destruct h as [|fd flags orig|facility]; cbn [call_handler]; [done| |done]. unfold file_handler.
  destruct (m_tv m) as [[sec usec]|]; [|done].
  destruct (has_flag flags FF_FORMAT_NAME) eqn:Ef; cbn [andb]; [|split; [by cbn; rewrite Ef|done]].
  destruct (m_tm m); [|split; [by cbn|done]]. cbn [handler_ok] in Hh. destruct (Hh Ef) as (o & -> & Ho).
  unfold do_log_switch. rewrite Ef. cbn [negb deref]. rewrite bind_Ok.
  destruct (lw_switch_nest w =? 0); [|split; [by eexists|done]].
  destruct (Ho sec) as [H1 H2]. rewrite (proj2 (Z.ltb_lt _ _) H1). case_bool_decide.
  { split; [by eexists|done]. }
  unfold do_log_reopen. destruct (sys_open w _) as [new|] eqn:Eo; [|by do 2 eexists].
  rewrite !bind_Ok. split; [by eexists|done].
Qed.

(** A stream for a descriptor has no original name, but closing it frees one:
    an uninitialized pointer. *)
Theorem fd_stream_close_undefined fd flags (st : log_state log_handler log_world) l st' fuel s :
  log_new_fd fd flags st = Ok (l, st') -> get_stream st' l = Ok s -> ls_use_count s = 1 -> ls_substreams s = [] ->
  log_close_stream (S fuel) l st' = Fail UndefinedBehaviour.
Proof.
  intros E Hs Hu Hsub. unfold log_new_fd in E. apply bind_Ok_inv in E as ([l1 st1] & _ & E).
  apply bind_Ok_inv in E as (s1 & _ & E). injection E as <- <-.
  rewrite get_put_stream in Hs. injection Hs as <-. cbn in Hu, Hsub. cbn [log_close_stream].
  rewrite get_put_stream, bind_Ok. cbn [setup_stream ls_use_count ls_substreams]. rewrite Hu, Hsub. cbn [Z.eqb negb c_assert].
  rewrite bind_Ok. change (1 - 1 =? 0) with true. cbn [negb rm_substreams]. rewrite bind_Ok, get_put_stream. done.
Qed.
End handlers.
