(* ===== verification/LogConf.v ===== *)
(** * Configuration of log streams

    libucw/ucw/log-conf.c: the check of the section [Logging], which looks for
    streams defined twice, unknown substreams and cycles. *)

From stdpp Require Import base numbers list relations sets strings.
From S2P Require Import Prelude Doubles.

(** ** Data *)

(** [struct limit_config]. *)
Record limit_config : Set := {
  lc_types : list (list Z);
  lc_rate : Double.double;
  lc_burst : Z;
}.

(** [struct stream_config]; a string that was not set is NULL.  A pointer to a
    stream is its position in [log_stream_confs]; the members [mark] and [ls]
    are kept beside the list. *)
Record stream_config : Set := {
  sc_name : option (list Z);
  sc_file_name : option (list Z);
  sc_file_desc : Z;
  sc_syslog_facility : option (list Z);
  sc_levels : Z;
  sc_types : list (list Z);
  sc_substreams : list (list Z);
  sc_limits : list limit_config;
  sc_microseconds : Z;
  sc_show_types : Z;
  sc_syslog_pids : Z;
  sc_errors_fatal : Z;
  sc_stderr_follows : Z;
}.

(** The errors of the two hooks. *)
Inductive log_conf_error : Set :=
| EUnknownFacility
| EFileAndSyslog
| ESyslogMicroseconds
| EStdErrWithoutFile
| EDefinedTwice (name : list Z)
| ERefersToItself (stream : nat)
| EUnknownSubstream (stream : nat) (name : list Z).

#[global] Instance log_conf_error_eq_dec : EqDecision log_conf_error.
Proof. solve_decision. Defined.

(** [syslog_facility] as far as it succeeds. *)
Definition facilities : list string :=
  ["auth"; "authpriv"; "cron"; "daemon"; "ftp"; "kern"; "lpr"; "mail"; "news"; "syslog"; "user"; "uucp";
   "local0"; "local1"; "local2"; "local3"; "local4"; "local5"; "local6"; "local7"]%string.

Definition log_syslog_facility_exists (facility : list Z) : bool :=
  existsb (fun f => bool_decide (bytes_of_string f = facility)) facilities.

(** What [stream_init] makes of a zeroed structure. *)
Definition stream_init : stream_config :=
  {| sc_name := None; sc_file_name := None; sc_file_desc := -1; sc_syslog_facility := None; sc_levels := 2 ^ 32 - 1;
     sc_types := []; sc_substreams := []; sc_limits := []; sc_microseconds := 0; sc_show_types := 0;
     sc_syslog_pids := 0; sc_errors_fatal := 0; sc_stderr_follows := 0 |}.

(** [stream_commit]. *)
Definition stream_commit (c : stream_config) : option log_conf_error :=
  let stderr_check :=
    if negb (sc_stderr_follows c =? 0) && bool_decide (sc_file_name c = None) then Some EStdErrWithoutFile else None in
  match sc_syslog_facility c with
  | Some f =>
      if negb (log_syslog_facility_exists f) then Some EUnknownFacility
      else if bool_decide (sc_file_name c <> None) then Some EFileAndSyslog
      else if negb (sc_microseconds c =? 0) then Some ESyslogMicroseconds
      else stderr_check
  | None => stderr_check
  end.

(** ** The graph of streams *)

Section check.
Context (confs : list stream_config).

(** [strcmp] of two strings that may be NULL: whether they are equal. *)
Definition strcmp_eq (a b : option (list Z)) : outcome bool :=
  match a, b with
  | Some a, Some b => Ok (bool_decide (a = b))
  | _, _ => Fail UndefinedBehaviour
  end.

(** [stream_find] from a position of the list on. *)
Fixpoint stream_find_from (l : list stream_config) (pos : nat) (name : option (list Z)) : outcome (option nat) :=
  match l with
  | [] => Ok None
  | c :: l =>
      same ← strcmp_eq (sc_name c) name;
      if (same : bool) then Ok (Some pos) else stream_find_from l (S pos) name
  end.

Definition stream_find (name : option (list Z)) : outcome (option nat) := stream_find_from confs 0 name.

(** [log_check_configured]: whether the stream is found. *)
Definition log_check_configured (name : list Z) : outcome bool :=
  r ← stream_find (Some name); Ok (bool_decide (r <> None)).

(** The loop of [stream_resolve] over the substreams of stream [c]. *)
Fixpoint resolve_substreams (resolve : nat -> list Z -> outcome (option log_conf_error * list Z))
    (c : nat) (subs : list (list Z)) (marks : list Z) : outcome (option log_conf_error * list Z) :=
  match subs with
  | [] => Ok (None, <[c := 2]> marks)
  | s :: subs =>
      d ← stream_find (Some s);
      match d with
      | None => Ok (Some (EUnknownSubstream c s), marks)
      | Some d =>
          '(err, marks) ← resolve d marks;
          match err with
          | Some e => Ok (Some e, marks)
          | None => resolve_substreams resolve c subs marks
          end
      end
  end.

(** [stream_resolve]; every call that goes deeper marks a stream that was not
    marked, so that the fuel is more than the number of streams. *)
Fixpoint stream_resolve (fuel : nat) (c : nat) (marks : list Z) : outcome (option log_conf_error * list Z) :=
  match fuel with
  | O => Fail OutOfFuel
  | S fuel =>
      conf ← deref (confs !! c);
      m ← deref (marks !! c);
      if m =? 2 then Ok (None, marks)
      else if m =? 1 then Ok (Some (ERefersToItself c), marks)
      else resolve_substreams (stream_resolve fuel) c (sc_substreams conf) (<[c := 1]> marks)
  end.

(** The two loops of [log_config_commit], from a position of the list on. *)
Fixpoint check_unique (l : list stream_config) (pos : nat) : outcome (option log_conf_error) :=
  match l with
  | [] => Ok None
  | c :: l =>
      d ← stream_find (sc_name c);
      if bool_decide (d = Some pos) then check_unique l (S pos)
      else Ok (Some (EDefinedTwice (default [] (sc_name c))))
  end.

Fixpoint resolve_all (n : nat) (pos : nat) (marks : list Z) : outcome (option log_conf_error * list Z) :=
  match n with
  | O => Ok (None, marks)
  | S n =>
      '(err, marks) ← stream_resolve (S (length confs)) pos marks;
      match err with
      | Some e => Ok (Some e, marks)
      | None => resolve_all n (S pos) marks
      end
  end.

(** [log_config_commit], with the marks the streams have. *)
Definition log_config_commit (marks : list Z) : outcome (option log_conf_error * list Z) :=
  err ← check_unique confs 0;
  match err with
  | Some e => Ok (Some e, marks)
  | None => resolve_all (length confs) 0 marks
  end.

(** ** What the check decides *)

(** Stream [i] names stream [j] as a substream. *)
Definition names_stream (s : list Z) (j : nat) : Prop := exists c, confs !! j = Some c /\ sc_name c = Some s.

Definition substream (i j : nat) : Prop :=
  exists c s, confs !! i = Some c /\ s ∈ sc_substreams c /\ names_stream s j.

(** Every stream has a name of its own, every substream exists, and no stream
    is its own substream over any number of steps. *)
Record well_configured : Prop := {
  wc_unique i j c d : confs !! i = Some c -> confs !! j = Some d -> sc_name c = sc_name d -> i = j;
  wc_known i c s : confs !! i = Some c -> s ∈ sc_substreams c -> exists j, names_stream s j;
  wc_acyclic i : ~ tc substream i i;
}.

End check.

Section correct.
Context (confs : list stream_config).

(** Every stream has been given a name. *)
Hypothesis Hnamed : forall i c, confs !! i = Some c -> is_Some (sc_name c).

Abbreviation names := (names_stream confs).
Abbreviation edge := (substream confs).

Definition find_result (s : list Z) (r : option nat) : Prop :=
  match r with
  | Some j => names s j /\ forall k, (k < j)%nat -> ~ names s k
  | None => forall k, ~ names s k
  end.

Lemma stream_find_from_ok s l pos : drop pos confs = l -> (forall k, (k < pos)%nat -> ~ names s k) ->
  exists r, stream_find_from l pos (Some s) = Ok r /\ find_result s r.
Proof.
  revert pos; induction l as [|c l IH]; intros pos Hd Hk; cbn [stream_find_from].
  { exists None. split; [done|]. intros k. destruct (decide (k < pos)%nat); [by apply Hk|].
    intros (c & Hc & _). apply lookup_lt_Some in Hc. apply (f_equal length) in Hd. rewrite length_drop in Hd. cbn in Hd. lia. }
  assert (Hc : confs !! pos = Some c) by (rewrite <- (Nat.add_0_r pos), <- lookup_drop, Hd; done).
  destruct (Hnamed _ _ Hc) as [n Hn]. rewrite Hn. cbn [strcmp_eq]. rewrite bind_Ok. case_bool_decide as E.
  - subst n. eexists. split; [done|]. split; [|done]. by exists c.
  - apply IH.
    + rewrite (drop_S _ c) in Hd by done. by injection Hd.
    + intros k Hkp. destruct (decide (k = pos)) as [->|]; [|apply Hk; lia]. intros (c' & Hc' & Hn'). congruence.
Qed.

Lemma stream_find_ok s : exists r, stream_find confs (Some s) = Ok r /\ find_result s r.
Proof. apply stream_find_from_ok; [apply drop_0|lia]. Qed.

Definition unique_names : Prop :=
  forall i j c d, confs !! i = Some c -> confs !! j = Some d -> sc_name c = sc_name d -> i = j.

Lemma check_unique_ok l pos : drop pos confs = l ->
  exists r, check_unique confs l pos = Ok r /\
    (r = None <-> forall i c, (pos <= i)%nat -> confs !! i = Some c ->
                    forall k d, (k < i)%nat -> confs !! k = Some d -> sc_name d <> sc_name c).
Proof.
  revert pos; induction l as [|c l IH]; intros pos Hd; cbn [check_unique].
  { exists None. split; [done|]. split; [|done]. intros _ i c Hi Hc. apply lookup_lt_Some in Hc.
    apply (f_equal length) in Hd. rewrite length_drop in Hd. cbn in Hd. lia. }
  assert (Hc : confs !! pos = Some c) by (rewrite <- (Nat.add_0_r pos), <- lookup_drop, Hd; done).
  destruct (Hnamed _ _ Hc) as [n Hn]. rewrite Hn. destruct (stream_find_ok n) as (r & -> & Hr). rewrite bind_Ok.
  case_bool_decide as E.
  - subst r. destruct Hr as [_ Hr]. destruct (IH (S pos)) as (r & -> & Hiff).
    { rewrite (drop_S _ c) in Hd by done. by injection Hd. }
    exists r. split; [done|]. rewrite Hiff. split; intros H i d Hi Hdi; [|apply H; [lia|done]].
    destruct (decide (i = pos)) as [->|]; [|apply H; [lia|done]].
    intros k d' Hk Hd' Hs. apply (Hr k Hk). exists d'. split; [done|]. congruence.
  - eexists. split; [done|]. split; [done|]. intros H. destruct E. destruct r as [j|]; cbn in Hr.
    + destruct Hr as [(d & Hd' & Hnd) Hk]. destruct (Nat.lt_trichotomy j pos) as [Hlt|[->|Hgt]]; [|done|].
      * destruct (H pos c (Nat.le_refl _) Hc j d Hlt Hd'). congruence.
      * destruct (Hk pos Hgt). by exists c.
    + destruct (Hr pos). by exists c.
Qed.

Lemma check_unique_spec : exists r, check_unique confs confs 0 = Ok r /\ (r = None <-> unique_names).
Proof.
  destruct (check_unique_ok confs 0 (drop_0 _)) as (r & E & Hiff). exists r. split; [done|]. rewrite Hiff. split.
  - intros H i j c d Hc Hd Hs. destruct (Nat.lt_trichotomy i j) as [Hlt|[->|Hgt]]; [|done|].
    + by destruct (H j d (Nat.le_0_l _) Hd i c Hlt Hc).
    + by destruct (H i c (Nat.le_0_l _) Hc j d Hgt Hd).
  - intros H i c _ Hc k d Hk Hd Hs. pose proof (H k i d c Hd Hc Hs). lia.
Qed.

(** ** The search for cycles *)

Context (Hunique : unique_names).

Lemma names_fun s i j : names s i -> names s j -> i = j.
Proof. intros (c & Hc & Hs) (d & Hd & Hs'). apply (Hunique i j c d Hc Hd). congruence. Qed.

(** A mark stays or turns from white (neither 1 nor 2) to black (2). *)
Definition blackens (m m' : Z) : Prop := m' = m \/ m <> 1 /\ m <> 2 /\ m' = 2.

Definition whites (marks : list Z) : nat := length (filter (fun m => m <> 1 /\ m <> 2) marks).

#[local] Instance blackens_preorder : PreOrder (Forall2 blackens).
Proof.
  split; [intros l; apply Forall2_same_length_lookup; split; [done|]; intros i x y; left; congruence|].
  intros a b c H. revert c. induction H as [|x y a b Hxy H IH]; intros c H2; inversion H2; subst; constructor; [|by apply IH].
  unfold blackens in *. lia.
Qed.

Lemma whites_mono a b : Forall2 blackens a b -> (whites b <= whites a)%nat.
Proof.
  unfold whites. induction 1 as [|x y a b Hxy H IH]; [done|]. rewrite !filter_cons. unfold blackens in Hxy.
  repeat case_decide; cbn; lia.
Qed.

Lemma whites_mark marks c m : marks !! c = Some m -> m <> 1 -> m <> 2 -> (whites (<[c := 1%Z]> marks) < whites marks)%nat.
Proof.
  unfold whites. revert c; induction marks as [|x marks IH]; intros [|c] H H1 H2; try done.
  - injection H as <-. change (<[0%nat := 1]> (x :: marks)) with (1 :: marks). rewrite !filter_cons. repeat case_decide; cbn; lia.
  - change (<[S c := 1]> (x :: marks)) with (x :: <[c := 1]> marks). specialize (IH c H H1 H2). rewrite !filter_cons. repeat case_decide; cbn; lia.
Qed.

Lemma blackens_lookup a b i m : Forall2 blackens a b -> a !! i = Some m -> exists m', b !! i = Some m' /\ blackens m m'.
Proof. intros H Hi. destruct (Forall2_lookup_l _ _ _ _ _ H Hi) as (m' & ? & ?). eauto. Qed.

Lemma blackens_gray a b i : Forall2 blackens a b -> b !! i = Some 1 <-> a !! i = Some 1.
Proof.
  intros H. split; intros Hi.
  - destruct (Forall2_lookup_r _ _ _ _ _ H Hi) as (m & Hm & [<-|?]); [done|lia].
  - destruct (blackens_lookup a b i 1 H Hi) as (m & Hm & [->|?]); [done|lia].
Qed.

Lemma blackens_black a b i : Forall2 blackens a b -> a !! i = Some 2 -> b !! i = Some 2.
Proof. intros H Hi. destruct (blackens_lookup a b i 2 H Hi) as (m & Hm & [->|?]); [done|lia]. Qed.

(** Black streams have only black substreams and are on no cycle. *)
Record search_inv (marks : list Z) : Prop := {
  si_length : length marks = length confs;
  si_known i c s : marks !! i = Some 2 -> confs !! i = Some c -> s ∈ sc_substreams c ->
    exists j, names s j /\ marks !! j = Some 2;
  si_acyclic i : marks !! i = Some 2 -> ~ tc edge i i;
}.

Definition sound : Prop :=
  (forall i c s, confs !! i = Some c -> s ∈ sc_substreams c -> exists j, names s j) /\ forall i, ~ tc edge i i.

Lemma black_step marks i j : search_inv marks -> marks !! i = Some 2 -> edge i j -> marks !! j = Some 2.
Proof.
  intros [_ Hk _] Hi (c & s & Hc & Hs & Hj). destruct (Hk i c s Hi Hc Hs) as (j' & Hj' & Hb).
  by rewrite (names_fun s j j').
Qed.

Lemma black_tc marks i j : search_inv marks -> marks !! i = Some 2 -> tc edge i j -> marks !! j = Some 2.
Proof. intros Hinv Hi H. induction H as [i j H|i k j H _ IH]; [|apply IH]; by apply (black_step marks i). Qed.

(** A stream whose substreams are all black can be blackened. *)
Lemma search_inv_black marks c conf : search_inv marks -> confs !! c = Some conf -> marks !! c = Some 1 ->
  (forall s, s ∈ sc_substreams conf -> exists j, names s j /\ marks !! j = Some 2) ->
  search_inv (<[c := 2]> marks).
Proof.
  intros Hinv Hc Hg Hsubs. pose proof (lookup_lt_Some _ _ _ Hg) as Hlt.
  assert (Hmono : forall j, marks !! j = Some 2 -> <[c:=2]> marks !! j = Some 2).
  { intros j Hj. destruct (decide (j = c)) as [->|]; [by rewrite list_lookup_insert_eq|by rewrite list_lookup_insert_ne]. }
  assert (Hold : forall i, <[c:=2]> marks !! i = Some 2 -> i = c \/ marks !! i = Some 2).
  { intros i Hi. destruct (decide (i = c)) as [->|]; [by left|]. rewrite list_lookup_insert_ne in Hi by done. by right. }
  split; [rewrite length_insert; apply Hinv| |].
  - intros i d s Hi Hd Hs. destruct (Hold i Hi) as [->|Hb].
    + assert (d = conf) as -> by congruence. destruct (Hsubs s Hs) as (j & ? & ?). eauto.
    + destruct (si_known _ Hinv i d s Hb Hd Hs) as (j & ? & ?). eauto.
  - intros i Hi Htc. destruct (Hold i Hi) as [->|Hb]; [|by apply (si_acyclic _ Hinv i Hb)].
    assert (exists k, edge c k /\ (k = c \/ tc edge k c)) as (k & Hck & Hkc).
    { inversion Htc; subst; eauto. }
    destruct Hck as (d & s & Hd & Hs & Hk). assert (d = conf) as -> by congruence.
    destruct (Hsubs s Hs) as (j & Hj & Hb). rewrite (names_fun s j k Hj Hk) in Hb.
    destruct Hkc as [->|Hkc]; [congruence|]. pose proof (black_tc _ _ _ Hinv Hb Hkc). congruence.
Qed.

(** What a call for stream [c] has done. *)
Definition resolved (marks : list Z) (c : nat) (err : option log_conf_error) (marks' : list Z) : Prop :=
  match err with
  | None => Forall2 blackens marks marks' /\ search_inv marks' /\ marks' !! c = Some 2
  | Some _ => ~ sound
  end.

(** What a call for stream [c] needs: grey streams lead to it. *)
Definition resolvable (fuel : nat) (c : nat) (marks : list Z) : Prop :=
  (whites marks < fuel)%nat /\ (c < length confs)%nat /\ search_inv marks /\
  forall g, marks !! g = Some 1 -> tc edge g c.

(** The loop over the substreams of the grey stream [c]. *)
Lemma resolve_substreams_ok fuel resolve c conf subs marks :
  (forall d m, resolvable fuel d m -> exists err m', resolve d m = Ok (err, m') /\ resolved m d err m') ->
  confs !! c = Some conf -> (forall s, s ∈ subs -> s ∈ sc_substreams conf) ->
  (forall s, s ∈ sc_substreams conf -> s ∈ subs \/ exists j, names s j /\ marks !! j = Some 2) ->
  (whites marks < fuel)%nat -> search_inv marks -> marks !! c = Some 1 ->
  (forall g, marks !! g = Some 1 -> g = c \/ tc edge g c) ->
  exists err marks', resolve_substreams confs resolve c subs marks = Ok (err, marks') /\
    match err with
    | None => exists m, Forall2 blackens marks m /\ marks' = <[c := 2]> m /\ search_inv marks'
    | Some _ => ~ sound
    end.
Proof.
  intros IH Hc. revert marks; induction subs as [|s subs IHs]; intros marks Hin Hdone Hw Hinv Hg Hgrey; cbn [resolve_substreams].
  { exists None. eexists. split; [done|]. exists marks. split; [done|]. split; [done|].
    apply (search_inv_black marks c conf); try done. intros s Hs. destruct (Hdone s Hs) as [Hn|?]; [by apply elem_of_nil in Hn|done]. }
  destruct (stream_find_ok s) as (r & -> & Hr). rewrite bind_Ok. destruct r as [d|]; cbn in Hr.
  2: { do 2 eexists. split; [done|]. intros [Hk _]. destruct (Hk c conf s Hc) as [j Hj]; [apply Hin; set_solver|by apply (Hr j)]. }
  destruct Hr as [Hd _].
  assert (He : edge c d) by (exists conf, s; split_and!; [done|apply Hin; set_solver|done]).
  destruct (IH d marks) as (err & m' & -> & Hres).
  { split_and!; [done| |done|].
    - destruct Hd as (cd & Hcd & _). by apply lookup_lt_Some in Hcd.
    - intros g Hg'. destruct (Hgrey g Hg') as [->|Hgc]; [by apply tc_once|]. by apply (tc_r _ c). }
  rewrite bind_Ok. destruct err as [e|]; [by exists (Some e), m'|]. destruct Hres as (Hb & Hinv' & Hd2).
  destruct (IHs m') as (err & marks' & -> & Hres).
  - set_solver.
  - intros s' Hs'. destruct (Hdone s' Hs') as [Hs''|(j & Hj & Hj2)].
    + apply elem_of_cons in Hs'' as [->|?]; [right; by exists d|by left].
    + right. exists j. split; [done|]. by apply (blackens_black marks).
  - pose proof (whites_mono _ _ Hb). lia.
  - done.
  - by apply (blackens_gray marks m').
  - intros g Hg'. apply Hgrey. by apply (blackens_gray marks m').
  - exists err, marks'. split; [done|]. destruct err; [done|]. destruct Hres as (m & Hm & -> & Hi). exists m.
    split; [by transitivity m'|done].
Qed.

Lemma stream_resolve_ok fuel c marks : resolvable fuel c marks ->
  exists err marks', stream_resolve confs fuel c marks = Ok (err, marks') /\ resolved marks c err marks'.
Proof.
  revert c marks; induction fuel as [|fuel IH]; intros c marks (Hw & Hlt & Hinv & Hgrey); [lia|]. cbn [stream_resolve].
  destruct (lookup_lt_is_Some_2 confs c Hlt) as [conf Hc]. rewrite Hc. cbn [deref]. rewrite bind_Ok.
  destruct (lookup_lt_is_Some_2 marks c) as [m Hm]; [rewrite (si_length _ Hinv); done|]. rewrite Hm. cbn [deref]. rewrite bind_Ok.
  destruct (Z.eqb_spec m 2) as [->|H2]; [by exists None, marks|].
  destruct (Z.eqb_spec m 1) as [->|H1].
  { do 2 eexists. split; [done|]. intros [_ Ha]. apply (Ha c), Hgrey, Hm. }
  pose proof (whites_mark marks c m Hm H1 H2) as Hw1. pose proof (lookup_lt_Some _ _ _ Hm) as Hltm.
  assert (Hinv1 : search_inv (<[c := 1]> marks)).
  { assert (Hback : forall i, <[c:=1]> marks !! i = Some 2 -> marks !! i = Some 2).
    { intros i Hi. destruct (decide (i = c)) as [->|]; [rewrite list_lookup_insert_eq in Hi by done; done|].
      by rewrite list_lookup_insert_ne in Hi. }
    split; [rewrite length_insert; apply Hinv| |intros i Hi; apply (si_acyclic _ Hinv), Hback, Hi].
    intros i d s Hi Hd Hs. destruct (si_known _ Hinv i d s (Hback i Hi) Hd Hs) as (j & Hj & Hb). exists j. split; [done|].
    rewrite list_lookup_insert_ne; [done|]. intros ->. congruence. }
  destruct (resolve_substreams_ok fuel (stream_resolve confs fuel) c conf (sc_substreams conf) (<[c := 1]> marks))
    as (err & marks' & -> & Hres); try done.
  - by left.
  - lia.
  - by apply list_lookup_insert_eq.
  - intros g Hg. destruct (decide (g = c)) as [->|]; [by left|]. rewrite list_lookup_insert_ne in Hg by done. right. by apply Hgrey.
  - exists err, marks'. split; [done|]. destruct err; [done|]. destruct Hres as (m1 & Hb & -> & Hi).
    assert (Hl1 : length m1 = length marks) by (apply Forall2_length in Hb; by rewrite length_insert in Hb).
    split; [|split; [done|rewrite list_lookup_insert_eq; [done|lia]]].
    apply Forall2_same_length_lookup. split; [by rewrite length_insert|]. intros i x y Hx Hy.
    destruct (decide (i = c)) as [->|Hne].
    + rewrite list_lookup_insert_eq in Hy by lia. right. split_and!; congruence.
    + rewrite list_lookup_insert_ne in Hy by done.
      destruct (blackens_lookup _ _ i x Hb) as (y' & Hy' & Hbl); [by rewrite list_lookup_insert_ne|]. congruence.
Qed.

Lemma resolve_all_ok n pos marks : (pos + n = length confs)%nat -> search_inv marks ->
  (forall g, marks !! g <> Some 1) -> (forall i, (i < pos)%nat -> marks !! i = Some 2) ->
  exists err marks', resolve_all confs n pos marks = Ok (err, marks') /\ (err = None <-> sound).
Proof.
  revert pos marks; induction n as [|n IH]; intros pos marks Hn Hinv Hgrey Hblack; cbn [resolve_all].
  { exists None, marks. split; [done|]. split; [|done]. intros _. split.
    - intros i c s Hc Hs. pose proof (lookup_lt_Some _ _ _ Hc).
      destruct (si_known _ Hinv i c s) as (j & ? & _); [apply Hblack; lia|done|done|eauto].
    - intros i Htc. assert (Hi : (i < length confs)%nat).
      { assert (exists k, edge i k) as (k & c & _ & Hc & _) by (inversion Htc; eauto). by apply lookup_lt_Some in Hc. }
      apply (si_acyclic _ Hinv i); [apply Hblack; lia|done]. }
  destruct (stream_resolve_ok (S (length confs)) pos marks) as (err & m' & -> & Hres).
  { split_and!; [|lia|done|by intros g Hg; destruct (Hgrey g)]. unfold whites.
    pose proof (length_filter (fun m => m <> 1 /\ m <> 2) marks). rewrite <- (si_length _ Hinv). lia. }
  rewrite bind_Ok. destruct err as [e|]; [exists (Some e), m'; done|]. destruct Hres as (Hb & Hinv' & H2).
  apply (IH (S pos) m'); [lia|done| |].
  - intros g Hg. apply (Hgrey g). by apply (blackens_gray marks m').
  - intros i Hi. destruct (decide (i = pos)) as [->|]; [done|]. apply (blackens_black marks); [done|]. apply Hblack. lia.
Qed.

End correct.

(** Marks as they are before the first commit. *)
Definition fresh_marks (confs : list stream_config) : list Z := replicate (length confs) 0.

Lemma log_config_commit_spec confs :
  (forall i c, confs !! i = Some c -> is_Some (sc_name c)) ->
  exists err marks', log_config_commit confs (fresh_marks confs) = Ok (err, marks') /\
    (err = None <-> well_configured confs).
Proof.
  intros Hnamed. unfold log_config_commit, fresh_marks.
  destruct (check_unique_spec confs Hnamed) as (r & -> & Hu). rewrite bind_Ok. destruct r as [e|].
  { do 2 eexists. split; [done|]. split; [done|]. intros [W _ _]. by destruct (proj2 Hu W). }
  assert (Hun : unique_names confs) by by apply Hu.
  destruct (resolve_all_ok confs Hnamed Hun (length confs) 0 (replicate (length confs) 0)) as (err & m' & -> & Hs).
  - lia.
  - split; [apply length_replicate|intros i c s Hi..|intros i Hi]; apply lookup_replicate in Hi as [? _]; lia.
  - intros g Hg. apply lookup_replicate in Hg as [? _]. lia.
  - lia.
  - exists err, m'. split; [done|]. rewrite Hs. split; [intros []; by split|]. intros []. by split.
Qed.

Lemma commit_well_configured confs marks :
  (forall i c, confs !! i = Some c -> is_Some (sc_name c)) ->
  log_config_commit confs (fresh_marks confs) = Ok (None, marks) -> well_configured confs.
Proof.
  intros Hn E. destruct (log_config_commit_spec confs Hn) as (err & marks' & E' & H). apply H. congruence.
Qed.

(** C33: on streams that all have a name, none of which was checked before, the
    commit hook of the section [Logging] ends, and it accepts exactly the
    configurations in which names are unique, every substream is defined and no
    stream is its own substream, directly or through others. *)
Theorem log_config_commit_decides confs :
  (forall i c, confs !! i = Some c -> is_Some (sc_name c)) ->
  exists err marks', log_config_commit confs (fresh_marks confs) = Ok (err, marks') /\
    (err = None <-> well_configured confs).
Proof. apply log_config_commit_spec. Qed.

(** A stream with the given name and substreams. *)
Definition stream_of (name : string) (subs : list string) : stream_config :=
  {| sc_name := Some (bytes_of_string name); sc_file_name := None; sc_file_desc := -1; sc_syslog_facility := None;
     sc_levels := 2 ^ 32 - 1; sc_types := []; sc_substreams := map bytes_of_string subs; sc_limits := [];
     sc_microseconds := 0; sc_show_types := 0; sc_syslog_pids := 0; sc_errors_fatal := 0; sc_stderr_follows := 0 |}.

(** The default streams of the collector, with one more above them. *)
Lemma log_config_commit_decides_witness :
  let confs := [stream_of "top" ["default"; "stderr"]; stream_of "stderr" []; stream_of "default" ["stderr"]]%string in
  well_configured confs.
Proof.
  intros confs.
  destruct (log_config_commit_decides confs) as (err & marks' & E & H).
  - intros [|[|[|i]]] c Hc; [injection Hc as <-; by eexists..|done].
  - apply H. vm_compute in E. by injection E as <- _.
Defined.

(** The marks outlive a commit, and nothing clears them.  A stream that has
    passed a check is not looked at again: after stream [b] is given the
    substream [a], the next commit accepts a cycle that a first check would
    refuse. *)
Theorem stale_marks_hide_cycles :
  let before := [stream_of "a" ["b"]; stream_of "b" []]%string in
  let after := [stream_of "a" ["b"]; stream_of "b" ["a"]]%string in
  exists marks, log_config_commit before (fresh_marks before) = Ok (None, marks) /\
    log_config_commit after marks = Ok (None, marks) /\
    log_config_commit after (fresh_marks after) = Ok (Some (ERefersToItself 0), [1; 1]).
Proof. exists [2; 2]. repeat split; vm_compute; reflexivity. Qed.

(** A stream without a name stops the check: [strcmp] gets a null pointer. *)
Theorem unnamed_stream_crashes c confs marks :
  sc_name c = None -> log_config_commit (c :: confs) marks = Fail UndefinedBehaviour.
Proof. intros H. unfold log_config_commit, stream_find. cbn [check_unique]. unfold stream_find. cbn [stream_find_from]. by rewrite H. Qed.
