(* ===== verification/LogSetup.v ===== *)
(** * Streams from their configuration

    The second half of libucw/ucw/log-conf.c, which opens configured streams,
    and what main.c of the collector does with it. *)

From stdpp Require Import base numbers list gmap strings relations.
From S2P Require Import Prelude Doubles Log LogInv LogStream LogFile LogConf.

Section setup.
Context `{LS : LogSystem}.

Abbreviation state := (log_state log_handler log_world).

(** ** Types and limits *)

(** [log_type_mask]. *)
Fixpoint type_mask_loop (types : list (list Z)) (mask : Z) (st : state) : outcome Z :=
  match types with
  | [] => Ok mask
  | s :: types =>
      if bool_decide (s = bytes_of_string "all") then Ok ALL_ONES
      else
        let type := log_find_type s st in
        if 0 <=? type then
          b ← bit (LS_GET_TYPE type); type_mask_loop types (Z.lor mask b) st
        else type_mask_loop types mask st
  end.

Definition log_type_mask (types : list (list Z)) (st : state) : outcome Z :=
  match types with
  | [] => Ok ALL_ONES
  | _ => type_mask_loop types 0 st
  end.

Definition set_limits (s : log_stream log_handler) (limits : list (option Z)) : log_stream log_handler :=
  {| ls_name := ls_name s; ls_regnum := ls_regnum s; ls_levels := ls_levels s; ls_types := ls_types s;
     ls_msgfmt := ls_msgfmt s; ls_use_count := ls_use_count s; ls_stream_flags := ls_stream_flags s;
     ls_limits := Some limits; ls_substreams := ls_substreams s; ls_handler := ls_handler s |}.

(** [log_apply_limits]: one bucket for the types of the mask. *)
Definition log_apply_limits (l : Z) (lim : limit_config) (st : state) : outcome state :=
  mask ← log_type_mask (lc_types lim) st;
  if mask =? 0 then Ok st
  else
    s ← get_stream st l;
    let limits := default (replicate (Z.to_nat LS_NUM_TYPES) None) (ls_limits s) in
    f ← tbf_init {| tbf_rate := lc_rate lim; tbf_burst := lc_burst lim; tbf_last_hit := 0;
                    tbf_bucket := Double.of_Z 0; tbf_drop_count := 0 |};
    let b := new_loc (lg_tbfs st) in
    let limits := imap (fun i x => if has_flag mask (Z.shiftl 1 (Z.of_nat i)) then Some b else x) limits in
    Ok (set_tbfs (put_stream st l (set_limits s limits)) (<[b := f]> (lg_tbfs st))).

(** ** Opening streams *)

(** The members the configuration sets. *)
Definition apply_config (c : stream_config) (types : Z) (s : log_stream log_handler) : log_stream log_handler :=
  let fmt := ls_msgfmt s in
  let fmt := if negb (sc_microseconds c =? 0) then Z.lor fmt LSFMT_USEC else fmt in
  let fmt := if negb (sc_show_types c =? 0) then Z.lor fmt LSFMT_TYPE else fmt in
  {| ls_name := ls_name s; ls_regnum := ls_regnum s; ls_levels := sc_levels c; ls_types := types; ls_msgfmt := fmt;
     ls_use_count := ls_use_count s;
     ls_stream_flags := if negb (sc_errors_fatal c =? 0) then Z.lor (ls_stream_flags s) LSFLAG_ERR_IS_FATAL
                        else ls_stream_flags s;
     ls_limits := ls_limits s; ls_substreams := ls_substreams s; ls_handler := ls_handler s |}.

Section configured.
Context (confs : list stream_config) (time : Z).

(** The stream for the target of a configuration. *)
Definition new_target (c : stream_config) (st : state) : outcome (Z * state) :=
  let follow := if negb (sc_stderr_follows c =? 0) then FF_FD2_FOLLOWS else 0 in
  match sc_file_name c with
  | Some f => log_new_file f follow time st
  | None =>
      if 0 <=? sc_file_desc c then log_new_fd (sc_file_desc c) follow st
      else
        match sc_syslog_facility c with
        | Some f => log_new_syslog f (if negb (sc_syslog_pids c =? 0) then 1 else 0) st
        | None => log_new_stream st
        end
  end.

(** The loop over the substreams of stream [l], over a function that stands for
    [do_new_configured]. *)
Fixpoint add_substreams (new : nat -> list (option Z) -> state -> outcome (Z * list (option Z) * state))
    (l : Z) (subs : list (list Z)) (lss : list (option Z)) (st : state) : outcome (list (option Z) * state) :=
  match subs with
  | [] => Ok (lss, st)
  | s :: subs =>
      d ← stream_find confs (Some s);
      match d with
      | None => Fail AssertFailed
      | Some d =>
          '(k, lss, st) ← new d lss st;
          st ← log_add_substream l k st;
          add_substreams new l subs lss st
      end
  end.

(** [do_new_configured], with the members [ls] of the configurations. *)
Fixpoint do_new_configured (fuel : nat) (c : nat) (lss : list (option Z)) (st : state) :
    outcome (Z * list (option Z) * state) :=
  match fuel with
  | O => Fail OutOfFuel
  | S fuel =>
      conf ← deref (confs !! c);
      done ← deref (lss !! c);
      match done with
      | Some l => Ok (l, lss, st)
      | None =>
          '(l, st) ← new_target conf st;
          '(lss, st) ← add_substreams (do_new_configured fuel) l (sc_substreams conf) lss st;
          types ← log_type_mask (sc_types conf) st;
          s ← get_stream st l;
          st ← foldM (fun st lim => log_apply_limits l lim st) (put_stream st l (apply_config conf types s)) (sc_limits conf);
          Ok (l, <[c := Some l]> lss, st)
      end
  end.

(** [log_new_configured]. *)
Definition log_new_configured (name : list Z) (lss : list (option Z)) (st : state) :
    outcome (Z * list (option Z) * state) :=
  c ← stream_find confs (Some name);
  match c with
  | None => Fail (Died "Unable to find log stream")
  | Some c =>
      ls ← deref (lss !! c);
      match ls with
      | Some l => st ← log_ref_stream l st; Ok (l, lss, st)
      | None => do_new_configured (S (length confs)) c lss st
      end
  end.

(** [log_configured]. *)
Definition log_configured (name : list Z) (lss : list (option Z)) (st : state) : outcome (list (option Z) * state) :=
  '(l, lss, st) ← log_new_configured name lss st;
  st ← log_set_default_stream l st;
  Ok (lss, st).
End configured.

(** ** The collector *)

(** The streams of the two texts that main.c gives to [cf_set], translated by
    hand: the texts do not go through the reader of [ConfLoad]. *)
Definition stderr_config : stream_config :=
  {| sc_name := Some (bytes_of_string "stderr"); sc_file_name := None; sc_file_desc := 2; sc_syslog_facility := None;
     sc_levels := Z.lor (Z.shiftl 1 L_ERROR) (Z.lor (Z.shiftl 1 L_FATAL) (Z.lor (Z.shiftl 1 L_INFO) (Z.shiftl 1 L_WARN)));
     sc_types := [bytes_of_string "default"]; sc_substreams := []; sc_limits := []; sc_microseconds := 0;
     sc_show_types := 0; sc_syslog_pids := 0; sc_errors_fatal := 0; sc_stderr_follows := 0 |}.

Definition default_config : stream_config :=
  {| sc_name := Some (bytes_of_string "default"); sc_file_name := None; sc_file_desc := -1; sc_syslog_facility := None;
     sc_levels := ALL_ONES; sc_types := []; sc_substreams := [bytes_of_string "stderr"]; sc_limits := [];
     sc_microseconds := 0; sc_show_types := 0; sc_syslog_pids := 0; sc_errors_fatal := 0; sc_stderr_follows := 0 |}.

(** [cf_set] of a stream at the end of the list: the new stream is committed
    with the section, and taken back when that fails (the result is not
    looked at). *)
Definition set_stream (c : stream_config) (confs : list stream_config) (marks : list Z) :
    outcome (list stream_config * list Z) :=
  match stream_commit c with
  | Some _ => Ok (confs, marks)
  | None =>
      '(err, marks') ← log_config_commit (confs ++ [c]) (marks ++ [0]);
      match err with
      | None => Ok (confs ++ [c], marks')
      | Some _ => Ok (confs, take (length confs) marks')
      end
  end.

(** The format of the collector's messages. *)
Definition collector_format : Z :=
  Z.lor LSFMT_LEVEL (Z.lor LSFMT_TIME (Z.lor LSFMT_TITLE (Z.lor LSFMT_PID (Z.lor LSFMT_USEC LSFMT_TYPE)))).

(** The lines of [main] about logging, after the configuration is read. *)
Definition setup_logging (confs : list stream_config) (marks : list Z) (time : Z) (st : state) : outcome state :=
  found ← log_check_configured confs (bytes_of_string "stderr");
  '(confs, marks) ← (if (found : bool) then Ok (confs, marks) else set_stream stderr_config confs marks);
  found ← log_check_configured confs (bytes_of_string "default");
  '(confs, marks) ← (if (found : bool) then Ok (confs, marks) else set_stream default_config confs marks);
  '(_, st) ← log_configured confs time (bytes_of_string "default") (replicate (length confs) None) st;
  l ← log_stream_by_flags st 0;
  l ← deref l;
  log_set_format (S (length (lg_ptr st)) + 1) l 0 collector_format st.

(** The variables of the logging modules when the program starts. *)
Definition initial_logging (title : option (list Z)) : state :=
  {| lg_streams := {[ log_stream_default :=
       {| ls_name := Some (bytes_of_string "stderr"); ls_regnum := 0; ls_levels := ALL_ONES; ls_types := ALL_ONES;
          ls_msgfmt := LSFMT_DEFAULT; ls_use_count := 1000000; ls_stream_flags := 0; ls_limits := None;
          ls_substreams := []; ls_handler := Some HDefault |} ]};
     lg_tbfs := ∅; lg_ptr := []; lg_free := ALL_ONES; lg_initialized := false; lg_type_names := None;
     lg_title := title; lg_pid := 0;
     lg_world := {| lw_events := []; lw_switch_nest := 0; lw_stderr_replaced := false; lw_syslog_open_count := 0 |} |}.

(** The start of the collector without streams of its own. *)
Definition collector_logging (title : option (list Z)) (time : Z) : outcome state :=
  '(_, st) ← log_register_type (bytes_of_string "spam") (initial_logging title);
  setup_logging [] [] time st.

End setup.

(** ** What reaches the standard error output *)

(** Flags of a message of a level and a type for stream 0. *)
Definition message_flags (level type : Z) : Z := Z.lor level (LS_SET_TYPE type).

(** Flags of the same message from a signal handler. *)
Definition signal_flags (level type : Z) : Z := Z.lor (message_flags level type) L_SIGHANDLER.

(** Whether the default configuration of the collector shows it. *)
Definition shown (level type : Z) : bool := (type =? 0) && bool_decide (level ∈ [L_INFO; L_WARN; L_ERROR; L_FATAL]).

(** All levels and types, checked one by one. *)
Definition flags_agree (level type : Z) : bool :=
  let c := message_flags level type in
  (LS_GET_LEVEL c =? level) && (LS_GET_TYPE c =? type) && (LS_GET_STRNUM c =? 0) && negb (has_flag c L_SIGHANDLER) &&
  has_flag (Z.shiftl 1 level) ALL_ONES && has_flag (Z.shiftl 1 type) ALL_ONES &&
  Bool.eqb (has_flag (Z.shiftl 1 level) 142 && has_flag (Z.shiftl 1 type) 1) (shown level type) &&
  (LS_GET_LEVEL (signal_flags level type) =? level) && (LS_GET_TYPE (signal_flags level type) =? type) &&
  has_flag (signal_flags level type) L_SIGHANDLER.

Lemma flags_agree_all level type : 0 <= level < 8 -> 0 <= type < 32 -> flags_agree level type = true.
Proof.
  intros Hl Ht.
  assert (E : forallb (fun l => forallb (fun t => flags_agree l t) (seqZ 0 32)) (seqZ 0 8) = true) by (vm_compute; reflexivity).
  rewrite forallb_forall in E. specialize (E level). rewrite <- list_elem_of_In, elem_of_seqZ in E. specialize (E ltac:(lia)).
  rewrite forallb_forall in E. specialize (E type). rewrite <- list_elem_of_In, elem_of_seqZ in E. apply E. lia.
Qed.

Lemma flags_facts level type : 0 <= level < 8 -> 0 <= type < 32 ->
  let c := message_flags level type in
  LS_GET_LEVEL c = level /\ LS_GET_TYPE c = type /\ LS_GET_STRNUM c = 0 /\ has_flag c L_SIGHANDLER = false /\
  has_flag (Z.shiftl 1 level) ALL_ONES = true /\ has_flag (Z.shiftl 1 type) ALL_ONES = true /\
  has_flag (Z.shiftl 1 level) 142 && has_flag (Z.shiftl 1 type) 1 = shown level type /\
  LS_GET_LEVEL (signal_flags level type) = level /\ LS_GET_TYPE (signal_flags level type) = type /\
  has_flag (signal_flags level type) L_SIGHANDLER = true.
Proof.
  intros Hl Ht c. pose proof (flags_agree_all level type Hl Ht) as Hc. unfold flags_agree in Hc. fold c in Hc.
  rewrite !andb_true_iff, !Z.eqb_eq, negb_true_iff, Bool.eqb_true_iff in Hc. tauto.
Qed.

Section collector.
Context `{LS : LogSystem} (strerror : Z -> list Z).

Abbreviation state := (log_state log_handler log_world).

(** Writing never fails. *)
Hypothesis Hwrite : forall w fd text, sys_write w fd text = 0.

(** A stream without a handler that lets everything through to one substream. *)
Definition forwards (s : log_stream log_handler) (k : Z) : Prop :=
  ls_levels s = ALL_ONES /\ ls_types s = ALL_ONES /\ ls_limits s = None /\ ls_handler s = None /\ ls_substreams s = [k].

Lemma pass_forward fuel l k s level type m (st : state) st' s' :
  0 <= level < 8 -> 0 <= type < 32 -> m_flags m = message_flags level type -> m_depth m <= 64 ->
  lg_streams st !! l = Some s -> forwards s k -> m_error m = false ->
  log_pass_msg strerror fuel k (set_depth m (m_depth m + 1)) st = Ok (set_depth m (m_depth m + 1), st') ->
  lg_streams st' !! l = Some s' -> ls_handler s' = None ->
  log_pass_msg strerror (S fuel) l m st = Ok (m, st').
Proof.
  intros Hl Ht Hf Hd Hs (F1 & F2 & F3 & F4 & F5) He Hk Hs' Hh'. cbn [log_pass_msg].
  unfold get_stream. rewrite Hs. cbn [deref]. rewrite bind_Ok. unfold LS_MAX_DEPTH. rewrite (proj2 (Z.ltb_ge _ _) Hd).
  destruct (flags_facts level type Hl Ht) as (E1 & E2 & _ & _ & E3 & E4 & _ & _). rewrite Hf, E1, E2.
  unfold bit. rewrite !(proj2 (Z.ltb_lt _ _)), !bind_Ok by lia. rewrite F1, F2, F3, E3, E4. cbn [negb orb]. rewrite bind_Ok.
  unfold log_pass_filtered, get_stream. rewrite Hs. cbn [deref]. rewrite bind_Ok, F5. cbn [pass_substreams]. rewrite Hk, bind_Ok.
  cbn [set_depth m_error]. rewrite He, bind_Ok, Hs'. cbn [deref]. rewrite bind_Ok, Hh', bind_Ok.
  destruct m; unfold set_depth; cbn in *. do 2 f_equal. f_equal. lia.
Qed.

(** The stream for the standard error output. *)
Definition stderr_stream (name : option (list Z)) : log_stream log_handler :=
  {| ls_name := name; ls_regnum := LS_SET_STRNUM 2; ls_levels := 142; ls_types := 1; ls_msgfmt := collector_format;
     ls_use_count := 2; ls_stream_flags := 0; ls_limits := None; ls_substreams := [];
     ls_handler := Some (HFile 2 0 None) |}.

Lemma pass_stderr fuel l name level type m (st : state) text :
  0 <= level < 8 -> 0 <= type < 32 -> m_flags m = message_flags level type -> m_depth m <= 64 ->
  lg_streams st !! l = Some (stderr_stream name) ->
  format_message (stderr_stream name) m (lg_title st) (lg_pid st) None = Ok text ->
  log_pass_msg strerror (S fuel) l m st =
    Ok (m, if shown level type then
             set_world (put_stream st l (stderr_stream name)) (event (EvWrite 2 text) (lg_world st))
           else st).
Proof.
  intros Hl Ht Hf Hd Hs Htext. cbn [log_pass_msg].
  unfold get_stream. rewrite Hs. cbn [deref]. rewrite bind_Ok. unfold LS_MAX_DEPTH. rewrite (proj2 (Z.ltb_ge _ _) Hd).
  destruct (flags_facts level type Hl Ht) as (E1 & E2 & _ & _ & _ & _ & E5 & _). rewrite Hf, E1, E2.
  unfold bit. rewrite !(proj2 (Z.ltb_lt _ _)), !bind_Ok by lia. cbn [stderr_stream ls_levels ls_types].
  rewrite <- negb_andb, E5. destruct (shown level type) eqn:Es; cbn [negb]; [|done].
  cbn [stderr_stream ls_limits]. rewrite bind_Ok. unfold log_pass_filtered, get_stream. rewrite Hs. cbn [deref].
  rewrite bind_Ok. cbn [stderr_stream ls_substreams pass_substreams]. rewrite bind_Ok, Hs. cbn [deref]. rewrite bind_Ok.
  cbn [stderr_stream ls_handler]. change (m_flags (set_depth m (m_depth m + 1))) with (m_flags m). rewrite Hf, E2.
  assert (type = 0) as -> by (unfold shown in Es; lia). rewrite andb_false_r.
  change (format_message _ (set_depth m (m_depth m + 1)) (lg_title st) (lg_pid st) None) with
    (format_message (stderr_stream name) m (lg_title st) (lg_pid st) None). rewrite Htext, bind_Ok.
  cbn [log_handle library_handlers call_handler]. unfold file_handler. destruct (m_tv (set_depth m (m_depth m + 1))) as [[sec usec]|]; change (has_flag 0 FF_FORMAT_NAME) with false; cbn [andb];
    rewrite !bind_Ok, Hwrite; cbn [Z.eqb]; rewrite bind_Ok; destruct m; unfold set_depth; cbn; do 2 f_equal; f_equal; lia.
Qed.

(** The streams of the collector without a configuration of its own. *)
Definition collector_streams (title : option (list Z)) : state :=
  let plain name regnum k := {| ls_name := name; ls_regnum := regnum; ls_levels := ALL_ONES; ls_types := ALL_ONES;
      ls_msgfmt := collector_format; ls_use_count := 1; ls_stream_flags := 0; ls_limits := None; ls_substreams := [k];
      ls_handler := None |} in
  {| lg_streams := <[3 := stderr_stream (Some (bytes_of_string "fd2"))]> (<[2 := plain None (LS_SET_STRNUM 1) 3]>
       (<[1 := plain (Some (bytes_of_string "default")) 0 2]> (lg_streams (initial_logging title))));
     lg_tbfs := ∅; lg_ptr := [1; 2; 3]; lg_free := ALL_ONES; lg_initialized := true;
     lg_type_names := Some [bytes_of_string "default"; bytes_of_string "spam"]; lg_title := title; lg_pid := 0;
     lg_world := {| lw_events := []; lw_switch_nest := 0; lw_stderr_replaced := true; lw_syslog_open_count := 0 |} |}.

Lemma collector_logging_ok title time : collector_logging title time = Ok (collector_streams title).
Proof. vm_compute. reflexivity. Qed.

Lemma collector_vmsg title level type text now warn :
  0 <= level < 8 -> 0 <= type < 32 -> short (text_or_nil title) -> short text -> time_ok now ->
  exists st', vmsg strerror (message_flags level type) text now warn (collector_streams title) = Ok st' /\
    if shown level type then exists pre, lw_events (lg_world st') = [EvWrite 2 (pre ++ sanitize text ++ [10])]
    else st' = collector_streams title.
Proof.
  intros Hl Ht Htitle Htext Hnow.
  destruct (flags_facts level type Hl Ht) as (E1 & E2 & E3 & E4 & _). unfold vmsg. rewrite E4.
  assert (log_stream_by_flags (collector_streams title) (message_flags level type) = Ok (Some 1)) as ->
    by (unfold log_stream_by_flags; rewrite E3; vm_compute; reflexivity).
  rewrite bind_Ok. unfold vmsg_to.
  destruct (make_msg_ok (message_flags level type) text now) as (m & Em & Hm & Hd); [by rewrite E1|done..|]. rewrite Em, bind_Ok.
  assert (Hparts : m_flags m = message_flags level type /\ m_raw_msg m = sanitize text /\ m_error m = false).
  { unfold make_msg in Em. apply bind_Ok_inv in Em as ([[[tv tm] st] su] & _ & Em). rewrite E4 in Em. by injection Em as <-. }
  destruct Hparts as (Hf & Hraw & He).
  destruct (format_message_ok (fun _ => True) ltac:(done) (stderr_stream (Some (bytes_of_string "fd2"))) m title 0 None)
    as (body & Eb & _ & _ & pre & Hpre); try (by apply Forall_true); try done.
  { by rewrite Hf, E1. }
  { destruct Hm as [_ _ _ M4 M5 M6 _]. unfold message_bound, short, TEXT_MAX, INT32_MAX, text_or_nil in *. cbn [ls_name stderr_stream].
    change (Z.of_nat (length (bytes_of_string "fd2"))) with 3. destruct title; cbn [from_option id length] in *; lia. }
  change log_fuel with (S (S (S 131))).
  pose proof (pass_stderr 131 3 (Some (bytes_of_string "fd2")) level type (set_depth m 2) (collector_streams title) (body ++ [10])
    Hl Ht Hf ltac:(cbn; lia) ltac:(vm_compute; reflexivity) Eb) as P3.
  set (st' := if shown level type then _ else _) in P3.
  assert (Hkeep : forall l s, (l = 1 \/ l = 2) -> lg_streams (collector_streams title) !! l = Some s -> lg_streams st' !! l = Some s).
  { intros l s Hl12 Hs. subst st'. destruct (shown level type); [|done]. cbn [set_world put_stream set_streams lg_streams].
    by rewrite lookup_insert_ne by lia. }
  assert (H2 : exists s, lg_streams (collector_streams title) !! 2 = Some s /\ forwards s 3) by (eexists; split; [reflexivity|done]).
  assert (H1 : exists s, lg_streams (collector_streams title) !! 1 = Some s /\ forwards s 2) by (eexists; split; [reflexivity|done]).
  destruct H2 as (s2 & Hs2 & F2), H1 as (s1 & Hs1 & F1).
  pose proof (pass_forward 132 2 3 s2 level type (set_depth m 1) (collector_streams title) st' s2 Hl Ht Hf ltac:(cbn; lia) Hs2 F2 He
    P3 (Hkeep 2 s2 (or_intror eq_refl) Hs2) ltac:(apply F2)) as P2.
  assert (E0 : set_depth m (m_depth m + 1) = set_depth m 1) by (by rewrite Hd).
  pose proof (pass_forward 133 1 2 s1 level type m (collector_streams title) st' s1 Hl Ht Hf ltac:(lia) Hs1 F1 He
    ltac:(rewrite E0; exact P2) (Hkeep 1 s1 (or_introl eq_refl) Hs1) ltac:(apply F1)) as P1.
  change (S (S (S 131))) with 134%nat. rewrite P1, bind_Ok, He. exists st'. split; [done|].
  subst st'. destruct (shown level type); [|done]. exists pre. cbn. by rewrite Hpre, Hraw, <- app_assoc.
Qed.

(** A message from a signal handler goes to the static default stream, which
    shows everything; 255 bytes of the text are kept. *)
Lemma collector_signal_vmsg title level type text now warn :
  0 <= level < 8 -> 0 <= type < 32 -> short (text_or_nil title) ->
  exists st' pre, vmsg strerror (signal_flags level type) text now warn (collector_streams title) = Ok st' /\
    lw_events (lg_world st') = [EvWrite 2 (pre ++ sanitize (take 255 text) ++ [10])].
Proof.
  intros Hl Ht Htitle. destruct (flags_facts level type Hl Ht) as (_ & _ & _ & _ & E3 & E4 & _ & E1 & E2 & E5).
  unfold vmsg. rewrite E5. unfold vmsg_to, make_msg. rewrite E5, !bind_Ok.
  set (m := {| m_flags := signal_flags level type |}).
  assert (Hraw : Z.of_nat (length (m_raw_msg m)) <= 255).
  { cbn. unfold sanitize. rewrite length_map, length_take. lia. }
  set (s := {| ls_name := Some (bytes_of_string "stderr"); ls_regnum := 0; ls_levels := ALL_ONES; ls_types := ALL_ONES;
               ls_msgfmt := LSFMT_DEFAULT; ls_use_count := 1000000; ls_stream_flags := 0; ls_limits := None;
               ls_substreams := []; ls_handler := Some HDefault |} : log_stream log_handler).
  assert (Hs : lg_streams (collector_streams title) !! log_stream_default = Some s) by reflexivity.
  destruct (format_message_ok (fun _ => True) ltac:(done) s m title 0 None) as (body & Eb & _ & _ & pre & Hpre);
    try (by apply Forall_true); try done.
  { cbn. by rewrite E1. }
  { unfold message_bound, short, TEXT_MAX, INT32_MAX, text_or_nil in *. cbn [ls_name s].
    change (Z.of_nat (length (bytes_of_string "stderr"))) with 6.
    change (Z.of_nat (length (m_stime m))) with 19. change (Z.of_nat (length (m_sutime m))) with 7.
    destruct title; cbn [from_option id length] in *; lia. }
  assert (exists fuel, log_fuel = S fuel) as [fuel ->] by by eexists. cbn [log_pass_msg]. unfold get_stream. rewrite Hs. cbn [deref]. rewrite bind_Ok.
  change (LS_MAX_DEPTH <? m_depth m) with false. cbv iota. change (m_flags m) with (signal_flags level type). rewrite E1, E2.
  unfold bit. rewrite !(proj2 (Z.ltb_lt _ _)), !bind_Ok by lia. cbn [ls_levels ls_types s]. rewrite E3, E4.
  cbn [negb orb ls_limits s]. rewrite bind_Ok. unfold log_pass_filtered, get_stream. rewrite Hs. cbn [deref].
  rewrite bind_Ok. cbn [ls_substreams s pass_substreams]. rewrite bind_Ok, Hs. cbn [deref]. rewrite bind_Ok.
  cbn [ls_handler ls_msgfmt s]. change (has_flag LSFMT_DEFAULT LSFMT_TYPE) with false. cbn [andb].
  change (format_message _ (set_depth m (m_depth m + 1)) (lg_title (collector_streams title)) (lg_pid (collector_streams title)) None)
    with (format_message s m title 0 None). rewrite Eb, bind_Ok.
  cbn [log_handle library_handlers call_handler default_log_handler]. rewrite bind_Ok. cbn [Z.eqb]. rewrite !bind_Ok.
  eexists _, pre. split; [done|]. rewrite Hpre, <- app_assoc. reflexivity.
Qed.
End collector.

(** ** Opening streams ends *)

Create HintDb fuel.

Section opening.
Context `{LS : LogSystem}.
Context (confs : list stream_config) (time : Z).

Abbreviation state := (log_state log_handler log_world).

(** A computation that does not run out of fuel. *)
Definition enough {A} (o : outcome A) : Prop := o <> Fail OutOfFuel.

Lemma enough_bind {A B} (o : outcome A) (f : A -> outcome B) : enough o -> (forall a, enough (f a)) -> enough (o ≫= f).
Proof. unfold enough. destruct o as [a|[]]; cbn; auto; discriminate. Qed.

Lemma enough_foldM {S A} (f : S -> A -> outcome S) l s : (forall s a, enough (f s a)) -> enough (foldM f s l).
Proof. intros Hf. revert s; induction l as [|a l IH]; intros s; cbn [foldM]; [done|]. apply enough_bind; auto. Qed.

Lemma enough_deref {A} (o : option A) : enough (deref o).
Proof. by destruct o. Qed.

Lemma enough_assert b : enough (c_assert b).
Proof. by destruct b. Qed.

Lemma enough_i64 z : enough (i64 z).
Proof. unfold i64. by destruct (in_i64 z). Qed.

#[local] Hint Resolve enough_deref enough_assert enough_i64 : fuel.

(** Follows a computation to its primitive steps. *)
Ltac no_fuel :=
  repeat first
    [ done | solve [auto with fuel nocore] | apply enough_foldM; intros
    | apply enough_bind; [|intros] | progress unfold get_stream
    | match goal with |- enough (match ?x with _ => _ end) => destruct x end ].

Lemma enough_new_stream (st : state) : enough (log_new_stream st).
Proof. unfold log_new_stream, log_init_module, alloc_stream, log_add_substream, log_ref_stream. no_fuel. Qed.
#[local] Hint Resolve enough_new_stream : fuel.

Lemma enough_new_target c (st : state) : enough (new_target time c st).
Proof.
  unfold new_target, log_new_file, log_new_fd, log_new_syslog, do_log_switch, do_log_reopen. no_fuel.
Qed.

Lemma enough_type_mask types (st : state) : enough (log_type_mask types st).
Proof.
  unfold log_type_mask. assert (Hloop : forall types mask, enough (type_mask_loop types mask st)).
  { clear. induction types as [|t types IH]; intros mask; cbn [type_mask_loop]; [done|].
    destruct (bool_decide _); [done|]. destruct (0 <=? _); [|apply IH]. unfold bit. apply enough_bind; [by destruct (_ <? _)|].
    intros. apply IH. }
  by destruct types.
Qed.

Lemma enough_limits l lim (st : state) : enough (log_apply_limits l lim st).
Proof.
  unfold log_apply_limits. apply enough_bind; [apply enough_type_mask|]. intros mask. unfold tbf_init, to_u32, Double.to_i64. no_fuel.
Qed.

Context (Hnamed : forall i c, confs !! i = Some c -> is_Some (sc_name c)).
Context (Hwell : well_configured confs).

Lemma add_substreams_enough new c conf l subs lss st :
  confs !! c = Some conf -> (forall s, s ∈ subs -> s ∈ sc_substreams conf) ->
  (forall d lss st, substream confs c d -> enough (new d lss st)) ->
  enough (add_substreams confs new l subs lss st).
Proof.
  intros Hc Hin Hnew. revert lss st; induction subs as [|s subs IH]; intros lss st; cbn [add_substreams]; [done|].
  destruct (stream_find_ok confs Hnamed s) as (r & -> & Hr). rewrite bind_Ok. destruct r as [d|]; [|done].
  apply enough_bind; [apply Hnew; exists conf, s; split_and!; [done|apply Hin; set_solver|apply Hr]|].
  intros [[k lss'] st']. apply enough_bind; [unfold log_add_substream, log_ref_stream; no_fuel|].
  intros st''. apply IH. set_solver.
Qed.

(** A path in the graph is not longer than the list of streams. *)
Lemma do_new_configured_enough fuel above c lss st :
  NoDup above -> (forall a, a ∈ above -> (a < length confs)%nat /\ tc (substream confs) a c) ->
  (length confs < fuel + length above)%nat ->
  enough (do_new_configured confs time fuel c lss st).
Proof.
  revert above c lss st; induction fuel as [|fuel IH]; intros above c lss st Hnd Habove Hlen.
  { exfalso. assert (length above <= length confs)%nat; [|lia].
    rewrite <- (length_seq (length confs) 0). apply submseteq_length, NoDup_submseteq; [done|].
    intros a Ha. apply elem_of_seq. destruct (Habove a Ha). lia. }
  cbn [do_new_configured]. destruct (confs !! c) as [conf|] eqn:Hc; [|done]. cbn [deref]. rewrite bind_Ok.
  apply enough_bind; [apply enough_deref|]. intros [l|]; [done|].
  apply enough_bind; [apply enough_new_target|]. intros [l st1]. apply enough_bind.
  - apply (add_substreams_enough _ c conf); [done|auto|]. intros d lss' st' Hd. apply (IH (c :: above)).
    + apply NoDup_cons. split; [|done]. intros Hin. apply (wc_acyclic _ Hwell c). by apply Habove.
    + intros a Ha. apply elem_of_cons in Ha as [->|Ha].
      * split; [by apply lookup_lt_Some in Hc|by apply tc_once].
      * destruct (Habove a Ha) as [Hlt Htc]. split; [done|]. by apply (tc_r _ c).
    + cbn [length]. lia.
  - intros [lss2 st2]. apply enough_bind; [apply enough_type_mask|]. intros types. unfold get_stream.
    apply enough_bind; [apply enough_deref|]. intros s. apply enough_bind; [|done].
    apply enough_foldM. intros. apply enough_limits.
Qed.
End opening.

(** ** Claims *)

(** C37: what the collector shows without a logging section of its own: the
    streams it sets up pass a message to the standard error output exactly when
    it is of the default type and its level is information, warning, error or
    fatal; it is then one write that ends with the text and a newline.  Other
    messages, such as those of type [spam], change nothing.  The messages of
    the signal handlers are excepted: they are always written there, whatever
    their type and level, with at most 255 bytes of their text. *)
Theorem collector_messages_shown `{LS : LogSystem} strerror title time level type text now warn :
  (forall w fd text, sys_write w fd text = 0) ->
  0 <= level < 8 -> 0 <= type < 32 -> short (text_or_nil title) -> short text -> time_ok now ->
  exists st st', collector_logging title time = Ok st /\ lw_events (lg_world st) = [] /\
    vmsg strerror (message_flags level type) text now warn st = Ok st' /\
    (if shown level type then exists pre, lw_events (lg_world st') = [EvWrite 2 (pre ++ sanitize text ++ [10])]
     else st' = st) /\
    exists st'' pre, vmsg strerror (signal_flags level type) text now warn st = Ok st'' /\
      lw_events (lg_world st'') = [EvWrite 2 (pre ++ sanitize (take 255 text) ++ [10])].
Proof.
  intros Hw Hl Ht Htitle Htext Hnow. exists (collector_streams title).
  destruct (collector_vmsg strerror Hw title level type text now warn Hl Ht Htitle Htext Hnow) as (st' & E & Hshow).
  exists st'. split; [apply collector_logging_ok|]. do 3 (split; [done|]). by apply collector_signal_vmsg.
Qed.

Lemma collector_messages_shown_witness :
  let sys := {| sys_write _ _ _ := 0; sys_open _ _ := None; sys_strftime f _ := f |} in
  let now := {| lt_sec := 0; lt_usec := 0; lt_text := None |} in
  exists st st', collector_logging (LS := sys) None 0 = Ok st /\
    vmsg (LH := library_handlers (LS := sys)) (fun _ => []) (message_flags L_WARN 1) [65] now now st = Ok st' /\ st' = st.
Proof.
  intros sys now.
  destruct (collector_messages_shown (LS := sys) (fun _ => []) None 0 L_WARN 1 [65] now now) as (st & st' & E1 & _ & E2 & E3 & _).
  - intros w fd text. reflexivity.
  - vm_compute. split; [discriminate|reflexivity].
  - vm_compute. split; [discriminate|reflexivity].
  - vm_compute. discriminate.
  - vm_compute. discriminate.
  - repeat split; vm_compute; (discriminate || reflexivity || lia).
  - exists st, st'. split; [exact E1|]. split; [exact E2|exact E3].
Defined.

(** C34: opening a configured stream with its substreams ends for every
    configuration the check accepts on a first commit: the recursion is never
    deeper than there are streams. *)
Theorem opening_streams_ends `{LS : LogSystem} confs marks time name lss (st : log_state log_handler log_world) :
  (forall i c, confs !! i = Some c -> is_Some (sc_name c)) ->
  log_config_commit confs (fresh_marks confs) = Ok (None, marks) ->
  enough (log_new_configured confs time name lss st).
Proof.
  intros Hnamed Hcommit. assert (Hwell : well_configured confs) by by apply (commit_well_configured confs marks).
  unfold log_new_configured. destruct (stream_find_ok confs Hnamed name) as (r & -> & Hr). rewrite bind_Ok.
  destruct r as [c|]; [|done]. apply enough_bind; [apply enough_deref|]. intros [l|].
  - unfold log_ref_stream, get_stream. apply enough_bind; [|done]. apply enough_bind; [apply enough_deref|done].
  - apply (do_new_configured_enough confs time Hnamed Hwell _ []); [constructor|set_solver|cbn; lia].
Qed.

Lemma opening_streams_ends_witness :
  let sys := {| sys_write _ _ _ := 0; sys_open _ _ := None; sys_strftime f _ := f |} in
  enough (log_new_configured (LS := sys) [stderr_config; default_config] 0 (bytes_of_string "default") [None; None]
            (initial_logging None)).
Proof.
  intros sys. apply (opening_streams_ends [stderr_config; default_config] [2; 2]).
  - intros [|[|i]] c Hc; [injection Hc as <-; by eexists..|done].
  - vm_compute. reflexivity.
Defined.

(** After the commits of [stale_marks_hide_cycles] the two streams of the
    accepted cycle are opened without end: no fuel is enough. *)
Theorem stale_marks_endless `{LS : LogSystem} fuel c time (st : log_state log_handler log_world) :
  let after := [stream_of "a" ["b"]; stream_of "b" ["a"]]%string in
  (c < 2)%nat -> lg_initialized st = true -> lg_free st = ALL_ONES ->
  do_new_configured after time fuel c [None; None] st = Fail OutOfFuel.
Proof.
  intros after. revert c st; induction fuel as [|fuel IH]; intros c st Hc Hi Hf; [done|]. cbn [do_new_configured].
  assert (Hnew : exists l st1, log_new_stream st = Ok (l, st1) /\ lg_initialized st1 = true /\ lg_free st1 = ALL_ONES).
  { unfold log_new_stream, log_init_module, alloc_stream. rewrite Hi, bind_Ok, Hf. change (ALL_ONES =? ALL_ONES) with true. by do 2 eexists. }
  destruct Hnew as (l & st1 & Enew & Hi1 & Hf1).
  destruct c as [|[|c]]; [..|lia]; cbn [lookup list_lookup after deref]; rewrite !bind_Ok;
    (assert (new_target time _ st = Ok (l, st1)) as -> by exact Enew); rewrite bind_Ok;
    cbn [stream_of sc_substreams map add_substreams].
  - assert (stream_find after (Some (bytes_of_string "b")) = Ok (Some 1%nat)) as -> by (vm_compute; reflexivity).
    rewrite !bind_Ok, (IH 1%nat) by (lia || done). done.
  - assert (stream_find after (Some (bytes_of_string "a")) = Ok (Some 0%nat)) as -> by (vm_compute; reflexivity).
    rewrite !bind_Ok, (IH 0%nat) by (lia || done). done.
Qed.
