(* ===== verification/Dump.v ===== *)
(** * Dumping of dropped packets ([src/dump.h], [src/dump.c])

    A dumper writes packets the collector could not use to pcap files, with
    a token-bucket rate limit and rotation of the files.  What libtrace
    answers to the calls of one operation is the record [dump_env]; the open
    output file is the list of the packets written to it. *)

From stdpp Require Import base numbers strings gmap list.
From S2P Require Import Prelude Doubles Common Libs Packet Config TimeFmt.

Section dump.
Context `{L : Libc} `{T : Libtrace}.

(** libtrace's answers: whether the output could be opened, the results of
    the two configuration calls, and the result of writing the packet. *)
Record dump_env : Set := {
  de_open_ok : bool;
  de_config_type : Z;
  de_config_level : Z;
  de_write : Z;
}.

(** [struct dns_dump]; [d_trace] is the open file, [d_closed] the files
    closed so far, each with its name and its packets. *)
Record dns_dump : Type := {
  d_period_sec : Z;
  d_path_fmt : list Z;
  d_uri : option (list Z);
  d_trace : option (list libtrace_packet_t);
  d_opened : Z;
  d_compress_type : compresstype;
  d_compress_level : Z;
  d_rate : Double.double;
  d_tokens : Double.double;
  d_last_event : Z;
  d_current_dumped : Z;
  d_current_bytes : Z;
  d_current_skipped : Z;
  d_closed : list (list Z * list libtrace_packet_t);
}.

Definition DUMP_BURST_MULT : Z := 10.
Definition DNS_OUTPUT_FILENAME_EXTRA : Z := 64.

(** [DUMP_BURST_MULT * rate]. *)
Definition burst (rate : Double.double) : Double.double :=
  Double.mul (Double.of_Z DUMP_BURST_MULT) rate.

(** [dns_dump_create]. *)
Definition dns_dump_create (conf : dns_config) : outcome dns_dump :=
  ct ← deref (dns_dump_compress_types_num !! Z.to_nat (dump_compress_type conf));
  Ok {| d_period_sec := dump_period_sec conf; d_path_fmt := dump_path_fmt conf;
        d_uri := None; d_trace := None; d_opened := 0;
        d_compress_type := ct; d_compress_level := dump_compress_level conf;
        d_rate := dump_rate_limit conf; d_tokens := burst (dump_rate_limit conf);
        d_last_event := DNS_NO_TIME;
        d_current_dumped := 0; d_current_bytes := 0; d_current_skipped := 0; d_closed := [] |}.

(** Assignments to the file, and to the members of the rate limit. *)
Definition set_file (d : dns_dump) (uri : option (list Z)) (trace : option (list libtrace_packet_t))
    (closed : list (list Z * list libtrace_packet_t)) : dns_dump :=
  {| d_period_sec := d_period_sec d; d_path_fmt := d_path_fmt d; d_uri := uri; d_trace := trace;
     d_opened := d_opened d; d_compress_type := d_compress_type d;
     d_compress_level := d_compress_level d; d_rate := d_rate d; d_tokens := d_tokens d;
     d_last_event := d_last_event d; d_current_dumped := d_current_dumped d;
     d_current_bytes := d_current_bytes d; d_current_skipped := d_current_skipped d;
     d_closed := closed |}.

Definition set_bucket (d : dns_dump) (tokens : Double.double) (last : Z) : dns_dump :=
  {| d_period_sec := d_period_sec d; d_path_fmt := d_path_fmt d; d_uri := d_uri d;
     d_trace := d_trace d; d_opened := d_opened d; d_compress_type := d_compress_type d;
     d_compress_level := d_compress_level d; d_rate := d_rate d; d_tokens := tokens;
     d_last_event := last; d_current_dumped := d_current_dumped d;
     d_current_bytes := d_current_bytes d; d_current_skipped := d_current_skipped d;
     d_closed := d_closed d |}.

Definition set_counts (d : dns_dump) (dumped bytes skipped : Z) : dns_dump :=
  {| d_period_sec := d_period_sec d; d_path_fmt := d_path_fmt d; d_uri := d_uri d;
     d_trace := d_trace d; d_opened := d_opened d; d_compress_type := d_compress_type d;
     d_compress_level := d_compress_level d; d_rate := d_rate d; d_tokens := d_tokens d;
     d_last_event := d_last_event d; d_current_dumped := dumped;
     d_current_bytes := bytes; d_current_skipped := skipped; d_closed := d_closed d |}.

Definition set_opened (d : dns_dump) (time : Z) : dns_dump :=
  {| d_period_sec := d_period_sec d; d_path_fmt := d_path_fmt d; d_uri := d_uri d;
     d_trace := d_trace d; d_opened := time; d_compress_type := d_compress_type d;
     d_compress_level := d_compress_level d; d_rate := d_rate d; d_tokens := d_tokens d;
     d_last_event := d_last_event d; d_current_dumped := d_current_dumped d;
     d_current_bytes := d_current_bytes d; d_current_skipped := d_current_skipped d;
     d_closed := d_closed d |}.

(** [dns_dump_close]. *)
Definition dns_dump_close (d : dns_dump) : outcome dns_dump :=
  match d_trace d with
  | None => Ok d
  | Some ps =>
      match d_uri d with
      | None => Fail AssertFailed
      | Some uri => Ok (set_file d None None (d_closed d ++ [(uri, ps)]))
      end
  end.

Definition PCAPFILE : list Z := bytes_of_string "pcapfile:".

(** [dns_dump_open]. *)
Definition dns_dump_open (env : dump_env) (d : dns_dump) (time : Z) : outcome (dns_ret * dns_dump) :=
  _ ← c_assert (negb (bool_decide (is_Some (d_trace d))));
  let path_len := Z.of_nat (length (d_path_fmt d)) + DNS_OUTPUT_FILENAME_EXTRA + 10 in
  l ← dns_us_time_strftime (path_len - Z.of_nat (length PCAPFILE)) (d_path_fmt d) time;
  match l with
  | None => Fail (Died "Expanded filename")
  | Some s =>
      let d := set_file d (Some (PCAPFILE ++ s)) (Some []) (d_closed d) in
      if negb (de_open_ok env) then Ok (DNS_RET_ERR, set_file d (d_uri d) None (d_closed d))
      else
        let r := if (d_compress_level d >? 0) && negb (bool_decide (d_compress_type d = COMPRESSTYPE_NONE))
                 then if de_config_type env >=? 0 then de_config_level env else de_config_type env
                 else 0 in
        if r <? 0 then Ok (DNS_RET_ERR, set_file d (d_uri d) None (d_closed d))
        else
          let d := set_bucket d (burst (d_rate d)) time in
          Ok (DNS_RET_OK, set_counts (set_opened d time) 0 0 0)
  end.

(** [dns_dump_destroy]; the structure is freed. *)
Definition dns_dump_destroy (d : dns_dump) : outcome unit :=
  c_assert (negb (bool_decide (is_Some (d_trace d)))).

(** [dns_dump_packet]: the time of the event. *)
Definition event_time (d : dns_dump) (tp : libtrace_packet_t) : outcome (Z * dns_dump) :=
  time ← dns_us_time_from_timespec (trace_get_timespec tp);
  let d := if d_last_event d =? DNS_NO_TIME then set_bucket d (d_tokens d) time else d in
  Ok (MAX time (d_last_event d), d).

(** The rate limit: whether the packet may be written. *)
Definition rate_limit (d : dns_dump) (time : Z) : outcome (bool * dns_dump) :=
  if Double.ltb (ratio 1 1000000) (d_rate d) then
    dt ← i64 (time - d_last_event d);
    fs ← dns_us_time_to_fsec dt;
    let tokens := Double.add (d_tokens d) (Double.mul (d_rate d) fs) in
    let d := set_bucket d (Double.min tokens (burst (d_rate d))) time in
    if Double.ltb (d_tokens d) (Double.of_Z 0)
    then Ok (false, set_counts d (d_current_dumped d) (d_current_bytes d) (u64 (d_current_skipped d + 1)))
    else Ok (true, d)
  else Ok (true, d).

(** Rotation and opening of a new file. *)
Definition dump_rotate (env : dump_env) (clock : Z) (d : dns_dump) (time : Z)
    : outcome (dns_ret * dns_dump) :=
  d ← (if bool_decide (is_Some (d_trace d)) && (d_period_sec d >? 0)
       then rot ← dns_next_rotation clock (d_period_sec d) (d_opened d) time;
            if (rot : bool) then dns_dump_close d else Ok d
       else Ok d);
  if bool_decide (is_Some (d_trace d)) then Ok (DNS_RET_OK, d) else dns_dump_open env d time.

(** Writing the packet and accounting for it. *)
Definition dump_write (env : dump_env) (d : dns_dump) (tp : libtrace_packet_t)
    : outcome (dns_ret * dns_dump) :=
  ps ← deref (d_trace d);
  let r := de_write env in
  if r <=? 0 then Ok (DNS_RET_ERR, d)
  else
    let d := set_file d (d_uri d) (Some (ps ++ [tp])) (d_closed d) in
    let d := set_counts d (u64 (d_current_dumped d + 1)) (u64 (d_current_bytes d + r)) (d_current_skipped d) in
    Ok (DNS_RET_OK, set_bucket d (Double.sub (d_tokens d) (Double.of_Z r)) (d_last_event d)).

(** [dns_dump_packet]; [clock] is read by [dns_next_rotation] only for a
    packet without time. *)
Definition dns_dump_packet (env : dump_env) (clock : Z) (d : dns_dump) (tp : libtrace_packet_t)
    : outcome (dns_ret * dns_dump) :=
  '(time, d) ← event_time d tp;
  '(go, d) ← rate_limit d time;
  if negb (go : bool) then Ok (DNS_RET_OK, d)
  else
    '(r, d) ← dump_rotate env clock d time;
    if negb (bool_decide (r = DNS_RET_OK)) then Ok (r, d)
    else dump_write env d tp.

(** ** Properties *)

(** All packets in files, oldest first. *)
Definition dumped (d : dns_dump) : list libtrace_packet_t :=
  flat_map snd (d_closed d) ++ default [] (d_trace d).

(** An open file has a name, and the counter of its packets. *)
Definition dump_inv (d : dns_dump) : Prop :=
  match d_trace d with
  | Some ps => is_Some (d_uri d) /\ d_current_dumped d = u64 (Z.of_nat (length ps))
  | None => True
  end.

(** libtrace opens and configures the output. *)
Definition env_opens (env : dump_env) : Prop :=
  de_open_ok env = true /\ 0 <= de_config_type env /\ 0 <= de_config_level env.

Lemma open_env_opens env d d' r time : env_opens env -> dns_dump_open env d time = Ok (r, d') ->
  r = DNS_RET_OK.
Proof.
  unfold dns_dump_open. intros (Ho & Ht & Hl) H. inv_ok. destruct a0 as [s|]; [|done].
  rewrite Ho in H. cbn [negb] in H.
  assert (Hr : forall b : bool, ((if b then if de_config_type env >=? 0 then de_config_level env
              else de_config_type env else 0) <? 0) = false).
  { intros []; [destruct (Z.geb_spec (de_config_type env) 0)|]; lia. }
  rewrite Hr in H. by simplify_eq.
Qed.

Lemma rotate_env_opens env clock d d' r time : env_opens env ->
  dump_rotate env clock d time = Ok (r, d') -> r = DNS_RET_OK.
Proof.
  unfold dump_rotate. intros He H. inv_ok. case_bool_decide; [by simplify_eq|].
  by eapply open_env_opens.
Qed.

(** ** Dumping a packet *)

(** The packet arrives over the rate: the bucket, filled for the time since the
    last event, is overdrawn. *)
Definition over_rate (d : dns_dump) (last time : Z) : bool :=
  Double.ltb (ratio 1 1000000) (d_rate d) &&
  Double.ltb (Double.min (Double.add (d_tokens d) (Double.mul (d_rate d)
                (Double.div (Double.of_Z (time - last)) (Double.of_Z 1000000)))) (burst (d_rate d))) (Double.of_Z 0).

(** The file a packet at [time] belongs to: the files closed before, its name,
    the packets already in it and when it was opened.  A file is left when more
    than a period has passed since it was opened. *)
Definition dump_file (d : dns_dump) (time : Z) (fresh : list Z)
    : list (list Z * list libtrace_packet_t) * list Z * list libtrace_packet_t * Z :=
  match d_trace d with
  | None => (d_closed d, fresh, [], time)
  | Some ps =>
      if (0 <? d_period_sec d) && (d_opened d + 1000000 * d_period_sec d <? time)
      then (d_closed d ++ [(default [] (d_uri d), ps)], fresh, [], time)
      else (d_closed d, default [] (d_uri d), ps, d_opened d)
  end.

(** The members a packet does not change. *)
Definition same_dump (d d' : dns_dump) : Prop :=
  d_period_sec d' = d_period_sec d /\ d_path_fmt d' = d_path_fmt d /\ d_rate d' = d_rate d /\
  d_compress_type d' = d_compress_type d /\ d_compress_level d' = d_compress_level d.

(** The name of a file opened at [time]. *)
Definition dump_name (d : dns_dump) (time : Z) (name : list Z) : Prop :=
  exists s, dns_us_time_strftime (Z.of_nat (length (d_path_fmt d)) + DNS_OUTPUT_FILENAME_EXTRA + 10 -
                Z.of_nat (length PCAPFILE)) (d_path_fmt d) time = Ok (Some s) /\ name = PCAPFILE ++ s.

(** Times in a dumper are in range. *)
Definition dump_times (d : dns_dump) : Prop :=
  - 2 ^ 31 <= d_period_sec d < 2 ^ 31 /\ (d_last_event d = DNS_NO_TIME \/ 0 <= d_last_event d <= 2 ^ 60).

Lemma open_result env d time name :
  env_opens env -> d_trace d = None -> dump_name d time name ->
  exists d', dns_dump_open env d time = Ok (DNS_RET_OK, d') /\ d_trace d' = Some [] /\ d_uri d' = Some name /\
    d_opened d' = time /\ d_closed d' = d_closed d /\ d_last_event d' = time /\ d_current_dumped d' = 0 /\ same_dump d d'.
Proof.
  intros (Ho & Ht & Hl) Hn (s & Hs & ->). unfold dns_dump_open. rewrite Hn, c_assert_true.
  2: { by apply negb_true_iff, bool_decide_eq_false_2; intros []. }
  cbn [mbind outcome_bind]. rewrite Hs. cbn [mbind outcome_bind]. rewrite Ho. cbn [negb].
  match goal with |- context [if ?c <? 0 then _ else _] => assert (Hc : (c <? 0) = false) end.
  { destruct (_ && _); [destruct (Z.geb_spec (de_config_type env) 0)|]; lia. }
  cbn zeta. rewrite Hc. eexists. split; [done|]. by repeat split.
Qed.

Lemma dump_file_period d time name :
  let '(_, _, _, opened) := dump_file d time name in 0 < d_period_sec d -> time <= opened + 1000000 * d_period_sec d.
Proof.
  unfold dump_file. destruct (d_trace d); [|lia].
  destruct (Z.ltb_spec 0 (d_period_sec d)); cbn [andb]; [|lia].
  destruct (Z.ltb_spec (d_opened d + 1000000 * d_period_sec d) time); lia.
Qed.

Lemma dump_file_dumped d time name :
  let '(closed, _, ps, _) := dump_file d time name in flat_map snd closed ++ ps = dumped d.
Proof.
  unfold dump_file, dumped. destruct (d_trace d); [|done]. destruct (_ && _); [|done].
  rewrite flat_map_app. cbn. by rewrite !app_nil_r.
Qed.

(** The bucket decides; nothing else of the files changes. *)
Lemma rate_limit_result d time : 0 <= time - d_last_event d <= 2 ^ 60 ->
  exists d', rate_limit d time = Ok (negb (over_rate d (d_last_event d) time), d') /\
    (d_trace d' = d_trace d /\ d_uri d' = d_uri d /\ d_closed d' = d_closed d /\ d_opened d' = d_opened d /\
     d_current_dumped d' = d_current_dumped d /\
     d_current_skipped d' = (if over_rate d (d_last_event d) time then u64 (d_current_skipped d + 1) else d_current_skipped d) /\
     same_dump d d') /\
    (d_last_event d' = d_last_event d \/ d_last_event d' = time).
Proof.
  intros Ht. unfold rate_limit, over_rate. destruct (Double.ltb _ (d_rate d)); cbn [andb negb].
  2: { exists d. split; [done|]. split; [done|]. by left. }
  rewrite i64_in by (unfold INT64_MIN, INT64_MAX; lia). cbn [mbind outcome_bind]. unfold dns_us_time_to_fsec.
  rewrite c_assert_true by (apply negb_true_iff, Z.eqb_neq; unfold DNS_NO_TIME, INT64_MIN; lia). cbn [mbind outcome_bind].
  cbn [d_tokens set_bucket].
  destruct (Double.ltb (Double.min _ _) _); (eexists; split; [done|]); (split; [done|]); by right.
Qed.

Lemma rotate_result env clock d time name :
  env_opens env -> dump_inv d -> dump_name d time name -> - 2 ^ 31 <= d_period_sec d < 2 ^ 31 -> 0 <= time <= 2 ^ 60 ->
  exists d', dump_rotate env clock d time = Ok (DNS_RET_OK, d') /\ dump_inv d' /\ same_dump d d' /\
    (d_closed d', default [] (d_uri d'), d_opened d') =
      (let '(closed, uri, _, opened) := dump_file d time name in (closed, uri, opened)) /\
    d_trace d' = Some (let '(_, _, ps, _) := dump_file d time name in ps) /\
    (d_last_event d' = d_last_event d \/ d_last_event d' = time).
Proof.
  intros He I Hname Hp Ht. unfold dump_rotate, dump_file.
  assert (Hfresh : forall d1, d_trace d1 = None -> same_dump d d1 -> d_closed d1 = d_closed d ++
      match d_trace d with Some ps => [(default [] (d_uri d), ps)] | None => [] end ->
    exists d', dns_dump_open env d1 time = Ok (DNS_RET_OK, d') /\ dump_inv d' /\ same_dump d d' /\
      (d_closed d', default [] (d_uri d'), d_opened d') = (d_closed d1, name, time) /\ d_trace d' = Some [] /\
      (d_last_event d' = d_last_event d \/ d_last_event d' = time)).
  { intros d1 Hn Hs _. pose proof Hs as (_ & Hf & _).
    destruct (open_result env d1 time name He Hn) as (d' & Ho & E1 & E2 & E3 & E4 & E5 & E6 & E7).
    { unfold dump_name. by rewrite Hf. }
    exists d'. split; [done|]. split; [unfold dump_inv; rewrite E1, E2, E6; by split; [eexists|]|].
    split; [unfold same_dump in *; intuition congruence|]. rewrite E2, E3, E4. cbn. auto. }
  unfold dump_inv in I. destruct (d_trace d) as [ps|] eqn:Etr.
  2: { cbn [mbind outcome_bind andb]. rewrite bool_decide_eq_false_2 by (by intros []). cbn [andb mbind outcome_bind].
       rewrite Etr, bool_decide_eq_false_2 by (by intros []).
       destruct (Hfresh d Etr) as (d' & Ho & H); [done | by rewrite app_nil_r |]. exists d'. by rewrite Ho. }
  destruct I as [[uri Huri] Hc]. rewrite bool_decide_eq_true_2 by (by eexists). cbn [andb].
  rewrite Z.gtb_ltb. destruct (Z.ltb_spec 0 (d_period_sec d)) as [Hpos|Hpos]; cbn [andb mbind outcome_bind].
  2: { rewrite Etr, bool_decide_eq_true_2 by (by eexists). exists d. split; [done|]. unfold dump_inv. rewrite Etr.
       split; [by split; [eexists|]|]. split; [done|]. auto. }
  rewrite next_rotation_ok by (unfold DNS_NO_TIME, INT64_MIN, INT64_MAX; destruct (Z.eqb_spec time (-2 ^ 63)); lia).
  replace (time =? DNS_NO_TIME) with false by (symmetry; apply Z.eqb_neq; unfold DNS_NO_TIME, INT64_MIN; lia).
  cbn [mbind outcome_bind]. destruct (_ <? time) eqn:Erot.
  - unfold dns_dump_close. rewrite Etr, Huri. cbn [mbind outcome_bind d_trace set_file].
    rewrite bool_decide_eq_false_2 by (by intros []).
    destruct (Hfresh (set_file d None None (d_closed d ++ [(uri, ps)]))) as (d' & Ho & H); [done | done | by rewrite Huri |].
    exists d'. rewrite Ho. cbn. split; [done|]. by rewrite Huri in *.
  - cbn [mbind outcome_bind]. rewrite Etr, bool_decide_eq_true_2 by (by eexists). exists d. split; [done|].
    unfold dump_inv. rewrite Etr. split; [by split; [eexists|]|]. split; [done|]. auto.
Qed.


(** When libtrace opens the file but writing the packet fails, the dumper
    keeps the file open; destroying the dumper, which is what the input does
    after any failed dump, then fails an assertion. *)
Theorem dump_write_error_destroy (env : dump_env) (clock : Z) (d d' : dns_dump)
    (tp : libtrace_packet_t) :
  dump_inv d -> env_opens env ->
  dns_dump_packet env clock d tp = Ok (DNS_RET_ERR, d') ->
  de_write env <= 0 /\ dns_dump_destroy d' = Fail AssertFailed.
Proof.
  unfold dns_dump_packet. intros I He H. inv_ok. destruct a as [time d1]. inv_ok. destruct a as [go d2].
  destruct go; cbn [negb] in H; [|done]. inv_ok. destruct a as [r2 d3].
  pose proof (rotate_env_opens _ _ _ _ _ _ He H2) as ->.
  rewrite bool_decide_eq_true_2 in H by done. cbn [negb] in H. unfold dump_write in H. inv_ok. destruct (de_write env <=? 0) eqn:Ew; [|by simplify_eq]. apply Z.leb_le in Ew.
  simplify_eq. split; [done|]. unfold dns_dump_destroy.
  by match goal with E : d_trace _ = Some _ |- _ => rewrite E end.
Qed.

(** The smaller of two doubles is not above the second. *)
Lemma dltb_asym a b : Double.ltb a b = true -> Double.ltb b a = false.
Proof.
  unfold Double.ltb, SpecFloat.SFltb, SpecFloat.SFcompare.
  destruct a as [[]|[]| |[] m e], b as [[]|[]| |[] m' e']; try done;
    rewrite (Z.compare_antisym e e');
    change (Pos.compare_cont Eq m m') with (m ?= m')%positive;
    change (Pos.compare_cont Eq m' m) with (m' ?= m)%positive;
    rewrite (Pos.compare_antisym m m'); by destruct (e ?= e')%Z, (m ?= m')%positive.
Qed.

Lemma dltb_irrefl a : Double.ltb a a = false.
Proof. destruct (Double.ltb a a) eqn:E; [|done]. pose proof (dltb_asym _ _ E). congruence. Qed.

Lemma dmin_le a b : Double.ltb b (Double.min a b) = false.
Proof.
  unfold Double.min. destruct (Double.ltb a b) eqn:E; [by apply dltb_asym | apply dltb_irrefl].
Qed.

(** With a rate limit, the tokens are at most ten seconds' worth after
    every event, and a packet is written only while they are not negative:
    a packet that finds the bucket overdrawn is counted as skipped and
    reaches no file. *)
Theorem dump_rate_limited (d d' : dns_dump) (time : Z) (go : bool) :
  Double.ltb (ratio 1 1000000) (d_rate d) = true ->
  rate_limit d time = Ok (go, d') ->
  go = negb (Double.ltb (d_tokens d') (Double.of_Z 0)) /\
  Double.ltb (burst (d_rate d)) (d_tokens d') = false /\
  d_last_event d' = time /\
  d_current_skipped d' = (if go then d_current_skipped d else u64 (d_current_skipped d + 1)).
Proof.
  unfold rate_limit. intros Hr. rewrite Hr. intros H. inv_ok.
  destruct (Double.ltb (d_tokens (set_bucket _ _ _)) _) eqn:Et; simplify_eq;
    cbn [d_tokens set_counts]; rewrite Et; (split; [done|]); (split; [apply dmin_le|done]).
Qed.

End dump.

(** ** Closed examples *)

Section examples.
#[local] Existing Instance Sample.sample_trace.
#[local] Existing Instance sample_libc.

(** A dumper to file [d], without compression, limited to [rate] bytes per second. *)
Definition sample_dump (rate : Z) : dns_dump :=
  {| d_period_sec := 0; d_path_fmt := [100]; d_uri := None; d_trace := None; d_opened := 0;
     d_compress_type := COMPRESSTYPE_NONE; d_compress_level := 4;
     d_rate := Double.of_Z rate; d_tokens := burst (Double.of_Z rate);
     d_last_event := DNS_NO_TIME; d_current_dumped := 0; d_current_bytes := 0;
     d_current_skipped := 0; d_closed := [] |}.

Definition env_write (r : Z) : dump_env :=
  {| de_open_ok := true; de_config_type := 0; de_config_level := 0; de_write := r |}.

Definition after_dump (r : Z) (d : dns_dump) : dns_dump :=
  match dns_dump_packet (env_write r) 0 d sample_query with Ok (_, d) => d | Fail _ => d end.

Definition sample_time : Z :=
  match dns_us_time_from_timespec (trace_get_timespec sample_query) with Ok t => t | Fail _ => 0 end.


Lemma dump_write_error_destroy_witness :
  dns_dump_destroy (after_dump (-1) (sample_dump 0)) = Fail AssertFailed.
Proof.
  destruct (dump_write_error_destroy (env_write (-1)) 0 (sample_dump 0)
              (after_dump (-1) (sample_dump 0)) sample_query) as [_ H].
  - exact I.
  - split; [reflexivity|]. split; vm_compute; discriminate.
  - vm_compute. reflexivity.
  - exact H.
Defined.

(** After a packet of 80 bytes a limit of one byte per second is overdrawn by
    70 tokens, and the next packet is skipped. *)
Definition overdrawn : dns_dump := after_dump 80 (sample_dump 1).

Definition limited (d : dns_dump) : dns_dump :=
  match rate_limit d (d_last_event d) with Ok (_, d) => d | Fail _ => d end.

Lemma dump_rate_limited_witness :
  d_current_skipped (limited overdrawn) = u64 (d_current_skipped overdrawn + 1).
Proof.
  destruct (dump_rate_limited overdrawn (limited overdrawn) (d_last_event overdrawn) false)
    as (_ & _ & _ & H).
  - vm_compute. reflexivity.
  - vm_compute. reflexivity.
  - exact H.
Defined.

End examples.
