(* ===== verification/ConfParse.v ===== *)
(** * Values in configuration files ([libucw/ucw/conf-parse.c],
    [libucw/ucw/str-esc.c], [libucw/ucw/conf-intr.c])

    The parsers of the basic types of libucw's configuration reader: integers
    and doubles with units, IP addresses, names of a list, and the escapes of
    quoted words.  A C string is the list of its bytes without the NUL.  A
    parser returns its error message, if any, with the value it assigned, if
    any; some assign a value although they fail. *)

From stdpp Require Import base numbers strings gmap list.
From S2P Require Import Prelude Doubles.

(** ** Characters ([libucw/ucw/chartype.h], [libucw/ucw/char-map.h]) *)

Definition Cblank (c : Z) : bool := existsb (Z.eqb c) [8; 9; 10; 12; 13; 32].
Definition Cdigit (c : Z) : bool := (48 <=? c) && (c <=? 57).
Definition Cxdigit (c : Z) : bool :=
  Cdigit c || ((65 <=? c) && (c <=? 70)) || ((97 <=? c) && (c <=? 102)).
Definition Clocase (c : Z) : Z := if (65 <=? c) && (c <=? 90) then c + 32 else c.

(** [strcasecmp(a, b) == 0]. *)
Definition strcaseeq (a b : list Z) : bool := bool_decide (map Clocase a = map Clocase b).

(** [isspace], which [strtoul] skips. *)
Definition isspace (c : Z) : bool := existsb (Z.eqb c) [9; 10; 11; 12; 13; 32].

Fixpoint skip_while (p : Z -> bool) (s : list Z) : list Z :=
  match s with
  | c :: r => if p c then skip_while p r else s
  | [] => []
  end.

(** ** [strtoul] and [strtoull], with 64 bits *)

Definition ULONG_MAX : Z := 2 ^ 64 - 1.

(** The value of a digit in any base. *)
Definition digit_value (c : Z) : Z :=
  if Cdigit c then c - 48
  else if (97 <=? Clocase c) && (Clocase c <=? 122) then Clocase c - 87 else 99.

(** Digits of a base: the number they make and what follows them. *)
Fixpoint take_digits (base acc : Z) (s : list Z) : Z * list Z :=
  match s with
  | c :: r => if digit_value c <? base then take_digits base (acc * base + digit_value c) r else (acc, s)
  | [] => (acc, [])
  end.

(** The base and the digits after a prefix; [0x] counts only before a
    hexadecimal digit. *)
Definition number_base (base : Z) (s : list Z) : Z * list Z :=
  let hex r := match r with c :: _ => digit_value c <? 16 | [] => false end in
  match s with
  | 48 :: x :: r =>
      if (Clocase x =? 120) && ((base =? 0) || (base =? 16)) && hex r then (16, r)
      else (if base =? 0 then 8 else base, s)
  | 48 :: _ => (if base =? 0 then 8 else base, s)
  | _ => (if base =? 0 then 10 else base, s)
  end.

(** [strtoul(s, &end, base)]: the value, the string at [end], and whether
    [errno] is [ERANGE]. *)
Definition strtoul (base : Z) (s : list Z) : Z * list Z * bool :=
  let t := skip_while isspace s in
  let '(neg, t) := match t with
                   | c :: r => if c =? 45 then (true, r) else if c =? 43 then (false, r) else (false, t)
                   | [] => (false, [])
                   end in
  let '(base, t) := number_base base t in
  let '(v, rest) := take_digits base 0 t in
  if (length rest =? length t)%nat then (0, s, false)
  else if v >? ULONG_MAX then (ULONG_MAX, rest, true)
  else (if (neg : bool) then u64 (- v) else v, rest, false).

(** ** Units *)

Record unit_ : Set := { u_name : Z; u_num : Z; u_den : Z }.

Definition units : list unit_ :=
  [ {| u_name := 100; u_num := 86400; u_den := 1 |};       (* d *)
    {| u_name := 104; u_num := 3600; u_den := 1 |};        (* h *)
    {| u_name := 107; u_num := 1000; u_den := 1 |};        (* k *)
    {| u_name := 109; u_num := 1000000; u_den := 1 |};     (* m *)
    {| u_name := 103; u_num := 1000000000; u_den := 1 |};  (* g *)
    {| u_name := 75; u_num := 1024; u_den := 1 |};         (* K *)
    {| u_name := 77; u_num := 1048576; u_den := 1 |};      (* M *)
    {| u_name := 71; u_num := 1073741824; u_den := 1 |};   (* G *)
    {| u_name := 37; u_num := 1; u_den := 100 |} ].        (* % *)

(** Error messages. *)
Inductive parse_error : Set :=
| MissingNumber | InvalidNumber | InvalidUnit | OutOfRange | NotAnInteger
| MissingIP | InvalidIP | TrailingCharacters | InvalidValue.

#[global] Instance parse_error_eq_dec : EqDecision parse_error.
Proof. solve_decision. Defined.

(** [lookup_unit]: the message and the unit. *)
Definition lookup_unit (value endp : list Z) : option parse_error * option unit_ :=
  match endp with
  | [] => (None, None)
  | c :: r =>
      if (length endp =? length value)%nat || negb (bool_decide (r = [])) || Cdigit c
      then (Some InvalidNumber, None)
      else match List.find (fun u => u_name u =? c) units with
           | Some u => (None, Some u)
           | None => (Some InvalidUnit, None)
           end
  end.

(** Conversion to [int]. *)
Definition s32 (z : Z) : Z := if u32 z <? 2 ^ 31 then u32 z else u32 z - 2 ^ 32.

(** ** Parsers *)

(** [cf_parse_int]: the [unsigned long] of [strtoul] is stored in an
    [unsigned int]. *)
Definition cf_parse_int (str : list Z) : option parse_error * option Z :=
  if bool_decide (str = []) then (Some MissingNumber, None)
  else
    let '(v, endp, erange) := strtoul 0 str in
    let x := u32 v in
    if (erange : bool) then (Some OutOfRange, None)
    else
      match lookup_unit str endp with
      | (_, Some u) =>
          let y := u64 (x * u_num u) in
          if negb (y mod u_den u =? 0) then (Some NotAnInteger, None)
          else let y := y / u_den u in
               (if y >? 2 ^ 32 - 1 then Some OutOfRange else None, Some (s32 y))
      | (msg, None) => (msg, Some (s32 x))
      end.

Definition cf_parse_u64 (str : list Z) : option parse_error * option Z :=
  if bool_decide (str = []) then (Some MissingNumber, None)
  else
    let '(x, endp, erange) := strtoul 0 str in
    if (erange : bool) then (Some OutOfRange, None)
    else
      match lookup_unit str endp with
      | (_, Some u) =>
          if x >? ULONG_MAX / u_num u then (Some OutOfRange, None)
          else let x := u64 (x * u_num u) in
               if negb (x mod u_den u =? 0) then (Some NotAnInteger, None) else (None, Some (x / u_den u))
      | (msg, None) => (msg, Some x)
      end.

(** [sscanf(str, "%lf%n", &x, &read_chars)]: the number and the count of the
    characters read, or [None] when no number is read. *)
Class ScanDouble : Type := scan_double : list Z -> option (Double.double * nat).

Definition cf_parse_double `{ScanDouble} (str : list Z) : option parse_error * option Double.double :=
  if bool_decide (str = []) then (Some MissingNumber, None)
  else
    match scan_double str with
    | None => (Some InvalidNumber, None)
    | Some (x, read_chars) =>
        match lookup_unit str (drop read_chars str) with
        | (_, Some u) =>
            (None, Some (Double.div (Double.mul x (Double.of_Z (u_num u))) (Double.of_Z (u_den u))))
        | (msg, None) => (msg, Some x)
        end
    end.

(** The four numbers of [cf_parse_ip]; [first] for the first of them. *)
Fixpoint parse_quads (n : nat) (first : bool) (x : Z) (p : list Z) : option (Z * list Z) :=
  match n with
  | O => Some (x, p)
  | S n =>
      match (if first then Some p else match p with 46 :: r => Some r | _ => None end) with
      | None => None
      | Some p =>
          match p with
          | c :: _ =>
              if Cdigit c then
                let '(v, p2, erange) := strtoul 10 p in
                if erange || (u32 v >? 255) then None
                else parse_quads n false (u32 (Z.shiftl x 8 + u32 v)) p2
              else None
          | [] => None
          end
      end
  end.

Definition cf_parse_ip (p : list Z) : option parse_error * option Z :=
  let finish r := match r with
                  | Some (x, []) => (None, Some x)
                  | Some (x, _) => (Some TrailingCharacters, Some x)
                  | None => (Some InvalidIP, None)
                  end in
  match p with
  | [] => (Some MissingIP, None)
  | 48 :: b :: c :: _ =>
      if (Z.lor b 32 =? 120) && Cxdigit c then
        let '(v, p2, erange) := strtoul 16 p in
        finish (if (erange : bool) then None else Some (u32 v, p2))
      else finish (parse_quads 4 true 0 p)
  | _ => finish (parse_quads 4 true 0 p)
  end.

(** [cf_parse_lookup]: the index of a name, without regard to case; -1 is
    stored when there is none. *)
Fixpoint find_name (n : Z) (t : list (list Z)) (str : list Z) : option Z :=
  match t with
  | [] => None
  | name :: t => if strcaseeq name str then Some n else find_name (n + 1) t str
  end.

Definition cf_parse_lookup (t : list (list Z)) (str : list Z) : option parse_error * option Z :=
  match find_name 0 t str with
  | Some n => (None, Some n)
  | None => (Some InvalidValue, Some (-1))
  end.

(** ** Escapes *)

Definition octal (c : Z) : bool := (48 <=? c) && (c <=? 55).

(** The single characters after a backslash. *)
Definition simple_escape (c : Z) : option Z :=
  if c =? 97 then Some 7 else if c =? 98 then Some 8 else if c =? 102 then Some 12
  else if c =? 110 then Some 10 else if c =? 114 then Some 13 else if c =? 116 then Some 9
  else if c =? 118 then Some 11 else if c =? 63 then Some 63 else if c =? 39 then Some 39
  else if c =? 34 then Some 34 else if c =? 92 then Some 92 else None.

(** Up to [n] more octal digits. *)
Fixpoint octal_digits (n : nat) (v : Z) (s : list Z) : Z * list Z :=
  match n, s with
  | S n, c :: r => if octal c then octal_digits n (Z.shiftl v 3 + c - 48) r else (v, s)
  | _, _ => (v, s)
  end.

(** [str_unesc]; every turn consumes a character. *)
Fixpoint str_unesc (fuel : nat) (s : list Z) : list Z :=
  match fuel with
  | O => []
  | S fuel =>
      match s with
      | [] => []
      | 92 :: ((c :: r) as rest) =>
          match simple_escape c with
          | Some e => e :: str_unesc fuel r
          | None =>
              if c =? 120 then
                if match r with x :: _ => Cxdigit x | [] => false end then
                  let '(v, p, _) := strtoul 16 r in
                  if u32 v <=? 255 then u32 v :: str_unesc fuel p else str_unesc fuel p
                else str_unesc fuel rest
              else if octal c then
                let '(v, p) := octal_digits 2 (c - 48) r in
                if v <=? 255 then v :: str_unesc fuel p else str_unesc fuel p
              else 92 :: str_unesc fuel rest
          end
      | c :: r => c :: str_unesc fuel r
      end
  end.
