(* ===== verification/ConfInput.v ===== *)
(** * Commands of configuration files ([libucw/ucw/conf-input.c])

    The tokenizer of libucw's configuration reader: lines, words (plain, in
    apostrophes, in quotes), comments, continuation lines, and the split of
    the text into commands.  The state is the unread text and the rest of the
    current line; the copied words are lists of bytes.  Errors are messages. *)

From stdpp Require Import base numbers strings gmap list.
From S2P Require Import Prelude ConfParse.

Definition MAX_LINE : nat := 4096.

Inductive input_error : Set :=
| LineTooLong | UnterminatedApostrophe | UnterminatedQuote | AssignmentWithoutVariable
| EndsByBackslash | UnexpectedBrace.

#[global] Instance input_error_eq_dec : EqDecision input_error.
Proof. solve_decision. Defined.

(** [struct cf_parser_state]: the unread part of [parse_fb] and [line]. *)
Record cf_parser_state : Set := { p_fb : list Z; p_line : list Z }.

Definition set_line (p : cf_parser_state) (l : list Z) : cf_parser_state := {| p_fb := p_fb p; p_line := l |}.

(** The bytes up to the first NUL, as C sees a buffer. *)
Fixpoint until_nul (s : list Z) : list Z :=
  match s with
  | [] => []
  | c :: r => if c =? 0 then [] else c :: until_nul r
  end.

(** The bytes before the first newline and those after it. *)
Fixpoint split_newline (s : list Z) : list Z * list Z :=
  match s with
  | [] => ([], [])
  | c :: r => if c =? 10 then ([], r) else let '(a, b) := split_newline r in (c :: a, b)
  end.

(** [bgets_nodie]: [None] at the end of the data, an error when no newline is
    among the first [MAX_LINE] bytes. *)
Definition bgets_nodie (fb : list Z) : option (input_error + list Z * list Z) :=
  match fb with
  | [] => None
  | _ => let '(line, rest) := split_newline fb in
         Some (if (length line <? MAX_LINE)%nat then inr (line, rest) else inl LineTooLong)
  end.

(** [get_line]: [None] for a return of 0 without a message. *)
Definition get_line (p : cf_parser_state) : option (input_error + cf_parser_state) :=
  match bgets_nodie (p_fb p) with
  | None => None
  | Some (inl e) => Some (inl e)
  | Some (inr (line, rest)) => Some (inr {| p_fb := rest; p_line := skip_while Cblank (until_nul line) |})
  end.

(** The characters before an apostrophe, and the rest from it on. *)
Fixpoint before_apostrophe (s : list Z) : list Z * list Z :=
  match s with
  | [] => ([], [])
  | c :: r => if c =? 39 then ([], s) else let '(a, b) := before_apostrophe r in (c :: a, b)
  end.

(** The characters before an unescaped quote, the rest from it on, and
    whether the last character was an escape. *)
Fixpoint before_quote (escape : bool) (s : list Z) : list Z * list Z * bool :=
  match s with
  | [] => ([], [], escape)
  | c :: r =>
      if (c =? 34) && negb escape then ([], s, escape)
      else let '(a, b, e) := before_quote (if c =? 92 then negb escape else false) r in (c :: a, b, e)
  end.

(** The loop over the lines of a word in apostrophes: the word, and the state
    at its closing apostrophe.  [word] is what has been copied. *)
Fixpoint apostrophe_word (fuel : nat) (word : list Z) (p : cf_parser_state)
    : outcome (input_error + list Z * cf_parser_state) :=
  match fuel with
  | O => Fail OutOfFuel
  | S fuel =>
      let '(a, rest) := before_apostrophe (p_line p) in
      match rest with
      | _ :: _ => Ok (inr (word ++ a, set_line p rest))
      | [] =>
          match get_line p with
          | None => Ok (inl UnterminatedApostrophe)
          | Some (inl e) => Ok (inl e)
          | Some (inr p) => apostrophe_word fuel (word ++ a ++ [10]) p
          end
      end
  end.

Fixpoint quoted_word (fuel : nat) (word : list Z) (p : cf_parser_state)
    : outcome (input_error + list Z * cf_parser_state) :=
  match fuel with
  | O => Fail OutOfFuel
  | S fuel =>
      let '(a, rest, escape) := before_quote false (p_line p) in
      match rest with
      | _ :: _ => Ok (inr (word ++ a, set_line p rest))
      | [] =>
          match get_line p with
          | None => Ok (inl UnterminatedQuote)
          | Some (inl e) => Ok (inl e)
          | Some (inr p) =>
              quoted_word fuel (if escape then removelast (word ++ a) else word ++ a ++ [10]) p
          end
      end
  end.

(** The end of a plain word. *)
Definition word_end (is_command_name : bool) (c : Z) : bool :=
  Cblank c || (c =? 123) || (c =? 125) || (c =? 59) || ((c =? 61) && is_command_name).

Fixpoint before_end (is_command_name : bool) (s : list Z) : list Z * list Z :=
  match s with
  | [] => ([], [])
  | c :: r => if word_end is_command_name c then ([], s)
              else let '(a, b) := before_end is_command_name r in (c :: a, b)
  end.

Definition skip_blanks (p : cf_parser_state) : cf_parser_state := set_line p (skip_while Cblank (p_line p)).

(** Whether the first character of a string is [c]. *)
Definition starts (c : Z) (l : list Z) : bool := match l with x :: _ => x =? c | [] => false end.

(** A word that is not quoted. *)
Definition plain_word (is_command_name : bool) (p : cf_parser_state) : input_error + list Z * cf_parser_state :=
  let '(a, rest) := before_end is_command_name (p_line p) in
  if starts 61 rest then
    if bool_decide (a = []) then inl AssignmentWithoutVariable else inr (a, skip_blanks (set_line p (tail rest)))
  else if bool_decide (a = []) then inr (take 1 rest, skip_blanks (set_line p (tail rest)))
  else inr (a, skip_blanks (set_line p rest)).

(** [get_word], with the word it appends.  A line is re-read at most once for
    each line that is left. *)
Definition get_word (is_command_name : bool) (p : cf_parser_state)
    : outcome (input_error + list Z * cf_parser_state) :=
  let line := tail (p_line p) in
  if starts 39 (p_line p) then
    x ← apostrophe_word (S (length (p_fb p))) [] (set_line p line);
    Ok (match x with
        | inl e => inl e
        | inr (w, p) => inr (w, skip_blanks (set_line p (tail (p_line p))))
        end)
  else if starts 34 (p_line p) then
    x ← quoted_word (S (length (p_fb p))) [] (set_line p line);
    Ok (match x with
        | inl e => inl e
        | inr (w, p) => inr (until_nul (str_unesc (length w) w), skip_blanks (set_line p (tail (p_line p))))
        end)
  else Ok (plain_word is_command_name p).

(** [get_token]: the token, or [None] at the end of a command. *)
Fixpoint get_token (fuel : nat) (is_command_name : bool) (p : cf_parser_state)
    : outcome (input_error + option (list Z) * cf_parser_state) :=
  match fuel with
  | O => Fail OutOfFuel
  | S fuel =>
      let next_line (stop : input_error + option (list Z) * cf_parser_state) :=
        match get_line p with
        | None => Ok stop
        | Some (inl e) => Ok (inl e)
        | Some (inr p) => get_token fuel is_command_name p
        end in
      let word :=
        x ← get_word is_command_name p;
        Ok (match x with inl e => inl e | inr (w, p) => inr (Some w, p) end) in
      match p_line p with
      | [] => if is_command_name then next_line (inr (None, p)) else Ok (inr (None, p))
      | c :: r =>
          if c =? 35 then if is_command_name then next_line (inr (None, p)) else Ok (inr (None, p))
          else if c =? 59 then
            x ← get_word false p;
            match x with
            | inl e => Ok (inl e)
            | inr (_, p) => if is_command_name then get_token fuel is_command_name p else Ok (inr (None, p))
            end
          else if (c =? 92) && bool_decide (r = []) then next_line (inl EndsByBackslash)
          else word
      end
  end.

(** Every turn of a loop reads a line or a character. *)
Definition token_fuel (p : cf_parser_state) : nat := S (2 * length (p_fb p) + length (p_line p)).

(** The loop of [split_command] over the parameters: the words, whether the
    command ends by a brace, and the state. *)
Fixpoint get_parameters (fuel : nat) (words : list (list Z)) (p : cf_parser_state)
    : outcome (input_error + list (list Z) * bool * cf_parser_state) :=
  if starts 125 (p_line p) then Ok (inr (words, false, p))
  else
    match fuel with
    | O => Fail OutOfFuel
    | S fuel =>
        x ← get_token (token_fuel p) false p;
        match x with
        | inl e => Ok (inl e)
        | inr (None, p) => Ok (inr (words, false, p))
        | inr (Some w, p) =>
            if starts 123 w then Ok (inr (words, true, p)) else get_parameters fuel (words ++ [w]) p
        end
    end.

(** [split_command]: the words of the next command, none at the end. *)
Definition split_command (p : cf_parser_state)
    : outcome (input_error + list (list Z) * bool * cf_parser_state) :=
  x ← get_token (token_fuel p) true p;
  match x with
  | inl e => Ok (inl e)
  | inr (None, p) => Ok (inr ([], false, p))
  | inr (Some w, p) => if starts 123 w then Ok (inl UnexpectedBrace) else get_parameters (token_fuel p) [w] p
  end.
