(* ===== verification/ConfIntr.v ===== *)
(** * The configuration reader ([libucw/ucw/conf-intr.c],
    [libucw/ucw/conf-section.c], [libucw/ucw/conf-journal.c],
    [libucw/ucw/conf-input.c], [src/config.c])

    The interpreter of the commands, the journal that undoes a failed load,
    the commit hooks, and the table of the collector's settings.  Of libucw's
    classes of items the ones the collector declares are modelled: single
    values, bitmaps and sections.  The section [Logging], which libucw declares
    itself, has lists of nodes; what it says to a command is an argument of the
    model ([LoggingSection]).  The memory of the settings is a finite map
    from the names of the items to their values; a string may be NULL. *)

From stdpp Require Import base numbers strings gmap list.
From S2P Require Import Prelude Doubles Common Config ConfParse ConfInput.

(** ** Items *)

Inductive cf_type : Set := CT_INT | CT_DOUBLE | CT_STRING | CT_LOOKUP (t : list (list Z)).

(** [CF_STATIC] with one value, [CF_BITMAP_LOOKUP] and sections. *)
Inductive cf_item : Set :=
| CC_STATIC (name : list Z) (type : cf_type)
| CC_BITMAP (name : list Z) (lookup : list (list Z))
| CC_SECTION (name : list Z) (items : list cf_item).

Definition item_name (i : cf_item) : list Z :=
  match i with CC_STATIC n _ | CC_BITMAP n _ | CC_SECTION n _ => n end.

(** The values in memory. *)
Inductive cval : Set :=
| VInt (z : Z)
| VDouble (d : Double.double)
| VString (s : option (list Z))
| VBits (z : Z).

Abbreviation names := (map bytes_of_string).

(** [dns_config_section]. *)
Definition dns_config_items : list cf_item :=
  let int n := CC_STATIC (bytes_of_string n) CT_INT in
  let double n := CC_STATIC (bytes_of_string n) CT_DOUBLE in
  let string n := CC_STATIC (bytes_of_string n) CT_STRING in
  let lookup n t := CC_STATIC (bytes_of_string n) (CT_LOOKUP (names t)) in
  let bitmap n t := CC_BITMAP (bytes_of_string n) (names t) in
  [ double "max_frame_duration"; int "max_frame_size"; int "max_queue_len"; int "report_period";
    string "input_uri"; string "input_filter"; int "input_snaplen"; int "input_promiscuous";
    string "dump_path_fmt"; int "dump_period"; int "dump_compress_level";
    lookup "dump_compress_type" dns_dump_compress_types; double "dump_rate_limit";
    double "match_window"; int "match_qname";
    lookup "output_type" dns_output_types; string "output_path_fmt"; string "output_pipe_cmd"; int "output_period";
    string "csv_separator"; int "csv_inline_header"; string "csv_external_header_path_fmt";
    bitmap "csv_fields" dns_output_field_flag_names; bitmap "cbor_fields" dns_output_field_flag_names ]%string.

(** [dns_collector_conf_init] in the memory of the settings, and what the
    collector reads there; the grace time of the input is not a setting. *)
Abbreviation store := (gmap (list Z) cval).

Definition init_store : store :=
  let c := dns_collector_conf_init in
  let int n z := (bytes_of_string n, VInt z) in
  let double n d := (bytes_of_string n, VDouble d) in
  let string n s := (bytes_of_string n, VString (Some s)) in
  let bits n z := (bytes_of_string n, VBits z) in
  list_to_map
  [ double "max_frame_duration"%string (max_frame_duration_sec c); int "max_frame_size"%string (max_frame_size c);
    int "max_queue_len"%string (max_queue_len c); int "report_period"%string (report_period_sec c);
    string "input_uri"%string (input_uri c); string "input_filter"%string (input_filter c);
    int "input_snaplen"%string (input_snaplen c); int "input_promiscuous"%string (input_promiscuous c);
    string "dump_path_fmt"%string (dump_path_fmt c); int "dump_period"%string (dump_period_sec c);
    int "dump_compress_level"%string (dump_compress_level c); int "dump_compress_type"%string (dump_compress_type c);
    double "dump_rate_limit"%string (dump_rate_limit c); double "match_window"%string (match_window_sec c);
    int "match_qname"%string (match_qname c); int "output_type"%string (output_type c);
    string "output_path_fmt"%string (output_path_fmt c); string "output_pipe_cmd"%string (output_pipe_cmd c);
    int "output_period"%string (output_period_sec c); string "csv_separator"%string (csv_separator c);
    int "csv_inline_header"%string (csv_inline_header c);
    string "csv_external_header_path_fmt"%string (csv_external_header_path_fmt c);
    bits "csv_fields"%string (csv_fields c); bits "cbor_fields"%string (cbor_fields c) ].

Definition get_int (s : store) (n : string) : Z :=
  match s !! bytes_of_string n with Some (VInt z) | Some (VBits z) => z | _ => 0 end.
Definition get_double (s : store) (n : string) : Double.double :=
  match s !! bytes_of_string n with Some (VDouble d) => d | _ => Double.of_Z 0 end.
Definition get_string (s : store) (n : string) : option (list Z) :=
  match s !! bytes_of_string n with Some (VString x) => x | _ => None end.

(** A NULL string reads as an empty one here. *)
Definition config_of (s : store) : dns_config :=
  let str n := default [] (get_string s n) in
  {| max_frame_duration_sec := get_double s "max_frame_duration"; max_frame_size := get_int s "max_frame_size";
     max_queue_len := get_int s "max_queue_len"; report_period_sec := get_int s "report_period";
     input_uri := str "input_uri"%string; input_filter := str "input_filter"%string;
     input_snaplen := get_int s "input_snaplen"; input_promiscuous := get_int s "input_promiscuous";
     input_real_time_grace_sec := input_real_time_grace_sec dns_collector_conf_init;
     dump_path_fmt := str "dump_path_fmt"%string; dump_period_sec := get_int s "dump_period";
     dump_compress_level := get_int s "dump_compress_level"; dump_compress_type := get_int s "dump_compress_type";
     dump_rate_limit := get_double s "dump_rate_limit"; match_window_sec := get_double s "match_window";
     match_qname := get_int s "match_qname"; output_type := get_int s "output_type";
     output_path_fmt := str "output_path_fmt"%string; output_pipe_cmd := str "output_pipe_cmd"%string;
     output_period_sec := get_int s "output_period"; csv_separator := str "csv_separator"%string;
     csv_inline_header := get_int s "csv_inline_header";
     csv_external_header_path_fmt := str "csv_external_header_path_fmt"%string;
     csv_fields := get_int s "csv_fields"; cbor_fields := get_int s "cbor_fields" |}.

(** [dns_collector_conf_commit] on the memory: [strlen] of a NULL separator is
    undefined. *)
Definition commit_hook (s : store) : outcome (option conf_error) :=
  match dns_collector_conf_commit (config_of s) with
  | Some ConfSeparatorNotOneCharacter =>
      match get_string s "csv_separator" with
      | None => Fail UndefinedBehaviour
      | Some _ => Ok (Some ConfSeparatorNotOneCharacter)
      end
  | r => Ok r
  end.

(** ** The context *)

(** Where names are looked up: the declared sections, a section, (NULL) an
    unknown one, or something inside the section [Logging]. *)
Inductive cf_section : Set :=
| SecRoot
| SecItems (name : list Z) (items : list cf_item)
| SecUnknown
| SecLogging.

(** What the section [Logging] of libucw says when it is asked for the n-th
    time, to a command or to its commit: it accepts, refuses with an error, or
    has undefined behaviour (a stream without a name is compared by [strcmp]).
    It never touches the collector's settings.  Theorems hold for all such
    answers. *)
Inductive log_answer : Set := LogAccepts | LogRefuses | LogCrashes.

Class LoggingSection : Type := logging : nat -> log_answer.

(** [struct cf_context]; the stack is listed from its top, the dirty sections
    by name.  [cc_logging] counts the questions to the section [Logging]; it is
    0 as long as no command was for that section. *)
Record cf_context : Type := {
  cc_store : store;
  cc_journal : list (list Z * cval);
  cc_stack : list cf_section;
  cc_dirty : list (list Z);
  cc_everything_committed : bool;
  cc_postpone_commit : Z;
  cc_sections_initialized : bool;
  cc_config_loaded : bool;
  cc_logging : nat;
}.

Definition set_store (cc : cf_context) (s : store) : cf_context :=
  {| cc_store := s; cc_journal := cc_journal cc; cc_stack := cc_stack cc; cc_dirty := cc_dirty cc;
     cc_everything_committed := cc_everything_committed cc; cc_postpone_commit := cc_postpone_commit cc;
     cc_sections_initialized := cc_sections_initialized cc; cc_config_loaded := cc_config_loaded cc;
     cc_logging := cc_logging cc |}.
Definition set_journal (cc : cf_context) (j : list (list Z * cval)) : cf_context :=
  {| cc_store := cc_store cc; cc_journal := j; cc_stack := cc_stack cc; cc_dirty := cc_dirty cc;
     cc_everything_committed := cc_everything_committed cc; cc_postpone_commit := cc_postpone_commit cc;
     cc_sections_initialized := cc_sections_initialized cc; cc_config_loaded := cc_config_loaded cc;
     cc_logging := cc_logging cc |}.
Definition set_stack (cc : cf_context) (st : list cf_section) : cf_context :=
  {| cc_store := cc_store cc; cc_journal := cc_journal cc; cc_stack := st; cc_dirty := cc_dirty cc;
     cc_everything_committed := cc_everything_committed cc; cc_postpone_commit := cc_postpone_commit cc;
     cc_sections_initialized := cc_sections_initialized cc; cc_config_loaded := cc_config_loaded cc;
     cc_logging := cc_logging cc |}.
Definition set_dirty (cc : cf_context) (d : list (list Z)) : cf_context :=
  {| cc_store := cc_store cc; cc_journal := cc_journal cc; cc_stack := cc_stack cc; cc_dirty := d;
     cc_everything_committed := cc_everything_committed cc; cc_postpone_commit := cc_postpone_commit cc;
     cc_sections_initialized := cc_sections_initialized cc; cc_config_loaded := cc_config_loaded cc;
     cc_logging := cc_logging cc |}.
Definition set_committed (cc : cf_context) (b : bool) : cf_context :=
  {| cc_store := cc_store cc; cc_journal := cc_journal cc; cc_stack := cc_stack cc; cc_dirty := cc_dirty cc;
     cc_everything_committed := b; cc_postpone_commit := cc_postpone_commit cc;
     cc_sections_initialized := cc_sections_initialized cc; cc_config_loaded := cc_config_loaded cc;
     cc_logging := cc_logging cc |}.

Definition set_postpone (cc : cf_context) (n : Z) : cf_context :=
  {| cc_store := cc_store cc; cc_journal := cc_journal cc; cc_stack := cc_stack cc; cc_dirty := cc_dirty cc;
     cc_everything_committed := cc_everything_committed cc; cc_postpone_commit := n;
     cc_sections_initialized := cc_sections_initialized cc; cc_config_loaded := cc_config_loaded cc;
     cc_logging := cc_logging cc |}.
Definition set_initialized (cc : cf_context) : cf_context :=
  {| cc_store := cc_store cc; cc_journal := cc_journal cc; cc_stack := cc_stack cc; cc_dirty := cc_dirty cc;
     cc_everything_committed := cc_everything_committed cc; cc_postpone_commit := cc_postpone_commit cc;
     cc_sections_initialized := true; cc_config_loaded := cc_config_loaded cc;
     cc_logging := cc_logging cc |}.
Definition set_loaded (cc : cf_context) : cf_context :=
  {| cc_store := cc_store cc; cc_journal := cc_journal cc; cc_stack := cc_stack cc; cc_dirty := cc_dirty cc;
     cc_everything_committed := cc_everything_committed cc; cc_postpone_commit := cc_postpone_commit cc;
     cc_sections_initialized := cc_sections_initialized cc; cc_config_loaded := true;
     cc_logging := cc_logging cc |}.

(** The section [Logging] was asked. *)
Definition ask_logging (cc : cf_context) : cf_context :=
  {| cc_store := cc_store cc; cc_journal := cc_journal cc; cc_stack := cc_stack cc; cc_dirty := cc_dirty cc;
     cc_everything_committed := cc_everything_committed cc; cc_postpone_commit := cc_postpone_commit cc;
     cc_sections_initialized := cc_sections_initialized cc; cc_config_loaded := cc_config_loaded cc;
     cc_logging := S (cc_logging cc) |}.

(** A new context: the memory before the first load is arbitrary. *)
Definition new_context (s : store) : cf_context :=
  {| cc_store := s; cc_journal := []; cc_stack := []; cc_dirty := []; cc_everything_committed := false;
     cc_postpone_commit := 0; cc_sections_initialized := false; cc_config_loaded := false;
     cc_logging := 0 |}.

(** [cf_add_dirty]. *)
Definition cf_add_dirty (name : list Z) (cc : cf_context) : cf_context :=
  match cc_dirty cc with
  | d :: _ => if bool_decide (d = name) then cc else set_dirty cc (name :: cc_dirty cc)
  | [] => set_dirty cc [name]
  end.

(** [cf_journal_block] of one item: its value is saved. *)
Definition cf_journal_block (name : list Z) (cc : cf_context) : cf_context :=
  match cc_store cc !! name with
  | Some v => set_journal cc ((name, v) :: cc_journal cc)
  | None => cc
  end.

(** [cf_journal_swap]: values and copies are exchanged from the newest entry
    on, and the list is reversed. *)
Fixpoint swap_loop (next : list (list Z * cval)) (j : list (list Z * cval)) (s : store)
    : list (list Z * cval) * store :=
  match j with
  | [] => (next, s)
  | (n, v) :: j =>
      match s !! n with
      | Some w => swap_loop ((n, w) :: next) j (<[n := v]> s)
      | None => swap_loop next j s
      end
  end.

Definition cf_journal_swap (cc : cf_context) : cf_context :=
  let '(j, s) := swap_loop [] (cc_journal cc) (cc_store cc) in set_journal (set_store cc s) j.

(** [cf_journal_new_transaction] (the old journal is the caller's),
    [cf_journal_commit_transaction], [cf_journal_rollback_transaction]. *)
Definition cf_journal_new_transaction (cc : cf_context) : cf_context := set_journal cc [].
Definition cf_journal_commit_transaction (oldj : list (list Z * cval)) (cc : cf_context) : cf_context :=
  set_journal cc (cc_journal cc ++ oldj).
Definition cf_journal_rollback_transaction (oldj : list (list Z * cval)) (cc : cf_context) : cf_context :=
  set_journal (cf_journal_swap cc) oldj.

(** ** Errors *)

Inductive cf_error : Set :=
| EInput (e : input_error)
| EParse (e : parse_error)
| EMissingValue | EBitmapHere | EBitmapOperation | EBitmapBits | ENotABitmap | ENotClearable
| EOperationUnsupported | EUnknownItem | ENotASection | ETooManyNestedSections | EOnlySet | EBraceOnItem
| EUnmatchedBrace | EParametersAfterBrace | EBraceNotExpected | EBlockAfterParameter | ETooManyParameters
| EUnknownOperation | EOneFilename | ETooManyFiles | EIncludeNotLast | ECannotOpen | EUnterminatedBlock | ECommitFailed
| ELogging.

(** ** The interpreter *)

Inductive cf_operation : Set :=
| OP_CLOSE | OP_SET | OP_CLEAR | OP_ALL | OP_APPEND | OP_PREPEND | OP_REMOVE | OP_EDIT | OP_AFTER | OP_BEFORE
| OP_COPY | OP_RESET.

#[global] Instance cf_operation_eq_dec : EqDecision cf_operation.
Proof. solve_decision. Defined.

(** [cf_op_names]. *)
Definition cf_op_name (op : cf_operation) : string :=
  match op with
  | OP_CLOSE => "CLOSE" | OP_SET => "SET" | OP_CLEAR => "CLEAR" | OP_ALL => "ALL" | OP_APPEND => "APPEND"
  | OP_PREPEND => "PREPEND" | OP_REMOVE => "REMOVE" | OP_EDIT => "EDIT" | OP_AFTER => "AFTER" | OP_BEFORE => "BEFORE"
  | OP_COPY => "COPY" | OP_RESET => "RESET"
  end.

Section interpreter.
Context `{SD : ScanDouble}.

(** The sections of the context: those declared to it. *)
Context (sections : list cf_item).

(** One value of [cf_parse_ary]. *)
Definition parse_value (type : cf_type) (str : list Z) : option parse_error * option cval :=
  match type with
  | CT_INT => let '(msg, v) := cf_parse_int str in (msg, VInt <$> v)
  | CT_DOUBLE => let '(msg, v) := cf_parse_double str in (msg, VDouble <$> v)
  | CT_STRING => (None, Some (VString (Some str)))
  | CT_LOOKUP t => let '(msg, v) := cf_parse_lookup t str in (msg, VInt <$> v)
  end.

(** The value of a declared item is overwritten. *)
Definition store_value (name : list Z) (v : option cval) (cc : cf_context) : cf_context :=
  match v with
  | Some v => set_store cc (alter (fun _ => v) name (cc_store cc))
  | None => cc
  end.

(** The loop of [interpret_add_bitmap]. *)
Fixpoint add_bits (name : list Z) (lookup : list (list Z)) (set : bool) (pars : list (list Z)) (cc : cf_context)
    : option cf_error * cf_context :=
  match pars with
  | [] => (None, cc)
  | par :: pars =>
      match cf_parse_lookup lookup par with
      | (Some e, _) => (Some (EParse e), cc)
      | (None, v) =>
          let idx := default 0 v in
          if idx >=? 32 then (Some EBitmapBits, cc)
          else
            let bits := match cc_store cc !! name with Some (VBits b) => b | _ => 0 end in
            let bits := if set then Z.lor bits (Z.shiftl 1 idx) else Z.ldiff bits (Z.shiftl 1 idx) in
            add_bits name lookup set pars (store_value name (Some (VBits bits)) cc)
      end
  end.

(** [interpret_add_bitmap]: the error, the parameters taken, the context. *)
Definition interpret_add_bitmap (name : list Z) (lookup : list (list Z)) (pars : list (list Z)) (op : cf_operation)
    (cc : cf_context) : option cf_error * nat * cf_context :=
  let op := match op with OP_PREPEND | OP_APPEND => OP_SET | op => op end in
  if negb (bool_decide (op = OP_SET)) && negb (bool_decide (op = OP_REMOVE)) then (Some EBitmapOperation, 0%nat, cc)
  else
    let '(msg, cc) := add_bits name lookup (bool_decide (op = OP_SET)) pars (cf_journal_block name cc) in
    (msg, length pars, cc).

(** [interpret_set_item] and [interpret_section]. *)
Fixpoint interpret_set_item (item : cf_item) (pars : list (list Z)) (allow_dynamic : bool) (cc : cf_context)
    {struct item} : option cf_error * nat * cf_context :=
  match item with
  | CC_STATIC name type =>
      match pars with
      | [] => (Some EMissingValue, 0%nat, cc)
      | par :: _ =>
          let '(msg, v) := parse_value type par in
          (EParse <$> msg, 1%nat, store_value name v (cf_journal_block name cc))
      end
  | CC_BITMAP name lookup =>
      if negb allow_dynamic then (Some EBitmapHere, 0%nat, cc) else interpret_add_bitmap name lookup pars OP_SET cc
  | CC_SECTION name items =>
      (fix interpret_items (items : list cf_item) (pars : list (list Z)) (processed : nat) (cc : cf_context)
          : option cf_error * nat * cf_context :=
         match items with
         | [] => (None, processed, cc)
         | ci :: items =>
             let '(msg, taken, cc) :=
               interpret_set_item ci pars (allow_dynamic && bool_decide (items = [])) cc in
             match msg with
             | Some e => (Some e, processed, cc)
             | None =>
                 let pars := drop taken pars in
                 match pars with
                 | [] => (None, (processed + taken)%nat, cc)
                 | _ => interpret_items items pars (processed + taken)%nat cc
                 end
             end
         end) items pars 0%nat (cf_add_dirty name cc)
  end.

(** [interpret_set_all]. *)
Definition interpret_set_all (item : cf_item) (op : cf_operation) (cc : cf_context) : option cf_error * cf_context :=
  match item with
  | CC_BITMAP name lookup =>
      let bits := if bool_decide (op = OP_CLEAR) then 0
                  else Z.shiftr (2 ^ 32 - 1) (32 - Z.of_nat (length lookup)) in
      (None, store_value name (Some (VBits bits)) (cf_journal_block name cc))
  | CC_STATIC name CT_STRING =>
      if bool_decide (op = OP_CLEAR)
      then (None, store_value name (Some (VString None)) (cf_journal_block name cc))
      else (Some ENotABitmap, cc)
  | _ => (Some (if bool_decide (op = OP_CLEAR) then ENotClearable else ENotABitmap), cc)
  end.

(** [interpret_add]. *)
Definition interpret_add (item : cf_item) (pars : list (list Z)) (op : cf_operation) (cc : cf_context)
    : option cf_error * nat * cf_context :=
  match item with
  | CC_BITMAP name lookup => interpret_add_bitmap name lookup pars op cc
  | _ => (Some EOperationUnsupported, 0%nat, cc)
  end.

(** [cf_find_subitem]. *)
Definition cf_find_subitem (items : list cf_item) (name : list Z) : option cf_item :=
  List.find (fun i => strcaseeq (item_name i) name) items.

(** The segments of a dotted name. *)
Fixpoint split_dots (s : list Z) : list Z * list (list Z) :=
  match s with
  | [] => ([], [])
  | c :: r =>
      let '(a, l) := split_dots r in
      if c =? 46 then ([], a :: l) else (c :: a, l)
  end.

(** The items of a section, which becomes dirty unless it is the one of all
    sections. *)
Definition enter_section (sec : cf_section) (cc : cf_context) : list cf_item * cf_context :=
  match sec with
  | SecItems n items => (items, cf_add_dirty n cc)
  | _ => (sections, cc)
  end.

(** The loop of [find_item] over the segments: the error, the item, the
    context with the sections that became dirty. *)
Fixpoint find_segments (sec : cf_section) (name : list Z) (more : list (list Z)) (cc : cf_context) {struct more}
    : option cf_error * option cf_item * cf_context :=
  let '(items, cc) := enter_section sec cc in
  match cf_find_subitem items name with
  | None => (match sec with SecItems _ _ => Some EUnknownItem | _ => None end, None, cc)
  | Some item =>
      match more with
      | [] => (None, Some item, cc)
      | next :: more =>
          match item with
          | CC_SECTION n items => find_segments (SecItems n items) next more cc
          | _ => (Some ENotASection, None, cc)
          end
      end
  end.

Definition find_item (sec : cf_section) (name : list Z) (cc : cf_context)
    : option cf_error * option cf_item * cf_context :=
  let '(sec, name) := match name with 94 :: r => (SecRoot, r) | _ => (sec, name) end in
  match sec with
  | SecUnknown | SecLogging => (None, None, cc)
  | _ => let '(seg, more) := split_dots name in find_segments sec seg more cc
  end.

Definition MAX_STACK_SIZE : nat := 16.

(** [opening_brace] and [closing_brace]; the stack of a failed load is not
    used again. *)
Definition opening_brace (item : option cf_item) (op : cf_operation) (cc : cf_context) : cf_error + cf_context :=
  if (MAX_STACK_SIZE - 1 <=? length (cc_stack cc) - 1)%nat then inl ETooManyNestedSections
  else
    match item with
    | None => inr (set_stack cc (SecUnknown :: cc_stack cc))
    | Some (CC_SECTION n items) =>
        if bool_decide (op = OP_SET) then inr (set_stack cc (SecItems n items :: cc_stack cc)) else inl EOnlySet
    | Some _ => inl EBraceOnItem
    end.

Definition closing_brace (opens : bool) (pars : list (list Z)) (cc : cf_context) : cf_error + cf_context :=
  match cc_stack cc with
  | SecUnknown :: st => inr (if opens then cc else set_stack cc st)
  | SecItems _ _ :: st =>
      if negb (bool_decide (pars = [])) then inl EParametersAfterBrace
      else if opens then inl EBraceNotExpected else inr (set_stack cc st)
  | _ => inl EUnmatchedBrace
  end.

(** The operation on an item that is found. *)
Definition interpret_op (item : cf_item) (op : cf_operation) (pars : list (list Z)) (cc : cf_context)
    : option cf_error * nat * cf_context :=
  match op with
  | OP_CLEAR | OP_ALL => let '(msg, cc) := interpret_set_all item op cc in (msg, 0%nat, cc)
  | OP_SET => interpret_set_item item pars true cc
  | OP_RESET =>
      let '(msg, cc) := interpret_set_all item OP_CLEAR cc in
      match msg with
      | Some e => (Some e, 0%nat, cc)
      | None => interpret_add item pars OP_APPEND cc
      end
  | op => interpret_add item pars op cc
  end.

(** [cf_interpret_line] outside of the section [Logging]; [opens] is the flag
    [OP_OPEN]. *)
Definition cf_interpret_line (name : list Z) (op : cf_operation) (opens : bool) (pars : list (list Z)) (cc : cf_context)
    : option cf_error * cf_context :=
  if bool_decide (op = OP_CLOSE)
  then match closing_brace opens pars cc with inl e => (Some e, cc) | inr cc => (None, cc) end
  else
    let '(msg, item, cc) := find_item (match cc_stack cc with sec :: _ => sec | [] => SecRoot end) name cc in
    match msg with
    | Some e => (Some e, cc)
    | None =>
        if opens then
          if negb (bool_decide (pars = [])) then (Some EBlockAfterParameter, cc)
          else match opening_brace item op cc with inl e => (Some e, cc) | inr cc => (None, cc) end
        else
          match item with
          | None => (None, cc)
          | Some item =>
              let '(msg, taken, cc) := interpret_op item op pars cc in
              match msg with
              | Some e => (Some e, cc)
              | None => if (taken <? length pars)%nat then (Some ETooManyParameters, cc) else (None, cc)
              end
          end
    end.

(** ** Commands for the section [Logging] *)

(** Whether a command is for that section: it closes one of its blocks, is
    inside of one, or names the section. *)
Definition in_logging (name : list Z) (op : cf_operation) (cc : cf_context) : bool :=
  let top := match cc_stack cc with sec :: _ => sec | [] => SecRoot end in
  if bool_decide (op = OP_CLOSE) then match top with SecLogging => true | _ => false end
  else
    let '(sec, name) := match name with 94 :: r => (SecRoot, r) | _ => (top, name) end in
    match sec with
    | SecLogging => true
    | SecRoot => strcaseeq (bytes_of_string "Logging") (split_dots name).1
    | _ => false
    end.

(** The stack after such a command succeeded: a brace opens a block, and closes
    one unless the block goes on behind it. *)
Definition logging_stack (op : cf_operation) (opens : bool) (cc : cf_context) : cf_context :=
  if bool_decide (op = OP_CLOSE) then if opens then cc else set_stack cc (tail (cc_stack cc))
  else if opens then set_stack cc (SecLogging :: cc_stack cc) else cc.

(** [cf_interpret_line]. *)
Definition interpret_command `{LG : LoggingSection} (name : list Z) (op : cf_operation) (opens : bool)
    (pars : list (list Z)) (cc : cf_context) : outcome (option cf_error * cf_context) :=
  if in_logging name op cc then
    match logging (cc_logging cc) with
    | LogAccepts => Ok (None, ask_logging (logging_stack op opens cc))
    | LogRefuses => Ok (Some ELogging, ask_logging cc)
    | LogCrashes => Fail UndefinedBehaviour
    end
  else Ok (cf_interpret_line name op opens pars cc).

End interpreter.
