(* ===== verification/ConfLoad.v ===== *)
(** * Loading configurations ([libucw/ucw/conf-input.c],
    [libucw/ucw/conf-section.c], [libucw/ucw/conf-getopt.c])

    The loop over the commands of a text with the files it includes, the
    commit hooks, and the calls that load a file or a string as one
    transaction.  The files are a function from names to texts; they do not
    change during a load.  The nesting of included files is bounded by the
    code; the commands of a text by its length. *)

From stdpp Require Import base numbers strings gmap list.
From S2P Require Import Prelude Doubles Common Config ConfParse ConfInput ConfIntr.

(** ** Operations after a colon *)

(** [strchr(name, ':')]: the name before the colon and what follows it. *)
Fixpoint split_colon (s : list Z) : option (list Z * list Z) :=
  match s with
  | [] => None
  | c :: r => if c =? 58 then Some ([], r)
              else match split_colon r with Some (a, b) => Some (c :: a, b) | None => None end
  end.

(** The operation by its first letters. *)
Definition guess_operation (c : list Z) : cf_operation :=
  let at_ i := nth i c 0 in
  let k := Clocase (at_ 0%nat) in
  if k =? 115 then OP_SET
  else if k =? 99 then if Clocase (at_ 1%nat) =? 108 then OP_CLEAR else OP_COPY
  else if k =? 97 then
    if Clocase (at_ 1%nat) =? 112 then OP_APPEND
    else if Clocase (at_ 1%nat) =? 102 then OP_AFTER else OP_ALL
  else if k =? 112 then OP_PREPEND
  else if k =? 114 then if negb (at_ 1%nat =? 0) && (Clocase (at_ 2%nat) =? 109) then OP_REMOVE else OP_RESET
  else if k =? 101 then OP_EDIT
  else if k =? 98 then OP_BEFORE
  else OP_SET.

(** The name of the item and the operation on it. *)
Definition parse_operation (name : list Z) : cf_error + list Z * cf_operation :=
  match split_colon name with
  | None => inr (name, if bool_decide (name = [125]) then OP_CLOSE else OP_SET)
  | Some (name, c) =>
      let op := guess_operation c in
      if strcaseeq c (bytes_of_string (cf_op_name op)) then inr (name, op) else inl EUnknownOperation
  end.

(** ** Commits *)

(** The commit hook of a section, if it has one. *)
Definition section_commit (name : list Z) : option (store -> outcome (option conf_error)) :=
  if bool_decide (name = bytes_of_string "dnscol") then Some commit_hook else None.

(** [commit_section] on the section of an item: whether it fails. *)
Fixpoint commit_section (item : cf_item) (commit_all : bool) (dirty : list (list Z)) (s : store) : outcome bool :=
  match item with
  | CC_SECTION name items =>
      failed ← (fix commit_items (items : list cf_item) : outcome bool :=
                  match items with
                  | [] => Ok false
                  | ci :: items =>
                      failed ← commit_section ci commit_all dirty s;
                      if (failed : bool) then Ok true else commit_items items
                  end) items;
      if (failed : bool) then Ok true
      else
        match section_commit name with
        | Some commit =>
            if commit_all || bool_decide (name ∈ dirty) then
              err ← commit s; Ok (match err with Some _ => true | None => false end)
            else Ok false
        | None => Ok false
        end
  | _ => Ok false
  end.

Inductive cf_commit_mode : Set := CF_NO_COMMIT | CF_COMMIT | CF_COMMIT_ALL.

Section loader.
Context `{SD : ScanDouble} `{LG : LoggingSection}.
Context (sections : list cf_item).

(** [bopen_try]: the text of a file, or whether [errno] is [ENOENT]. *)
Context (bopen_try : list Z -> bool + list Z).

(** [sort_dirty] and [cf_commit_all] of the given sections (the section of all
    sections has no name and no hook); the order of the dirty sections, by
    address, has no effect. *)
Definition cf_commit_all (cm : cf_commit_mode) (cc : cf_context) : outcome (bool * cf_context) :=
  let cc := set_dirty cc (remove_dups (cc_dirty cc)) in
  match cm with
  | CF_NO_COMMIT => Ok (false, cc)
  | _ =>
      failed ← commit_section (CC_SECTION [] sections) (match cm with CF_COMMIT_ALL => true | _ => false end)
                 (cc_dirty cc) (cc_store cc);
      Ok (if (failed : bool) then (true, cc) else (false, set_dirty cc []))
  end.

(** The commit of the section [Logging], which is the first one declared.
    Without a stream it accepts. *)
Definition commit_logging (cc : cf_context) : outcome (bool * cf_context) :=
  match cc_logging cc with
  | O => Ok (false, cc)
  | n =>
      match logging n with
      | LogAccepts => Ok (false, ask_logging cc)
      | LogRefuses => Ok (true, ask_logging cc)
      | LogCrashes => Fail UndefinedBehaviour
      end
  end.

Definition maybe_commit (cc : cf_context) : outcome (bool * cf_context) :=
  let cm := if negb (cc_postpone_commit cc =? 0) then CF_NO_COMMIT
            else if cc_everything_committed cc then CF_COMMIT else CF_COMMIT_ALL in
  '(refused, cc) ← (match cm with CF_NO_COMMIT => Ok (false, cc) | _ => commit_logging cc end);
  if (refused : bool) then Ok (true, cc)
  else
    '(failed, cc) ← cf_commit_all cm cc;
    Ok (if (failed : bool) then (true, cc)
        else (false, if cc_postpone_commit cc =? 0 then set_committed cc true else cc)).

(** [cf_init_stack], which initializes the sections the first time. *)
Definition cf_init_stack (cc : cf_context) : cf_context :=
  let cc := if cc_sections_initialized cc then cc else set_initialized (set_store cc init_store) in
  set_stack cc [SecRoot].

Definition cf_done_stack (cc : cf_context) : bool := (1 <? length (cc_stack cc))%nat.

(** ** Texts *)

(** A line that [get_token] would skip. *)
Definition skipped_line (l : list Z) : bool :=
  match l with
  | [] => true
  | c :: _ => c =? 35
  end.

(** The loop of [parse_fastbuf]: the error, the rest of the line in the
    buffer, the context.  [include] parses an included text; there is none at
    the greatest depth. *)
Fixpoint parse_commands
    (include : option (list Z -> cf_context -> outcome (option cf_error * list Z * cf_context)))
    (fuel : nat) (p : cf_parser_state) (cc : cf_context) : outcome (option cf_error * list Z * cf_context) :=
  match fuel with
  | O => Fail OutOfFuel
  | S fuel =>
      x ← split_command p;
      match x with
      | inl e => Ok (Some (EInput e), p_line p, cc)
      | inr ([], _, p) => Ok (None, p_line p, cc)
      | inr (name :: pars, ends_by_brace, p) =>
          let error e := Ok (Some e, p_line p, cc) in
          let optional_include := strcaseeq name (bytes_of_string "optionalinclude") in
          if optional_include || strcaseeq name (bytes_of_string "include") then
            match pars, include with
            | [file], Some parse =>
                if negb (skipped_line (p_line p)) then error EIncludeNotLast
                else
                  match bopen_try file with
                  | inl enoent =>
                      if optional_include && enoent then parse_commands include fuel p cc else error ECannotOpen
                  | inr text =>
                      '(err, line, cc) ← parse text cc;
                      match err with
                      | Some e => Ok (Some e, line, cc)
                      | None => parse_commands include fuel (set_line p line) cc
                      end
                  end
            | [_], None => error ETooManyFiles
            | _, _ => error EOneFilename
            end
          else
            match parse_operation name with
            | inl e => error e
            | inr (name, op) =>
                '(err, cc) ← interpret_command sections name op ends_by_brace pars cc;
                match err with
                | Some e => Ok (Some e, p_line p, cc)
                | None => parse_commands include fuel p cc
                end
            end
      end
  end.

(** A text at depth [9 - n]; files are included at depth 0 to 8. *)
Fixpoint parse_text (n : nat) (text : list Z) (cc : cf_context) : outcome (option cf_error * list Z * cf_context) :=
  parse_commands (match n with O => None | S n => Some (parse_text n) end)
    (S (2 * length text)) {| p_fb := text; p_line := [] |} cc.

(** [parse_fastbuf] at depth 0. *)
Definition parse_fastbuf (text : list Z) (cc : cf_context) : outcome (option cf_error * cf_context) :=
  '(err, _, cc) ← parse_text 9 text (cf_init_stack cc);
  match err with
  | Some e => Ok (Some e, cc)
  | None =>
      if cf_done_stack cc then Ok (Some EUnterminatedBlock, cc)
      else
        '(failed, cc) ← maybe_commit cc;
        Ok (if (failed : bool) then Some ECommitFailed else None, cc)
  end.

Definition load_file (file : list Z) (cc : cf_context) : outcome (option cf_error * cf_context) :=
  match bopen_try file with
  | inl _ => Ok (Some ECannotOpen, cc)
  | inr text => parse_fastbuf text cc
  end.

Definition load_string (string : list Z) (cc : cf_context) : outcome (option cf_error * cf_context) :=
  parse_fastbuf (until_nul string) cc.

(** ** Transactions *)

(** The frame of [cf_load] and [cf_set]: a new transaction, committed or
    rolled back. *)
Definition transaction (load : cf_context -> outcome (option cf_error * cf_context)) (cc : cf_context)
    : outcome (option cf_error * cf_context) :=
  let oldj := cc_journal cc in
  '(err, cc) ← load (cf_journal_new_transaction cc);
  Ok (match err with
      | None => (None, cf_journal_commit_transaction oldj cc)
      | Some e => (Some e, cf_journal_rollback_transaction oldj cc)
      end).

Definition cf_load (file : list Z) (cc : cf_context) : outcome (option cf_error * cf_context) :=
  '(err, cc) ← transaction (load_file file) cc;
  Ok (err, match err with None => set_loaded cc | Some _ => cc end).

Definition cf_set (string : list Z) (cc : cf_context) : outcome (option cf_error * cf_context) :=
  transaction (load_string string) cc.

Definition cf_open_group (cc : cf_context) : cf_context := set_postpone cc (cc_postpone_commit cc + 1).

Definition cf_close_group (cc : cf_context) : outcome (bool * cf_context) :=
  _ ← c_assert (negb (cc_postpone_commit cc =? 0));
  let cc := set_postpone cc (cc_postpone_commit cc - 1) in
  if cc_postpone_commit cc =? 0 then maybe_commit cc else Ok (false, cc).

(** [cf_load_default]; the program is built without a default file, so
    [cf_def_file] is NULL. *)
Definition cf_load_default (cc : cf_context) : cf_context :=
  if cc_config_loaded cc then cc
  else
    let cc := set_loaded cc in
    let oldj := cc_journal cc in
    cf_journal_commit_transaction oldj (cf_init_stack (cf_journal_new_transaction cc)).

End loader.

(** The sections of the collector, besides [Logging]. *)
Definition collector_sections : list cf_item := [CC_SECTION (bytes_of_string "dnscol") dns_config_items].
