(* ===== verification/DirtySections.v ===== *)
(** * Dirty sections as the code keeps them

    libucw/ucw/conf-section.c: the array of the sections that were changed,
    sorted by address and compressed before a commit, and searched by bisection
    for every section with a hook.  [ConfIntr] and [ConfLoad] keep a list of
    names and ask whether a name is in it; here the array is shown to answer
    the same. *)

From stdpp Require Import base numbers list sorting gmap strings.
From S2P Require Import Prelude ArraySort Config ConfParse ConfIntr ConfLoad.

(** ** The array *)

(** [struct dirty_section]: the addresses of a section and of its data. *)
Record dirty_section : Set := { ds_sec : Z; ds_ptr : Z }.

#[global] Instance dirty_section_eq_dec : EqDecision dirty_section.
Proof. solve_decision. Defined.

(** The growing buffer [dirty], whose allocated part the list is, and
    [dirties]. *)
Record dirty_array : Set := { da_dirty : list dirty_section; da_dirties : Z }.

Definition dirtsec_lt (x y : dirty_section) : bool :=
  (ds_sec x <? ds_sec y) || (ds_sec x =? ds_sec y) && (ds_ptr x <? ds_ptr y).

Section array.
(** What fresh memory contains. *)
Context (fresh : nat -> dirty_section).

(** [dirtsec_grow]. *)
Definition dirtsec_grow (b : list dirty_section) (len : nat) : list dirty_section :=
  if (length b <? len)%nat then
    let len := Nat.max len (2 * length b) in
    b ++ map fresh (seq (length b) (len - length b))
  else b.

(** [cf_add_dirty]. *)
Definition cf_add_dirty_array (d : dirty_section) (da : dirty_array) : outcome dirty_array :=
  let b := dirtsec_grow (da_dirty da) (S (Z.to_nat (da_dirties da))) in
  let n := da_dirties da in
  same ← (if n =? 0 then Ok false
          else last ← ASORT_ELT b (n - 1); Ok (bool_decide (last = d)));
  if (same : bool) then Ok {| da_dirty := b; da_dirties := n |}
  else Ok {| da_dirty := <[Z.to_nat n := d]> b; da_dirties := u32 (n + 1) |}.

End array.

(** The loop of [sort_dirty], with [n] turns to go; the positions of [read]
    and [write] in the array. *)
Fixpoint compress (n : nat) (b : list dirty_section) (read write : Z) : outcome (list dirty_section * Z) :=
  match n with
  | O => Ok (b, write)
  | S n =>
      x ← ASORT_ELT b read;
      y ← ASORT_ELT b (read - 1);
      if bool_decide (x = y) then compress n b (read + 1) write
      else
        compress n (if read =? write then b else <[Z.to_nat write := x]> b) (read + 1) (write + 1)
  end.

Definition sort_dirty (da : dirty_array) : outcome dirty_array :=
  if da_dirties da <=? 1 then Ok da
  else
    b ← asort dirtsec_lt (da_dirty da) (da_dirties da);
    '(b, write) ← compress (Z.to_nat (da_dirties da - 1)) b 1 1;
    Ok {| da_dirty := b; da_dirties := write |}.

(** Whether [commit_section] finds [d] among the dirty sections. *)
Definition is_dirty (da : dirty_array) (d : dirty_section) : outcome bool :=
  pos ← BIN_SEARCH_FIRST_GE_CMP dirtsec_lt (da_dirty da) (da_dirties da) d;
  if pos <? da_dirties da then
    y ← ASORT_ELT (da_dirty da) pos; Ok (bool_decide (y = d))
  else Ok false.

Section commit.
(** Where the sections are. *)
Context (address : list Z -> dirty_section).

(** [commit_section] with the search in the array. *)
Fixpoint commit_section_array (item : cf_item) (commit_all : bool) (da : dirty_array) (s : store) : outcome bool :=
  match item with
  | CC_SECTION name items =>
      failed ← (fix commit_items (items : list cf_item) : outcome bool :=
                  match items with
                  | [] => Ok false
                  | ci :: items =>
                      failed ← commit_section_array ci commit_all da s;
                      if (failed : bool) then Ok true else commit_items items
                  end) items;
      if (failed : bool) then Ok true
      else
        match section_commit name with
        | Some commit =>
            dirty ← is_dirty da (address name);
            if commit_all || (dirty : bool) then
              err ← commit s; Ok (match err with Some _ => true | None => false end)
            else Ok false
        | None => Ok false
        end
  | _ => Ok false
  end.

(** [cf_commit_all] on the array: whether the commit fails, and the array
    after it. *)
Definition cf_commit_all_array (sections : list cf_item) (cm : cf_commit_mode) (s : store) (da : dirty_array) :
    outcome (bool * dirty_array) :=
  da ← sort_dirty da;
  match cm with
  | CF_NO_COMMIT => Ok (false, da)
  | _ =>
      failed ← commit_section_array (CC_SECTION [] sections) (match cm with CF_COMMIT_ALL => true | _ => false end) da s;
      Ok (if (failed : bool) then (true, da) else (false, {| da_dirty := da_dirty da; da_dirties := 0 |}))
  end.
End commit.

(** ** Order of the sections *)

Lemma dirtsec_lt_spec x y : dirtsec_lt x y = true <-> ds_sec x < ds_sec y \/ ds_sec x = ds_sec y /\ ds_ptr x < ds_ptr y.
Proof. unfold dirtsec_lt. lia. Qed.

#[global] Instance dirtsec_order : StrictWeakOrder dirtsec_lt.
Proof. unfold dirtsec_lt. split; intros; lia. Qed.

Lemma dirtsec_total x y : dirtsec_lt x y = false -> dirtsec_lt y x = false -> x = y.
Proof. unfold dirtsec_lt. destruct x, y; cbn. intros. f_equal; lia. Qed.

Lemma dirtsec_strict x y : le dirtsec_lt x y -> x <> y -> dirtsec_lt x y = true.
Proof.
  intros Hle Hne. destruct (dirtsec_lt x y) eqn:E; [done|]. by destruct Hne; apply dirtsec_total.
Qed.

(** ** Compression *)

(** The elements that differ from the one before. *)
Fixpoint dedup (prev : dirty_section) (l : list dirty_section) : list dirty_section :=
  match l with
  | [] => []
  | x :: l => if bool_decide (x = prev) then dedup x l else x :: dedup x l
  end.

Lemma elem_of_dedup d prev l : d ∈ prev :: dedup prev l <-> d ∈ prev :: l.
Proof.
  revert prev; induction l as [|x l IH]; intros prev; [done|]. cbn [dedup].
  case_bool_decide as E; [subst; rewrite IH; set_solver|]. rewrite !(elem_of_cons _ d prev), IH. done.
Qed.

Lemma dedup_sorted prev l :
  StronglySorted (le dirtsec_lt) (prev :: l) -> StronglySorted (fun x y => dirtsec_lt x y = true) (prev :: dedup prev l).
Proof.
  revert prev; induction l as [|x l IH]; intros prev Hs; [repeat constructor|]. cbn [dedup].
  apply StronglySorted_inv in Hs as [Hs Hp]. specialize (IH x Hs).
  case_bool_decide as E; [by subst|]. constructor; [done|].
  rewrite Forall_forall in Hp |- *. intros y Hy. rewrite elem_of_dedup in Hy. apply dirtsec_strict; [by apply Hp|].
  intros ->. destruct (proj1 (elem_of_cons _ _ _) Hy) as [->|Hyl]; [done|].
  apply StronglySorted_inv in Hs as [_ Hx]. rewrite Forall_forall in Hx.
  apply E, dirtsec_total; [apply Hp; set_solver|by apply Hx].
Qed.

Lemma strict_sorted_le l :
  StronglySorted (fun x y => dirtsec_lt x y = true) l -> StronglySorted (le dirtsec_lt) l.
Proof.
  induction 1 as [|x l _ IH Hx]; constructor; [done|]. eapply Forall_impl; [exact Hx|]. intros y Hy. exact (lt_asym dirtsec_lt x y Hy).
Qed.

Lemma elt_nat {A} (b : list A) i x : b !! i = Some x -> ASORT_ELT b (Z.of_nat i) = Ok x.
Proof. intros H. apply elt_at. split; [lia|]. by rewrite Nat2Z.id. Qed.

Lemma compress_ok n b read write prev :
  b !! read = Some prev -> (write <= S read)%nat -> (S read + n <= length b)%nat ->
  exists b' w', compress n b (Z.of_nat (S read)) (Z.of_nat write) = Ok (b', Z.of_nat w') /\ length b' = length b /\
    (w' <= S read + n)%nat /\ take w' b' = take write b ++ dedup prev (take n (drop (S read) b)).
Proof.
  revert b read write prev; induction n as [|n IH]; intros b read write prev Hp Hw Hlen.
  { exists b, write. cbn. rewrite app_nil_r. repeat split; lia. }
  destruct (lookup_lt_is_Some_2 b (S read)) as [x Hx]; [lia|]. cbn [compress].
  rewrite (elt_nat _ _ _ Hx), bind_Ok. replace (Z.of_nat (S read) - 1) with (Z.of_nat read) by lia.
  rewrite (elt_nat _ _ _ Hp), bind_Ok. replace (Z.of_nat (S read) + 1) with (Z.of_nat (S (S read))) by lia.
  rewrite (drop_S b x (S read)) by done. cbn [take dedup]. case_bool_decide as E.
  { destruct (IH b (S read) write x) as (b' & w' & E1 & E2 & E3 & E4); [done|lia..|].
    exists b', w'. repeat split; [done|done|lia|done]. }
  set (b1 := if _ =? _ then b else _).
  assert (Hb1 : b1 !! S read = Some x /\ length b1 = length b /\ drop (S (S read)) b1 = drop (S (S read)) b /\
                take (S write) b1 = take write b ++ [x]).
  { subst b1. rewrite Nat2Z.id. destruct (Z.eqb_spec (Z.of_nat (S read)) (Z.of_nat write)) as [Ew|Ew].
    - replace write with (S read) by lia. repeat split; try done. by apply take_S_r.
    - rewrite length_insert, drop_insert_lt, list_lookup_insert_ne by lia. repeat split; try done.
      rewrite (take_S_r _ _ x) by (rewrite list_lookup_insert_eq; [done|lia]). by rewrite take_insert_ge by lia. }
  destruct Hb1 as (H1 & H2 & H3 & H4).
  destruct (IH b1 (S read) (S write) x) as (b' & w' & E1 & E2 & E3 & E4); [done|lia..|].
  replace (Z.of_nat write + 1) with (Z.of_nat (S write)) by lia.
  exists b', w'. repeat split; [done|lia|lia|]. by rewrite E4, H3, H4, <- app_assoc.
Qed.

(** ** The array implements a set of sections *)

Definition dirty_list (da : dirty_array) : list dirty_section := take (Z.to_nat (da_dirties da)) (da_dirty da).

Definition dirty_ok (da : dirty_array) : Prop :=
  0 <= da_dirties da <= 2 ^ 30 /\ (Z.to_nat (da_dirties da) <= length (da_dirty da))%nat.

Lemma sort_dirty_ok da : dirty_ok da ->
  exists da', sort_dirty da = Ok da' /\ dirty_ok da' /\ (forall d, d ∈ dirty_list da' <-> d ∈ dirty_list da) /\
    StronglySorted (fun x y => dirtsec_lt x y = true) (dirty_list da').
Proof.
  intros [Hn Hlen]. unfold sort_dirty, dirty_list. destruct (Z.leb_spec (da_dirties da) 1) as [H1|H1].
  { exists da. repeat split; try done; try lia.
    destruct (da_dirty da) as [|x b]; [rewrite take_nil; constructor|].
    destruct (Z.to_nat (da_dirties da)) as [|[|k]] eqn:E; [repeat constructor..|lia]. }
  destruct (asort_sorts dirtsec_lt (da_dirty da) (Z.to_nat (da_dirties da))) as (b & E & HP & HD & HS); [done|lia|].
  rewrite Z2Nat.id in E by lia. rewrite E, bind_Ok. set (n := Z.to_nat (da_dirties da)) in *.
  assert (Hlb : length b = length (da_dirty da)).
  { rewrite <- (take_drop n b), <- (take_drop n (da_dirty da)), !length_app, HD. by rewrite HP. }
  destruct b as [|x b]; [cbn in Hlb; lia|].
  destruct (compress_ok (n - 1) (x :: b) 0 1 x) as (b' & w' & E1 & E2 & E3 & E4); [done|lia|lia|].
  replace (Z.to_nat (da_dirties da - 1)) with (n - 1)%nat by lia. change (Z.of_nat 1) with 1 in E1. rewrite E1, bind_Ok.
  cbn [drop take app] in E4. rewrite take_0, drop_0 in E4. cbn [app] in E4. destruct n as [|n'] eqn:En; [lia|]. cbn [take] in HP, HS. rewrite Nat.sub_1_r in E4. cbn [Nat.pred] in E4.
  eexists. split; [done|]. unfold dirty_ok. cbn [da_dirty da_dirties]. rewrite Nat2Z.id, E4, E2.
  split; [split; lia|]. split; [|by apply dedup_sorted]. intros d. rewrite elem_of_dedup. by rewrite HP.
Qed.

Lemma is_dirty_ok da d : dirty_ok da -> StronglySorted (le dirtsec_lt) (dirty_list da) ->
  is_dirty da d = Ok (bool_decide (d ∈ dirty_list da)).
Proof.
  intros [Hn Hlen] Hs. unfold is_dirty, dirty_list in *.
  destruct (bin_search_ok dirtsec_lt (da_dirty da) (Z.to_nat (da_dirties da)) d) as (pos & E & Hpos & Hlo & Hhi);
    [done|lia|done|]. rewrite Z2Nat.id in * by lia. rewrite E, bind_Ok.
  assert (Hin : forall y, y ∈ take (Z.to_nat (da_dirties da)) (da_dirty da) <->
                          exists i, i < da_dirties da /\ at_pos (da_dirty da) i y).
  { intros y. rewrite list_elem_of_lookup. setoid_rewrite lookup_take_Some. split.
    - intros (i & Hi & Hlt). exists (Z.of_nat i). split; [lia|]. split; [lia|]. by rewrite Nat2Z.id.
    - intros (i & Hi & H0 & Hy). exists (Z.to_nat i). split; [done|lia]. }
  destruct (Z.ltb_spec pos (da_dirties da)) as [Hlt|Hge].
  - destruct (at_pos_ex (da_dirty da) pos) as [y Hy]; [lia|]. rewrite (elt_at _ _ _ Hy), bind_Ok. f_equal.
    apply bool_decide_ext. rewrite Hin. split; [intros <-; eauto|]. intros (i & Hi & Hd).
    destruct (Z.lt_trichotomy i pos) as [Hip|[->|Hip]].
    + pose proof (Hlo i d Hip Hd) as H. pose proof (le_refl dirtsec_lt d) as H'. unfold le in H'. congruence.
    + by apply (at_pos_fun _ _ _ _ Hy Hd).
    + apply dirtsec_total; [by apply (Hhi pos); [lia|]|].
      apply strong_sorted_upto in Hs. apply (Hs pos i); (lia || done).
  - rewrite bool_decide_eq_false_2; [done|]. rewrite Hin. intros (i & Hi & Hd).
    pose proof (Hlo i d ltac:(lia) Hd) as H. pose proof (le_refl dirtsec_lt d) as H'. unfold le in H'. congruence.
Qed.

Lemma grow_prefix fresh b len : dirtsec_grow fresh b len = b ++ drop (length b) (dirtsec_grow fresh b len) /\
  (len <= length (dirtsec_grow fresh b len))%nat.
Proof.
  unfold dirtsec_grow. destruct (Nat.ltb_spec (length b) len).
  - rewrite drop_app_length, length_app, length_map, length_seq. split; [done|lia].
  - rewrite drop_all, app_nil_r. done.
Qed.

Lemma add_dirty_ok fresh d da : dirty_ok da -> da_dirties da < 2 ^ 30 ->
  exists da', cf_add_dirty_array fresh d da = Ok da' /\ dirty_ok da' /\
    forall x, x ∈ dirty_list da' <-> x = d \/ x ∈ dirty_list da.
Proof.
  intros [Hn Hlen] Hmax. unfold cf_add_dirty_array, dirty_list.
  destruct (grow_prefix fresh (da_dirty da) (S (Z.to_nat (da_dirties da)))) as [Eb Hb].
  set (b := dirtsec_grow _ _ _) in *. set (n := Z.to_nat (da_dirties da)) in *.
  assert (Ht : take n b = take n (da_dirty da)) by (rewrite Eb; by rewrite take_app_le).
  assert (Hadd : exists da', Ok {| da_dirty := <[n:=d]> b; da_dirties := u32 (da_dirties da + 1) |} = Ok da' /\
            dirty_ok da' /\ forall x, x ∈ take (Z.to_nat (da_dirties da')) (da_dirty da') <-> x = d \/ x ∈ take n (da_dirty da)).
  { eexists. split; [done|]. unfold dirty_ok, u32. cbn [da_dirty da_dirties]. rewrite Z.mod_small, length_insert by lia.
    split; [lia|]. intros x. replace (Z.to_nat (da_dirties da + 1)) with (S n) by lia.
    rewrite (take_S_r _ _ d), take_insert_ge, Ht by (rewrite ?list_lookup_insert_eq; [done|lia] || lia). set_solver. }
  destruct (Z.eqb_spec (da_dirties da) 0); rewrite ?bind_Ok; [done|].
  destruct (lookup_lt_is_Some_2 b (n - 1)) as [y Hy]; [lia|].
  replace (da_dirties da - 1) with (Z.of_nat (n - 1)) by lia. rewrite (elt_nat _ _ _ Hy), !bind_Ok.
  case_bool_decide as E; [|done]. subst y. eexists. split; [done|]. unfold dirty_ok. cbn [da_dirty da_dirties].
  fold n. rewrite Ht. split; [lia|]. intros x. split; [auto|]. intros [->|]; [|done].
  rewrite <- Ht. apply (list_elem_of_lookup_2 _ (n - 1)). apply lookup_take_Some. split; [done|lia].
Qed.

Section refinement.
Context (address : list Z -> dirty_section) `{Haddr : !Inj (=) (=) address}.

(** The array holds the sections of a list of names. *)
Definition represents (da : dirty_array) (names : list (list Z)) : Prop :=
  dirty_ok da /\ forall d, d ∈ dirty_list da <-> exists n, n ∈ names /\ d = address n.

Lemma represents_elem da names n : represents da names -> address n ∈ dirty_list da <-> n ∈ names.
Proof.
  intros [_ H]. rewrite H. split; [|eauto]. intros (n' & Hn & E). by apply (inj address) in E as ->.
Qed.

Lemma commit_section_array_eq da names all s item :
  (forall n, is_dirty da (address n) = Ok (bool_decide (n ∈ names))) ->
  commit_section_array address item all da s = commit_section item all names s.
Proof.
  intros H. revert item. fix IH 1. intros [n t|n l|n items]; [done..|].
  assert (Hitems : forall items,
    (fix commit_items (items : list cf_item) : outcome bool :=
       match items with
       | [] => Ok false
       | ci :: items => failed ← commit_section_array address ci all da s; if (failed : bool) then Ok true else commit_items items
       end) items =
    (fix commit_items (items : list cf_item) : outcome bool :=
       match items with
       | [] => Ok false
       | ci :: items => failed ← commit_section ci all names s; if (failed : bool) then Ok true else commit_items items
       end) items).
  { fix IHl 1. intros [|ci cis]; [done|]. rewrite (IH ci), (IHl cis). done. }
  cbn [commit_section_array commit_section]. rewrite Hitems, H. done.
Qed.

(** The array at work behind the context. *)
Lemma cf_commit_all_array_ok sections cm cc da : represents da (cc_dirty cc) ->
  match cf_commit_all sections cm cc with
  | Ok (failed, cc') =>
      exists da', cf_commit_all_array address sections cm (cc_store cc) da = Ok (failed, da') /\
                  represents da' (cc_dirty cc')
  | Fail e => cf_commit_all_array address sections cm (cc_store cc) da = Fail e
  end.
Proof.
  intros [Hok Hrep]. destruct (sort_dirty_ok da Hok) as (da' & E & Hok' & Hel & Hs).
  unfold cf_commit_all, cf_commit_all_array. rewrite E, bind_Ok. cbn [cc_dirty cc_store set_dirty].
  assert (Hrep' : represents da' (remove_dups (cc_dirty cc))).
  { split; [done|]. intros d. rewrite Hel, Hrep. by setoid_rewrite elem_of_remove_dups. }
  assert (Hd : forall n, is_dirty da' (address n) = Ok (bool_decide (n ∈ remove_dups (cc_dirty cc)))).
  { intros n. rewrite is_dirty_ok; [|done|by apply strict_sorted_le]. f_equal. apply bool_decide_ext.
    by apply represents_elem. }
  destruct cm; [by exists da'|..]; rewrite (commit_section_array_eq _ _ _ _ _ Hd);
    (destruct (commit_section _ _ _ _) as [[|]|e]; cbn; [by exists da'| |done]; eexists; split; [done|];
     split; [split; cbn; lia|]; intros d; cbn; rewrite elem_of_nil; split; [done|]; intros (n & Hn & _); set_solver).
Qed.
End refinement.

(** C32: the array of dirty sections implements the set of their names, for any
    places of the sections in memory and any content of fresh memory: adding a
    section keeps the correspondence, and a commit that sorts and compresses
    the array and looks sections up by bisection ends as the commit by names
    does, with the same result or the same failure. *)
Theorem dirty_array_refines (fresh : nat -> dirty_section) (address : list Z -> dirty_section) sections cc da :
  Inj (=) (=) address -> represents address da (cc_dirty cc) ->
  (forall name, da_dirties da < 2 ^ 30 ->
    exists da', cf_add_dirty_array fresh (address name) da = Ok da' /\
                represents address da' (cc_dirty (cf_add_dirty name cc))) /\
  (forall cm,
    match cf_commit_all sections cm cc with
    | Ok (failed, cc') =>
        exists da', cf_commit_all_array address sections cm (cc_store cc) da = Ok (failed, da') /\
                    represents address da' (cc_dirty cc')
    | Fail e => cf_commit_all_array address sections cm (cc_store cc) da = Fail e
    end).
Proof.
  intros Hinj Hrep. split; [|intros cm; by apply cf_commit_all_array_ok].
  intros name Hmax. destruct Hrep as [Hok Hrep].
  destruct (add_dirty_ok fresh (address name) da Hok Hmax) as (da' & E & Hok' & Hel). exists da'. split; [done|].
  split; [done|]. intros d. rewrite Hel, Hrep. unfold cf_add_dirty.
  destruct (cc_dirty cc) as [|x l] eqn:Ec; [|case_bool_decide as Ex]; cbn [cc_dirty set_dirty]; rewrite ?Ec; set_solver.
Qed.

(** Three entries, one of them twice, in a buffer of four. *)
Lemma dirty_array_refines_witness :
  let address n := {| ds_sec := Z.pos (encode n); ds_ptr := 0 |} in
  let dns := bytes_of_string "dnscol" in
  let cc := set_dirty (new_context init_store) [dns; [1]; dns] in
  let da := {| da_dirty := [address dns; address [1]; address dns; address []]; da_dirties := 3 |} in
  represents address da (cc_dirty cc) /\
  exists da', cf_commit_all_array address collector_sections CF_COMMIT (cc_store cc) da = Ok (false, da') /\
              represents address da' [].
Proof.
  intros address dns cc da.
  assert (Hrep : represents address da (cc_dirty cc)).
  { split; [split; cbn; lia|]. intros d. unfold dirty_list. cbn [da_dirties da_dirty da cc_dirty cc set_dirty].
    change (Z.to_nat 3) with 3%nat. cbn [take]. set_solver. }
  split; [exact Hrep|].
  assert (Hinj : Inj (=) (=) address) by (intros x y E; by injection E as E%encode_inj).
  destruct (dirty_array_refines (fun _ => address []) address collector_sections cc da Hinj Hrep) as [_ H].
  specialize (H CF_COMMIT). 
  assert (E : match cf_commit_all collector_sections CF_COMMIT cc with
              | Ok (false, cc') => bool_decide (cc_dirty cc' = [])
              | _ => false
              end = true) by (vm_compute; reflexivity).
  destruct (cf_commit_all collector_sections CF_COMMIT cc) as [[[|] cc']|e]; [discriminate| |discriminate].
  apply bool_decide_eq_true in E. rewrite E in H. exact H.
Defined.
