(* ===== verification/ConfInv.v ===== *)
(** * The configuration reader always stops; failed loads change nothing

    The tokenizer consumes its text, so that the loop over the commands ends
    for every text and every set of files.  The journal undoes a failed load.
    A context that has loaded something successfully holds a configuration
    that the collector's check accepts. *)

From stdpp Require Import base numbers strings gmap list.
From S2P Require Import Prelude Doubles Common Config ConfParse ConfInput ConfIntr ConfLoad.

(** ** The measure of the unread text *)

Definition measure (p : cf_parser_state) : nat := (2 * length (p_fb p) + length (p_line p))%nat.

(** A line to be skipped does not count. *)
Definition eff (p : cf_parser_state) : nat :=
  if skipped_line (p_line p) then (2 * length (p_fb p))%nat else measure p.

Arguments measure : simpl never.
Arguments eff : simpl never.

Lemma eff_le p : (eff p <= measure p)%nat.
Proof. unfold eff, measure. case_match; lia. Qed.

Lemma skip_while_length f s : (length (skip_while f s) <= length s)%nat.
Proof. induction s; cbn [skip_while]; [done|]. case_match; cbn [length]; lia. Qed.

Lemma until_nul_length s : (length (until_nul s) <= length s)%nat.
Proof. induction s; cbn [until_nul]; [done|]. case_match; cbn [length]; lia. Qed.

Lemma split_newline_length s a b : split_newline s = (a, b) -> s <> [] ->
  (2 * length b + length a < 2 * length s)%nat.
Proof.
  revert a b. induction s as [|c s IH]; intros a b; [done|]. cbn [split_newline]. intros H _.
  destruct (c =? 10); [injection H as <- <-; cbn; lia|].
  destruct (split_newline s) as [a' b'] eqn:E. injection H as <- <-. cbn [length].
  destruct s; [cbn in E; injection E as <- <-; cbn; lia|].
  specialize (IH a' b' eq_refl ltac:(done)). cbn [length] in *. lia.
Qed.

Lemma get_line_measure p p' : get_line p = Some (inr p') -> (measure p' < 2 * length (p_fb p))%nat.
Proof.
  unfold get_line, bgets_nodie. destruct (p_fb p) as [|c fb] eqn:Efb; [done|]. rewrite <- Efb.
  destruct (split_newline (p_fb p)) as [line rest] eqn:E.
  destruct (Nat.ltb_spec (length line) MAX_LINE); intros Hp; [|done]. injection Hp as <-.
  unfold measure; cbn [p_fb p_line].
  pose proof (split_newline_length _ _ _ E ltac:(by rewrite Efb)).
  pose proof (skip_while_length Cblank (until_nul line)). pose proof (until_nul_length line). lia.
Qed.

(** ** Words *)

Lemma before_apostrophe_length s a b : before_apostrophe s = (a, b) -> (length b <= length s)%nat.
Proof.
  revert a b. induction s as [|c s IH]; intros a b; cbn [before_apostrophe]; [by intros [= <- <-]|].
  destruct (c =? 39); [by intros [= <- <-]|]. destruct (before_apostrophe s) as [a' b'].
  intros [= <- <-]. specialize (IH _ _ eq_refl). cbn. lia.
Qed.

Lemma before_quote_length e s a b e' : before_quote e s = (a, b, e') -> (length b <= length s)%nat.
Proof.
  revert e a b e'. induction s as [|c s IH]; intros e a b e'; cbn [before_quote]; [by intros [= <- <- _]|].
  destruct ((c =? 34) && negb e); [by intros [= <- <- _]|].
  destruct (before_quote _ s) as [[a' b'] e''] eqn:E.
  intros [= <- <- _]. specialize (IH _ _ _ _ E). cbn. lia.
Qed.

Lemma before_end_length n s a b : before_end n s = (a, b) -> s = a ++ b.
Proof.
  revert a b. induction s as [|c s IH]; intros a b; cbn [before_end]; [by intros [= <- <-]|].
  destruct (word_end n c); [by intros [= <- <-]|]. destruct (before_end n s) as [a' b'].
  intros [= <- <-]. cbn. f_equal. by apply IH.
Qed.

(** A result of the tokenizer that stops, with a bound on what is left. *)
Definition stops {A} (bound : nat) (r : outcome (input_error + A * cf_parser_state)) : Prop :=
  exists x, r = Ok x /\ forall a p, x = inr (a, p) -> (measure p <= bound)%nat.

Lemma stops_error {A} n e : stops (A := A) n (Ok (inl e)).
Proof. exists (inl e). done. Qed.

Lemma stops_ok {A} n (a : A) p : (measure p <= n)%nat -> stops n (Ok (inr (a, p))).
Proof. intros H. exists (inr (a, p)). split; [done|]. by intros ? ? [= -> ->]. Qed.

Lemma stops_weaken {A} n m (r : outcome (input_error + A * cf_parser_state)) : (n <= m)%nat -> stops n r -> stops m r.
Proof. intros Hn (x & -> & H). exists x. split; [done|]. intros a p Hx. specialize (H a p Hx). lia. Qed.

Create HintDb conf.
#[export] Hint Resolve stops_error stops_ok : conf.

Lemma measure_line p l : (length l <= length (p_line p))%nat -> (measure (set_line p l) <= measure p)%nat.
Proof. unfold measure, set_line; cbn. lia. Qed.

Lemma apostrophe_word_stops fuel w p : (length (p_fb p) < fuel)%nat -> stops (measure p) (apostrophe_word fuel w p).
Proof.
  revert w p. induction fuel as [|fuel IH]; intros w p Hf; [lia|]. cbn [apostrophe_word].
  destruct (before_apostrophe (p_line p)) as [a rest] eqn:E.
  destruct rest as [|c rest]; [|apply stops_ok, measure_line; by apply before_apostrophe_length in E].
  destruct (get_line p) as [[e|p']|] eqn:G; [auto with conf| |auto with conf].
  apply get_line_measure in G. eapply stops_weaken; [|apply IH]; unfold measure in *; lia.
Qed.

Lemma quoted_word_stops fuel w p : (length (p_fb p) < fuel)%nat -> stops (measure p) (quoted_word fuel w p).
Proof.
  revert w p. induction fuel as [|fuel IH]; intros w p Hf; [lia|]. cbn [quoted_word].
  destruct (before_quote false (p_line p)) as [[a rest] e'] eqn:E.
  destruct rest as [|c rest]; [|apply stops_ok, measure_line; by apply before_quote_length in E].
  destruct (get_line p) as [[e|p']|] eqn:G; [auto with conf| |auto with conf].
  apply get_line_measure in G. eapply stops_weaken; [|apply IH]; unfold measure in *; lia.
Qed.

Lemma measure_skip_blanks p : (measure (skip_blanks p) <= measure p)%nat.
Proof. apply measure_line, skip_while_length. Qed.

Lemma plain_word_measure n p w p' : p_line p <> [] -> plain_word n p = inr (w, p') -> (measure p' < measure p)%nat.
Proof.
  unfold plain_word. intros Hne. destruct (before_end n (p_line p)) as [a rest] eqn:E.
  apply before_end_length in E.
  assert (Hlt : forall l, (length l < length (p_line p))%nat -> (measure (skip_blanks (set_line p l)) < measure p)%nat).
  { intros l Hl. pose proof (measure_skip_blanks (set_line p l)). unfold measure in *; cbn in *. lia. }
  assert (Ht : (length (tail rest) < length (p_line p))%nat).
  { rewrite E, length_app. destruct rest; cbn; [|lia]. destruct a; [|cbn; lia]. by rewrite E in Hne. }
  destruct (starts 61 rest).
  - case_bool_decide; [done|]. intros [= <- <-]. by apply Hlt.
  - case_bool_decide; intros [= <- <-]; apply Hlt; [done|].
    rewrite E, length_app. destruct a; [done | cbn; lia].
Qed.

(** A word takes at least one character. *)
Lemma get_word_stops n p : p_line p <> [] -> stops (measure p - 1) (get_word n p).
Proof.
  intros Hne. unfold get_word.
  assert (Hq : forall p', (measure p' <= measure (set_line p (tail (p_line p))))%nat ->
                     (measure (skip_blanks (set_line p' (tail (p_line p')))) <= measure p - 1)%nat).
  { intros p' Hp'. etransitivity; [apply measure_skip_blanks|].
    etransitivity; [apply measure_line; destruct (p_line p'); cbn; lia|].
    unfold measure in *; cbn in *. destruct (p_line p); [done | cbn in *; lia]. }
  destruct (starts 39 (p_line p)).
  { destruct (apostrophe_word_stops (S (length (p_fb p))) [] (set_line p (tail (p_line p)))) as (x & -> & Hx); [cbn; lia|].
    cbn. destruct x as [e|[w p']]; [auto with conf|]. apply stops_ok, Hq. by apply (Hx w). }
  destruct (starts 34 (p_line p)).
  { destruct (quoted_word_stops (S (length (p_fb p))) [] (set_line p (tail (p_line p)))) as (x & -> & Hx); [cbn; lia|].
    cbn. destruct x as [e|[w p']]; [auto with conf|]. apply stops_ok, Hq. by apply (Hx w). }
  destruct (plain_word n p) as [e|[w p']] eqn:E; [auto with conf|].
  apply stops_ok. apply plain_word_measure in E; [lia | done].
Qed.

(** ** Tokens and commands *)

(** A result of [get_token]: a token takes more than the skipped line. *)
Definition token_stops (p : cf_parser_state) (r : outcome (input_error + option (list Z) * cf_parser_state)) : Prop :=
  exists x, r = Ok x /\ forall w p', x = inr (w, p') ->
    (measure p' <= measure p)%nat /\ (is_Some w -> (measure p' < eff p)%nat).

Lemma token_stops_none p p' : (measure p' <= measure p)%nat -> token_stops p (Ok (inr (None, p'))).
Proof. intros H. eexists. split; [done|]. intros ? ? [= <- <-]. split; [done|]. by intros [? [=]]. Qed.

Lemma token_stops_error p e : token_stops p (Ok (inl e)).
Proof. eexists. split; done. Qed.

Lemma token_stops_next p p' r : (measure p' < 2 * length (p_fb p))%nat -> token_stops p' r -> token_stops p r.
Proof.
  intros Hp (x & -> & H). exists x. split; [done|]. intros w q Hq. destruct (H w q Hq) as [H1 H2].
  pose proof (eff_le p').
  assert (2 * length (p_fb p) <= eff p)%nat by (unfold eff, measure; case_match; lia).
  split; [unfold measure in *; lia|]. intros Hw. specialize (H2 Hw). lia.
Qed.

Lemma get_token_stops fuel n p : (measure p < fuel)%nat -> token_stops p (get_token fuel n p).
Proof.
  revert p. induction fuel as [|fuel IH]; intros p Hf; [lia|]. cbn [get_token].
  assert (Hnext : forall stop, token_stops p (Ok stop) ->
    token_stops p (match get_line p with
                   | None => Ok stop | Some (inl e) => Ok (inl e)
                   | Some (inr p) => get_token fuel n p end)).
  { intros stop Hs. destruct (get_line p) as [[e|p']|] eqn:G; [apply token_stops_error| |done].
    apply get_line_measure in G. eapply token_stops_next; [done|]. apply IH. unfold measure in *. lia. }
  assert (Hdone : token_stops p (Ok (inr (None, p)))) by (by apply token_stops_none).
  destruct (p_line p) as [|c r] eqn:El; [by destruct n; [apply Hnext|]|].
  destruct (Z.eqb_spec c 35) as [->|Hc]; [by destruct n; [apply Hnext|]|].
  assert (Hne : p_line p <> []) by (by rewrite El).
  assert (Hpos : (0 < measure p)%nat) by (unfold measure; rewrite El; cbn; lia).
  assert (Heff : eff p = measure p).
  { unfold eff. rewrite El. cbn. by replace (c =? 35) with false by lia. }
  destruct (c =? 59).
  { destruct (get_word_stops false p Hne) as (x & -> & Hx). cbn.
    destruct x as [e|[w p']]; [apply token_stops_error|]. specialize (Hx w p' eq_refl).
    destruct n; [|apply token_stops_none; lia].
    destruct (IH p' ltac:(lia)) as (x & -> & H). exists x. split; [done|]. intros w' q Hq.
    destruct (H w' q Hq) as [H1 H2]. pose proof (eff_le p'). split; [lia|]. intros Hw. specialize (H2 Hw). lia. }
  destruct ((c =? 92) && bool_decide (r = [])); [apply Hnext, token_stops_error|].
  destruct (get_word_stops n p Hne) as (x & -> & Hx). cbn.
  destruct x as [e|[w p']]; [apply token_stops_error|]. specialize (Hx w p' eq_refl).
  eexists. split; [done|]. intros ? ? [= <- <-]. rewrite Heff. lia.
Qed.

Lemma get_parameters_stops fuel words p : (measure p < fuel)%nat ->
  exists x, get_parameters fuel words p = Ok x /\
    forall ws b p', x = inr (ws, b, p') -> (measure p' <= measure p)%nat.
Proof.
  revert words p. induction fuel as [|fuel IH]; intros words p Hf; [lia|]. cbn [get_parameters].
  destruct (starts 125 (p_line p)); [eexists; split; [done|]; by intros ? ? ? [= <- <- <-]|].
  destruct (get_token_stops (token_fuel p) false p) as (x & -> & Hx); [unfold token_fuel, measure; lia|]. rewrite bind_Ok.
  destruct x as [e|[[w|] p']]; [by eexists| |].
  - destruct (Hx (Some w) p' eq_refl) as [_ H2]. specialize (H2 ltac:(done)). pose proof (eff_le p).
    destruct (starts 123 w); [eexists; split; [done|]; intros ? ? ? [= <- <- <-]; lia|].
    destruct (IH (words ++ [w]) p' ltac:(lia)) as (y & -> & Hy). exists y. split; [done|].
    intros ws b q Hq. specialize (Hy ws b q Hq). lia.
  - destruct (Hx None p' eq_refl) as [H1 _]. eexists. split; [done|]. by intros ? ? ? [= <- <- <-].
Qed.

(** A command that is not the last takes more than the skipped line. *)
Lemma split_command_stops p :
  exists x, split_command p = Ok x /\
    forall ws b p', x = inr (ws, b, p') -> ws <> [] -> (measure p' < eff p)%nat.
Proof.
  unfold split_command.
  destruct (get_token_stops (token_fuel p) true p) as (x & -> & Hx); [unfold token_fuel, measure; lia|]. rewrite bind_Ok.
  destruct x as [e|[[w|] p']]; [by eexists| |].
  - destruct (Hx (Some w) p' eq_refl) as [_ H2]. specialize (H2 ltac:(done)).
    destruct (starts 123 w); [by eexists|].
    destruct (get_parameters_stops (token_fuel p') [w] p') as (y & -> & Hy); [unfold token_fuel, measure; lia|].
    exists y. split; [done|]. intros ws b q Hq _. specialize (Hy ws b q Hq). lia.
  - eexists. split; [done|]. by intros ? ? ? [= <- <- <-].
Qed.

(** The text ends where a line would be skipped, and the words of a command
    are not lost. *)
Lemma get_token_end fuel p p' : get_token fuel true p = Ok (inr (None, p')) -> skipped_line (p_line p') = true.
Proof.
  revert p. induction fuel as [|fuel IH]; intros p; cbn [get_token]; [done|].
  destruct (p_line p) as [|c r] eqn:El.
  { destruct (get_line p) as [[e|q]|]; [done|apply IH|]. intros [= <-]. by rewrite El. }
  destruct (c =? 35) eqn:Ec.
  { destruct (get_line p) as [[e|q]|]; [done|apply IH|]. intros [= <-]. by rewrite El. }
  destruct (c =? 59).
  { destruct (get_word false p) as [[e|[w q]]|]; [done|apply IH|done]. }
  destruct ((c =? 92) && bool_decide (r = [])).
  { destruct (get_line p) as [[e|q]|]; [done|apply IH|done]. }
  by destruct (get_word true p) as [[e|[w q]]|].
Qed.

Lemma get_parameters_words fuel words p ws b p' :
  get_parameters fuel words p = Ok (inr (ws, b, p')) -> words <> [] -> ws <> [].
Proof.
  revert words p. induction fuel as [|fuel IH]; intros words p; cbn [get_parameters];
    destruct (starts 125 (p_line p)); try (intros [= <- <- <-]; done).
  destruct (get_token (token_fuel p) false p) as [[e|[[w|] q]]|]; cbn; [done| |by intros [= <- <- <-]|done].
  destruct (starts 123 w); [by intros [= <- <- <-]|]. intros H _. apply IH in H; [done|]. by destruct words.
Qed.

Lemma split_command_end p b p' : split_command p = Ok (inr ([], b, p')) -> skipped_line (p_line p') = true.
Proof.
  unfold split_command. destruct (get_token (token_fuel p) true p) as [[e|[[w|] q]]|] eqn:E; cbn [mbind outcome_bind]; [done| | |done].
  - destruct (starts 123 w); [done|]. intros H. by apply get_parameters_words in H.
  - intros [= <- <-]. by apply get_token_end in E.
Qed.

(** ** The loop over the commands *)

Section loader.
Context `{SD : ScanDouble} `{LG : LoggingSection}.
Context (sections : list cf_item).
Context (bopen_try : list Z -> bool + list Z).

(** The section [Logging] has undefined behaviour at some point. *)
Definition logging_crashes : Prop := exists n, logging n = LogCrashes.

(** A text is read to its end, or to an error, unless the section [Logging]
    crashes. *)
Definition text_stops (r : outcome (option cf_error * list Z * cf_context)) : Prop :=
  (exists err line cc, r = Ok (err, line, cc) /\ (err = None -> skipped_line line = true)) \/
  logging_crashes /\ r = Fail UndefinedBehaviour.

Lemma text_stops_error e line cc : text_stops (Ok (Some e, line, cc)).
Proof. left. by exists (Some e), line, cc. Qed.

Lemma interpret_command_stops name op opens pars cc :
  (exists r, interpret_command sections name op opens pars cc = Ok r) \/
  logging_crashes /\ interpret_command sections name op opens pars cc = Fail UndefinedBehaviour.
Proof.
  unfold interpret_command, logging_crashes. destruct (in_logging name op cc); [|by left; eexists].
  destruct (logging (cc_logging cc)) eqn:E; [by left; eexists..|]. right. split; [by eexists | done].
Qed.

Lemma parse_commands_stops include fuel p cc :
  (forall parse, include = Some parse -> forall text cc, text_stops (parse text cc)) ->
  (eff p < fuel)%nat -> text_stops (parse_commands sections bopen_try include fuel p cc).
Proof.
  intros Hinc. revert p cc. induction fuel as [|fuel IH]; intros p cc Hf; [lia|]. cbn [parse_commands].
  destruct (split_command_stops p) as (x & E & Hx). rewrite E, bind_Ok.
  destruct x as [e|[[[|name pars] brace] q]]; [apply text_stops_error| |].
  { left. exists None, (p_line q), cc. split; [done|]. intros _. by apply split_command_end in E. }
  specialize (Hx _ _ _ eq_refl ltac:(done)). pose proof (eff_le q) as Hq.
  destruct (strcaseeq name (bytes_of_string "optionalinclude") || _).
  - destruct pars as [|file [|]]; [apply text_stops_error| |by destruct include; apply text_stops_error].
    destruct include as [parse|]; [|apply text_stops_error].
    destruct (negb (skipped_line (p_line q))); [apply text_stops_error|].
    destruct (bopen_try file) as [enoent|text].
    { destruct (strcaseeq name _ && enoent); [apply IH; lia | apply text_stops_error]. }
    destruct (Hinc parse eq_refl text cc) as [(err & line & cc' & -> & Hline)|[Hc ->]]; [|by right]. rewrite bind_Ok.
    destruct err; [apply text_stops_error|]. apply IH.
    unfold eff, measure in *; cbn [p_line p_fb set_line]. rewrite (Hline eq_refl). lia.
  - destruct (parse_operation name) as [e|[n op]]; [apply text_stops_error|].
    destruct (interpret_command_stops n op brace pars cc) as [[[[e|] cc'] ->]|[Hc ->]]; [| |by right]; rewrite bind_Ok;
      [apply text_stops_error|]. apply IH. lia.
Qed.

Lemma parse_text_stops n text cc : text_stops (parse_text sections bopen_try n text cc).
Proof.
  revert text cc. induction n as [|n IH]; intros text cc; cbn [parse_text];
    (apply parse_commands_stops; [|unfold eff; cbn; lia]); [done|]. by intros ? [= <-].
Qed.

End loader.
