(* ===== verification/ConfUndo.v ===== *)
(** * Failed loads change nothing; accepted configurations

    The journal of a transaction undoes every change of the settings, so that
    a load that fails leaves the settings as they were.  At rest, a context
    that has been initialized holds a configuration that the collector's check
    accepts: a load that succeeds has run the check on what it changed. *)

From stdpp Require Import base numbers strings gmap list.
From S2P Require Import Prelude Doubles Common Config ConfParse ConfInput ConfIntr ConfLoad ConfInv.

(** ** Undoing a journal *)

Fixpoint undo (j : list (list Z * cval)) (s : store) : store :=
  match j with
  | [] => s
  | (n, v) :: j => undo j (alter (fun _ => v) n s)
  end.

Definition undone (cc : cf_context) : store := undo (cc_journal cc) (cc_store cc).

Lemma alter_absent (s : store) n f : s !! n = None -> alter f n s = s.
Proof.
  intros Hn. apply map_eq. intros i. destruct (decide (i = n)) as [->|].
  - by rewrite lookup_alter_eq, Hn.
  - by rewrite lookup_alter_ne.
Qed.

Lemma alter_present (s : store) n v w : s !! n = Some w -> alter (fun _ => v) n s = <[n := v]> s.
Proof.
  intros Hn. apply map_eq. intros i. destruct (decide (i = n)) as [->|].
  - by rewrite lookup_alter_eq, Hn, lookup_insert_eq.
  - by rewrite lookup_alter_ne, lookup_insert_ne.
Qed.

Lemma alter_twice (s : store) n v w : alter (fun _ => v) n (alter (fun _ => w) n s) = alter (fun _ => v) n s.
Proof.
  destruct (s !! n) as [u|] eqn:E.
  - rewrite !(alter_present s n _ u) by done. erewrite alter_present by apply lookup_insert_eq.
    by rewrite insert_insert_eq.
  - by rewrite !(alter_absent s).
Qed.

Lemma swap_loop_undo next j s : (swap_loop next j s).2 = undo j s.
Proof.
  revert next s. induction j as [|[n v] j IH]; intros next s; cbn [swap_loop undo]; [done|].
  destruct (s !! n) as [w|] eqn:E; rewrite IH.
  - by erewrite alter_present.
  - by rewrite alter_absent.
Qed.

Lemma rollback_store oldj cc : cc_store (cf_journal_rollback_transaction oldj cc) = undone cc.
Proof.
  unfold cf_journal_rollback_transaction, cf_journal_swap, undone.
  rewrite <- (swap_loop_undo []). by destruct (swap_loop _ _ _).
Qed.

(** The item [n] is saved: further changes of it are undone too. *)
Definition saved (n : list Z) (cc : cf_context) : Prop :=
  forall v, undo (cc_journal cc) (alter (fun _ => v) n (cc_store cc)) = undone cc.

Lemma saved_block n cc : saved n (cf_journal_block n cc) /\ undone (cf_journal_block n cc) = undone cc.
Proof.
  unfold saved, undone, cf_journal_block. destruct (cc_store cc !! n) as [w|] eqn:E; cbn.
  - assert (H : alter (fun _ => w) n (cc_store cc) = cc_store cc).
    { rewrite (alter_present _ _ _ w) by done. by apply insert_id. }
    split; [intros v; by rewrite alter_twice | by rewrite H].
  - split; [|done]. intros v. by rewrite alter_absent.
Qed.

Lemma saved_store n v cc : saved n cc -> saved n (store_value n v cc) /\ undone (store_value n v cc) = undone cc.
Proof.
  intros H. destruct v as [v|]; [|done]. unfold saved, undone in *; cbn. split; [|apply H].
  intros w. by rewrite alter_twice, !H.
Qed.

(** ** What the interpreter of an item changes *)

(** The settings, in an undoable way, and the dirty sections. *)
Record quiet (cc cc' : cf_context) : Prop := {
  quiet_undone : undone cc' = undone cc;
  quiet_stack : cc_stack cc' = cc_stack cc;
  quiet_committed : cc_everything_committed cc' = cc_everything_committed cc;
  quiet_postpone : cc_postpone_commit cc' = cc_postpone_commit cc;
  quiet_initialized : cc_sections_initialized cc' = cc_sections_initialized cc;
  quiet_logging : cc_logging cc' = cc_logging cc;
  quiet_dirty : cc_dirty cc ⊆ cc_dirty cc';
}.

#[global] Instance quiet_preorder : PreOrder quiet.
Proof.
  split; [by intros x; split|]. intros x y z [] []. split; try congruence. by transitivity (cc_dirty y).
Qed.

(** One item, saved first. *)
Lemma quiet_block n cc : quiet cc (cf_journal_block n cc).
Proof.
  destruct (saved_block n cc) as [_ Hu].
  split; [done|..]; unfold cf_journal_block; by destruct (cc_store cc !! n).
Qed.

Lemma quiet_store n v cc : saved n cc -> quiet cc (store_value n v cc).
Proof. intros [_ Hu]%(saved_store n v). split; [done|..]; by destruct v. Qed.

Lemma quiet_block_store n v cc : quiet cc (store_value n v (cf_journal_block n cc)).
Proof. etransitivity; [apply quiet_block|]. apply quiet_store, saved_block. Qed.

Lemma quiet_add_dirty n cc : quiet cc (cf_add_dirty n cc) /\ n ∈ cc_dirty (cf_add_dirty n cc).
Proof.
  unfold cf_add_dirty. destruct (cc_dirty cc) as [|d l] eqn:E.
  - split; [split; cbn; rewrite ?E; set_solver | cbn; set_solver].
  - case_bool_decide as Hd; [subst; split; [done | rewrite E; set_solver]|].
    split; [split; cbn; rewrite ?E; set_solver | cbn; set_solver].
Qed.

Lemma cf_item_nested_ind (P : cf_item -> Prop) :
  (forall n t, P (CC_STATIC n t)) -> (forall n l, P (CC_BITMAP n l)) ->
  (forall n items, Forall P items -> P (CC_SECTION n items)) -> forall i, P i.
Proof.
  intros Hs Hb Hsec. fix IH 1. intros [n t|n l|n items]; [apply Hs|apply Hb|]. apply Hsec.
  induction items; constructor; [apply IH | done].
Qed.

Section interpreter.
Context `{SD : ScanDouble} `{LG : LoggingSection}.

Lemma add_bits_quiet n lookup set pars cc : saved n cc -> quiet cc (add_bits n lookup set pars cc).2.
Proof.
  revert cc. induction pars as [|par pars IH]; intros cc Hs; cbn [add_bits]; [done|].
  destruct (cf_parse_lookup lookup par) as [[e|] v]; [done|]. destruct (default 0 v >=? 32); [done|].
  etransitivity; [by apply quiet_store|]. apply IH. by apply saved_store.
Qed.

Lemma interpret_add_bitmap_quiet n lookup pars op cc : quiet cc (interpret_add_bitmap n lookup pars op cc).2.
Proof.
  unfold interpret_add_bitmap. destruct (negb _ && negb _); [done|].
  destruct (add_bits _ _ _ _ _) as [msg cc'] eqn:E. etransitivity; [apply quiet_block|].
  change (_, _, cc').2 with (msg, cc').2. rewrite <- E. apply add_bits_quiet, saved_block.
Qed.

Lemma interpret_set_item_quiet item pars dyn cc : quiet cc (interpret_set_item item pars dyn cc).2.
Proof.
  revert pars dyn cc. induction item as [n t|n l|n items Hitems] using cf_item_nested_ind; intros pars dyn cc.
  - cbn. destruct pars as [|par pars]; [done|]. destruct (parse_value t par) as [msg v]. apply quiet_block_store.
  - cbn. destruct dyn; [apply interpret_add_bitmap_quiet | done].
  - cbn [interpret_set_item]. transitivity (cf_add_dirty n cc); [apply quiet_add_dirty|].
    generalize (cf_add_dirty n cc) as c, 0%nat as k. clear cc. revert pars.
    induction Hitems as [|ci items Hci _ IH]; intros pars c k; [done|].
    destruct (interpret_set_item ci pars _ c) as [[msg taken] c'] eqn:E.
    assert (Hc : quiet c c') by (specialize (Hci pars (dyn && bool_decide (items = [])) c); by rewrite E in Hci).
    destruct msg; [done|]. destruct (drop taken pars); [done|]. etransitivity; [exact Hc | apply IH].
Qed.

(** A section is marked dirty before its items are set. *)
Lemma interpret_set_section_dirty n items pars dyn cc :
  n ∈ cc_dirty (interpret_set_item (CC_SECTION n items) pars dyn cc).2.
Proof.
  cbn [interpret_set_item]. generalize (proj2 (quiet_add_dirty n cc)).
  generalize (cf_add_dirty n cc) as c, 0%nat as k. clear cc. revert pars.
  induction items as [|ci items IH]; intros pars c k Hd; [done|].
  destruct (interpret_set_item ci pars _ c) as [[msg taken] c'] eqn:E.
  assert (Hc : n ∈ cc_dirty c').
  { pose proof (interpret_set_item_quiet ci pars (dyn && bool_decide (items = [])) c) as H.
    rewrite E in H. by apply (quiet_dirty _ _ H). }
  destruct msg; [done|]. destruct (drop taken pars); [done|]. by apply IH.
Qed.

Lemma interpret_set_all_quiet item op cc : quiet cc (interpret_set_all item op cc).2.
Proof.
  destruct item as [n []|n l|n items]; cbn [interpret_set_all]; try done; [|apply quiet_block_store].
  case_bool_decide; [apply quiet_block_store | done].
Qed.

Lemma interpret_add_quiet item pars op cc : quiet cc (interpret_add item pars op cc).2.
Proof. destruct item; try done. apply interpret_add_bitmap_quiet. Qed.

Lemma interpret_op_quiet item op pars cc : quiet cc (interpret_op item op pars cc).2.
Proof.
  pose proof (interpret_set_all_quiet item op cc) as Hall.
  pose proof (interpret_set_all_quiet item OP_CLEAR cc) as Hclear.
  destruct op; cbn [interpret_op]; try apply interpret_add_quiet; try apply interpret_set_item_quiet;
    try (destruct (interpret_set_all item _ cc) as [msg c]; done).
  destruct (interpret_set_all item OP_CLEAR cc) as [[e|] c]; [done|].
  etransitivity; [exact Hclear | apply interpret_add_quiet].
Qed.

(** An operation on a section changes no setting, or marks the section. *)
Lemma interpret_op_section n items op pars cc :
  let cc' := (interpret_op (CC_SECTION n items) op pars cc).2 in
  cc_store cc' = cc_store cc \/ n ∈ cc_dirty cc'.
Proof. destruct op; try (by left). right. apply interpret_set_section_dirty. Qed.

End interpreter.

(** ** Lines of the collector's configuration *)

Abbreviation dnscol := (bytes_of_string "dnscol").

(** The sections a stack refers to. *)
Definition own (sec : cf_section) : Prop :=
  match sec with
  | SecItems n items => n = dnscol /\ items = dns_config_items
  | _ => True
  end.

Definition is_section (i : cf_item) : bool := match i with CC_SECTION _ _ => true | _ => false end.

Lemma find_root name i : cf_find_subitem collector_sections name = Some i -> i = CC_SECTION dnscol dns_config_items.
Proof. unfold cf_find_subitem, collector_sections. intros [[<-|[]] _]%List.find_some. done. Qed.

Lemma find_setting name i : cf_find_subitem dns_config_items name = Some i -> is_section i = false.
Proof.
  unfold cf_find_subitem. intros [Hi _]%List.find_some.
  assert (H : forallb (fun i => negb (is_section i)) dns_config_items = true) by (vm_compute; reflexivity).
  rewrite forallb_forall in H. specialize (H i Hi). by destruct (is_section i).
Qed.

(** What a line changes. *)
Record line_ok (cc cc' : cf_context) : Prop := {
  line_undone : undone cc' = undone cc;
  line_committed : cc_everything_committed cc' = cc_everything_committed cc;
  line_postpone : cc_postpone_commit cc' = cc_postpone_commit cc;
  line_initialized : cc_sections_initialized cc' = cc_sections_initialized cc;
  line_dirty : cc_dirty cc ⊆ cc_dirty cc';
  line_store : cc_store cc' = cc_store cc \/ dnscol ∈ cc_dirty cc';
  line_stack : Forall own (cc_stack cc) -> Forall own (cc_stack cc');
}.

#[global] Instance line_ok_preorder : PreOrder line_ok.
Proof.
  split; [intros x; split; auto|]. intros x y z [] []. split; try congruence; [by transitivity (cc_dirty y)| |auto].
  destruct line_store1; [|by right]. destruct line_store0; [left; congruence | right; auto].
Qed.

Lemma quiet_line cc cc' : quiet cc cc' -> cc_store cc' = cc_store cc \/ dnscol ∈ cc_dirty cc' -> line_ok cc cc'.
Proof. intros [? Hs ? ? ? ? ?] Hst. split; try done. by rewrite Hs. Qed.

(** A stack of own sections in place of another. *)
Lemma line_ok_stack cc st : Forall own st -> line_ok cc (set_stack cc st).
Proof. intros H. split; cbn; auto. Qed.

Section interpreter.
Context `{SD : ScanDouble} `{LG : LoggingSection}.

(** What [find_item] finds: the collector's section, or one of its settings
    after the section was marked. *)
Definition found (item : option cf_item) (cc : cf_context) : Prop :=
  match item with
  | None => True
  | Some i => i = CC_SECTION dnscol dns_config_items \/
              is_section i = false /\ dnscol ∈ cc_dirty cc /\ i ∈ dns_config_items
  end.

Lemma enter_section_found sec cc : own sec ->
  let '(items, c) := enter_section collector_sections sec cc in
  quiet cc c /\ cc_store c = cc_store cc /\
  forall name i, cf_find_subitem items name = Some i -> found (Some i) c.
Proof.
  destruct sec as [|n items| |]; cbn [enter_section].
  - intros _. split; [done|]. split; [done|]. intros name i Hi. left. by eapply find_root.
  - intros [-> ->]. destruct (quiet_add_dirty dnscol cc) as [Hq Hd]. split; [done|].
    split; [unfold cf_add_dirty; repeat case_match; done|].
    intros name i Hi. right. split; [by eapply find_setting|]. split; [done|].
    unfold cf_find_subitem in Hi. apply List.find_some in Hi as [Hi _]. by apply list_elem_of_In.
  - intros _. split; [done|]. split; [done|]. intros name i Hi. left. by eapply find_root.
  - intros _. split; [done|]. split; [done|]. intros name i Hi. left. by eapply find_root.
Qed.

Lemma find_segments_found sec name more cc : own sec ->
  let '(_, item, cc') := find_segments collector_sections sec name more cc in
  quiet cc cc' /\ cc_store cc' = cc_store cc /\ found item cc'.
Proof.
  revert sec name cc. induction more as [|next more IH]; intros sec name cc Hown; cbn [find_segments];
    pose proof (enter_section_found sec cc Hown) as Hsec;
    destruct (enter_section collector_sections sec cc) as [items c]; destruct Hsec as (Hq & Hst & Hf);
    destruct (cf_find_subitem items name) as [i|] eqn:Ei; try done.
  - split; [done|]. split; [done|]. by eapply Hf.
  - destruct i as [| |n its]; try done.
    assert (Hown' : own (SecItems n its)) by (by destruct (Hf _ _ Ei) as [[= -> ->]|[? _]]).
    specialize (IH (SecItems n its) next c Hown'). destruct (find_segments _ _ next more c) as [[msg it] c'].
    destruct IH as (H1 & H2 & H3). split; [by transitivity c|]. split; [congruence | done].
Qed.

Lemma find_item_found sec name cc : own sec ->
  let '(_, item, cc') := find_item collector_sections sec name cc in
  quiet cc cc' /\ cc_store cc' = cc_store cc /\ found item cc'.
Proof.
  intros Hown. unfold find_item.
  destruct (match name with 94 :: r => (SecRoot, r) | _ => (sec, name) end) as [sec' name'] eqn:E.
  assert (Hown' : own sec') by (repeat case_match; injection E as <- <-; done).
  destruct sec'; [| |done|done]; destruct (split_dots name'); by apply find_segments_found.
Qed.

Lemma opening_brace_ok item op cc cc' : found item cc -> opening_brace item op cc = inr cc' -> line_ok cc cc'.
Proof.
  intros Hf. unfold opening_brace. case_match; [done|].
  assert (Hp : forall sec, own sec -> line_ok cc (set_stack cc (sec :: cc_stack cc))).
  { intros sec Hs. split; cbn; auto. }
  destruct item as [[| |n items]|]; try done; [|intros [= <-]; by apply Hp].
  case_bool_decide; [|done]. intros [= <-]. apply Hp. by destruct Hf as [[= -> ->]|[? _]].
Qed.

Lemma closing_brace_ok opens pars cc cc' : closing_brace opens pars cc = inr cc' -> line_ok cc cc'.
Proof.
  unfold closing_brace. destruct (cc_stack cc) as [|[|n items| |] st] eqn:E; try done;
    repeat case_match; try done; intros [= <-]; try done;
    (split; cbn; auto; rewrite E; by intros [_ ?]%Forall_cons).
Qed.

Lemma interpret_op_ok item op pars cc : found (Some item) cc -> line_ok cc (interpret_op item op pars cc).2.
Proof.
  pose proof (interpret_op_quiet item op pars cc) as Hq. intros [->|(_ & Hd & _)]; apply quiet_line; try done.
  - apply interpret_op_section.
  - right. by apply (quiet_dirty _ _ Hq).
Qed.

Lemma cf_interpret_line_ok name op opens pars cc : Forall own (cc_stack cc) ->
  line_ok cc (cf_interpret_line collector_sections name op opens pars cc).2.
Proof.
  intros Hst. unfold cf_interpret_line. case_bool_decide.
  { destruct (closing_brace opens pars cc) eqn:E; [done|]. by apply closing_brace_ok in E. }
  assert (Hown : own (match cc_stack cc with sec :: _ => sec | [] => SecRoot end))
    by (destruct Hst; done).
  pose proof (find_item_found _ name cc Hown) as H'.
  destruct (find_item _ _ name cc) as [[msg item] c]. destruct H' as (Hq & Hs & Hf).
  assert (Hl : line_ok cc c) by (apply quiet_line; auto).
  destruct msg; [done|]. destruct opens.
  { case_bool_decide; [|done]. cbn. destruct (opening_brace item op c) as [|c'] eqn:E; [done|].
    transitivity c; [done|]. by eapply opening_brace_ok. }
  destruct item as [item|]; [|exact Hl]. pose proof (interpret_op_ok item op pars c Hf) as Ho.
  destruct (interpret_op item op pars c) as [[[e|] taken] c']; [|destruct (taken <? length pars)%nat]; (transitivity c; [done | exact Ho]).
Qed.

(** A command for the section [Logging] changes only the stack. *)
Lemma logging_command_ok op opens cc : line_ok cc (ask_logging (logging_stack op opens cc)).
Proof.
  unfold logging_stack. split; try (by repeat (case_bool_decide || destruct opens)).
  - left. by repeat (case_bool_decide || destruct opens).
  - intros Hst. repeat (case_bool_decide || destruct opens); cbn; try done.
    + by destruct Hst.
    + by constructor.
Qed.

Lemma interpret_command_ok name op opens pars cc e cc' : Forall own (cc_stack cc) ->
  interpret_command collector_sections name op opens pars cc = Ok (e, cc') -> line_ok cc cc'.
Proof.
  intros Hst. unfold interpret_command. destruct (in_logging name op cc).
  - destruct (logging (cc_logging cc)); intros [= <- <-]; [apply logging_command_ok | by split; auto].
  - intros H. pose proof (cf_interpret_line_ok name op opens pars cc Hst) as Hl. injection H as H. by rewrite H in Hl.
Qed.

End interpreter.

(** ** Texts, commits, transactions *)

Section loader.
Context `{SD : ScanDouble} `{LG : LoggingSection}.
Context (bopen_try : list Z -> bool + list Z).

Lemma parse_commands_ok include fuel p cc err line cc' :
  (forall parse, include = Some parse -> forall text cc err line cc', Forall own (cc_stack cc) ->
     parse text cc = Ok (err, line, cc') -> line_ok cc cc') ->
  Forall own (cc_stack cc) ->
  parse_commands collector_sections bopen_try include fuel p cc = Ok (err, line, cc') -> line_ok cc cc'.
Proof.
  intros Hinc. revert p cc. induction fuel as [|fuel IH]; intros p cc Hst; cbn [parse_commands]; [done|].
  intros H. inv_ok. destruct a as [e|[[[|name pars] brace] q]]; [by inv_ok|by inv_ok|].
  destruct (strcaseeq name (bytes_of_string "optionalinclude") || _).
  - destruct pars as [|file [|]]; [by inv_ok| |by destruct include; inv_ok].
    destruct include as [parse|]; [|by inv_ok].
    destruct (negb (skipped_line (p_line q))); [by inv_ok|].
    destruct (bopen_try file) as [enoent|text].
    { destruct (strcaseeq name _ && enoent); [by eapply IH | by inv_ok]. }
    inv_ok. destruct a as [[e l] c]. apply (Hinc parse eq_refl) in H1; [|done].
    destruct e; [by inv_ok|]. transitivity c; [done|]. eapply IH; [|exact H]. by apply (line_stack _ _ H1).
  - destruct (parse_operation name) as [e|[n op]]; [by inv_ok|].
    inv_ok. destruct a as [e c]. apply interpret_command_ok in H1 as Hl; [|done].
    destruct e; [by inv_ok|]. transitivity c; [done|]. eapply IH; [|exact H]. by apply (line_stack _ _ Hl).
Qed.

Lemma parse_text_ok n text cc err line cc' : Forall own (cc_stack cc) ->
  parse_text collector_sections bopen_try n text cc = Ok (err, line, cc') -> line_ok cc cc'.
Proof.
  revert text cc err line cc'. induction n as [|n IH]; intros text cc err line cc'; cbn [parse_text];
    apply parse_commands_ok; [done|]. by intros ? [= <-].
Qed.

Lemma commit_collector all dirty s :
  commit_section (CC_SECTION [] collector_sections) all dirty s =
  (if all || bool_decide (dnscol ∈ dirty) then
     err ← commit_hook s; Ok (match err with Some _ => true | None => false end)
   else Ok false).
Proof.
  change (commit_section (CC_SECTION [] collector_sections) all dirty s) with
    (f ← (f ← (if all || bool_decide (dnscol ∈ dirty) then
                 err ← commit_hook s; Ok (match err with Some _ => true | None => false end)
               else Ok false);
          if (f : bool) then Ok true else Ok false);
     if (f : bool) then Ok true else Ok false).
  destruct (all || _); [|done]. by destruct (commit_hook s) as [[e|]|].
Qed.

(** A commit changes no setting. *)
Definition same_settings (cc cc' : cf_context) : Prop :=
  cc_store cc' = cc_store cc /\ cc_journal cc' = cc_journal cc /\ cc_postpone_commit cc' = cc_postpone_commit cc /\
  cc_sections_initialized cc' = cc_sections_initialized cc.

Lemma commit_logging_same cc r cc' : commit_logging cc = Ok (r, cc') ->
  same_settings cc cc' /\ cc_dirty cc' = cc_dirty cc /\ cc_everything_committed cc' = cc_everything_committed cc.
Proof. unfold commit_logging. destruct (cc_logging cc); [by intros [= <- <-]|]. by destruct (logging _); intros [= <- <-]. Qed.

Lemma maybe_commit_same cc failed cc' : maybe_commit collector_sections cc = Ok (failed, cc') -> same_settings cc cc'.
Proof.
  unfold maybe_commit. set (cm := if negb _ then _ else _). intros H. inv_ok. destruct a as [r c0].
  assert (Hc0 : same_settings cc c0) by (destruct cm; [by inv_ok|..]; by eapply commit_logging_same).
  destruct r; [by inv_ok|]. inv_ok. destruct a as [f c].
  assert (Hc : same_settings cc c).
  { unfold cf_commit_all in H1. destruct cm; [by inv_ok|..]; inv_ok; destruct a; by simplify_eq. }
  destruct f; [by inv_ok|]. destruct (cc_postpone_commit c =? 0); by inv_ok.
Qed.

(** A commit that succeeds has run the check, or nothing was changed. *)
Lemma maybe_commit_ok cc cc' : cc_postpone_commit cc = 0 ->
  maybe_commit collector_sections cc = Ok (false, cc') ->
  commit_hook (cc_store cc) = Ok None \/ dnscol ∉ cc_dirty cc.
Proof.
  intros Hp. unfold maybe_commit. rewrite Hp; cbn [negb Z.eqb].
  assert (Hlog : forall cm, cm <> CF_NO_COMMIT ->
    match cm with CF_NO_COMMIT => Ok (false, cc) | _ => commit_logging cc end = commit_logging cc) by (by intros []).
  rewrite Hlog by (by destruct (cc_everything_committed cc)). intros H. inv_ok. destruct a as [r c0].
  apply commit_logging_same in H0 as ((<- & _ & Hp0 & _) & <- & _). destruct r; [by inv_ok|]. inv_ok. destruct a as [f c].
  destruct f; [by inv_ok|]. unfold cf_commit_all in H0. rewrite commit_collector in H0.
  destruct (cc_everything_committed cc); cbn in H0.
  - case_bool_decide as Hd; [|right; by rewrite elem_of_remove_dups in Hd].
    left. by destruct (commit_hook (cc_store c0)) as [[e|]|].
  - left. by destruct (commit_hook (cc_store c0)) as [[e|]|].
Qed.

Lemma init_accepted : commit_hook init_store = Ok None.
Proof. vm_compute. reflexivity. Qed.

(** What a text does to the settings, undone and accepted. *)
Lemma parse_fastbuf_undone text cc err cc' : cc_journal cc = [] ->
  parse_fastbuf collector_sections bopen_try text cc = Ok (err, cc') ->
  undone cc' = cc_store (cf_init_stack cc) /\ cc_postpone_commit cc' = cc_postpone_commit cc /\
  cc_sections_initialized cc' = true.
Proof.
  intros Hj. unfold parse_fastbuf. intros H. inv_ok. destruct a as [[e l] c].
  assert (Hl : line_ok (cf_init_stack cc) c)
    by (eapply parse_text_ok; [|exact H0]; by repeat constructor).
  assert (Hi : undone (cf_init_stack cc) = cc_store (cf_init_stack cc) /\
               cc_postpone_commit (cf_init_stack cc) = cc_postpone_commit cc /\
               cc_sections_initialized (cf_init_stack cc) = true).
  { unfold undone, cf_init_stack. destruct (cc_sections_initialized cc) eqn:Ei; cbn; by rewrite Hj. }
  destruct Hi as (Hu & Hp & Hin). destruct Hl.
  assert (Hc : undone c = cc_store (cf_init_stack cc) /\ cc_postpone_commit c = cc_postpone_commit cc /\
               cc_sections_initialized c = true) by (split_and!; congruence).
  destruct e; [by inv_ok|]. destruct (cf_done_stack c); [by inv_ok|]. inv_ok. destruct a as [f c2].
  apply maybe_commit_same in H1 as (Hs & Hj2 & Hp2 & Hi2). inv_ok.
  unfold undone. rewrite Hs, Hj2, Hp2, Hi2. exact Hc.
Qed.

(** The settings at rest: accepted by the check once they are initialized. *)
Record rest_ok (cc : cf_context) : Prop := {
  rest_postpone : cc_postpone_commit cc = 0;
  rest_accepted : cc_sections_initialized cc = true -> commit_hook (cc_store cc) = Ok None;
}.

Lemma init_stack_accepted cc : rest_ok cc -> commit_hook (cc_store (cf_init_stack cc)) = Ok None.
Proof.
  intros [_ Ha]. unfold cf_init_stack. destruct (cc_sections_initialized cc); [by apply Ha | apply init_accepted].
Qed.

Lemma parse_fastbuf_accepted text cc cc' : rest_ok cc ->
  parse_fastbuf collector_sections bopen_try text cc = Ok (None, cc') -> commit_hook (cc_store cc') = Ok None.
Proof.
  intros Hr. unfold parse_fastbuf. intros H. inv_ok. destruct a as [[e l] c].
  assert (Hl : line_ok (cf_init_stack cc) c)
    by (eapply parse_text_ok; [|exact H0]; by repeat constructor).
  destruct e; [by inv_ok|]. destruct (cf_done_stack c); [by inv_ok|]. inv_ok. destruct a as [[] c2]; simplify_eq.
  pose proof (maybe_commit_same _ _ _ H1) as (-> & _).
  apply maybe_commit_ok in H1 as [H1|H1]; [done| |].
  - destruct (line_store _ _ Hl) as [->|Hd]; [by apply init_stack_accepted | done].
  - rewrite (line_postpone _ _ Hl). destruct Hr as [Hp _]. unfold cf_init_stack. by destruct (cc_sections_initialized cc).
Qed.

(** A transaction of such loads: undone when it fails, accepted otherwise. *)
Lemma transaction_ok load cc err cc' :
  (forall c e c', cc_journal c = [] -> load c = Ok (e, c') ->
     (undone c' = cc_store (cf_init_stack c) /\ cc_sections_initialized c' = true \/ c' = c /\ e <> None) /\
     cc_postpone_commit c' = cc_postpone_commit c) ->
  transaction load cc = Ok (err, cc') ->
  (err <> None -> cc_journal cc' = cc_journal cc /\
     (cc_store cc' = cc_store (cf_init_stack cc) \/
      cc_store cc' = cc_store cc /\ cc_sections_initialized cc' = cc_sections_initialized cc)) /\
  (err = None -> cc_sections_initialized cc' = true) /\ cc_postpone_commit cc' = cc_postpone_commit cc.
Proof.
  intros Hload. unfold transaction. intros H. inv_ok. destruct a as [e c].
  apply Hload in H0 as [Hc Hp]; [|done].
  assert (Hini : cc_store (cf_init_stack (cf_journal_new_transaction cc)) = cc_store (cf_init_stack cc))
    by (unfold cf_init_stack; cbn; by destruct (cc_sections_initialized cc)).
  assert (Hroll : forall j, cc_sections_initialized (cf_journal_rollback_transaction j c) = cc_sections_initialized c /\
                       cc_postpone_commit (cf_journal_rollback_transaction j c) = cc_postpone_commit c).
  { intros j. unfold cf_journal_rollback_transaction, cf_journal_swap. by destruct (swap_loop _ _ _). }
  destruct e; inv_ok; split_and!; try done.
  - intros _. split; [done|]. rewrite rollback_store. destruct Hc as [[-> Hi]|[-> _]]; [left; by rewrite Hini|].
    right. split; [done|]. apply Hroll.
  - by rewrite (proj2 (Hroll _)).
  - intros _. cbn. by destruct Hc as [[_ Hi]|[_ ?]].
Qed.

Lemma load_string_frame string c e c' : cc_journal c = [] ->
  load_string collector_sections bopen_try string c = Ok (e, c') ->
  (undone c' = cc_store (cf_init_stack c) /\ cc_sections_initialized c' = true \/ c' = c /\ e <> None) /\
  cc_postpone_commit c' = cc_postpone_commit c.
Proof. intros Hj H. apply parse_fastbuf_undone in H as (? & ? & ?); [|done]. auto. Qed.

Lemma load_file_frame file c e c' : cc_journal c = [] ->
  load_file collector_sections bopen_try file c = Ok (e, c') ->
  (undone c' = cc_store (cf_init_stack c) /\ cc_sections_initialized c' = true \/ c' = c /\ e <> None) /\
  cc_postpone_commit c' = cc_postpone_commit c.
Proof.
  intros Hj. unfold load_file. destruct (bopen_try file); [intros H; inv_ok; auto|].
  intros H. apply parse_fastbuf_undone in H as (? & ? & ?); [|done]. auto.
Qed.

(** A transaction keeps the settings at rest accepted. *)
Lemma transaction_rest load cc err cc' :
  (forall c e c', cc_journal c = [] -> load c = Ok (e, c') ->
     (undone c' = cc_store (cf_init_stack c) /\ cc_sections_initialized c' = true \/ c' = c /\ e <> None) /\
     cc_postpone_commit c' = cc_postpone_commit c) ->
  (forall c c', rest_ok c -> load c = Ok (None, c') -> commit_hook (cc_store c') = Ok None) ->
  rest_ok cc -> transaction load cc = Ok (err, cc') -> rest_ok cc'.
Proof.
  intros Hf Ha Hr H. pose proof (transaction_ok _ _ _ _ Hf H) as (He & _ & Hp). destruct Hr as [Hp0 Hr0].
  split; [congruence|]. intros Hi. destruct err as [e|].
  - destruct (He ltac:(done)) as [_ [->|[-> Hs]]]; [by apply init_stack_accepted|].
    apply Hr0. congruence.
  - unfold transaction in H. inv_ok. destruct a as [[e|] c]; simplify_eq. cbn. by eapply Ha; [|exact H0].
Qed.

Lemma cf_set_rest string cc err cc' : rest_ok cc ->
  cf_set collector_sections bopen_try string cc = Ok (err, cc') -> rest_ok cc'.
Proof. apply transaction_rest; [apply load_string_frame | intros; by eapply parse_fastbuf_accepted]. Qed.

Lemma cf_load_rest file cc err cc' : rest_ok cc ->
  cf_load collector_sections bopen_try file cc = Ok (err, cc') -> rest_ok cc'.
Proof.
  intros Hr. unfold cf_load. intros H. inv_ok. destruct a as [e c]. inv_ok.
  assert (Hc : rest_ok c).
  { eapply transaction_rest; [apply load_file_frame| |exact Hr|exact H0]. intros c1 c2 Hr1. unfold load_file.
    destruct (bopen_try file); [done|]. by apply parse_fastbuf_accepted. }
  destruct Hc. by destruct err.
Qed.

End loader.

Lemma cf_load_default_rest cc : rest_ok cc -> rest_ok (cf_load_default cc).
Proof.
  intros Hr. unfold cf_load_default. destruct (cc_config_loaded cc); [done|].
  destruct Hr as [Hp Hr]. unfold cf_init_stack. cbn. destruct (cc_sections_initialized cc) eqn:E; cbn; split; cbn; auto using init_accepted.
Qed.

(** ** Properties *)

(** The settings a load starts from: those in memory, or the defaults when it
    is the first one. *)
Definition settings_before (cc : cf_context) : store :=
  if cc_sections_initialized cc then cc_store cc else init_store.

(** C26: a load that fails, for whatever reason (a syntax error, an unknown
    item, a value out of range, a failing commit, an error in the section of
    the logs, in any included file), leaves the journal of earlier transactions
    as it was, and every setting of the collector with the value it had before.
    When nothing was loaded before, these are the defaults, or, if the file
    cannot be opened, the memory is not touched at all.  The streams of the
    section of the logs are not covered. *)
Theorem failed_load_undone `{SD : ScanDouble} `{LG : LoggingSection} bopen_try text file cc e cc' :
  cf_set collector_sections bopen_try text cc = Ok (Some e, cc') \/
  cf_load collector_sections bopen_try file cc = Ok (Some e, cc') ->
  cc_journal cc' = cc_journal cc /\
  (cc_store cc' = settings_before cc \/
   cc_store cc' = cc_store cc /\ cc_sections_initialized cc' = cc_sections_initialized cc).
Proof.
  assert (Hini : cc_store (cf_init_stack cc) = settings_before cc)
    by (unfold cf_init_stack, settings_before; by destruct (cc_sections_initialized cc)).
  rewrite <- Hini. intros [H|H].
  - eapply (transaction_ok (load_string collector_sections bopen_try text) cc (Some e) cc') in H as [H _];
      [by apply H | apply load_string_frame].
  - unfold cf_load in H. inv_ok. destruct a as [e' c]. inv_ok.
    eapply (transaction_ok (load_file collector_sections bopen_try file) cc (Some e) cc') in H0 as [H0 _];
      [by apply H0 | apply load_file_frame].
Qed.

(** A text whose commit overwrites nothing and finds no separator: the check
    of the separator's length dereferences NULL. *)
Definition no_separator `{ScanDouble} `{LoggingSection} (bopen_try : list Z -> bool + list Z) (text : list Z) (cc : cf_context) : Prop :=
  exists line cc1, parse_text collector_sections bopen_try 9 text (cf_init_stack (cf_journal_new_transaction cc)) =
                   Ok (None, line, cc1) /\ get_string (cc_store cc1) "csv_separator" = None.

Lemma commit_hook_fails s e : commit_hook s = Fail e -> e = UndefinedBehaviour /\ get_string s "csv_separator" = None.
Proof.
  unfold commit_hook. destruct (dns_collector_conf_commit (config_of s)) as [[]|]; try done.
  destruct (get_string s "csv_separator"); [done|]. by intros [= <-].
Qed.

Lemma commit_logging_stops `{LG : LoggingSection} cc :
  (exists r cc', commit_logging cc = Ok (r, cc')) \/ logging_crashes /\ commit_logging cc = Fail UndefinedBehaviour.
Proof.
  unfold commit_logging, logging_crashes. destruct (cc_logging cc) as [|n]; [by left; eexists _, _|].
  destruct (logging (S n)) eqn:E; [by left; eexists _, _..|]. right. split; [by eexists | done].
Qed.

Lemma maybe_commit_fails `{LG : LoggingSection} cc e : maybe_commit collector_sections cc = Fail e ->
  e = UndefinedBehaviour /\ (logging_crashes \/ get_string (cc_store cc) "csv_separator" = None).
Proof.
  unfold maybe_commit. set (cm := if negb _ then _ else _). intros H.
  assert (Hc : (exists r c, match cm with CF_NO_COMMIT => Ok (false, cc) | _ => commit_logging cc end = Ok (r, c) /\
                  cc_store c = cc_store cc) \/
               logging_crashes /\ match cm with CF_NO_COMMIT => Ok (false, cc) | _ => commit_logging cc end = Fail UndefinedBehaviour).
  { destruct cm; [left; by exists false, cc|..]; (destruct (commit_logging_stops cc) as [(r & c & E)|]; [|by right]; left;
      exists r, c; split; [done|]; by apply commit_logging_same in E as ((-> & _) & _)). }
  destruct Hc as [(r & c & E & <-)|[Hl E]]; rewrite E in H; [|injection H as <-; auto]. cbn in H. destruct r; [done|].
  assert (e = UndefinedBehaviour /\ get_string (cc_store c) "csv_separator" = None) as [-> ?]; [|auto].
  apply commit_hook_fails. unfold cf_commit_all in H. rewrite !commit_collector in H.
  destruct cm; [done|..]; cbn in H; [destruct (bool_decide _); [|done]|];
    destruct (commit_hook (cc_store c)) as [[]|]; cbn in H; try done; by injection H as ->.
Qed.

Lemma parse_fastbuf_stops `{SD : ScanDouble} `{LG : LoggingSection} bopen_try text cc :
  (exists err cc', parse_fastbuf collector_sections bopen_try text (cf_journal_new_transaction cc) = Ok (err, cc')) \/
  (logging_crashes \/ no_separator bopen_try text cc) /\
  parse_fastbuf collector_sections bopen_try text (cf_journal_new_transaction cc) = Fail UndefinedBehaviour.
Proof.
  unfold parse_fastbuf.
  destruct (parse_text_stops collector_sections bopen_try 9 text (cf_init_stack (cf_journal_new_transaction cc)))
    as [(err & line & c & E & _)|[Hl E]]; rewrite E; [|right; auto]. rewrite bind_Ok.
  destruct err; [by left; eexists _, _|]. destruct (cf_done_stack c); [by left; eexists _, _|].
  destruct (maybe_commit collector_sections c) as [[f c']|e] eqn:Em; [by left; eexists _, _|]. right.
  apply maybe_commit_fails in Em as [-> [Hl|Hs]]; split; auto. right. by exists line, c.
Qed.

Lemma transaction_stops load cc :
  (exists err cc', load (cf_journal_new_transaction cc) = Ok (err, cc')) ->
  exists err cc', transaction load cc = Ok (err, cc').
Proof. intros ([e|] & c & H); unfold transaction; rewrite H; by eexists _, _. Qed.

Lemma cf_load_stops `{SD : ScanDouble} `{LG : LoggingSection} bopen_try file cc :
  (exists err cc', cf_load collector_sections bopen_try file cc = Ok (err, cc')) \/
  (logging_crashes \/ exists text, bopen_try file = inr text /\ no_separator bopen_try text cc) /\
  cf_load collector_sections bopen_try file cc = Fail UndefinedBehaviour.
Proof.
  unfold cf_load.
  assert (Hl : (exists err cc', transaction (load_file collector_sections bopen_try file) cc = Ok (err, cc')) \/
               (logging_crashes \/ exists text, bopen_try file = inr text /\ no_separator bopen_try text cc) /\
               transaction (load_file collector_sections bopen_try file) cc = Fail UndefinedBehaviour).
  { destruct (bopen_try file) as [b|text] eqn:E; [left|].
    - apply transaction_stops. unfold load_file. rewrite E. by eexists _, _.
    - destruct (parse_fastbuf_stops bopen_try text cc) as [H|[Hn H]].
      + left. apply transaction_stops. unfold load_file. by rewrite E.
      + right. split; [destruct Hn; [by left | right; by exists text]|]. unfold transaction, load_file. by rewrite E, H. }
  destruct Hl as [(err & c & ->)|[Hn ->]]; [left; by eexists _, _ | by right].
Qed.

Lemma cf_set_stops `{SD : ScanDouble} `{LG : LoggingSection} bopen_try string cc :
  (exists err cc', cf_set collector_sections bopen_try string cc = Ok (err, cc')) \/
  (logging_crashes \/ no_separator bopen_try (until_nul string) cc) /\
  cf_set collector_sections bopen_try string cc = Fail UndefinedBehaviour.
Proof.
  destruct (parse_fastbuf_stops bopen_try (until_nul string) cc) as [H|[Hn H]].
  - left. by apply transaction_stops.
  - right. split; [done|]. unfold cf_set, transaction, load_string. by rewrite H.
Qed.


(** The contexts the collector can be in between its calls of the reader. *)
Inductive reachable `{ScanDouble} `{LoggingSection} : cf_context -> Prop :=
| reach_new s : reachable (new_context s)
| reach_default cc : reachable cc -> reachable (cf_load_default cc)
| reach_load bopen_try file cc err cc' :
    reachable cc -> cf_load collector_sections bopen_try file cc = Ok (err, cc') -> reachable cc'
| reach_set bopen_try string cc err cc' :
    reachable cc -> cf_set collector_sections bopen_try string cc = Ok (err, cc') -> reachable cc'.

Lemma rest_ok_accepted cc : rest_ok cc -> cc_sections_initialized cc = true ->
  dns_collector_conf_commit (config_of (cc_store cc)) = None.
Proof.
  intros [_ Ha] Hi. specialize (Ha Hi). unfold commit_hook in Ha.
  destruct (dns_collector_conf_commit (config_of (cc_store cc))) as [[]|]; try done. by case_match.
Qed.

(** C27: in every context reached by loading files and strings, successfully
    or not, the settings pass the collector's check as soon as they are
    initialized. *)
Theorem reachable_accepted `{SD : ScanDouble} `{LG : LoggingSection} cc :
  reachable cc -> cc_sections_initialized cc = true ->
  dns_collector_conf_commit (config_of (cc_store cc)) = None.
Proof.
  intros Hr. apply rest_ok_accepted.
  induction Hr; [by split|by apply cf_load_default_rest|by eapply cf_load_rest|by eapply cf_set_rest].
Qed.

(** ** Witnesses *)

(** A queue of no frames is refused, after a legal setting. *)
Definition refused_text : list Z := bytes_of_string "dnscol { report_period 10m; max_queue_len 0 }".

Lemma failed_load_undone_witness :
  let SD : ScanDouble := fun _ => None in let LG : LoggingSection := fun _ => LogAccepts in
  let cc := cf_load_default (new_context ∅) in
  exists e cc', cf_set collector_sections (fun _ => inl true) refused_text cc = Ok (Some e, cc') /\
    config_of (cc_store cc') = config_of (cc_store cc).
Proof.
  intros SD LG cc.
  assert (H : match cf_set collector_sections (fun _ => inl true) refused_text cc with
              | Ok (Some _, _) => true | _ => false end = true) by (vm_compute; reflexivity).
  destruct (cf_set collector_sections (fun _ => inl true) refused_text cc) as [[[e|] cc']|] eqn:E; try discriminate H.
  exists e, cc'. split; [reflexivity|].
  destruct (failed_load_undone (fun _ => inl true) refused_text [] cc e cc') as [_ [H'|[H' _]]];
    [left; exact E | rewrite H'; reflexivity | rewrite H'; reflexivity].
Defined.

(** A file that includes another. *)
Definition two_files (name : list Z) : bool + list Z :=
  inr (bytes_of_string (if bool_decide (name = [97]) then "dnscol.csv_separator=';'; include b"
                        else "dnscol { output_type:set cbor }")).

Lemma reachable_accepted_witness :
  let SD : ScanDouble := fun _ => None in let LG : LoggingSection := fun _ => LogAccepts in
  exists cc, cf_load collector_sections two_files [97] (new_context ∅) = Ok (None, cc) /\
    output_type (config_of (cc_store cc)) = DNS_OUTPUT_TYPE_CBOR /\
    dns_collector_conf_commit (config_of (cc_store cc)) = None.
Proof.
  intros SD LG.
  assert (H : match cf_load collector_sections two_files [97] (new_context ∅) with
              | Ok (None, cc) => cc_sections_initialized cc && (output_type (config_of (cc_store cc)) =? DNS_OUTPUT_TYPE_CBOR)
              | _ => false end = true) by (vm_compute; reflexivity).
  destruct (cf_load collector_sections two_files [97] (new_context ∅)) as [[[e|] cc]|] eqn:E; try discriminate H.
  apply andb_prop in H as [Hi Ho%Z.eqb_eq]. exists cc. split; [reflexivity|]. split; [exact Ho|].
  apply (reachable_accepted cc); [|exact Hi]. eapply reach_load; [|exact E]. apply reach_new.
Defined.
