(* ===== verification/Input.v ===== *)
(** * Packet input ([src/input.h], [src/input.c])

    The input reads captured packets, groups them into frames of bounded
    duration and size, and hands the frames over.  The answers of libtrace
    and of the system are arguments: [open_env] for opening a trace, the list
    of [turn]s for the event loop, and the two streams [clock] (the values of
    successive calls of [dns_current_us_time]) and [trace_dropped] (of
    [trace_get_dropped_packets]).  Log messages are not modelled; the
    arithmetic in their arguments is. *)

From stdpp Require Import base numbers strings gmap list.
From S2P Require Import Prelude Doubles Common Libs Packet PacketFrame Config TimeFmt Dump.

Section input.
Context `{K : Libknot} `{L : Libc} `{T : Libtrace}.
Context (clock : nat -> Z) (trace_dropped : nat -> Z).

Abbreviation mem := (gmap loc dns_packet).

(** The members of [struct dns_input] that count packets and bytes. *)
Record input_stats : Set := {
  total_packets_dropped : Z;
  total_packets_read : Z;
  total_bytes_read : Z;
  current_packets_dropped : Z;
  current_packets_read : Z;
  current_bytes_read : Z;
}.

(** [struct dns_input], with the heap of packets, the frames handed over so
    far and the number of times the clock was read.  [bpf_filter], [trace]
    and [packet] are libtrace objects: present or NULL. *)
Record dns_input : Type := {
  i_uri : list Z;
  i_snaplen : Z;
  i_promisc : Z;
  i_bpf_string : list Z;
  i_online : bool;
  i_frame_max_duration : Z;
  i_frame_max_size : Z;
  i_real_time_grace : Z;
  i_report_period_sec : Z;
  i_last_report_time : Z;
  i_stats : input_stats;
  i_bpf_filter : bool;
  i_trace : bool;
  i_packet : bool;
  i_frame : option dns_packet_frame;
  i_output : list dns_packet_frame;
  i_dumper : option dns_dump;
  i_mem : mem;
  i_ticks : nat;
}.

(** [dns_input_create]. *)
Definition dns_input_create (conf : dns_config) : outcome dns_input :=
  fmd ← dns_fsec_to_us_time (max_frame_duration_sec conf);
  grace ← dns_fsec_to_us_time (input_real_time_grace_sec conf);
  dumper ← match dump_path_fmt conf with
           | [] => Ok None
           | _ => d ← dns_dump_create conf; Ok (Some d)
           end;
  Ok {| i_uri := input_uri conf; i_snaplen := input_snaplen conf;
        i_promisc := input_promiscuous conf; i_bpf_string := input_filter conf;
        i_online := false; i_frame_max_duration := fmd; i_frame_max_size := max_frame_size conf;
        i_real_time_grace := grace; i_report_period_sec := report_period_sec conf;
        i_last_report_time := DNS_NO_TIME;
        i_stats := {| total_packets_dropped := 0; total_packets_read := 0; total_bytes_read := 0;
                      current_packets_dropped := 0; current_packets_read := 0;
                      current_bytes_read := 0 |};
        i_bpf_filter := false; i_trace := false; i_packet := false;
        i_frame := Some (dns_packet_frame_create DNS_NO_TIME DNS_NO_TIME);
        i_output := []; i_dumper := dumper; i_mem := ∅; i_ticks := O |}.

(** Assignments to groups of members. *)
Definition set_frames (i : dns_input) (f : option dns_packet_frame) (out : list dns_packet_frame)
    (m : mem) : dns_input :=
  {| i_uri := i_uri i; i_snaplen := i_snaplen i; i_promisc := i_promisc i;
     i_bpf_string := i_bpf_string i; i_online := i_online i;
     i_frame_max_duration := i_frame_max_duration i; i_frame_max_size := i_frame_max_size i;
     i_real_time_grace := i_real_time_grace i; i_report_period_sec := i_report_period_sec i;
     i_last_report_time := i_last_report_time i; i_stats := i_stats i;
     i_bpf_filter := i_bpf_filter i; i_trace := i_trace i; i_packet := i_packet i;
     i_frame := f; i_output := out; i_dumper := i_dumper i; i_mem := m; i_ticks := i_ticks i |}.

Definition set_report (i : dns_input) (last : Z) (st : input_stats) (ticks : nat) : dns_input :=
  {| i_uri := i_uri i; i_snaplen := i_snaplen i; i_promisc := i_promisc i;
     i_bpf_string := i_bpf_string i; i_online := i_online i;
     i_frame_max_duration := i_frame_max_duration i; i_frame_max_size := i_frame_max_size i;
     i_real_time_grace := i_real_time_grace i; i_report_period_sec := i_report_period_sec i;
     i_last_report_time := last; i_stats := st;
     i_bpf_filter := i_bpf_filter i; i_trace := i_trace i; i_packet := i_packet i;
     i_frame := i_frame i; i_output := i_output i; i_dumper := i_dumper i; i_mem := i_mem i;
     i_ticks := ticks |}.

Definition set_trace (i : dns_input) (filter trace packet : bool) : dns_input :=
  {| i_uri := i_uri i; i_snaplen := i_snaplen i; i_promisc := i_promisc i;
     i_bpf_string := i_bpf_string i; i_online := i_online i;
     i_frame_max_duration := i_frame_max_duration i; i_frame_max_size := i_frame_max_size i;
     i_real_time_grace := i_real_time_grace i; i_report_period_sec := i_report_period_sec i;
     i_last_report_time := i_last_report_time i; i_stats := i_stats i;
     i_bpf_filter := filter; i_trace := trace; i_packet := packet;
     i_frame := i_frame i; i_output := i_output i; i_dumper := i_dumper i; i_mem := i_mem i;
     i_ticks := i_ticks i |}.

Definition set_dumper (i : dns_input) (d : option dns_dump) : dns_input :=
  {| i_uri := i_uri i; i_snaplen := i_snaplen i; i_promisc := i_promisc i;
     i_bpf_string := i_bpf_string i; i_online := i_online i;
     i_frame_max_duration := i_frame_max_duration i; i_frame_max_size := i_frame_max_size i;
     i_real_time_grace := i_real_time_grace i; i_report_period_sec := i_report_period_sec i;
     i_last_report_time := i_last_report_time i; i_stats := i_stats i;
     i_bpf_filter := i_bpf_filter i; i_trace := i_trace i; i_packet := i_packet i;
     i_frame := i_frame i; i_output := i_output i; i_dumper := d; i_mem := i_mem i;
     i_ticks := i_ticks i |}.

Definition set_source (i : dns_input) (uri : list Z) (online : bool) : dns_input :=
  {| i_uri := uri; i_snaplen := i_snaplen i; i_promisc := i_promisc i;
     i_bpf_string := i_bpf_string i; i_online := online;
     i_frame_max_duration := i_frame_max_duration i; i_frame_max_size := i_frame_max_size i;
     i_real_time_grace := i_real_time_grace i; i_report_period_sec := i_report_period_sec i;
     i_last_report_time := i_last_report_time i; i_stats := i_stats i;
     i_bpf_filter := i_bpf_filter i; i_trace := i_trace i; i_packet := i_packet i;
     i_frame := i_frame i; i_output := i_output i; i_dumper := i_dumper i; i_mem := i_mem i;
     i_ticks := i_ticks i |}.

(** [dns_current_us_time]. *)
Definition dns_current_us_time (i : dns_input) : Z * dns_input :=
  (clock (i_ticks i), set_report i (i_last_report_time i) (i_stats i) (S (i_ticks i))).

(** The three [DOSTAT] lines and the resets of [dns_input_report]. *)
Definition report_stats (st : input_stats) (dropped : Z) : input_stats :=
  {| total_packets_dropped := u64 (total_packets_dropped st + dropped);
     total_packets_read := u64 (total_packets_read st + current_packets_read st);
     total_bytes_read := u64 (total_bytes_read st + current_bytes_read st);
     current_packets_dropped := 0; current_packets_read := 0; current_bytes_read := 0 |}.

Definition UINT64_MAX : Z := 2 ^ 64 - 1.

(** [dns_input_report]. *)
Definition dns_input_report (i : dns_input) (force : bool) : outcome dns_input :=
  let '(now, i) := dns_current_us_time i in
  due ← (if force then Ok true
         else dns_next_rotation now (i_report_period_sec i) (i_last_report_time i) now);
  if negb (due : bool) then Ok i
  else
    let dropped := if i_trace i
                   then if trace_dropped (i_ticks i) =? UINT64_MAX then 0 else trace_dropped (i_ticks i)
                   else current_packets_dropped (i_stats i) in
    _ ← (if i_last_report_time i =? DNS_NO_TIME then Ok (Double.of_Z 0)
         else d ← i64 (now - i_last_report_time i); dns_us_time_to_fsec d);
    _ ← match i_frame i with
        | Some f => if i_online i
                    then d ← i64 (now - time_end f); _ ← dns_us_time_to_fsec d;
                         g ← i64 (i_real_time_grace i + i_frame_max_duration i); dns_us_time_to_fsec g
                    else Ok (Double.of_Z 0)
        | None => Ok (Double.of_Z 0)
        end;
    Ok (set_report i now (report_stats (i_stats i) dropped) (i_ticks i)).

(** [dns_input_output_frame]. *)
Definition dns_input_output_frame (i : dns_input) : outcome dns_input :=
  _ ← c_assert (bool_decide (is_Some (i_frame i)));
  i ← dns_input_report i false;
  f ← deref (i_frame i);
  Ok (set_frames i (Some (dns_packet_frame_create (time_end f) (time_end f)))
        (i_output i ++ [f]) (i_mem i)).

(** [input->frame->time_start = start; input->frame->time_end = fin]. *)
Definition set_times (f : dns_packet_frame) (start fin : Z) : dns_packet_frame :=
  {| time_start := start; time_end := fin; frame_type := frame_type f; packets := packets f;
     frame_count := frame_count f; frame_size := frame_size f |}.

Definition set_frame (i : dns_input) (f : dns_packet_frame) : dns_input :=
  set_frames i (Some f) (i_output i) (i_mem i).

(** The [while] loop of [dns_input_advance_time_to]. *)
Fixpoint input_advance_loop (fuel : nat) (i : dns_input) (time : Z) : outcome dns_input :=
  f ← deref (i_frame i);
  limit ← i64 (time_start f + i_frame_max_duration i);
  if time >=? limit then
    match fuel with
    | O => Fail OutOfFuel
    | S fuel =>
        _ ← c_assert (time_end f <=? limit);
        i ← dns_input_output_frame (set_frame i (set_time_end f limit));
        input_advance_loop fuel i time
    end
  else Ok i.

(** The number of frames that may end before [time]. *)
Definition input_advance_fuel (i : dns_input) (time : Z) : nat :=
  match i_frame i with
  | Some f => S (Z.to_nat ((time - time_start f) / i_frame_max_duration i))
  | None => O
  end.

(** [dns_input_advance_time_to]. *)
Definition dns_input_advance_time_to (i : dns_input) (time : Z) : outcome dns_input :=
  f ← deref (i_frame i);
  let i := if time_start f =? DNS_NO_TIME then set_frame i (set_times f time time) else i in
  f ← deref (i_frame i);
  _ ← i64 (time_start f - 1000);
  i ← input_advance_loop (input_advance_fuel i time) i time;
  f ← deref (i_frame i);
  Ok (set_frame i (set_time_end f (MAX (time_end f) time))).

(** [dns_input_finish]. *)
Definition dns_input_finish (i : dns_input) : outcome dns_input :=
  _ ← c_assert (bool_decide (is_Some (i_frame i)));
  i ← dns_input_output_frame i;
  f ← deref (i_frame i);
  let final := {| time_start := time_start f; time_end := time_end f; frame_type := 1;
                  packets := packets f; frame_count := frame_count f; frame_size := frame_size f |} in
  let i := set_frames i None (i_output i ++ [final]) (i_mem i) in
  match i_dumper i with
  | None => Ok i
  | Some d => d ← dns_dump_close d; Ok (set_dumper i (Some d))
  end.

(** [dns_input_destroy]; the structure is freed. *)
Definition dns_input_destroy (i : dns_input) : outcome unit :=
  _ ← c_assert (negb (i_trace i) && negb (i_packet i) && negb (bool_decide (is_Some (i_frame i))));
  match i_dumper i with
  | None => Ok ()
  | Some d => dns_dump_destroy d
  end.

(** [dns_input_trace_close]. *)
Definition dns_input_trace_close (i : dns_input) : outcome dns_input :=
  _ ← c_assert (i_trace i && i_packet i && bool_decide (is_Some (i_frame i)));
  Ok (set_trace i false false false).

(** What libtrace answers while a trace is opened: whether creating it set an
    error, the results of configuring the snapshot length, promiscuous mode
    and the filter and of starting it, and whether a packet was allocated. *)
Record open_env : Set := {
  oe_trace_err : bool;
  oe_snaplen : Z;
  oe_promisc : Z;
  oe_filter : Z;
  oe_start : Z;
  oe_packet_ok : bool;
}.

(** [dns_input_trace_open]. *)
Definition dns_input_trace_open (env : open_env) (i : dns_input) : outcome (dns_ret * dns_input) :=
  _ ← c_assert (negb (i_trace i) && negb (i_packet i));
  let i := set_trace i (i_bpf_filter i) true (i_packet i) in
  if oe_trace_err env then Ok (DNS_RET_ERR, set_trace i (i_bpf_filter i) false (i_packet i))
  else
    i ← (if i_online i then let '(now, i) := dns_current_us_time i in dns_input_advance_time_to i now
         else Ok i);
    let r := if i_snaplen i >? 0 then oe_snaplen env else 0 in
    let r := if (r =? 0) && negb (i_promisc i =? 0) && i_online i then oe_promisc env else r in
    if r <? 0 then Ok (DNS_RET_ERR, set_trace i (i_bpf_filter i) false (i_packet i))
    else
      _ ← c_assert (negb (i_bpf_filter i));
      let i := set_trace i true (i_trace i) (i_packet i) in
      if oe_filter env <? 0 then Ok (DNS_RET_ERR, set_trace i (i_bpf_filter i) false (i_packet i))
      else if oe_start env <? 0 then Ok (DNS_RET_ERR, set_trace i false false (i_packet i))
      else if negb (oe_packet_ok env) then Fail (Died "FATAL: libtrace packet allocation error!"%string)
      else Ok (DNS_RET_OK, set_trace i (i_bpf_filter i) (i_trace i) true).

(** [dns_input_process_read_packet], for the captured packet [tp]. *)
Definition count_packet (i : dns_input) (tp : libtrace_packet_t) : dns_input :=
  let st := i_stats i in
  set_report i (i_last_report_time i)
    {| total_packets_dropped := total_packets_dropped st;
       total_packets_read := total_packets_read st; total_bytes_read := total_bytes_read st;
       current_packets_dropped := current_packets_dropped st;
       current_packets_read := u64 (current_packets_read st + 1);
       current_bytes_read := u64 (current_bytes_read st + trace_get_wire_length tp) |}
    (i_ticks i).

(** A packet that was dropped goes to the dumper, if there is one. *)
Definition dump_dropped (env : dump_env) (i : dns_input) (tp : libtrace_packet_t) : outcome dns_input :=
  match i_dumper i with
  | None => Ok i
  | Some d =>
      '(r, d) ← dns_dump_packet env (clock (i_ticks i)) d tp;
      if bool_decide (r = DNS_RET_OK) then Ok (set_dumper i (Some d))
      else _ ← dns_dump_destroy d; Ok (set_dumper i None)
  end.

(** A new packet joins the current frame. *)
Definition add_packet (i : dns_input) (pkt : dns_packet) : outcome dns_input :=
  i ← dns_input_advance_time_to i (ts pkt);
  f ← deref (i_frame i);
  i ← (if (frame_count f >? 0) && (u64 (frame_size f + memory_size pkt) >? u64 (i_frame_max_size i))
       then dns_input_output_frame i else Ok i);
  let l := fresh (dom (i_mem i)) in
  let m := <[l := pkt]> (i_mem i) in
  f ← deref (i_frame i);
  f ← dns_packet_frame_append_packet m f l;
  Ok (set_frames i (Some f) (i_output i) m).

Definition dns_input_process_read_packet (env : dump_env) (i : dns_input) (tp : libtrace_packet_t)
    : outcome dns_input :=
  let i := count_packet i tp in
  '(r, o) ← dns_packet_create_from_libtrace tp;
  if negb (bool_decide (r = DNS_RET_OK)) then dump_dropped env i tp
  else match o with
       | None => Fail AssertFailed
       | Some pkt => add_packet i pkt
       end.

(** [dns_input_process_catch_real_time]. *)
Definition dns_input_process_catch_real_time (i : dns_input) : outcome dns_input :=
  if i_online i then
    let '(now_us, i) := dns_current_us_time i in
    f ← deref (i_frame i);
    behind ← i64 (time_end f + i_real_time_grace i);
    if now_us >? behind
    then t ← i64 (now_us - i_real_time_grace i); dns_input_advance_time_to i t
    else Ok i
  else Ok i.

(** libtrace events; for [TRACE_EVENT_IOWAIT] the result of [select] and
    whether its error is [EINTR]. *)
Inductive trace_event : Type :=
| TRACE_EVENT_PACKET (tp : libtrace_packet_t) (env : dump_env)
| TRACE_EVENT_TERMINATE (err : bool)
| TRACE_EVENT_SLEEP (seconds : Double.double)
| TRACE_EVENT_IOWAIT (sr : Z) (eintr : bool)
| TRACE_EVENT_OTHER.

(** One turn of the event loop: [dns_global_stop] and the event. *)
Record turn : Type := { t_stop : bool; t_event : trace_event }.

(** The event loop of [dns_input_process]; it waits forever when no more
    events come. *)
Fixpoint input_loop (i : dns_input) (turns : list turn) : outcome (dns_ret * dns_input) :=
  match turns with
  | [] => Fail Blocked
  | t :: turns =>
      if t_stop t then
        i ← dns_input_report i true; i ← dns_input_trace_close i; Ok (DNS_RET_OK, i)
      else
        match t_event t with
        | TRACE_EVENT_PACKET tp env =>
            i ← dns_input_process_read_packet env i tp; input_loop i turns
        | TRACE_EVENT_TERMINATE err =>
            i ← dns_input_report i true; i ← dns_input_trace_close i;
            Ok (if err then DNS_RET_ERR else DNS_RET_OK, i)
        | TRACE_EVENT_SLEEP seconds =>
            i ← dns_input_process_catch_real_time i;
            _ ← dns_fsec_to_us_time seconds;
            input_loop i turns
        | TRACE_EVENT_IOWAIT sr eintr =>
            i ← dns_input_process_catch_real_time i;
            if (sr <? 0) && negb eintr
            then i ← dns_input_trace_close i; Ok (DNS_RET_ERR, i)
            else input_loop i turns
        | TRACE_EVENT_OTHER => Fail (Died "Unknown trace event")
        end
  end.

(** [dns_input_process]; [offline_uri] is NULL for a live capture. *)
Definition dns_input_process (env : open_env) (i : dns_input) (offline_uri : option (list Z))
    (turns : list turn) : outcome (dns_ret * dns_input) :=
  _ ← c_assert (eqb (i_online i) (negb (bool_decide (is_Some offline_uri))));
  i ← (if negb (i_online i) then uri ← deref offline_uri; Ok (set_source i uri (i_online i)) else Ok i);
  '(r, i) ← dns_input_trace_open env i;
  if negb (bool_decide (r = DNS_RET_OK)) then Ok (r, i)
  else
    let i := if i_last_report_time i =? DNS_NO_TIME
             then let '(now, i) := dns_current_us_time i in set_report i now (i_stats i) (i_ticks i)
             else i in
    input_loop i turns.

End input.
