(* ===== verification/InputInv.v ===== *)
(** * Correctness of the packet input

    The invariant of [Input]: the frames handed over and the current one
    hold, in order and each once, the packets accepted so far.  It is kept by
    every operation, and every loop terminates. *)

From stdpp Require Import base numbers strings gmap list sorting.
From S2P Require Import Prelude Doubles Common Libs Packet PacketFrame PacketHash Config TimeFmt.
From S2P Require Import Dump Matcher MatcherInv MatcherMain Input.

Section inv.
Context `{K : Libknot} `{L : Libc} `{T : Libtrace}.
Context (clock : nat -> Z) (trace_dropped : nat -> Z).
Context (Hclock : forall n, 0 <= clock n <= TMAX).

Abbreviation mem := (gmap loc dns_packet).

(** A frame before the first packet, and a frame of an interval. *)
Definition unset (f : dns_packet_frame) : Prop :=
  time_start f = DNS_NO_TIME /\ time_end f = DNS_NO_TIME /\ packets f = [] /\ frame_count f = 0.

Record timed (m : mem) (fmd : Z) (f : dns_packet_frame) : Prop := {
  tm_start : 0 <= time_start f <= time_end f;
  tm_end : time_end f <= TMAX;
  tm_span : time_end f <= time_start f + fmd;
  tm_count : frame_count f = u64 (Z.of_nat (length (packets f)));
  tm_packets : forall l, l ∈ packets f -> exists p, m !! l = Some p /\ ts p <= time_end f;
}.

Definition input_frame (m : mem) (fmd : Z) (f : dns_packet_frame) : Prop :=
  frame_type f = 0 /\ (unset f \/ timed m fmd f).

(** [acc] are the packets accepted so far; [ord] says whether they come in
    time order. *)
Record input_inv (ord : Prop) (acc : list dns_packet) (i : dns_input) (f : dns_packet_frame) : Prop := {
  ii_frame : i_frame i = Some f;
  ii_fmd : 0 < i_frame_max_duration i <= TMAX;
  ii_grace : 0 <= i_real_time_grace i <= TMAX;
  ii_period : - 2 ^ 31 <= i_report_period_sec i < 2 ^ 31;
  ii_last : i_last_report_time i = DNS_NO_TIME \/ 0 <= i_last_report_time i <= TMAX;
  ii_frames : Forall (input_frame (i_mem i) (i_frame_max_duration i)) (i_output i ++ [f]);
  ii_packets : map (i_mem i !!.) (flat_map packets (i_output i ++ [f])) = map Some acc;
  ii_nodup : NoDup (flat_map packets (i_output i ++ [f]));
  ii_dom : forall l, is_Some (i_mem i !! l) -> l ∈ flat_map packets (i_output i ++ [f]);
  ii_acc : Forall (fun p => response p = None /\ 0 <= ts p <= TMAX) acc;
  ii_unset : time_start f = DNS_NO_TIME -> flat_map (frame_times (i_mem i)) (i_output i) = [];
  ii_ord : ord -> StronglySorted Z.le (flat_map (frame_times (i_mem i)) (i_output i ++ [f]));
}.

(** A live capture has a time. *)
Definition clocked (i : dns_input) (f : dns_packet_frame) : Prop :=
  i_online i = true -> timed (i_mem i) (i_frame_max_duration i) f.

(** What no operation of the event loop changes. *)
Definition same_input (i i' : dns_input) : Prop :=
  i_online i' = i_online i /\ i_frame_max_duration i' = i_frame_max_duration i /\
  i_frame_max_size i' = i_frame_max_size i /\ i_trace i' = i_trace i /\
  i_packet i' = i_packet i /\ i_bpf_filter i' = i_bpf_filter i.

Lemma same_input_trans i1 i2 i3 : same_input i1 i2 -> same_input i2 i3 -> same_input i1 i3.
Proof. unfold same_input. intros. destruct_and!. repeat split; congruence. Qed.

Lemma ii_current ord acc i f : input_inv ord acc i f ->
  input_frame (i_mem i) (i_frame_max_duration i) f.
Proof. intros H. pose proof (ii_frames _ _ _ _ H) as Hf. rewrite Forall_app, Forall_singleton in Hf. apply Hf. Qed.

(** ** Reports *)

Lemma report_ok ord acc i f force : input_inv ord acc i f -> clocked i f ->
  exists last st n, dns_input_report clock trace_dropped i force = Ok (set_report i last st n) /\
    (last = DNS_NO_TIME \/ 0 <= last <= TMAX).
Proof.
  intros H C. pose proof (Hclock (i_ticks i)) as Hc. pose proof (ii_last _ _ _ _ H) as Hl.
  unfold dns_input_report, dns_current_us_time.
  assert (Hdue : exists due, (if force then Ok true else
     dns_next_rotation (clock (i_ticks i)) (i_report_period_sec i) (i_last_report_time i) (clock (i_ticks i)))
     = Ok due).
  { destruct force; [eauto|]. pose proof (ii_period _ _ _ _ H).
    rewrite next_rotation_ok; [eauto | done |]. unfold TMAX in *.
    replace (if _ =? _ then _ else _) with (clock (i_ticks i)) by (by destruct (_ =? _)). int_lia. }
  destruct Hdue as [due Hdue]. cbn [i_report_period_sec i_last_report_time set_report]. rewrite Hdue.
  cbn [mbind outcome_bind]. destruct due; cbn [negb]; [|do 3 eexists; split; [done|]; done].
  cbn [i_frame i_online set_report i_last_report_time]. rewrite (ii_frame _ _ _ _ H).
  assert (H1 : exists d, (if i_last_report_time i =? DNS_NO_TIME then Ok (Double.of_Z 0)
      else d ← i64 (clock (i_ticks i) - i_last_report_time i); dns_us_time_to_fsec d) = Ok d).
  { destruct (Z.eqb_spec (i_last_report_time i) DNS_NO_TIME); [eauto|]. destruct Hl as [?|Hl]; [done|].
    unfold TMAX in *. rewrite i64_in by int_lia. cbn. unfold dns_us_time_to_fsec.
    rewrite c_assert_true; [cbn; eauto|]. unfold DNS_NO_TIME. apply negb_true_iff, Z.eqb_neq. int_lia. }
  destruct H1 as [d1 ->]. cbn [mbind outcome_bind].
  assert (H2 : exists d, (if i_online i then d ← i64 (clock (i_ticks i) - time_end f);
      _ ← dns_us_time_to_fsec d; g ← i64 (i_real_time_grace i + i_frame_max_duration i);
      dns_us_time_to_fsec g else Ok (Double.of_Z 0)) = Ok d).
  { destruct (i_online i) eqn:Ho; [|eauto]. destruct (C Ho) as [? ? _ _ _].
    pose proof (ii_fmd _ _ _ _ H). pose proof (ii_grace _ _ _ _ H). unfold TMAX in *.
    rewrite i64_in by int_lia. cbn [mbind outcome_bind]. unfold dns_us_time_to_fsec.
    rewrite c_assert_true by (unfold DNS_NO_TIME; apply negb_true_iff, Z.eqb_neq; int_lia).
    cbn [mbind outcome_bind]. rewrite i64_in by int_lia. cbn [mbind outcome_bind].
    rewrite c_assert_true by (unfold DNS_NO_TIME; apply negb_true_iff, Z.eqb_neq; int_lia). cbn. eauto. }
  destruct H2 as [d2 E2]. cbn [i_real_time_grace i_frame_max_duration set_report]. rewrite E2.
  cbn [mbind outcome_bind]. do 3 eexists. split; [reflexivity|]. right. done.
Qed.

Lemma input_inv_report ord acc i f last st n : input_inv ord acc i f ->
  (last = DNS_NO_TIME \/ 0 <= last <= TMAX) -> input_inv ord acc (set_report i last st n) f.
Proof. intros [] Hl. by split. Qed.

(** ** The frame sequence *)

Lemma frame_times_unset (m : mem) f : frame_type f = 0 -> unset f -> frame_times m f = [].
Proof. intros Ht (Hs & _ & _ & Hc). unfold frame_times, skipped. by rewrite Ht, Hs, Hc. Qed.

Lemma frame_times_timed (m : mem) fmd f : frame_type f = 0 -> timed m fmd f ->
  frame_times m f = time_start f :: map (ts_at m) (packets f) ++ [time_end f].
Proof.
  intros Ht [Hs _ _ _ _]. unfold frame_times, skipped, DNS_NO_TIME, INT64_MIN. rewrite Ht.
  destruct (Z.eqb_spec (time_start f) (- 2 ^ 63)); [lia|]. by rewrite andb_false_r.
Qed.

Lemma sorted_app_le (l : list Z) x : StronglySorted Z.le l -> (forall y, y ∈ l -> y <= x) ->
  StronglySorted Z.le (l ++ [x]).
Proof.
  intros Hs Hx. apply StronglySorted_app_2; [|done|repeat constructor].
  intros y z Hy ->%list_elem_of_singleton. auto.
Qed.

Lemma sorted_last (l : list Z) x y : StronglySorted Z.le (l ++ [x]) -> y ∈ l -> y <= x.
Proof.
  intros Hs Hy. eapply (StronglySorted_app_1_elem_of Z.le l [x]); [done | done | set_solver].
Qed.

(** Moving the end of the last frame forward keeps the order. *)
Lemma sorted_set_end (m : mem) fmd out f t : frame_type f = 0 -> timed m fmd f ->
  timed m fmd (set_time_end f t) -> time_end f <= t ->
  StronglySorted Z.le (flat_map (frame_times m) (out ++ [f])) ->
  StronglySorted Z.le (flat_map (frame_times m) (out ++ [set_time_end f t])).
Proof.
  intros Hty Tf Tf' Hle. rewrite !flat_map_app. cbn [flat_map]. rewrite !app_nil_r.
  rewrite (frame_times_timed m fmd f), (frame_times_timed m fmd (set_time_end f t)) by done.
  cbn [time_start time_end packets set_time_end]. rewrite !app_comm_cons, !app_assoc. intros Hs.
  apply sorted_app_le.
  - by apply StronglySorted_app_1_l in Hs.
  - intros y Hy. pose proof (sorted_last _ _ _ Hs Hy). lia.
Qed.

(** A new empty frame begins where the last one ended. *)
Lemma sorted_new_frame (m : mem) fmd out f : frame_type f = 0 -> timed m fmd f -> 0 < fmd ->
  StronglySorted Z.le (flat_map (frame_times m) (out ++ [f])) ->
  StronglySorted Z.le (flat_map (frame_times m)
    ((out ++ [f]) ++ [dns_packet_frame_create (time_end f) (time_end f)])).
Proof.
  intros Hty Tf Hfmd. rewrite (flat_map_app _ (out ++ [f])). cbn [flat_map]. rewrite app_nil_r.
  set (g := dns_packet_frame_create (time_end f) (time_end f)).
  assert (Tg : timed m fmd g) by (destruct Tf; split; cbn; [lia | lia | lia | done | set_solver]).
  rewrite (frame_times_timed m fmd g) by done. cbn. rewrite flat_map_app. cbn [flat_map]. rewrite app_nil_r.
  rewrite (frame_times_timed m fmd f) by done. rewrite app_comm_cons, app_assoc.
  intros Hs. set (l := _ ++ _ :: _) in *.
  change [time_end f; time_end f] with ([time_end f] ++ [time_end f]). rewrite (app_assoc l).
  assert (Hl : forall y, y ∈ l -> y <= time_end f).
  { intros y [Hy| ->%list_elem_of_singleton]%elem_of_app; [by eapply sorted_last | lia]. }
  apply sorted_app_le; [by apply sorted_app_le|]. intros y [Hy| ->%list_elem_of_singleton]%elem_of_app; [auto|lia].
Qed.

(** ** Handing over a frame *)

Lemma timed_create (m : mem) fmd t : 0 <= t <= TMAX -> 0 < fmd ->
  timed m fmd (dns_packet_frame_create t t).
Proof. intros. split; cbn; [lia | lia | lia | done | set_solver]. Qed.

Lemma output_frame_inv ord acc i f : input_inv ord acc i f -> clocked i f ->
  exists i', dns_input_output_frame clock trace_dropped i = Ok i' /\
    input_inv ord acc i' (dns_packet_frame_create (time_end f) (time_end f)) /\
    same_input i i' /\ i_mem i' = i_mem i /\ i_dumper i' = i_dumper i.
Proof.
  intros H C. unfold dns_input_output_frame. rewrite (ii_frame _ _ _ _ H).
  cbn [mbind outcome_bind c_assert]. rewrite bool_decide_eq_true_2 by eauto. cbn [c_assert mbind outcome_bind].
  destruct (report_ok ord acc i f false H C) as (last & st & n & -> & Hl). cbn [mbind outcome_bind].
  cbn [i_frame set_report]. rewrite (ii_frame _ _ _ _ H). cbn [deref mbind outcome_bind].
  eexists. split; [done|]. split; [|done].
  destruct (ii_current _ _ _ _ H) as [Hty Hcase]. destruct H as [Hf Hfmd Hg Hp _ Hfr Hpk Hnd Hdom Hacc Hun Hord].
  assert (Hnew : input_frame (i_mem i) (i_frame_max_duration i) (dns_packet_frame_create (time_end f) (time_end f))).
  { split; [done|]. destruct Hcase as [(_ & -> & _)|[]]; [by left|]. right. apply timed_create; lia. }
  assert (Hpks : flat_map packets ((i_output i ++ [f]) ++ [dns_packet_frame_create (time_end f) (time_end f)])
    = flat_map packets (i_output i ++ [f])) by (rewrite flat_map_app; cbn; by rewrite app_nil_r).
  split; cbn; try done.
  - apply Forall_app. rewrite Forall_singleton. by split.
  - by rewrite Hpks.
  - by rewrite Hpks.
  - by rewrite Hpks.
  - intros He. destruct Hcase as [Hu|[[? ?] _ _ _ _]]; [|unfold DNS_NO_TIME, INT64_MIN in He; lia].
    rewrite flat_map_app. cbn [flat_map]. rewrite (frame_times_unset _ f), app_nil_r by done.
    apply Hun. apply Hu.
  - intros Ho. destruct Hcase as [Hu|Tf].
    + rewrite (flat_map_app _ (i_output i ++ [f])). cbn [flat_map].
      rewrite (frame_times_unset _ (dns_packet_frame_create _ _)), !app_nil_r; [auto | done |].
      destruct Hu as (_ & -> & _). done.
    + eapply sorted_new_frame; eauto. lia.
Qed.

(** Setting the end of the current frame. *)
Lemma set_end_inv ord acc i f t : input_inv ord acc i f ->
  timed (i_mem i) (i_frame_max_duration i) f ->
  time_end f <= t <= TMAX -> t <= time_start f + i_frame_max_duration i ->
  input_inv ord acc (set_frame i (set_time_end f t)) (set_time_end f t) /\
  timed (i_mem i) (i_frame_max_duration i) (set_time_end f t).
Proof.
  intros H Tf Ht Hs. pose proof (ii_current _ _ _ _ H) as [Hty _].
  assert (Tt : timed (i_mem i) (i_frame_max_duration i) (set_time_end f t)).
  { destruct Tf as [T1 T2 T3 T4 T5]. split; cbn; [lia | lia | lia | done |].
    intros l Hl. destruct (T5 l Hl) as (p & Hp & Hle). exists p. split; [done | lia]. }
  split; [|done]. destruct H as [Hf Hfmd Hg Hp Hl Hfr Hpk Hnd Hdom Hacc Hun Hord].
  assert (Hpks : flat_map packets (i_output i ++ [set_time_end f t]) = flat_map packets (i_output i ++ [f]))
    by (by rewrite !flat_map_app).
  split; cbn; try done.
  - apply Forall_app in Hfr as [Hfr _]. apply Forall_app. rewrite Forall_singleton.
    split; [done|]. split; [done | by right].
  - by rewrite Hpks.
  - by rewrite Hpks.
  - by rewrite Hpks.
  - intros Ho. eapply sorted_set_end; eauto. lia.
Qed.

(** ** Moving the time forward *)

Lemma input_advance_loop_ok ord acc time fuel i f : input_inv ord acc i f ->
  timed (i_mem i) (i_frame_max_duration i) f -> 0 <= time <= TMAX ->
  (Z.to_nat ((time - time_start f) / i_frame_max_duration i) < fuel)%nat ->
  exists i' f', input_advance_loop clock trace_dropped fuel i time = Ok i' /\
    input_inv ord acc i' f' /\ timed (i_mem i') (i_frame_max_duration i') f' /\
    time < time_start f' + i_frame_max_duration i' /\
    (time_end f' <= Z.max (time_end f) time) /\
    same_input i i' /\ i_mem i' = i_mem i /\ i_dumper i' = i_dumper i.
Proof.
  intros H Tf Ht. revert i f H Tf. induction fuel as [|fuel IH]; intros i f H Tf Hfuel; [lia|].
  pose proof (ii_fmd _ _ _ _ H) as Hfmd. pose proof Tf as [T1 T2 T3 T4 T5].
  cbn [input_advance_loop]. rewrite (ii_frame _ _ _ _ H). cbn [deref mbind outcome_bind].
  unfold TMAX in *. rewrite i64_in by int_lia. cbn [mbind outcome_bind].
  destruct (Z.geb_spec time (time_start f + i_frame_max_duration i)) as [Hge|Hlt].
  2: { exists i, f. split; [done|]. split; [done|]. split; [done|]. split; [lia|]. split; [lia|]. done. }
  rewrite c_assert_true by lia. cbn [mbind outcome_bind].
  set (lim := time_start f + i_frame_max_duration i).
  destruct (set_end_inv ord acc i f lim H Tf) as [H1 T1']; [unfold TMAX; lia | lia |].
  destruct (output_frame_inv ord acc _ _ H1) as (i1 & -> & H2 & S2 & M2 & D2); [by intros _|].
  cbn [mbind outcome_bind time_end set_time_end] in *.
  destruct S2 as (So & Sf & Ss & St & Sp & Sb). cbn in *.
  destruct (IH i1 (dns_packet_frame_create lim lim) H2) as (i' & f' & Hrun & H3 & T3' & Hlt & Hend & S3 & M3 & D3).
  { rewrite M2, Sf. apply timed_create; unfold TMAX; lia. }
  { rewrite Sf. cbn [time_start dns_packet_frame_create]. unfold lim.
    replace (time - (time_start f + i_frame_max_duration i))
      with (time - time_start f + (-1) * i_frame_max_duration i) by lia.
    rewrite Z.div_add by lia.
    assert (1 <= (time - time_start f) / i_frame_max_duration i) by (apply Z.div_le_lower_bound; lia).
    lia. }
  exists i', f'. split; [done|]. split; [done|]. split; [done|]. split; [lia|].
  split; [cbn in Hend; lia|]. split; [|split; congruence].
  eapply same_input_trans; [|exact S3]. by repeat split.
Qed.

(** The first packet gives the frame its time. *)
Lemma set_times_inv ord acc i f t : input_inv ord acc i f -> unset f -> 0 <= t <= TMAX ->
  input_inv ord acc (set_frame i (set_times f t t)) (set_times f t t) /\
  timed (i_mem i) (i_frame_max_duration i) (set_times f t t).
Proof.
  intros H Hu Ht. pose proof (ii_current _ _ _ _ H) as [Hty _]. pose proof Hu as (Hs & He & Hp & Hc).
  pose proof (ii_fmd _ _ _ _ H) as Hfmd.
  assert (Tt : timed (i_mem i) (i_frame_max_duration i) (set_times f t t)).
  { split; cbn; rewrite ?Hp, ?Hc; [lia | lia | lia | done | set_solver]. }
  split; [|done]. destruct H as [Hf _ Hg Hpr Hl Hfr Hpk Hnd Hdom Hacc Hun Hord].
  assert (Hpks : flat_map packets (i_output i ++ [set_times f t t]) = flat_map packets (i_output i ++ [f]))
    by (by rewrite !flat_map_app).
  apply Forall_app in Hfr as [Hfr _].
  split; cbn; try done.
  - apply Forall_app. rewrite Forall_singleton. split; [done|]. split; [done | by right].
  - by rewrite Hpks.
  - by rewrite Hpks.
  - by rewrite Hpks.
  - intros _. by apply Hun.
  - intros _. rewrite flat_map_app, Hun by done. cbn [flat_map app].
    rewrite (frame_times_timed _ (i_frame_max_duration i) (set_times f t t)), app_nil_r by done.
    cbn. rewrite Hp. cbn. repeat constructor. lia.
Qed.

Lemma input_advance_ok ord acc i f time : input_inv ord acc i f -> 0 <= time <= TMAX ->
  exists i' f', dns_input_advance_time_to clock trace_dropped i time = Ok i' /\
    input_inv ord acc i' f' /\ timed (i_mem i') (i_frame_max_duration i') f' /\
    time <= time_end f' <= Z.max (time_end f) time /\
    same_input i i' /\ i_mem i' = i_mem i /\ i_dumper i' = i_dumper i.
Proof.
  intros H Ht. unfold dns_input_advance_time_to. rewrite (ii_frame _ _ _ _ H). cbn [deref mbind outcome_bind].
  set (i1 := if time_start f =? DNS_NO_TIME then _ else i).
  assert (H1 : exists f1, input_inv ord acc i1 f1 /\ timed (i_mem i1) (i_frame_max_duration i1) f1 /\
     Z.max (time_end f1) time = Z.max (time_end f) time /\ same_input i i1 /\ i_mem i1 = i_mem i /\
     i_dumper i1 = i_dumper i).
  { destruct (ii_current _ _ _ _ H) as [_ [Hu|Tf]].
    - pose proof Hu as (Hs & He & _). unfold i1. rewrite Hs. cbn [Z.eqb].
      destruct (Z.eqb_spec DNS_NO_TIME DNS_NO_TIME); [|done].
      destruct (set_times_inv ord acc i f time H Hu Ht) as [H1 T1].
      eexists. split; [exact H1|]. split; [done|]. split; [|done]. cbn. rewrite He.
      unfold DNS_NO_TIME, INT64_MIN. lia.
    - exists f. unfold i1. pose proof (tm_start _ _ _ Tf).
      destruct (Z.eqb_spec (time_start f) DNS_NO_TIME); [unfold DNS_NO_TIME, INT64_MIN in *; lia|]. done. }
  destruct H1 as (f1 & H1 & T1 & E1 & S1 & M1 & D1). clearbody i1.
  rewrite (ii_frame _ _ _ _ H1). cbn [deref mbind outcome_bind].
  pose proof T1 as [? ? _ _ _]. unfold TMAX in *. rewrite i64_in by int_lia. cbn [mbind outcome_bind].
  destruct (input_advance_loop_ok ord acc time (input_advance_fuel i1 time) i1 f1 H1 T1)
    as (i2 & f2 & -> & H2 & T2 & Hlt & Hend & S2 & M2 & D2).
  { unfold TMAX. lia. }
  { unfold input_advance_fuel. rewrite (ii_frame _ _ _ _ H1). lia. }
  cbn [mbind outcome_bind]. rewrite (ii_frame _ _ _ _ H2). cbn [deref mbind outcome_bind]. rewrite MAX_max.
  pose proof T2 as [? ? ? _ _].
  destruct (set_end_inv ord acc i2 f2 (Z.max (time_end f2) time) H2 T2) as [H3 T3]; [unfold TMAX in *; lia..|].
  do 2 eexists. split; [done|]. split; [exact H3|]. split; [done|]. cbn.
  split; [lia|]. split; [|split; congruence]. eapply same_input_trans; [exact S1|exact S2].
Qed.

(** ** A new packet *)

Lemma ii_live ord acc i f l : input_inv ord acc i f -> l ∈ flat_map packets (i_output i ++ [f]) ->
  is_Some (i_mem i !! l).
Proof.
  intros H Hl. pose proof (ii_packets _ _ _ _ H) as E.
  assert (Hin : i_mem i !! l ∈ map Some acc).
  { rewrite <- E. apply list_elem_of_fmap. eauto. }
  apply list_elem_of_fmap in Hin as (p & -> & _). eauto.
Qed.

(** Storing a packet at a fresh location changes nothing for the others. *)
Lemma store_ext (m : mem) l p x : m !! l = None -> is_Some (m !! x) -> <[l := p]> m !! x = m !! x.
Proof. intros Hl [q Hx]. apply lookup_insert_ne. congruence. Qed.

Lemma input_frame_store (m : mem) fmd l p f : m !! l = None -> input_frame m fmd f ->
  input_frame (<[l := p]> m) fmd f.
Proof.
  intros Hl [Hty [Hu|[T1 T2 T3 T4 T5]]]; (split; [done|]); [by left|]. right. split; try done.
  intros x Hx. destruct (T5 x Hx) as (q & Hq & Hle). exists q. by rewrite store_ext by (by rewrite ?Hq; eauto).
Qed.

Lemma frame_times_store (m : mem) l p f : m !! l = None -> (forall x, x ∈ packets f -> is_Some (m !! x)) ->
  frame_times (<[l := p]> m) f = frame_times m f.
Proof.
  intros Hl Hx. unfold frame_times. destruct (_ || _); [done|]. f_equal. f_equal.
  apply map_ext_in. intros x Hin. unfold ts_at. rewrite store_ext; [done | done |].
  apply Hx. by apply list_elem_of_In.
Qed.

Lemma flat_map_times_store (m : mem) l p fs : m !! l = None ->
  (forall x, x ∈ flat_map packets fs -> is_Some (m !! x)) ->
  flat_map (frame_times (<[l := p]> m)) fs = flat_map (frame_times m) fs.
Proof.
  intros Hl Hx. induction fs as [|f fs IH]; cbn; [done|]. cbn in Hx.
  rewrite frame_times_store, IH; [done | | done |]; intros x Hin; apply Hx; set_solver.
Qed.

Lemma append_inv ord acc i f l pkt : input_inv ord acc i f ->
  timed (i_mem i) (i_frame_max_duration i) f -> i_mem i !! l = None ->
  response pkt = None -> 0 <= ts pkt <= TMAX -> ts pkt <= time_end f ->
  (ord -> time_end f = ts pkt) ->
  exists f', dns_packet_frame_append_packet (<[l := pkt]> (i_mem i)) f l = Ok f' /\
    let i' := set_frames i (Some f') (i_output i) (<[l := pkt]> (i_mem i)) in
    input_inv ord (acc ++ [pkt]) i' f' /\ timed (i_mem i') (i_frame_max_duration i') f' /\
    time_end f' = time_end f.
Proof.
  intros H Tf Hl Hr Ht Hle Hord. set (m := <[l := pkt]> (i_mem i)).
  destruct (append_packet_spec m f l pkt) as (f' & Ha & Ep & Es & Ety & Ee & Ec & _); [apply lookup_insert_eq|].
  pose proof (ii_current _ _ _ _ H) as [Hty _]. pose proof Tf as [T1 T2 T3 T4 T5].
  assert (He : time_end f' = time_end f).
  { rewrite Ee. unfold DNS_NO_TIME, INT64_MIN. destruct (Z.eqb_spec (time_end f) (- 2 ^ 63)); [lia|].
    cbn [orb]. destruct (Z.ltb_spec (time_end f) (ts pkt)); lia. }
  assert (Tf' : timed m (i_frame_max_duration i) f').
  { split; rewrite ?Ep, ?Es, ?He; try done.
    - rewrite Ec, T4, u64_add_l, length_app. cbn. f_equal. lia.
    - intros x [Hx| ->%list_elem_of_singleton]%elem_of_app.
      + destruct (T5 x Hx) as (q & Hq & Hq'). exists q. unfold m. by rewrite store_ext by (by rewrite ?Hq; eauto).
      + exists pkt. unfold m. by rewrite lookup_insert_eq. }
  exists f'. split; [done|]. cbn zeta. split; [|split; done].
  assert (Hlive := fun x => ii_live ord acc i f x H).
  assert (Hpk' : flat_map packets (i_output i ++ [f']) = flat_map packets (i_output i ++ [f]) ++ [l]).
  { rewrite !flat_map_app. cbn. by rewrite Ep, !app_nil_r, app_assoc. }
  destruct H as [Hf Hfmd Hg Hpr Hla Hfr Hpk Hnd Hdom Hacc Hun Hso].
  split; cbn; try done.
  - rewrite Forall_app, Forall_singleton in Hfr |- *. destruct Hfr as [Hfr _]. split.
    + eapply Forall_impl; [exact Hfr|]. intros g Hg'. by apply input_frame_store.
    + split; [congruence | by right].
  - rewrite Hpk', !map_app. cbn [map]. unfold m at 2. rewrite lookup_insert_eq. f_equal. rewrite <- Hpk.
    apply map_ext_in. intros x Hx. apply store_ext; [done|]. apply Hlive. by apply list_elem_of_In.
  - rewrite Hpk'. apply NoDup_app. split; [done|]. split; [|apply NoDup_singleton].
    intros x Hx ->%list_elem_of_singleton. apply Hlive in Hx as [q Hq]. congruence.
  - intros x Hx. rewrite Hpk'. apply elem_of_app. unfold m in Hx.
    destruct (decide (x = l)) as [->|Hne]; [right; set_solver|]. left. apply Hdom. by rewrite lookup_insert_ne in Hx.
  - apply Forall_app. rewrite Forall_singleton. done.
  - rewrite Es. intros He'. unfold DNS_NO_TIME, INT64_MIN in He'. lia.
  - intros Ho. specialize (Hso Ho). specialize (Hord Ho). fold m.
    rewrite flat_map_app in Hso |- *. cbn [flat_map] in *. rewrite app_nil_r in *.
    unfold m. rewrite flat_map_times_store; [|done|intros x Hx; apply Hlive; rewrite flat_map_app; set_solver].
    fold m. rewrite (frame_times_timed m (i_frame_max_duration i) f') by (done || congruence).
    rewrite (frame_times_timed (i_mem i) (i_frame_max_duration i) f) in Hso by done.
    rewrite Es, Ep, He, map_app. cbn [map].
    assert (Emap : map (ts_at m) (packets f) = map (ts_at (i_mem i)) (packets f)).
    { apply map_ext_in. intros x Hx%list_elem_of_In. unfold ts_at, m. rewrite store_ext; [done | done |].
      destruct (T5 x Hx) as (q & -> & _). eauto. }
    rewrite Emap. unfold ts_at at 2. unfold m. rewrite lookup_insert_eq. cbn [from_option].
    rewrite app_comm_cons, app_assoc in Hso |- *. rewrite (app_comm_cons _ [ts pkt]), (app_assoc _ _ [ts pkt]).
    rewrite <- Hord. apply sorted_app_le; [done|].
    intros y [Hy| ->%list_elem_of_singleton]%elem_of_app; [by eapply sorted_last | lia].
Qed.

Lemma add_packet_ok ord acc i f pkt : input_inv ord acc i f ->
  response pkt = None -> 0 <= ts pkt <= TMAX -> (ord -> time_end f <= ts pkt) ->
  exists i' f', add_packet clock trace_dropped i pkt = Ok i' /\
    input_inv ord (acc ++ [pkt]) i' f' /\ timed (i_mem i') (i_frame_max_duration i') f' /\
    same_input i i' /\ i_dumper i' = i_dumper i /\ (ord -> time_end f' = ts pkt).
Proof.
  intros H Hr Ht Hord. unfold add_packet.
  destruct (input_advance_ok ord acc i f (ts pkt) H Ht) as (i1 & f1 & -> & H1 & T1 & He1 & S1 & M1 & D1).
  cbn [mbind outcome_bind]. rewrite (ii_frame _ _ _ _ H1). cbn [deref mbind outcome_bind].
  assert (H2 : exists i2 f2, (if (frame_count f1 >? 0) && (u64 (frame_size f1 + memory_size pkt) >? u64 (i_frame_max_size i1))
      then dns_input_output_frame clock trace_dropped i1 else Ok i1) = Ok i2 /\
      input_inv ord acc i2 f2 /\ timed (i_mem i2) (i_frame_max_duration i2) f2 /\ time_end f2 = time_end f1 /\
      same_input i1 i2 /\ i_dumper i2 = i_dumper i1).
  { destruct (_ && _); [|exists i1, f1; done].
    destruct (output_frame_inv ord acc i1 f1 H1) as (i2 & -> & H2 & S2 & M2 & D2); [by intros _|].
    exists i2. eexists. split; [done|]. split; [exact H2|]. pose proof S2 as (_ & -> & _).
    split; [rewrite M2; apply timed_create; [|apply (ii_fmd _ _ _ _ H1)]; destruct T1; lia|]. done. }
  destruct H2 as (i2 & f2 & -> & H2 & T2 & E2 & S2 & D2). cbn [mbind outcome_bind].
  rewrite (ii_frame _ _ _ _ H2). cbn [deref mbind outcome_bind].
  destruct (append_inv ord acc i2 f2 (fresh (dom (i_mem i2))) pkt H2 T2) as (f3 & -> & H3 & T3 & E3);
    [apply not_elem_of_dom, is_fresh | done | done | lia | intros Ho; specialize (Hord Ho); lia |].
  cbn [mbind outcome_bind]. do 2 eexists. split; [done|]. split; [exact H3|]. split; [exact T3|].
  split; [eapply same_input_trans; [exact S1|]; eapply same_input_trans; [exact S2|]; done|].
  split; [cbn; congruence|]. intros Ho. specialize (Hord Ho). lia.
Qed.

(** A captured packet that does not stop the collector: it is dropped, or
    gives a packet with a usable time. *)
Definition capture_ok (tp : libtrace_packet_t) : Prop :=
  exists r o, dns_packet_create_from_libtrace tp = Ok (r, o) /\
    forall p, o = Some p -> 0 <= ts p <= TMAX.

(** The packet of a capture, if it is accepted. *)
Definition capture (tp : libtrace_packet_t) : list dns_packet :=
  match dns_packet_create_from_libtrace tp with
  | Ok (DNS_RET_OK, Some p) => [p]
  | _ => []
  end.

(** The dumper, if any, can deal with a dropped packet. *)
Definition dump_ok (i : dns_input) (tp : libtrace_packet_t) (env : dump_env) : Prop :=
  capture tp = [] -> exists i', dump_dropped clock env i tp = Ok i'.

Lemma dump_dropped_same env i i' tp : dump_dropped clock env i tp = Ok i' ->
  exists d, i' = set_dumper i d.
Proof.
  unfold dump_dropped. destruct (i_dumper i) as [d|] eqn:Ed.
  - intros H. inv_ok. destruct a as [r d']. case_bool_decide; inv_ok; eauto.
  - intros [= <-]. exists None. destruct i. cbn in *. by subst.
Qed.

Lemma read_packet_ok ord acc i f env tp : input_inv ord acc i f -> capture_ok tp ->
  dump_ok (count_packet i tp) tp env -> clocked i f ->
  (forall p, ord -> capture tp = [p] -> time_end f <= ts p) ->
  exists i' f', dns_input_process_read_packet clock trace_dropped env i tp = Ok i' /\
    input_inv ord (acc ++ capture tp) i' f' /\ clocked i' f' /\ same_input i i' /\
    (forall p, ord -> capture tp = [p] -> time_end f' = ts p) /\
    (capture tp = [] -> f' = f) /\ (i_dumper i = None -> i_dumper i' = None).
Proof.
  intros H (r & o & Hcr & Hts) Hdump C Hord. unfold dns_input_process_read_packet.
  unfold dump_ok, capture in *. rewrite Hcr in *. cbn [mbind outcome_bind].
  assert (H1 : input_inv ord acc (count_packet i tp) f).
  { apply input_inv_report; [done|]. apply H. }
  pose proof (libtrace_packet_spec tp r o Hcr) as [Hro Hp].
  case_bool_decide as Hr; cbn [negb].
  - subst r. destruct (proj1 Hro eq_refl) as [p ->].
    destruct (Hp p eq_refl) as (Hnone & _).
    destruct (add_packet_ok ord acc (count_packet i tp) f p H1 Hnone (Hts p eq_refl))
      as (i' & f' & -> & H2 & T2 & S2 & D2 & E2); [intros Ho; by apply Hord|].
    exists i', f'. split; [done|]. split; [done|]. split; [by intros _|]. split; [done|].
    split; [|split; [done | by rewrite D2]]. intros p' Ho [= <-]. by apply E2.
  - assert (Ecap : match r with DNS_RET_OK => match o with Some p => [p] | None => [] end | _ => [] end
                   = ([] : list dns_packet)) by (by destruct r).
    rewrite Ecap in *. destruct Hdump as [i' Hi']; [done|]. rewrite Hi'.
    pose proof (dump_dropped_same _ _ _ _ Hi') as [d ->]. exists (set_dumper (count_packet i tp) d), f.
    rewrite app_nil_r. split; [done|]. split; [by destruct H1; split|]. do 3 (split; [done|]). split; [done|].
    intros Hn. unfold dump_dropped in Hi'. cbn [i_dumper count_packet set_report] in Hi'. rewrite Hn in Hi'.
    apply (f_equal (fun x => match x with Ok j => i_dumper j | Fail _ => None end)) in Hi'. cbn in *. congruence.
Qed.

Lemma catch_real_time_ok ord acc i f : input_inv ord acc i f -> clocked i f ->
  exists i' f', dns_input_process_catch_real_time clock trace_dropped i = Ok i' /\
    input_inv ord acc i' f' /\ clocked i' f' /\ same_input i i' /\ i_dumper i' = i_dumper i /\
    (i_online i = false -> f' = f).
Proof.
  intros H C. unfold dns_input_process_catch_real_time, dns_current_us_time.
  destruct (i_online i) eqn:Ho; [|exists i, f; done].
  pose proof (C Ho) as Tf. pose proof Tf as [Ts Te _ _ _]. pose proof (ii_grace _ _ _ _ H) as Hgr.
  pose proof (Hclock (i_ticks i)) as Hc.
  set (i1 := set_report i (i_last_report_time i) (i_stats i) (S (i_ticks i))).
  assert (H1 : input_inv ord acc i1 f) by (apply input_inv_report; [done | apply H]).
  change (i_frame i1) with (i_frame i). rewrite (ii_frame _ _ _ _ H). cbn [deref mbind outcome_bind].
  change (i_real_time_grace i1) with (i_real_time_grace i).
  unfold TMAX in *. rewrite (i64_in (time_end f + _)) by int_lia. cbn [mbind outcome_bind].
  destruct (clock (i_ticks i) >? time_end f + i_real_time_grace i) eqn:Eg; [apply Z.gtb_lt in Eg|].
  - rewrite i64_in by int_lia. cbn [mbind outcome_bind].
    destruct (input_advance_ok ord acc i1 f (clock (i_ticks i) - i_real_time_grace i) H1)
      as (i' & f' & -> & H2 & T2 & _ & S2 & M2 & D2); [unfold TMAX; lia|].
    exists i', f'. split; [done|]. split; [done|]. split; [by intros _|]. done.
  - exists i1, f. split; [done|]. split; [done|]. split; [by intros _|]. done.
Qed.

(** ** The event loop *)

(** The loop ends, and nothing on the way stops the collector. *)
Fixpoint turns_ok (turns : list turn) : Prop :=
  match turns with
  | [] => False
  | t :: turns =>
      if t_stop t then True else
      match t_event t with
      | TRACE_EVENT_PACKET tp _ => capture_ok tp /\ turns_ok turns
      | TRACE_EVENT_TERMINATE _ => True
      | TRACE_EVENT_SLEEP seconds => is_Some (match dns_fsec_to_us_time seconds with Ok z => Some z | _ => None end)
                                     /\ turns_ok turns
      | TRACE_EVENT_IOWAIT sr eintr => if (sr <? 0) && negb eintr then True else turns_ok turns
      | TRACE_EVENT_OTHER => False
      end
  end.

(** The packets accepted until the loop ends. *)
Fixpoint captured (turns : list turn) : list dns_packet :=
  match turns with
  | [] => []
  | t :: turns =>
      if t_stop t then [] else
      match t_event t with
      | TRACE_EVENT_PACKET tp _ => capture tp ++ captured turns
      | TRACE_EVENT_SLEEP _ => captured turns
      | TRACE_EVENT_IOWAIT sr eintr => if (sr <? 0) && negb eintr then [] else captured turns
      | _ => []
      end
  end.

(** The packets still to come are in order, and not before time [t]. *)
Definition follows (t : Z) (ps : list dns_packet) : Prop := StronglySorted Z.le (t :: map ts ps).

(** The time reached with the last of the packets. *)
Definition reached (t : Z) (ps : list dns_packet) : Z := List.last (map ts ps) t.

Lemma reached_app t ps qs : reached t (ps ++ qs) = reached (reached t ps) qs.
Proof.
  unfold reached. rewrite map_app. induction qs as [|q qs IH] using rev_ind.
  - cbn. by rewrite app_nil_r.
  - rewrite map_app, app_assoc. cbn [map]. by rewrite !List.last_last.
Qed.

Lemma follows_app t ps qs : follows t (ps ++ qs) -> follows (reached t ps) qs.
Proof.
  unfold follows. revert t. induction ps as [|p ps IH]; intros t H; [done|].
  cbn [app map] in H. apply StronglySorted_inv in H as [H _].
  change (p :: ps) with ([p] ++ ps). rewrite reached_app. by apply IH.
Qed.

(** How the loop leaves the input. *)
Definition loop_result (ord : Prop) (acc : list dns_packet) (i : dns_input) (f : dns_packet_frame)
    (ps : list dns_packet) (i' : dns_input) : Prop :=
  exists f', input_inv ord (acc ++ ps) i' f' /\ clocked i' f' /\
    i_online i' = i_online i /\ i_frame_max_duration i' = i_frame_max_duration i /\
    i_trace i' = false /\ i_packet i' = false /\ i_bpf_filter i' = false /\ i_dumper i' = None /\
    (ord -> time_end f' = reached (time_end f) ps).

Lemma close_result ord acc i f : input_inv ord acc i f -> clocked i f ->
  i_trace i = true -> i_packet i = true -> i_dumper i = None ->
  exists i', dns_input_trace_close i = Ok i' /\ loop_result ord acc i f [] i'.
Proof.
  intros H C Ht Hp Hd. unfold dns_input_trace_close. rewrite Ht, Hp, (ii_frame _ _ _ _ H). cbn.
  eexists. split; [done|]. exists f. rewrite app_nil_r. split; [by destruct H; split|]. done.
Qed.

Lemma report_close ord acc i f : input_inv ord acc i f -> clocked i f ->
  i_trace i = true -> i_packet i = true -> i_dumper i = None ->
  exists i1 i', dns_input_report clock trace_dropped i true = Ok i1 /\
    dns_input_trace_close i1 = Ok i' /\ loop_result ord acc i f [] i'.
Proof.
  intros H C Ht Hp Hd. destruct (report_ok ord acc i f true H C) as (last & st & n & Hr & Hl).
  destruct (close_result ord acc (set_report i last st n) f) as (i' & Hc & Hres); auto.
  { by apply input_inv_report. }
  eexists _, i'. split; [exact Hr|]. by split.
Qed.

Lemma loop_result_step ord acc i f i1 f1 ps qs i' : loop_result ord (acc ++ ps) i1 f1 qs i' ->
  same_input i i1 -> (ord -> time_end f1 = reached (time_end f) ps) ->
  loop_result ord acc i f (ps ++ qs) i'.
Proof.
  intros (f' & H & C & Ho & Hf & H1 & H2 & H3 & H4 & He) (S1 & S2 & _) Hr. exists f'.
  rewrite app_assoc. split; [done|]. split; [done|]. split; [congruence|]. split; [congruence|].
  do 4 (split; [done|]). intros Hord. rewrite reached_app, <- Hr by done. by apply He.
Qed.

Lemma capture_cases tp : capture tp = [] \/ exists p, capture tp = [p].
Proof. unfold capture. repeat case_match; eauto. Qed.

(** A loop step that keeps everything but the report fields and the frame. *)
Lemma input_loop_ok ord turns : forall acc i f, input_inv ord acc i f -> clocked i f ->
  i_trace i = true -> i_packet i = true -> i_dumper i = None -> turns_ok turns ->
  (ord -> i_online i = false /\ follows (time_end f) (captured turns)) ->
  exists r i', input_loop clock trace_dropped i turns = Ok (r, i') /\
    loop_result ord acc i f (captured turns) i'.
Proof.
  induction turns as [|t turns IH]; intros acc i f H C Ht Hp Hd Hok Hord; [done|].
  cbn [turns_ok captured input_loop] in *. destruct (t_stop t).
  { destruct (report_close ord acc i f H C Ht Hp Hd) as (i1 & i' & -> & Hc & Hres). cbn. rewrite Hc. cbn. eauto. }
  destruct (t_event t) as [tp env|err|seconds|sr eintr|]; [..|done].
  - destruct Hok as [Hcap Hok].
    destruct (read_packet_ok ord acc i f env tp H Hcap) as (i1 & f1 & -> & H1 & C1 & S1 & E1 & F1 & D1); [|done| |].
    { intros _. unfold dump_dropped. cbn. rewrite Hd. eauto. }
    { intros p Ho Hc. rewrite Hc in Hord. destruct (Hord Ho) as [_ Hf]. cbn in Hf.
      apply StronglySorted_inv in Hf as [_ Hf]. by apply Forall_cons in Hf as [Hf _]. }
    cbn [mbind outcome_bind]. pose proof S1 as (So & _ & _ & St & Sp & _).
    assert (Hr : ord -> time_end f1 = reached (time_end f) (capture tp)).
    { intros Ho. destruct (capture_cases tp) as [E|[p E]]; rewrite E.
      - by rewrite F1.
      - rewrite (E1 p Ho E). done. }
    destruct (IH (acc ++ capture tp) i1 f1) as (r & i' & Hrun & Hres); auto; try congruence.
    { intros Ho. destruct (Hord Ho) as [Hon Hf]. split; [congruence|]. rewrite Hr by done. by apply follows_app. }
    exists r, i'. split; [done|]. by eapply loop_result_step.
  - destruct (report_close ord acc i f H C Ht Hp Hd) as (i1 & i' & -> & Hc & Hres). cbn. rewrite Hc. cbn. eauto.
  - destruct Hok as [Hs Hok].
    destruct (catch_real_time_ok ord acc i f H C) as (i1 & f1 & -> & H1 & C1 & S1 & D1 & F1).
    cbn [mbind outcome_bind]. pose proof S1 as (So & _ & _ & St & Sp & _).
    destruct (dns_fsec_to_us_time seconds); [|by destruct Hs]. cbn [mbind outcome_bind].
    destruct (IH acc i1 f1) as (r & i' & Hrun & Hres); auto; try congruence.
    { intros Ho. destruct (Hord Ho) as [Hon Hf]. rewrite F1 by done. split; [congruence | done]. }
    exists r, i'. split; [done|]. apply (loop_result_step ord acc i f i1 f1 []); [by rewrite app_nil_r | done |].
    intros Ho. destruct (Hord Ho) as [Hon _]. by rewrite F1.
  - destruct (catch_real_time_ok ord acc i f H C) as (i1 & f1 & -> & H1 & C1 & S1 & D1 & F1).
    cbn [mbind outcome_bind]. pose proof S1 as (So & _ & _ & St & Sp & _).
    assert (Hr : ord -> time_end f1 = reached (time_end f) []).
    { intros Ho. destruct (Hord Ho) as [Hon _]. by rewrite F1. }
    destruct ((sr <? 0) && negb eintr).
    + destruct (close_result ord acc i1 f1) as (i' & -> & Hres); auto; try congruence. cbn.
      exists DNS_RET_ERR, i'. split; [done|].
      apply (loop_result_step ord acc i f i1 f1 [] []); [by rewrite app_nil_r | done | done].
    + destruct (IH acc i1 f1) as (r & i' & Hrun & Hres); auto; try congruence.
      { intros Ho. destruct (Hord Ho) as [Hon Hf]. rewrite F1 by done. split; [congruence | done]. }
      exists r, i'. split; [done|].
      apply (loop_result_step ord acc i f i1 f1 []); [by rewrite app_nil_r | done | done].
Qed.

(** ** Opening and processing a trace *)

(** libtrace opens the trace. *)
Definition opens (env : open_env) : Prop :=
  oe_trace_err env = false /\ 0 <= oe_snaplen env /\ 0 <= oe_promisc env /\ 0 <= oe_filter env /\
  0 <= oe_start env /\ oe_packet_ok env = true.

Lemma input_inv_trace ord acc i f a b c : input_inv ord acc i f -> input_inv ord acc (set_trace i a b c) f.
Proof. intros []. by split. Qed.

Lemma trace_open_ok ord acc i f env : input_inv ord acc i f -> opens env ->
  i_trace i = false -> i_packet i = false -> i_bpf_filter i = false ->
  exists i' f', dns_input_trace_open clock trace_dropped env i = Ok (DNS_RET_OK, i') /\
    input_inv ord acc i' f' /\ clocked i' f' /\ i_online i' = i_online i /\
    i_frame_max_duration i' = i_frame_max_duration i /\ i_trace i' = true /\ i_packet i' = true /\
    i_dumper i' = i_dumper i /\ (i_online i = false -> f' = f).
Proof.
  intros H (E1 & E2 & E3 & E4 & E5 & E6) Ht Hp Hb. unfold dns_input_trace_open. rewrite Ht, Hp, E1.
  cbn [negb andb c_assert mbind outcome_bind]. set (i0 := set_trace i (i_bpf_filter i) true false).
  assert (H0 : input_inv ord acc i0 f) by (by apply input_inv_trace).
  assert (H1 : exists i1 f1, (if i_online i0 then let '(now, i) := dns_current_us_time clock i0 in
       dns_input_advance_time_to clock trace_dropped i now else Ok i0) = Ok i1 /\
      input_inv ord acc i1 f1 /\ clocked i1 f1 /\ same_input i0 i1 /\ i_dumper i1 = i_dumper i0 /\
      (i_online i = false -> f1 = f)).
  { change (i_online i0) with (i_online i). destruct (i_online i) eqn:Ho.
    - unfold dns_current_us_time.
      destruct (input_advance_ok ord acc (set_report i0 (i_last_report_time i0) (i_stats i0) (S (i_ticks i0))) f
                  (clock (i_ticks i0))) as (i1 & f1 & -> & H1 & T1 & _ & S1 & _ & D1).
      + apply input_inv_report; [done | apply H0].
      + apply Hclock.
      + exists i1, f1. split; [done|]. split; [done|]. split; [by intros _|]. done.
    - exists i0, f. split; [done|]. split; [done|]. split; [intros Hon; cbn in Hon; congruence|]. done. }
  destruct H1 as (i1 & f1 & -> & H1 & C1 & S1 & D1 & F1). cbn [mbind outcome_bind].
  destruct S1 as (So & Sf & _ & St & Sp & Sb). cbn in *.
  set (r1 := if i_snaplen i1 >? 0 then oe_snaplen env else 0).
  set (r2 := if (r1 =? 0) && negb (i_promisc i1 =? 0) && i_online i1 then oe_promisc env else r1).
  assert (Hr2 : (r2 <? 0) = false) by (unfold r2, r1; repeat case_match; lia).
  rewrite Hr2, Sb, Hb. cbn [negb c_assert mbind outcome_bind].
  destruct (Z.ltb_spec (oe_filter env) 0); [lia|]. destruct (Z.ltb_spec (oe_start env) 0); [lia|].
  rewrite E6. cbn [negb]. do 2 eexists. split; [done|]. split; [do 2 apply input_inv_trace; exact H1|].
  split; [by intros Hon; destruct (C1 Hon)|]. done.
Qed.

Lemma set_report_start ord acc i f : input_inv ord acc i f ->
  let i' := if i_last_report_time i =? DNS_NO_TIME
            then let '(now, i) := dns_current_us_time clock i in set_report i now (i_stats i) (i_ticks i)
            else i in
  input_inv ord acc i' f /\ same_input i i' /\ i_dumper i' = i_dumper i /\ i_mem i' = i_mem i.
Proof.
  intros H. cbn. destruct (_ =? _); [|done]. split; [|done].
  pose proof (Hclock (i_ticks i)). destruct H. split; try done. by right.
Qed.

Lemma input_inv_source ord acc i f u o : input_inv ord acc i f -> input_inv ord acc (set_source i u o) f.
Proof. intros []. by split. Qed.

Lemma process_ok ord acc i f env uri turns : input_inv ord acc i f -> opens env -> turns_ok turns ->
  i_trace i = false -> i_packet i = false -> i_bpf_filter i = false -> i_dumper i = None ->
  i_online i = negb (bool_decide (is_Some uri)) ->
  (ord -> i_online i = false /\ follows (time_end f) (captured turns)) ->
  exists r i', dns_input_process clock trace_dropped env i uri turns = Ok (r, i') /\
    loop_result ord acc i f (captured turns) i'.
Proof.
  intros H He Hok Ht Hp Hb Hd Hon Hord. unfold dns_input_process. rewrite Hon, eqb_reflx.
  cbn [c_assert mbind outcome_bind].
  set (pre := if negb (negb _) then _ else _).
  assert (Hpre : exists i0, pre = Ok i0 /\ input_inv ord acc i0 f /\ i_trace i0 = false /\
     i_packet i0 = false /\ i_bpf_filter i0 = false /\ i_dumper i0 = None /\ i_online i0 = i_online i /\
     i_frame_max_duration i0 = i_frame_max_duration i).
  { unfold pre. destruct uri as [u|]; cbn in *; eexists; (split; [reflexivity|]).
    - split; [by apply input_inv_source|]. cbn. by rewrite Hon.
    - done. }
  destruct Hpre as (i0 & -> & H0 & Ht0 & Hp0 & Hb0 & Hd0 & Ho0 & Hf0). cbn [mbind outcome_bind].
  destruct (trace_open_ok ord acc i0 f env H0 He Ht0 Hp0 Hb0)
    as (i1 & f1 & -> & H1 & C1 & O1 & F1 & T1 & P1 & D1 & E1). cbn [mbind outcome_bind].
  rewrite bool_decide_eq_true_2 by done. cbn [negb].
  destruct (set_report_start ord acc i1 f1 H1) as (H2 & (S1 & S2 & _ & S3 & S4 & _) & D2 & M2).
  set (i2 := if _ =? _ then _ else i1) in *.
  destruct (input_loop_ok ord turns acc i2 f1) as (r & i' & Hrun & f' & Hres); auto; try congruence.
  { intros Hon2. rewrite M2, S2. apply C1. congruence. }
  { intros Ho. destruct (Hord Ho) as [Hoff Hfol]. rewrite E1 by congruence. split; [congruence | done]. }
  exists r, i'. split; [done|]. exists f'. destruct Hres as (R1 & R2 & R3 & R4 & R5 & R6 & R7 & R8 & R9).
  split; [done|]. split; [done|]. split; [congruence|]. split; [congruence|].
  do 4 (split; [done|]). intros Ho. destruct (Hord Ho) as [Hoff _]. rewrite R9, E1 by congruence. done.
Qed.

(** ** The end of the input *)

Lemma finish_ok ord acc i f : input_inv ord acc i f -> clocked i f -> i_dumper i = None ->
  exists i' fin, dns_input_finish clock trace_dropped i = Ok i' /\
    i_output i' = (i_output i ++ [f]) ++ [fin] /\ frame_type fin = 1 /\ packets fin = [] /\
    i_mem i' = i_mem i /\ i_frame i' = None /\ i_trace i' = i_trace i /\ i_packet i' = i_packet i /\
    i_dumper i' = None.
Proof.
  intros H C Hd. unfold dns_input_finish. rewrite (ii_frame _ _ _ _ H), bool_decide_eq_true_2 by eauto.
  cbn [c_assert mbind outcome_bind]. unfold dns_input_output_frame.
  rewrite (ii_frame _ _ _ _ H), bool_decide_eq_true_2 by eauto. cbn [c_assert mbind outcome_bind].
  destruct (report_ok ord acc i f false H C) as (last & st & n & -> & Hl). cbn [mbind outcome_bind].
  cbn [i_frame set_report]. rewrite (ii_frame _ _ _ _ H). cbn. rewrite Hd.
  eexists _, _. split; [reflexivity|]. cbn. done.
Qed.

(** The configured parameters are usable. *)
Record input_config (i : dns_input) : Prop := {
  ic_fmd : 0 < i_frame_max_duration i <= TMAX;
  ic_grace : 0 <= i_real_time_grace i <= TMAX;
  ic_period : - 2 ^ 31 <= i_report_period_sec i < 2 ^ 31;
  ic_dumper : i_dumper i = None;
}.

Lemma create_input_inv conf i ord : dns_input_create conf = Ok i -> input_config i ->
  input_inv ord [] i (dns_packet_frame_create DNS_NO_TIME DNS_NO_TIME) /\
  i_trace i = false /\ i_packet i = false /\ i_bpf_filter i = false /\ i_online i = false.
Proof.
  unfold dns_input_create. intros Hcr C. inv_ok. destruct C as [C1 C2 C3 C4]. cbn in *.
  split; [|done]. split; cbn; try done; [by left | | | |].
  - apply Forall_singleton. split; [done|]. by left.
  - constructor.
  - intros l [p Hp]. done.
  - intros _. constructor.
Qed.

(** Reading one trace to its end and closing the input: [online] says
    whether it is a live capture, as [main] sets it before. *)
Definition collect (env : open_env) (i : dns_input) (online : bool) (uri : list Z) (turns : list turn)
    : outcome dns_input :=
  '(_, i) ← dns_input_process clock trace_dropped env (set_source i (i_uri i) online)
              (if online then None else Some uri) turns;
  dns_input_finish clock trace_dropped i.

Lemma captured_ts turns p : p ∈ captured turns -> turns_ok turns -> 0 <= ts p <= TMAX.
Proof.
  induction turns as [|t turns IH]; cbn; [set_solver|].
  destruct (t_stop t); [set_solver|]. destruct (t_event t) as [tp env| | |sr e|]; [| set_solver | | | set_solver].
  - intros [Hin|Hin]%elem_of_app [(r & o & Hcr & Hts) Hok]; [|auto]. unfold capture in Hin.
    rewrite Hcr in Hin. destruct r, o as [q|]; try (by apply not_elem_of_nil in Hin).
    apply list_elem_of_singleton in Hin as ->. by apply Hts.
  - intros Hin [_ Hok]. auto.
  - destruct (_ && _); [set_solver | auto].
Qed.

Lemma collect_ok conf i env online uri turns (ord : Prop) : dns_input_create conf = Ok i ->
  input_config i -> opens env -> turns_ok turns ->
  (ord -> online = false /\ StronglySorted Z.le (map ts (captured turns))) ->
  exists i' j f fin, collect env i online uri turns = Ok i' /\
    input_inv ord (captured turns) j f /\ i_output i' = (i_output j ++ [f]) ++ [fin] /\
    frame_type fin = 1 /\ packets fin = [] /\ i_mem i' = i_mem j /\
    i_frame_max_duration j = i_frame_max_duration i /\ dns_input_destroy i' = Ok ().
Proof.
  intros Hcr C He Hok Hord. destruct (create_input_inv conf i ord Hcr C) as (H & Ht & Hp & Hb & Hon).
  set (f0 := dns_packet_frame_create DNS_NO_TIME DNS_NO_TIME) in *.
  destruct (process_ok ord [] (set_source i (i_uri i) online) f0 env (if online then None else Some uri) turns)
    as (r & i1 & Hrun & f1 & H1 & C1 & _ & E1 & T1 & P1 & _ & D1 & _); auto.
  - by apply input_inv_source.
  - apply C.
  - cbn. by destruct online.
  - intros Ho. destruct (Hord Ho) as [-> Hs]. split; [done|]. unfold follows. constructor; [done|].
    apply Forall_forall. intros x (p & -> & Hin)%list_elem_of_fmap. cbn.
    pose proof (captured_ts turns p Hin Hok).
    unfold DNS_NO_TIME, INT64_MIN. lia.
  - destruct (finish_ok ord (captured turns) i1 f1 H1 C1 D1) as (i' & fin & Hfin & Ho & Hty & Hpk & Hm & Hfr & Ht' & Hp' & Hd').
    exists i', i1, f1, fin. unfold collect. rewrite Hrun. cbn [mbind outcome_bind]. split; [done|].
    split; [done|]. do 4 (split; [done|]). split; [done|].
    unfold dns_input_destroy. by rewrite Ht', Hp', Hfr, Hd', T1, P1.
Qed.

(** ** Properties *)

(** C7: when no dump is configured, and the frame duration, the grace period
    and the report period are in range ([input_config]), reading a trace to its
    end, live or from a file, terminates without failure for any events whose
    packets do not stop the collector.  The frames handed over hold the accepted packets in order and each once,
    the last frame is the only final one and empty, and every other frame
    is either empty and without time, or an interval not longer than the
    maximal frame duration whose packets are no later than its end.  The
    input can then be destroyed. *)
Theorem input_frames (conf : dns_config) (i : dns_input) (env : open_env) (online : bool)
    (uri : list Z) (turns : list turn) :
  dns_input_create conf = Ok i -> input_config i -> opens env -> turns_ok turns ->
  exists i' body fin, collect env i online uri turns = Ok i' /\
    i_output i' = body ++ [fin] /\ frame_type fin = 1 /\ packets fin = [] /\
    Forall (input_frame (i_mem i') (i_frame_max_duration i)) body /\
    map (i_mem i' !!.) (flat_map packets body) = map Some (captured turns) /\
    NoDup (flat_map packets body) /\ dns_input_destroy i' = Ok ().
Proof.
  intros Hcr C He Hok.
  destruct (collect_ok conf i env online uri turns False Hcr C He Hok)
    as (i' & j & f & fin & Hrun & H & Ho & Hty & Hp & Hm & Hf & Hd); [done|].
  exists i', (i_output j ++ [f]), fin. rewrite Hm, <- Hf. do 4 (split; [done|]).
  split; [apply H|]. split; [apply H|]. split; [apply H | done].
Qed.

(** When a file's packets come in time order, so do all the times of the
    frames built from it: start, packets and end of each frame, frame after
    frame. *)
Theorem input_order (conf : dns_config) (i : dns_input) (env : open_env) (uri : list Z)
    (turns : list turn) :
  dns_input_create conf = Ok i -> input_config i -> opens env -> turns_ok turns ->
  StronglySorted Z.le (map ts (captured turns)) ->
  exists i', collect env i false uri turns = Ok i' /\
    StronglySorted Z.le (flat_map (frame_times (i_mem i')) (i_output i')).
Proof.
  intros Hcr C He Hok Hs.
  destruct (collect_ok conf i env false uri turns True Hcr C He Hok)
    as (i' & j & f & fin & Hrun & H & Ho & Hty & _ & Hm & _); [done|].
  exists i'. split; [done|]. rewrite Ho, Hm, flat_map_app. cbn [flat_map].
  replace (frame_times (i_mem j) fin) with (@nil Z) by (unfold frame_times; by rewrite Hty).
  rewrite !app_nil_r. by apply H.
Qed.

End inv.

(** A live capture whose trace cannot be opened leaves the frame without
    a time; the report at the end of the input then subtracts [DNS_NO_TIME],
    a signed overflow. *)
Theorem input_report_overflow `{K : Libknot} `{L : Libc} `{T : Libtrace} (clock trace_dropped : nat -> Z)
    (i : dns_input) (f : dns_packet_frame) :
  i_online i = true -> i_frame i = Some f -> time_end f = DNS_NO_TIME ->
  i_last_report_time i = DNS_NO_TIME -> 0 <= clock (i_ticks i) <= TMAX ->
  0 <= i_report_period_sec i < 2 ^ 31 ->
  dns_input_finish clock trace_dropped i = Fail UndefinedBehaviour.
Proof.
  intros Ho Hf He Hl Hc Hp. unfold dns_input_finish, dns_input_output_frame, dns_input_report, dns_current_us_time.
  rewrite Hf. cbn [is_Some]. rewrite bool_decide_eq_true_2 by eauto. cbn [c_assert mbind outcome_bind].
  cbn [i_report_period_sec i_last_report_time set_report]. rewrite next_rotation_ok; [|lia|].
  2: { destruct (_ =? _); unfold TMAX in *; int_lia. }
  cbn [mbind outcome_bind]. rewrite Hl.
  replace (DNS_NO_TIME + 1000000 * i_report_period_sec i <? _) with true.
  2: { symmetry. apply Z.ltb_lt. destruct (_ =? _); unfold DNS_NO_TIME, TMAX in *; int_lia. }
  cbn [negb i_frame i_online set_report i_trace]. rewrite Z.eqb_refl, Hf, Ho, He. cbn [mbind outcome_bind].
  assert (E : i64 (clock (i_ticks i) - DNS_NO_TIME) = Fail UndefinedBehaviour).
  { unfold i64. replace (in_i64 _) with false; [done|].
    unfold in_i64, DNS_NO_TIME, INT64_MIN, INT64_MAX. lia. }
  by rewrite E.
Qed.

(** When applying the packet filter to one file fails, the filter object
    stays; processing the next file then fails an assertion instead of
    being reported as an error. *)
Theorem input_filter_error `{K : Libknot} `{L : Libc} `{T : Libtrace} (clock trace_dropped : nat -> Z)
    (i : dns_input) (env env2 : open_env) (uri uri2 : list Z) (turns turns2 : list turn) :
  i_online i = false -> i_trace i = false -> i_packet i = false -> i_bpf_filter i = false ->
  oe_trace_err env = false -> 0 <= oe_snaplen env -> oe_filter env < 0 ->
  oe_trace_err env2 = false -> 0 <= oe_snaplen env2 ->
  exists i', dns_input_process clock trace_dropped env i (Some uri) turns = Ok (DNS_RET_ERR, i') /\
    dns_input_process clock trace_dropped env2 i' (Some uri2) turns2 = Fail AssertFailed.
Proof.
  intros Ho Ht Hp Hb He Hs Hf He2 Hs2.
  unfold dns_input_process, dns_input_trace_open. rewrite Ho. cbn. rewrite Ht, Hp. cbn. rewrite He. cbn.
  rewrite ?Ho. cbn. rewrite ?andb_false_r.
  destruct (Z.ltb_spec (if i_snaplen i >? 0 then oe_snaplen env else 0) 0); [case_match; lia|].
  rewrite Hb. cbn. destruct (Z.ltb_spec (oe_filter env) 0); [|lia]. cbn.
  eexists. split; [done|]. cbn. rewrite ?Ho, ?Hp. cbn. rewrite He2. cbn. rewrite ?Ho. cbn. rewrite ?andb_false_r.
  destruct (Z.ltb_spec (if i_snaplen i >? 0 then oe_snaplen env2 else 0) 0); [case_match; lia|]. done.
Qed.

(** ** Closed examples *)

Section examples.
#[local] Existing Instances Sample.sample_knot Sample.sample_trace sample_libc.

Definition sample_clock : nat -> Z := fun n => 200000000 + Z.of_nat n `mod` 1000.
Definition no_drops : nat -> Z := fun _ => 0.

Lemma sample_clock_ok n : 0 <= sample_clock n <= TMAX.
Proof. unfold sample_clock, TMAX. div_lia. Qed.

(** The input with the default configuration. *)
Definition sample_input : dns_input :=
  {| i_uri := []; i_snaplen := -1; i_promisc := 1; i_bpf_string := []; i_online := false;
     i_frame_max_duration := 500000; i_frame_max_size := 262144; i_real_time_grace := 100000;
     i_report_period_sec := 60; i_last_report_time := DNS_NO_TIME;
     i_stats := {| total_packets_dropped := 0; total_packets_read := 0; total_bytes_read := 0;
                   current_packets_dropped := 0; current_packets_read := 0; current_bytes_read := 0 |};
     i_bpf_filter := false; i_trace := false; i_packet := false;
     i_frame := Some (dns_packet_frame_create DNS_NO_TIME DNS_NO_TIME);
     i_output := []; i_dumper := None; i_mem := ∅; i_ticks := O |}.

Lemma sample_input_create : dns_input_create dns_collector_conf_init = Ok sample_input.
Proof. vm_compute. reflexivity. Qed.

Lemma sample_input_config : input_config sample_input.
Proof. by split; vm_compute. Qed.

Definition sample_open (filter : Z) : open_env :=
  {| oe_trace_err := false; oe_snaplen := 0; oe_promisc := 0; oe_filter := filter; oe_start := 0;
     oe_packet_ok := true |}.

(** A query, its answer, the end of the file. *)
Definition sample_turns : list turn :=
  [ {| t_stop := false; t_event := TRACE_EVENT_PACKET sample_query (env_write 0) |};
    {| t_stop := false; t_event := TRACE_EVENT_PACKET sample_answer (env_write 0) |};
    {| t_stop := false; t_event := TRACE_EVENT_TERMINATE false |} ].

Lemma sample_turns_ok : turns_ok sample_turns.
Proof.
  repeat split; (eexists _, _; split; [vm_compute; reflexivity|]; intros p [= <-]; vm_compute; split; discriminate).
Qed.

Lemma input_frames_witness : exists i' body fin,
  collect sample_clock no_drops (sample_open 0) sample_input false [] sample_turns = Ok i' /\
  i_output i' = body ++ [fin] /\
  map (i_mem i' !!.) (flat_map packets body) = [Some (packet_of sample_query); Some (packet_of sample_answer)].
Proof.
  destruct (input_frames sample_clock no_drops sample_clock_ok dns_collector_conf_init sample_input (sample_open 0)
              false [] sample_turns) as (i' & body & fin & H & Ho & _ & _ & _ & Hp & _).
  - apply sample_input_create.
  - apply sample_input_config.
  - by vm_compute.
  - apply sample_turns_ok.
  - exists i', body, fin. split; [done|]. split; [done|]. rewrite Hp. vm_compute. reflexivity.
Defined.

Lemma input_order_witness : exists i',
  collect sample_clock no_drops (sample_open 0) sample_input false [] sample_turns = Ok i' /\
  StronglySorted Z.le (flat_map (frame_times (i_mem i')) (i_output i')).
Proof.
  apply (input_order sample_clock no_drops sample_clock_ok dns_collector_conf_init).
  - apply sample_input_create.
  - apply sample_input_config.
  - by vm_compute.
  - apply sample_turns_ok.
  - repeat constructor; vm_compute; discriminate.
Defined.

Lemma input_report_overflow_witness :
  dns_input_finish sample_clock no_drops (set_source sample_input [] true) = Fail UndefinedBehaviour.
Proof.
  apply (input_report_overflow sample_clock no_drops _ (dns_packet_frame_create DNS_NO_TIME DNS_NO_TIME));
    try reflexivity; by vm_compute.
Defined.

Lemma input_filter_error_witness : exists i',
  dns_input_process sample_clock no_drops (sample_open (-1)) sample_input (Some [97]) sample_turns = Ok (DNS_RET_ERR, i') /\
  dns_input_process sample_clock no_drops (sample_open 0) i' (Some [98]) sample_turns = Fail AssertFailed.
Proof. apply input_filter_error; by vm_compute. Defined.

End examples.
