(* ===== verification/Output.v ===== *)
(** * Output base ([src/output.h], [src/output.c])

    The output thread writes packets through the hooks of a format to a file,
    to standard output or to a subprocess, and rotates its files.  The hooks
    are the class [OutputFormat]: its law says what a format may do, and
    [OutputCsv] and [OutputCbor] are its instances.  What the system answers
    is an argument: [sys_open n], [sys_spawn n] and [sys_wait wait n] are the answers
    to the calls made at tick [n]. *)

From stdpp Require Import base numbers strings gmap list.
From S2P Require Import Prelude Doubles Common Libs Packet PacketFrame Config TimeFmt.

(** [waitpid] with the pid of the subprocess. *)
Inductive wait_result : Set :=
| WaitError
| WaitRunning
| WaitAbnormal
| WaitExited (status : Z).

(** What [pipe], [fork] and [close] return while a subprocess is started. *)
Record spawn : Set := { sp_pipe : Z; sp_fork : Z; sp_close : Z }.

(** [dns_output_start_subprocess], the pid of the subprocess; in the child
    ([fork] returns 0) the function does not return. *)
Definition dns_output_start_subprocess (s : spawn) : outcome Z :=
  if negb (sp_pipe s =? 0) then Fail (Died "pipe() error")
  else if sp_fork s <? 0 then Fail (Died "fork() error")
  else if sp_fork s =? 0 then Fail (Died "failed to exec")
  else if negb (sp_close s =? 0) then Fail (Died "close() error")
  else Ok (sp_fork s).

Section output.
Context `{K : Libknot} `{L : Libc}.
Context (sys_open : nat -> bool) (sys_spawn : nat -> spawn) (sys_wait : bool -> nat -> wait_result).

Abbreviation mem := (gmap loc dns_packet).

(** [struct dns_output]; [o_file] is the open [FILE] as the bytes written to
    it, [o_closed] the files closed so far: opening time, path, bytes.
    [o_extra] are the files the hooks wrote apart from the output. *)
Record dns_output : Set := {
  o_file : option (list Z);
  o_period_sec : Z;
  o_opened : Z;
  total_items : Z;
  total_request_only : Z;
  total_response_only : Z;
  total_bytes : Z;
  current_items : Z;
  current_request_only : Z;
  current_response_only : Z;
  current_bytes : Z;
  o_current_time : Z;
  o_path : option (list Z);
  o_path_fmt : list Z;
  o_pipe_cmd : list Z;
  o_pipe_pid : Z;
  o_closed : list (Z * list Z * list Z);
  o_extra : list (list Z * list Z);
  o_ticks : nat;
}.

(** [dns_output_init]; a NULL format or command is the empty string. *)
Definition dns_output_init (path_fmt pipe_cmd : option (list Z)) (period_sec : Z) : dns_output :=
  {| o_file := None; o_period_sec := period_sec; o_opened := DNS_NO_TIME;
     total_items := 0; total_request_only := 0; total_response_only := 0; total_bytes := 0;
     current_items := 0; current_request_only := 0; current_response_only := 0; current_bytes := 0;
     o_current_time := DNS_NO_TIME; o_path := None;
     o_path_fmt := default [] path_fmt; o_pipe_cmd := default [] pipe_cmd;
     o_pipe_pid := 0; o_closed := []; o_extra := []; o_ticks := O |}.

(** Assignments to groups of members. *)
Definition set_proc (o : dns_output) (pid : Z) (ticks : nat) : dns_output :=
  {| o_file := o_file o; o_period_sec := o_period_sec o; o_opened := o_opened o;
     total_items := total_items o; total_request_only := total_request_only o;
     total_response_only := total_response_only o; total_bytes := total_bytes o;
     current_items := current_items o; current_request_only := current_request_only o;
     current_response_only := current_response_only o; current_bytes := current_bytes o;
     o_current_time := o_current_time o; o_path := o_path o; o_path_fmt := o_path_fmt o;
     o_pipe_cmd := o_pipe_cmd o; o_pipe_pid := pid; o_closed := o_closed o; o_extra := o_extra o;
     o_ticks := ticks |}.

Definition set_file (o : dns_output) (file : option (list Z)) (path : option (list Z)) : dns_output :=
  {| o_file := file; o_period_sec := o_period_sec o; o_opened := o_opened o;
     total_items := total_items o; total_request_only := total_request_only o;
     total_response_only := total_response_only o; total_bytes := total_bytes o;
     current_items := current_items o; current_request_only := current_request_only o;
     current_response_only := current_response_only o; current_bytes := current_bytes o;
     o_current_time := o_current_time o; o_path := path; o_path_fmt := o_path_fmt o;
     o_pipe_cmd := o_pipe_cmd o; o_pipe_pid := o_pipe_pid o; o_closed := o_closed o;
     o_extra := o_extra o; o_ticks := o_ticks o |}.

Definition set_otime (o : dns_output) (opened current : Z) : dns_output :=
  {| o_file := o_file o; o_period_sec := o_period_sec o; o_opened := opened;
     total_items := total_items o; total_request_only := total_request_only o;
     total_response_only := total_response_only o; total_bytes := total_bytes o;
     current_items := current_items o; current_request_only := current_request_only o;
     current_response_only := current_response_only o; current_bytes := current_bytes o;
     o_current_time := current; o_path := o_path o; o_path_fmt := o_path_fmt o;
     o_pipe_cmd := o_pipe_cmd o; o_pipe_pid := o_pipe_pid o; o_closed := o_closed o;
     o_extra := o_extra o; o_ticks := o_ticks o |}.

(** The sums and resets of [dns_output_close], with the closed file. *)
Definition set_totals (o : dns_output) (closed : list (Z * list Z * list Z)) : dns_output :=
  {| o_file := None; o_period_sec := o_period_sec o; o_opened := o_opened o;
     total_items := u64 (total_items o + current_items o);
     total_request_only := u64 (total_request_only o + current_request_only o);
     total_response_only := u64 (total_response_only o + current_response_only o);
     total_bytes := u64 (total_bytes o + current_bytes o);
     current_items := 0; current_request_only := 0; current_response_only := 0; current_bytes := 0;
     o_current_time := o_current_time o; o_path := None; o_path_fmt := o_path_fmt o;
     o_pipe_cmd := o_pipe_cmd o; o_pipe_pid := o_pipe_pid o; o_closed := closed;
     o_extra := o_extra o; o_ticks := o_ticks o |}.

(** [fwrite] of [bytes] to the open file, added to [current_bytes].  The write
    is assumed to succeed: the source does not look at its result. *)
Definition emit (o : dns_output) (bytes : list Z) : dns_output :=
  {| o_file := (.++ bytes) <$> o_file o; o_period_sec := o_period_sec o; o_opened := o_opened o;
     total_items := total_items o; total_request_only := total_request_only o;
     total_response_only := total_response_only o; total_bytes := total_bytes o;
     current_items := current_items o; current_request_only := current_request_only o;
     current_response_only := current_response_only o;
     current_bytes := u64 (current_bytes o + Z.of_nat (length bytes));
     o_current_time := o_current_time o; o_path := o_path o; o_path_fmt := o_path_fmt o;
     o_pipe_cmd := o_pipe_cmd o; o_pipe_pid := o_pipe_pid o; o_closed := o_closed o;
     o_extra := o_extra o; o_ticks := o_ticks o |}.

(** A file written beside the output. *)
Definition add_extra (o : dns_output) (path bytes : list Z) : dns_output :=
  {| o_file := o_file o; o_period_sec := o_period_sec o; o_opened := o_opened o;
     total_items := total_items o; total_request_only := total_request_only o;
     total_response_only := total_response_only o; total_bytes := total_bytes o;
     current_items := current_items o; current_request_only := current_request_only o;
     current_response_only := current_response_only o; current_bytes := current_bytes o;
     o_current_time := o_current_time o; o_path := o_path o; o_path_fmt := o_path_fmt o;
     o_pipe_cmd := o_pipe_cmd o; o_pipe_pid := o_pipe_pid o; o_closed := o_closed o;
     o_extra := o_extra o ++ [(path, bytes)]; o_ticks := S (o_ticks o) |}.

(** [DNS_PACKET_REQUEST] and [DNS_PACKET_RESPONSE] of [packet.h]: the packet
    itself, the attached response, or none. *)
Definition DNS_PACKET_REQUEST (p : dns_packet) : option dns_packet :=
  if DNS_PACKET_IS_REQUEST p then Some p else None.

Definition DNS_PACKET_RESPONSE (p : dns_packet) (attached : option dns_packet) : option dns_packet :=
  if DNS_PACKET_IS_RESPONSE p then Some p else attached.

(** The packet behind [pkt->response]. *)
Definition attached (m : mem) (p : dns_packet) : outcome (option dns_packet) :=
  match response p with
  | None => Ok None
  | Some r => pr ← deref (m !! r); Ok (Some pr)
  end.

(** The accounting both formats do for a packet. *)
Definition account (o : dns_output) (no_response no_request : bool) : dns_output :=
  {| o_file := o_file o; o_period_sec := o_period_sec o; o_opened := o_opened o;
     total_items := total_items o; total_request_only := total_request_only o;
     total_response_only := total_response_only o; total_bytes := total_bytes o;
     current_items := u64 (current_items o + 1);
     current_request_only := if no_response then u64 (current_request_only o + 1) else current_request_only o;
     current_response_only := if no_request then u64 (current_response_only o + 1) else current_response_only o;
     current_bytes := current_bytes o;
     o_current_time := o_current_time o; o_path := o_path o; o_path_fmt := o_path_fmt o;
     o_pipe_cmd := o_pipe_cmd o; o_pipe_pid := o_pipe_pid o; o_closed := o_closed o;
     o_extra := o_extra o; o_ticks := o_ticks o |}.

(** The accounting of packet [p] with attached response [q]. *)
Definition account_packet (o : dns_output) (p : dns_packet) (q : option dns_packet) : dns_output :=
  account o (negb (bool_decide (is_Some (DNS_PACKET_RESPONSE p q))))
    (negb (bool_decide (is_Some (DNS_PACKET_REQUEST p)))).

(** The hooks of a format, and what they promise: [start_file] writes the
    format's header, if it has one, to the open file and may write another
    file; [write_packet] appends the record of the packet and accounts for
    it.  Neither format sets [finish_file]. *)
Class OutputFormat : Type := {
  start_file : dns_output -> Z -> outcome dns_output;
  write_packet : mem -> dns_output -> dns_packet -> outcome dns_output;
  header : list Z;
  record : dns_packet -> option dns_packet -> outcome (list Z);
  start_file_law : forall o time o', is_Some (o_file o) -> start_file o time = Ok o' ->
    exists o1, (o1 = o /\ header = [] \/ o1 = emit o header) /\
      (o' = o1 \/ exists path hdr, o' = add_extra o1 path hdr);
  write_packet_law : forall m o p, is_Some (o_file o) ->
    write_packet m o p = (q ← attached m p; b ← record p q; Ok (account_packet (emit o b) p q));
}.

Context `{F : OutputFormat}.

(** [dns_output_wait_for_pipe_process]. *)
Definition dns_output_wait_for_pipe_process (o : dns_output) (wait : bool) : outcome (Z * dns_output) :=
  if o_pipe_pid o <=? 0 then Ok (0, o)
  else
    match sys_wait wait (o_ticks o) with
    | WaitError => Fail (Died "waitpid() error")
    | WaitRunning => if wait then Fail Blocked else Ok (0, set_proc o (o_pipe_pid o) (S (o_ticks o)))
    | WaitAbnormal => Ok (2, set_proc o 0 (S (o_ticks o)))
    | WaitExited status => Ok (if status =? 0 then 1 else 2, set_proc o 0 (S (o_ticks o)))
    end.

Definition DNS_OUTPUT_FILENAME_EXTRA : Z := 64.

(** The path of [dns_output_open]. *)
Definition expand_path (o : dns_output) (time : Z) : outcome (list Z) :=
  match o_path_fmt o with
  | [] => Ok []
  | _ =>
      s ← dns_us_time_strftime (Z.of_nat (length (o_path_fmt o)) + DNS_OUTPUT_FILENAME_EXTRA)
            (o_path_fmt o) time;
      match s with
      | None => Fail (Died "Expanded filename")
      | Some s => Ok s
      end
  end.

(** [dns_output_open]: a subprocess, a file, or a copy of standard output.
    [sys_open] is whether the descriptor could be opened; for a subprocess
    [sys_spawn] are the answers to the calls that start it. *)
Definition dns_output_open (o : dns_output) (time : Z) : outcome dns_output :=
  _ ← c_assert (negb (bool_decide (is_Some (o_path o))) && negb (bool_decide (is_Some (o_file o))) &&
                negb (time =? DNS_NO_TIME));
  path ← expand_path o time;
  let n := o_ticks o in
  o ← match o_pipe_cmd o with
      | [] => Ok (set_proc o (o_pipe_pid o) (S n))
      | _ => pid ← dns_output_start_subprocess (sys_spawn n); Ok (set_proc o pid (S n))
      end;
  if negb (sys_open n) then Fail (Died "Unable to open output")
  else
    let o := set_file o (Some []) (Some path) in
    start_file (set_otime o time (MAX (o_current_time o) time)) time.

(** [dns_output_close]. *)
Definition dns_output_close (o : dns_output) (time : Z) : outcome dns_output :=
  _ ← c_assert (bool_decide (is_Some (o_file o)) && bool_decide (is_Some (o_path o)) && negb (time =? DNS_NO_TIME));
  file ← deref (o_file o);
  path ← deref (o_path o);
  let o := set_otime o (o_opened o) (MAX (o_current_time o) time) in
  d ← i64 (o_current_time o - o_opened o);
  _ ← dns_us_time_to_fsec d;
  let o := set_totals o (o_closed o ++ [(o_opened o, path, file)]) in
  '(r, o) ← dns_output_wait_for_pipe_process o true;
  if r =? 2 then Fail (Died "Pipe subprocess terminated with error") else Ok o.

(** [dns_output_check_rotation]. *)
Definition dns_output_check_rotation (o : dns_output) (time : Z) : outcome dns_output :=
  _ ← c_assert (negb (time =? DNS_NO_TIME));
  o ← (if bool_decide (is_Some (o_file o)) && (o_period_sec o >? 0)
       then rot ← dns_next_rotation 0 (o_period_sec o) (o_opened o) time;
            if (rot : bool) then dns_output_close o time else Ok o
       else Ok o);
  o ← (if bool_decide (is_Some (o_file o)) then Ok o else dns_output_open o time);
  Ok (set_otime o (o_opened o) (MAX (o_current_time o) time)).

(** One packet of a frame. *)
Definition output_packet_step (m : mem) (o : dns_output) (l : loc) : outcome dns_output :=
  p ← deref (m !! l);
  o ← dns_output_check_rotation o (ts p);
  write_packet m o p.

(** The body of the loop of [dns_output_main]: whether to go on. *)
Definition output_frame_step (m : mem) (o : dns_output) (f : dns_packet_frame)
    : outcome (bool * mem * dns_output) :=
  '(run, o) ← (if frame_type f =? 1 then _ ← c_assert (frame_count f =? 0); Ok (false, o)
               else if time_start f =? DNS_NO_TIME then _ ← c_assert (frame_count f =? 0); Ok (true, o)
               else
                 '(r, o) ← dns_output_wait_for_pipe_process o false;
                 if negb (r =? 0) then Fail (Died "Pipe subprocess terminated with error")
                 else
                   o ← dns_output_check_rotation o (time_start f);
                   o ← foldM (output_packet_step m) o (packets f);
                   Ok (true, o));
  m ← dns_packet_frame_destroy m f;
  Ok (run, m, o).

(** The loop: it waits forever when no final frame comes. *)
Fixpoint output_loop (m : mem) (o : dns_output) (fs : list dns_packet_frame) : outcome (mem * dns_output) :=
  match fs with
  | [] => Fail Blocked
  | f :: fs =>
      '(run, m, o) ← output_frame_step m o f;
      if (run : bool) then output_loop m o fs else Ok (m, o)
  end.

(** [dns_output_main]. *)
Definition dns_output_main (m : mem) (o : dns_output) (fs : list dns_packet_frame)
    : outcome (mem * dns_output) :=
  '(m, o) ← output_loop m o fs;
  o ← (if bool_decide (is_Some (o_file o)) then dns_output_close o (o_current_time o) else Ok o);
  Ok (m, o).

(** [dns_output_finalize]. *)
Definition dns_output_finalize (o : dns_output) (running : bool) : outcome unit :=
  _ ← c_assert (negb (bool_decide (is_Some (o_path o))));
  if running then Fail (Died "destroying a running output") else Ok ().

End output.
