(* ===== verification/CborEncoder.v ===== *)
(** * The CBOR encoder ([tinycbor/src/cborencoder.c], [tinycbor/src/cbor.h])

    The encoder the CBOR output uses, as it is vendored in the repository.
    An encoder writes into a buffer it shares with the encoders of enclosing
    containers: every function takes the buffer and the encoder and returns
    the error code with both updated.  [Cbor] holds the data
    items of definite length, their encoding after RFC 7049 and a decoder; the
    functions are proved to append exactly that encoding, and the decoder to
    read it back. *)

From stdpp Require Import base numbers gmap list.
From S2P Require Import Prelude.

(** ** Data items, their encoding and a decoder *)

Module Cbor.

Inductive item : Set :=
| CUInt (n : Z)
| CNInt (n : Z)        (* the integer [-1 - n] *)
| CBytes (bs : list Z)
| CText (bs : list Z)
| CArray (l : list item)
| CSimple (n : Z)
| CDouble (bits : Z)
| CMap (l : list item)     (* keys and values in turn *)
| CTag (n : Z) (i : item)
| CHalf (bits : Z)
| CFloat (bits : Z).

(** The initial byte and the argument that follows it. *)
Definition head_bytes (major n : Z) : list Z :=
  if n <? 24 then [32 * major + n]
  else if n <=? 255 then (32 * major + 24) :: be_bytes 1 n
  else if n <=? 65535 then (32 * major + 25) :: be_bytes 2 n
  else if n <=? 4294967295 then (32 * major + 26) :: be_bytes 4 n
  else (32 * major + 27) :: be_bytes 8 n.

Fixpoint encode (i : item) : list Z :=
  match i with
  | CUInt n => head_bytes 0 n
  | CNInt n => head_bytes 1 n
  | CBytes bs => head_bytes 2 (Z.of_nat (length bs)) ++ bs
  | CText bs => head_bytes 3 (Z.of_nat (length bs)) ++ bs
  | CArray l => head_bytes 4 (Z.of_nat (length l)) ++ flat_map encode l
  | CSimple n => head_bytes 7 n
  | CDouble bits => 251 :: be_bytes 8 bits
  | CMap l => head_bytes 5 (Z.of_nat (Nat.div2 (length l))) ++ flat_map encode l
  | CTag n i => head_bytes 6 n ++ encode i
  | CHalf bits => 249 :: be_bytes 2 bits
  | CFloat bits => 250 :: be_bytes 4 bits
  end.

(** The integer item of a signed number. *)
Definition of_int (z : Z) : item := if z <? 0 then CNInt (-1 - z) else CUInt z.

(** Decoding: the argument of an initial byte with the rest of the input. *)
Definition take_be (n : nat) (bs : list Z) : option (Z * list Z) :=
  if (length bs <? n)%nat then None else Some (be_int (take n bs), drop n bs).

Definition decode_arg (low : Z) (bs : list Z) : option (Z * list Z) :=
  if low <? 24 then Some (low, bs)
  else if low =? 24 then take_be 1 bs
  else if low =? 25 then take_be 2 bs
  else if low =? 26 then take_be 4 bs
  else if low =? 27 then take_be 8 bs
  else None.

Definition decode_string (n : Z) (bs : list Z) : option (list Z * list Z) :=
  if Z.of_nat (length bs) <? n then None else Some (take (Z.to_nat n) bs, drop (Z.to_nat n) bs).

Fixpoint decode_items (decode : list Z -> option (item * list Z)) (k : nat) (bs : list Z) : option (list item * list Z) :=
  match k with
  | O => Some ([], bs)
  | S k => '(i, bs) ← decode bs; '(l, bs) ← decode_items decode k bs; Some (i :: l, bs)
  end.

(** Simple values and floating point numbers, by the low bits. *)
Definition decode_simple (low : Z) (bs : list Z) : option (item * list Z) :=
  if low =? 27 then '(n, bs) ← take_be 8 bs; Some (CDouble n, bs)
  else if low =? 26 then '(n, bs) ← take_be 4 bs; Some (CFloat n, bs)
  else if low =? 25 then '(n, bs) ← take_be 2 bs; Some (CHalf n, bs)
  else if low =? 24 then '(n, bs) ← take_be 1 bs; if n <? 32 then None else Some (CSimple n, bs)
  else if low <? 24 then Some (CSimple low, bs) else None.

Fixpoint decode (fuel : nat) (bs : list Z) {struct fuel} : option (item * list Z) :=
  match fuel, bs with
  | S fuel, b :: bs =>
      let major := b / 32 in
      let low := b mod 32 in
      if major =? 7 then decode_simple low bs
      else
        '(n, bs) ← decode_arg low bs;
        if major =? 0 then Some (CUInt n, bs)
        else if major =? 1 then Some (CNInt n, bs)
        else if major =? 2 then '(s, bs) ← decode_string n bs; Some (CBytes s, bs)
        else if major =? 3 then '(s, bs) ← decode_string n bs; Some (CText s, bs)
        else if major =? 4 then '(l, bs) ← decode_items (decode fuel) (Z.to_nat n) bs; Some (CArray l, bs)
        else if major =? 5 then '(l, bs) ← decode_items (decode fuel) (2 * Z.to_nat n) bs; Some (CMap l, bs)
        else if major =? 6 then '(i, bs) ← decode fuel bs; Some (CTag n i, bs)
        else None
  | _, _ => None
  end.

(** Items whose numbers fit their fields, and the nesting depth. *)
Fixpoint wf (i : item) : Prop :=
  match i with
  | CUInt n | CNInt n => 0 <= n < 2 ^ 64
  | CBytes bs | CText bs => Z.of_nat (length bs) < 2 ^ 64
  | CArray l => Z.of_nat (length l) < 2 ^ 64 - 1 /\ foldr (fun i P => wf i /\ P) True l
  | CSimple n => 0 <= n < 24 \/ 32 <= n < 256
  | CDouble bits => 0 <= bits < 2 ^ 64
  | CMap l => Nat.Even (length l) /\ Z.of_nat (length l) < 2 ^ 64 - 1 /\ foldr (fun i P => wf i /\ P) True l
  | CTag n i => 0 <= n < 2 ^ 64 /\ wf i
  | CHalf bits => 0 <= bits < 2 ^ 16
  | CFloat bits => 0 <= bits < 2 ^ 32
  end.

Fixpoint depth (i : item) : nat :=
  match i with
  | CArray l | CMap l => S (foldr (fun i n => Nat.max (depth i) n) O l)
  | CTag _ i => S (depth i)
  | _ => 1
  end.

Lemma take_be_app n z rest : 0 <= z < 256 ^ Z.of_nat n ->
  take_be n (be_bytes n z ++ rest) = Some (z, rest).
Proof.
  intros Hz. unfold take_be. rewrite length_app, length_be_bytes.
  destruct (Nat.ltb_spec (n + length rest) n); [lia|].
  rewrite take_app_le by (rewrite length_be_bytes; lia).
  rewrite take_ge by (rewrite length_be_bytes; lia).
  rewrite drop_app_ge by (rewrite length_be_bytes; lia).
  rewrite length_be_bytes, Nat.sub_diag, be_int_be_bytes, Z.mod_small by done. done.
Qed.

(** Reading an initial byte gives back its major type and argument. *)
Lemma decode_head major n rest : 0 <= major < 7 -> 0 <= n < 2 ^ 64 ->
  exists b tl, head_bytes major n ++ rest = b :: tl /\ b / 32 = major /\
    decode_arg (b mod 32) tl = Some (n, rest).
Proof.
  intros Hm Hn.
  assert (Hb : forall low, 0 <= low < 32 -> (32 * major + low) / 32 = major /\ (32 * major + low) mod 32 = low).
  { intros low Hl. split; div_lia. }
  unfold head_bytes.
  destruct (Z.ltb_spec n 24); [|destruct (Z.leb_spec n 255); [|destruct (Z.leb_spec n 65535); [|destruct (Z.leb_spec n 4294967295)]]].
  - exists (32 * major + n), rest. destruct (Hb n) as [-> ->]; [lia|]. split; [done|]. split; [done|].
    unfold decode_arg. by destruct (Z.ltb_spec n 24); [|lia].
  - eexists _, _. split; [reflexivity|]. destruct (Hb 24) as [-> ->]; [lia|]. split; [done|].
    apply (take_be_app 1). cbn. lia.
  - eexists _, _. split; [reflexivity|]. destruct (Hb 25) as [-> ->]; [lia|]. split; [done|].
    apply (take_be_app 2). cbn. lia.
  - eexists _, _. split; [reflexivity|]. destruct (Hb 26) as [-> ->]; [lia|]. split; [done|].
    apply (take_be_app 4). cbn. lia.
  - eexists _, _. split; [reflexivity|]. destruct (Hb 27) as [-> ->]; [lia|]. split; [done|].
    apply (take_be_app 8). cbn. lia.
Qed.

Lemma decode_string_app s rest : decode_string (Z.of_nat (length s)) (s ++ rest) = Some (s, rest).
Proof.
  unfold decode_string. rewrite length_app. destruct (Z.ltb_spec (Z.of_nat (length s + length rest)) (Z.of_nat (length s))); [lia|].
  by rewrite Nat2Z.id, take_app_length, drop_app_length.
Qed.

(** Induction on items with the induction hypothesis for array elements. *)
Lemma item_ind' (P : item -> Prop) :
  (forall n, P (CUInt n)) -> (forall n, P (CNInt n)) -> (forall bs, P (CBytes bs)) ->
  (forall bs, P (CText bs)) -> (forall l, Forall P l -> P (CArray l)) ->
  (forall n, P (CSimple n)) -> (forall b, P (CDouble b)) -> (forall l, Forall P l -> P (CMap l)) ->
  (forall n i, P i -> P (CTag n i)) -> (forall b, P (CHalf b)) -> (forall b, P (CFloat b)) -> forall i, P i.
Proof.
  intros H1 H2 H3 H4 H5 H6 H7 H8 H9 H10 H11. fix IH 1.
  intros [n|n|bs|bs|l|n|b|l|n i|b|b]; [apply H1|apply H2|apply H3|apply H4|apply H5|apply H6|apply H7|apply H8|apply H9|apply H10|apply H11];
    [induction l as [|i l IHl]; constructor; [apply IH | apply IHl]..|apply IH].
Qed.

(** The elements of a container, one after another. *)
Lemma decode_items_encode fuel l rest :
  Forall (fun i => wf i -> forall fuel rest, (depth i <= fuel)%nat -> decode fuel (encode i ++ rest) = Some (i, rest)) l ->
  foldr (fun i P => wf i /\ P) True l -> (foldr (fun i n => Nat.max (depth i) n) O l <= fuel)%nat ->
  decode_items (decode fuel) (length l) (flat_map encode l ++ rest) = Some (l, rest).
Proof.
  intros IH Hwf Hf. revert rest. induction IH as [|i l IHi _ IHl]; intros rest; [done|].
  cbn [length flat_map foldr decode_items] in *. destruct Hwf as [Hi Hwf]. rewrite <- app_assoc.
  rewrite IHi by (done || lia). cbn. rewrite IHl by (done || lia). done.
Qed.

Lemma double_half l : Nat.Even (length (l : list item)) -> (2 * Nat.div2 (length l) = length l)%nat.
Proof. intros H. rewrite <- Nat.double_twice. symmetry. by apply Nat.Even_double. Qed.

Lemma decode_encode i : wf i -> forall fuel rest, (depth i <= fuel)%nat ->
  decode fuel (encode i ++ rest) = Some (i, rest).
Proof.
  induction i as [n|n|bs|bs|l IH|n|b|l IH|n i IH|b|b] using item_ind'; intros Hwf [|fuel] rest Hf; cbn [depth] in Hf; try lia;
    cbn [wf encode] in *.
  - destruct (decode_head 0 n rest) as (b & tl & -> & Hb & Ha); [lia..|]. cbn [decode].
    rewrite Hb. cbn [Z.eqb]. rewrite Ha. done.
  - destruct (decode_head 1 n rest) as (b & tl & -> & Hb & Ha); [lia..|]. cbn [decode].
    rewrite Hb. cbn [Z.eqb]. rewrite Ha. done.
  - rewrite <- app_assoc. destruct (decode_head 2 (Z.of_nat (length bs)) (bs ++ rest)) as (b & tl & -> & Hb & Ha); [lia..|].
    cbn [decode]. rewrite Hb. cbn [Z.eqb]. rewrite Ha. cbn. by rewrite decode_string_app.
  - rewrite <- app_assoc. destruct (decode_head 3 (Z.of_nat (length bs)) (bs ++ rest)) as (b & tl & -> & Hb & Ha); [lia..|].
    cbn [decode]. rewrite Hb. cbn [Z.eqb]. rewrite Ha. cbn. by rewrite decode_string_app.
  - rewrite <- app_assoc. destruct (decode_head 4 (Z.of_nat (length l)) (flat_map encode l ++ rest)) as (b & tl & -> & Hb & Ha); [lia..|].
    cbn [decode]. rewrite Hb. cbn [Z.eqb Pos.eqb]. rewrite Ha. cbn [mbind option_bind]. rewrite Nat2Z.id.
    rewrite decode_items_encode by (done || apply Hwf || lia). done.
  - unfold head_bytes. destruct (Z.ltb_spec n 24); [|destruct (Z.leb_spec n 255); [|lia]]; cbn [app decode].
    + destruct (Z.eqb_spec ((32 * 7 + n) / 32) 7); [|div_lia]. unfold decode_simple.
      replace ((32 * 7 + n) mod 32) with n by div_lia. by repeat (case_bool; try lia).
    + change ((32 * 7 + 24) / 32 =? 7) with true. change ((32 * 7 + 24) mod 32) with 24. unfold decode_simple. cbn [Z.eqb Pos.eqb].
      rewrite (take_be_app 1) by (cbn; lia). cbn [mbind option_bind]. by destruct (Z.ltb_spec n 32); [lia|].
  - cbn [app decode]. change (251 / 32 =? 7) with true. change (251 mod 32) with 27. unfold decode_simple. cbn [Z.eqb Pos.eqb].
    rewrite (take_be_app 8) by (cbn; lia). done.
  - destruct Hwf as (He & Hl & Hwf). rewrite <- app_assoc.
    pose proof (double_half l He) as Hd.
    destruct (decode_head 5 (Z.of_nat (Nat.div2 (length l))) (flat_map encode l ++ rest)) as (b & tl & -> & Hb & Ha); [lia..|].
    cbn [decode]. rewrite Hb. cbn [Z.eqb Pos.eqb]. rewrite Ha. cbn [mbind option_bind]. rewrite Nat2Z.id, Hd.
    rewrite decode_items_encode by (done || lia). done.
  - destruct Hwf as [Hn Hwf]. rewrite <- app_assoc.
    destruct (decode_head 6 n (encode i ++ rest)) as (b & tl & -> & Hb & Ha); [lia..|].
    cbn [decode]. rewrite Hb. cbn [Z.eqb Pos.eqb]. rewrite Ha. cbn [mbind option_bind]. rewrite IH by (done || lia). done.
  - cbn [app decode]. change (249 / 32 =? 7) with true. change (249 mod 32) with 25. unfold decode_simple. cbn [Z.eqb Pos.eqb].
    rewrite (take_be_app 2) by (cbn; lia). done.
  - cbn [app decode]. change (250 / 32 =? 7) with true. change (250 mod 32) with 26. unfold decode_simple. cbn [Z.eqb Pos.eqb].
    rewrite (take_be_app 4) by (cbn; lia). done.
Qed.

End Cbor.

(** ** The encoder *)

(** [CborError], the values the encoder and the parser return. *)
Inductive CborError : Set :=
| CborNoError
| CborErrorUnknownLength
| CborErrorAdvancePastEOF
| CborErrorUnexpectedEOF
| CborErrorUnexpectedBreak
| CborErrorUnknownType
| CborErrorIllegalType
| CborErrorIllegalNumber
| CborErrorIllegalSimpleType
| CborErrorTooManyItems
| CborErrorTooFewItems
| CborErrorDataTooLarge
| CborErrorNestingTooDeep
| CborErrorOutOfMemory.

#[global] Instance CborError_eq_dec : EqDecision CborError.
Proof. solve_decision. Defined.

(** [CborEncoder].  With [e_end = Some n] the buffer ends at offset [n] and
    [e_data] is the write offset; with [None] (a NULL [end]) [e_data] is
    [bytes_needed]. *)
Record encoder : Set := {
  e_data : Z;
  e_end : option Z;
  e_remaining : Z;
  e_flags : Z;
}.

(** A call on a buffer and an encoder. *)
Definition enc_op : Type := list Z -> encoder -> CborError * list Z * encoder.

Definition UnknownLengthFlag : Z := 4.
Definition ContainerIsMapFlag : Z := 32.
Definition MajorTypeShift : Z := 5.
Definition Value8Bit : Z := 24.
Definition IndefiniteLength : Z := 31.
Definition BreakByte : Z := 255.
Definition HalfPrecisionFloat : Z := 25.
Definition Break : Z := 31.
Definition SIZE_MAX : Z := 2 ^ 64 - 1.
Definition CborIndefiniteLength : Z := SIZE_MAX.

(** [cbor_encoder_init] on the start of a buffer of [size] bytes. *)
Definition cbor_encoder_init (size flags : Z) : encoder :=
  {| e_data := 0; e_end := Some size; e_remaining := 2; e_flags := flags |}.

Definition set_data (e : encoder) (d : Z) : encoder :=
  {| e_data := d; e_end := e_end e; e_remaining := e_remaining e; e_flags := e_flags e |}.

Definition set_remaining (e : encoder) (r : Z) : encoder :=
  {| e_data := e_data e; e_end := e_end e; e_remaining := r; e_flags := e_flags e |}.

(** [would_overflow]. *)
Definition would_overflow (e : encoder) (len : Z) : bool :=
  match e_end e with
  | Some n => n - e_data e - len <? 0
  | None => 0 - e_data e - len <? 0
  end.

(** [advance_ptr]. *)
Definition advance_ptr (e : encoder) (n : Z) : encoder := set_data e (e_data e + n).

(** [memcpy] of [bs] to offset [off] of the buffer. *)
Definition write_at (buf : list Z) (off : Z) (bs : list Z) : list Z :=
  take (Z.to_nat off) buf ++ bs ++ drop (Z.to_nat off + length bs) buf.

(** [append_to_buffer]. *)
Definition append_to_buffer (data : list Z) : enc_op := fun buf e =>
  let len := Z.of_nat (length data) in
  if would_overflow e len then
    let '(e, len) :=
      match e_end e with
      | Some n => ({| e_data := 0; e_end := None; e_remaining := e_remaining e; e_flags := e_flags e |},
                   u64 (len - (n - e_data e)))
      | None => (e, len)
      end in
    (CborErrorOutOfMemory, buf, advance_ptr e len)
  else (CborNoError, write_at buf (e_data e) data, set_data e (e_data e + len)).

Definition append_byte_to_buffer (b : Z) : enc_op := append_to_buffer [b].

(** [encode_number_no_update]: the bytes from [bufstart] to [bufend]. *)
Definition encode_number_no_update (ui shiftedMajorType : Z) : enc_op :=
  append_to_buffer
    (if ui <? Value8Bit then [u8 (ui + shiftedMajorType)]
     else
       let more := (if ui >? 255 then 1 else 0) + (if ui >? 65535 then 1 else 0)
                   + (if ui >? 4294967295 then 1 else 0) in
       u8 (shiftedMajorType + Value8Bit + more) :: be_bytes (Nat.pow 2 (Z.to_nat more)) ui).

(** [saturated_decrement]. *)
Definition saturated_decrement (e : encoder) : encoder :=
  if e_remaining e =? 0 then e else set_remaining e (e_remaining e - 1).

(** [encode_number]. *)
Definition encode_number (ui shiftedMajorType : Z) : enc_op := fun buf e =>
  encode_number_no_update ui shiftedMajorType buf (saturated_decrement e).

Definition cbor_encode_uint (value : Z) : enc_op := encode_number value (Z.shiftl 0 MajorTypeShift).

Definition cbor_encode_negative_int (absolute_value : Z) : enc_op :=
  encode_number (u64 (absolute_value - 1)) (Z.shiftl 1 MajorTypeShift).

(** [cbor_encode_int], by the sign bit as in RFC 7049. *)
Definition cbor_encode_int (value : Z) : enc_op :=
  let ui := u64 (Z.shiftr value 63) in
  let majorType := Z.land ui 32 in
  encode_number (Z.lxor ui (u64 value)) majorType.

Definition cbor_encode_simple_value (value : Z) : enc_op := fun buf e =>
  if (HalfPrecisionFloat <=? value) && (value <=? Break) then (CborErrorIllegalSimpleType, buf, e)
  else encode_number value (Z.shiftl 7 MajorTypeShift) buf e.

(** [cbor_encode_floating_point]: [fpType] is one of 0xf9, 0xfa, 0xfb and
    [bits] the value's representation. *)
Definition cbor_encode_floating_point (fpType bits : Z) : enc_op := fun buf e =>
  let size := Z.shiftl 2 (fpType - 249) in
  append_to_buffer (fpType :: be_bytes (Z.to_nat size) bits) buf (saturated_decrement e).

Definition cbor_encode_tag (tag : Z) : enc_op := encode_number_no_update tag (Z.shiftl 6 MajorTypeShift).

(** [encode_string]: [isOomError] is always true, so the text is appended
    (and its size accounted) even when the header did not fit. *)
Definition encode_string (shiftedMajorType : Z) (string : list Z) : enc_op := fun buf e =>
  let '(_, buf, e) := encode_number (Z.of_nat (length string)) shiftedMajorType buf e in
  append_to_buffer string buf e.

Definition cbor_encode_byte_string (string : list Z) : enc_op := encode_string (Z.shiftl 2 MajorTypeShift) string.
Definition cbor_encode_text_string (string : list Z) : enc_op := encode_string (Z.shiftl 3 MajorTypeShift) string.

(** [cbor_encode_text_stringz]: the string up to its NUL. *)
Fixpoint c_string (s : list Z) : list Z :=
  match s with
  | [] => []
  | c :: s => if c =? 0 then [] else c :: c_string s
  end.

Definition cbor_encode_text_stringz (string : list Z) : enc_op := cbor_encode_text_string (c_string string).

(** The inline functions of [cbor.h]. *)
Definition cbor_encode_boolean (value : bool) : enc_op :=
  cbor_encode_simple_value ((if value then 1 else 0) - 1 + Z.land 245 31).
Definition cbor_encode_null : enc_op := cbor_encode_simple_value (Z.land 246 31).
Definition cbor_encode_undefined : enc_op := cbor_encode_simple_value (Z.land 247 31).
Definition cbor_encode_half_float (bits : Z) : enc_op := cbor_encode_floating_point 249 bits.
Definition cbor_encode_float (bits : Z) : enc_op := cbor_encode_floating_point 250 bits.
Definition cbor_encode_double (bits : Z) : enc_op := cbor_encode_floating_point 251 bits.

(** [create_container]: the error, the buffer, the outer encoder and the
    container's encoder. *)
Definition create_container (length shiftedMajorType : Z) (buf : list Z) (e : encoder)
    : CborError * list Z * encoder * encoder :=
  let flags := Z.land shiftedMajorType ContainerIsMapFlag in
  let e' := saturated_decrement e in
  if length =? CborIndefiniteLength then
    let c := {| e_data := e_data e; e_end := e_end e; e_remaining := u64 (length + 1);
                e_flags := Z.lor flags UnknownLengthFlag |} in
    let '(err, buf, c) := append_byte_to_buffer (u8 (shiftedMajorType + IndefiniteLength)) buf c in
    (err, buf, e', c)
  else
    let remaining := u64 (length + 1) in
    let remaining := if Z.land shiftedMajorType ContainerIsMapFlag =? 0 then remaining
                     else u64 (remaining + length) in
    let c := {| e_data := e_data e; e_end := e_end e; e_remaining := remaining; e_flags := flags |} in
    let '(err, buf, c) := encode_number_no_update length shiftedMajorType buf c in
    (err, buf, e', c).

Definition cbor_encoder_create_array (length : Z) (buf : list Z) (e : encoder) :=
  create_container length (Z.shiftl 4 MajorTypeShift) buf e.

Definition cbor_encoder_create_map (length : Z) (buf : list Z) (e c0 : encoder)
    : CborError * list Z * encoder * encoder :=
  if negb (length =? CborIndefiniteLength) && (length >? SIZE_MAX / 2)
  then (CborErrorDataTooLarge, buf, e, c0)
  else create_container length (Z.shiftl 5 MajorTypeShift) buf e.

(** [cbor_encoder_close_container]. *)
Definition cbor_encoder_close_container (c : encoder) : enc_op := fun buf e =>
  let e := {| e_data := e_data c; e_end := e_end c; e_remaining := e_remaining e; e_flags := e_flags e |} in
  if negb (Z.land (e_flags c) UnknownLengthFlag =? 0) then append_byte_to_buffer BreakByte buf e
  else if negb (e_remaining c =? 1)
  then (if e_remaining c =? 0 then CborErrorTooManyItems else CborErrorTooFewItems, buf, e)
  else match e_end e with
       | None => (CborErrorOutOfMemory, buf, e)
       | Some _ => (CborNoError, buf, e)
       end.

Definition cbor_encoder_close_container_checked (c : encoder) : enc_op := cbor_encoder_close_container c.

Definition cbor_encoder_get_buffer_size (e : encoder) : Z := u64 (e_data e).
Definition cbor_encoder_get_extra_bytes_needed (e : encoder) : Z :=
  match e_end e with Some _ => 0 | None => u64 (e_data e) end.

(** ** What the encoder promises

    [enc_rel buf e out]: the bytes appended so far are [out].  While they fit
    they are the first bytes of the buffer and [data] points behind them;
    afterwards the encoder only counts how many bytes the buffer lacks. *)

Definition enc_rel (buf : list Z) (e : encoder) (out : list Z) : Prop :=
  ((length out <= length buf)%nat /\ e_end e = Some (Z.of_nat (length buf)) /\
   e_data e = Z.of_nat (length out) /\ take (length out) buf = out) \/
  ((length buf < length out)%nat /\ e_end e = None /\
   e_data e = Z.of_nat (length out) - Z.of_nat (length buf)).

(** [CborNoError] when [out] fits, [CborErrorOutOfMemory] otherwise. *)
Definition fit_error (buf out : list Z) : CborError :=
  if (length out <=? length buf)%nat then CborNoError else CborErrorOutOfMemory.

(** [op] appends [bs], leaves [rem'] of [rem] items to come, never touches
    the buffer outside the appended bytes and reports whether they fit. *)
Definition appends (op : enc_op) (bs : list Z) (rem : Z -> Z) : Prop :=
  forall buf e out, enc_rel buf e out ->
  exists buf' e',
    op buf e = (fit_error buf (out ++ bs), buf', e') /\ enc_rel buf' e' (out ++ bs) /\
    length buf' = length buf /\
    drop (length (out ++ bs)) buf' = drop (length (out ++ bs)) buf /\
    e_remaining e' = rem (e_remaining e) /\ e_flags e' = e_flags e.

(** What an operation that adds one item does to [remaining]. *)
Definition dec (r : Z) : Z := if r =? 0 then 0 else r - 1.

Lemma enc_rel_same buf e e' out : e_data e' = e_data e -> e_end e' = e_end e ->
  enc_rel buf e out -> enc_rel buf e' out.
Proof. unfold enc_rel. intros -> ->. done. Qed.

Lemma append_to_buffer_ok bs : Z.of_nat (length bs) < 2 ^ 64 ->
  appends (append_to_buffer bs) bs (fun r => r).
Proof.
  intros Hb buf e out [(Hfit & He & Hd & Ht)|(Hno & He & Hd)];
    unfold append_to_buffer, would_overflow; rewrite He, Hd; unfold fit_error; rewrite length_app.
  - destruct (Z.ltb_spec (Z.of_nat (length buf) - Z.of_nat (length out) - Z.of_nat (length bs)) 0).
    + destruct (Nat.leb_spec (length out + length bs) (length buf)); [lia|].
      eexists _, _. split; [done|]. cbn. repeat split; try done. right.
      rewrite length_app. repeat split; [lia|]. cbn. rewrite u64_small by lia. lia.
    + destruct (Nat.leb_spec (length out + length bs) (length buf)); [|lia].
      eexists _, _. split; [done|]. unfold write_at. rewrite Nat2Z.id.
      assert (Hl : length (take (length out) buf ++ bs ++ drop (length out + length bs) buf) = length buf).
      { rewrite !length_app, length_take, length_drop. lia. }
      split; [|split; [done|split; [|done]]].
      * left. rewrite Hl, length_app. cbn. repeat split; [lia | done | lia |].
        rewrite app_assoc, take_app_le by (rewrite length_app, length_take; lia).
        rewrite take_ge by (rewrite length_app, length_take; lia). by rewrite Ht.
      * rewrite app_assoc, drop_app_ge by (rewrite length_app, length_take; lia).
        rewrite length_app, length_take.
        by replace (length out + length bs - (length out `min` length buf + length bs))%nat with 0%nat by lia.
  - destruct (Z.ltb_spec (0 - (Z.of_nat (length out) - Z.of_nat (length buf)) - Z.of_nat (length bs)) 0); [|lia].
    destruct (Nat.leb_spec (length out + length bs) (length buf)); [lia|].
    eexists _, _. split; [done|]. cbn. repeat split; try done. right.
    rewrite length_app. cbn. rewrite He. repeat split; lia.
Qed.

(** Counting an item before bytes are appended. *)
Lemma appends_decrement op bs : appends op bs (fun r => r) ->
  appends (fun buf e => op buf (saturated_decrement e)) bs dec.
Proof.
  intros H buf e out Hr. unfold dec, saturated_decrement.
  destruct (Z.eqb_spec (e_remaining e) 0) as [E|E].
  - destruct (H buf e out Hr) as (buf' & e' & -> & Hr' & Hl & Hd & Hm & Hf).
    rewrite E in Hm. eauto 10.
  - destruct (H buf (set_remaining e (e_remaining e - 1)) out) as (buf' & e' & -> & Hr' & Hl & Hd & Hm & Hf); [done|].
    eauto 10.
Qed.

(** Two appends in a row; the last one's error is the result. *)
Lemma appends_seq op1 op2 bs1 bs2 f g : appends op1 bs1 f -> appends op2 bs2 g ->
  appends (fun buf e => let '(_, buf, e) := op1 buf e in op2 buf e) (bs1 ++ bs2) (fun r => g (f r)).
Proof.
  intros H1 H2 buf e out Hr.
  destruct (H1 buf e out Hr) as (buf1 & e1 & -> & Hr1 & Hl1 & Hd1 & Hm1 & Hf1).
  destruct (H2 buf1 e1 _ Hr1) as (buf2 & e2 & -> & Hr2 & Hl2 & Hd2 & Hm2 & Hf2).
  rewrite app_assoc. eexists _, _. split; [unfold fit_error; by rewrite Hl1|].
  rewrite Hl2, Hl1, Hd2, Hm2, Hm1, Hf2, Hf1. repeat split; try done.
  rewrite (length_app _ bs2), <- !drop_drop. by rewrite Hd1.
Qed.

(** ** Items *)

Lemma encode_number_no_update_ok n major : 0 <= n < 2 ^ 64 -> 0 <= major < 8 ->
  appends (encode_number_no_update n (32 * major)) (Cbor.head_bytes major n) (fun r => r).
Proof.
  intros Hn Hm.
  assert (Hu : forall a, 0 <= a < 32 -> u8 (32 * major + a) = 32 * major + a).
  { intros a Ha. apply Z.mod_small. lia. }
  unfold encode_number_no_update, Cbor.head_bytes, Value8Bit.
  destruct (Z.ltb_spec n 24).
  { rewrite Z.add_comm, Hu by lia. by apply append_to_buffer_ok. }
  rewrite <- Z.add_assoc, Hu by (repeat case_bool; lia).
  destruct (Z.gtb_spec n 255), (Z.gtb_spec n 65535), (Z.gtb_spec n 4294967295),
    (Z.leb_spec n 255), (Z.leb_spec n 65535), (Z.leb_spec n 4294967295); try lia;
    by apply append_to_buffer_ok.
Qed.

Lemma encode_number_ok n major : 0 <= n < 2 ^ 64 -> 0 <= major < 8 ->
  appends (encode_number n (32 * major)) (Cbor.head_bytes major n) dec.
Proof. intros. apply (appends_decrement (encode_number_no_update n (32 * major))). by apply encode_number_no_update_ok. Qed.

Lemma encode_string_ok s major : Z.of_nat (length s) < 2 ^ 64 -> 0 <= major < 8 ->
  appends (encode_string (32 * major) s) (Cbor.head_bytes major (Z.of_nat (length s)) ++ s) dec.
Proof.
  intros Hs Hm. apply (appends_seq (encode_number (Z.of_nat (length s)) (32 * major)) (append_to_buffer s) _ _ dec (fun r => r)).
  - apply encode_number_ok; lia.
  - by apply append_to_buffer_ok.
Qed.

(** The complement of a 64-bit number. *)
Lemma lxor_ones64 a : 0 <= a < 2 ^ 64 -> Z.lxor (2 ^ 64 - 1) a = 2 ^ 64 - 1 - a.
Proof.
  intros Ha. change (2 ^ 64 - 1) with (Z.ones 64).
  pose proof (Z.sub_nocarry_ldiff (Z.ones 64) a) as H1.
  assert (Hlog : Z.log2 a < 64).
  { destruct (Z.eq_dec a 0) as [->|]; [done|]. apply Z.log2_lt_pow2; lia. }
  rewrite Z.lxor_comm, <- Z.ldiff_ones_l_low, H1 by (lia || apply Z.ldiff_ones_r_low; lia). done.
Qed.

Lemma cbor_encode_int_bytes v : INT64_MIN <= v <= INT64_MAX ->
  appends (cbor_encode_int v) (Cbor.encode (Cbor.of_int v)) dec.
Proof.
  intros Hv. unfold cbor_encode_int, Cbor.of_int, INT64_MIN, INT64_MAX in *.
  destruct (Z.ltb_spec v 0); cbn [Cbor.encode].
  - replace (Z.shiftr v 63) with (-1) by (rewrite Z.shiftr_div_pow2 by lia; div_lia).
    change (u64 (-1)) with (2 ^ 64 - 1). rewrite lxor_ones64 by apply u64_range.
    change (Z.land (2 ^ 64 - 1) 32) with (32 * 1).
    replace (2 ^ 64 - 1 - u64 v) with (-1 - v) by (unfold u64; div_lia).
    apply encode_number_ok; lia.
  - replace (Z.shiftr v 63) with 0 by (rewrite Z.shiftr_div_pow2 by lia; div_lia).
    change (u64 0) with 0. rewrite Z.lxor_0_l, u64_small by lia. apply (encode_number_ok v 0); lia.
Qed.

Lemma cbor_encode_simple_value_ok n : 0 <= n < 24 \/ 32 <= n < 256 ->
  appends (cbor_encode_simple_value n) (Cbor.encode (Cbor.CSimple n)) dec.
Proof.
  intros Hn buf e out Hr. unfold cbor_encode_simple_value, HalfPrecisionFloat, Break.
  destruct (Z.leb_spec 25 n), (Z.leb_spec n 31); try lia; cbn [andb Cbor.encode]; apply (encode_number_ok n 7); lia || done.
Qed.

Lemma cbor_encode_double_ok b : 0 <= b < 2 ^ 64 ->
  appends (cbor_encode_double b) (Cbor.encode (Cbor.CDouble b)) dec.
Proof. intros Hb. apply (appends_decrement (append_to_buffer (251 :: be_bytes 8 b))). by apply append_to_buffer_ok. Qed.

Lemma cbor_encode_half_float_ok b : appends (cbor_encode_half_float b) (Cbor.encode (Cbor.CHalf b)) dec.
Proof. apply (appends_decrement (append_to_buffer (249 :: be_bytes 2 b))). by apply append_to_buffer_ok. Qed.

Lemma cbor_encode_float_ok b : appends (cbor_encode_float b) (Cbor.encode (Cbor.CFloat b)) dec.
Proof. apply (appends_decrement (append_to_buffer (250 :: be_bytes 4 b))). by apply append_to_buffer_ok. Qed.

Lemma cbor_encode_tag_ok n : 0 <= n < 2 ^ 64 -> appends (cbor_encode_tag n) (Cbor.head_bytes 6 n) (fun r => r).
Proof. intros Hn. by apply (encode_number_no_update_ok n 6). Qed.

(** ** Arrays and maps *)

(** Runs of operations, as a client does between opening and closing a
    container. *)
Fixpoint run_ops (ops : list enc_op) (buf : list Z) (e : encoder) : list Z * encoder :=
  match ops with
  | [] => (buf, e)
  | op :: ops => let '(_, buf, e) := op buf e in run_ops ops buf e
  end.

(** Runs [ops] on a container that was opened and closes it. *)
Definition fill (ops : list enc_op) (opened : CborError * list Z * encoder * encoder) : CborError * list Z * encoder :=
  let '(_, buf, e, c) := opened in
  let '(buf, c) := run_ops ops buf c in
  cbor_encoder_close_container_checked c buf e.

(** An array of [n] items, and a map of [n] pairs, whose encoder is not
    initialized before. *)
Definition array_of (n : Z) (ops : list enc_op) : enc_op := fun buf e =>
  fill ops (cbor_encoder_create_array n buf e).

Definition map_of (n : Z) (ops : list enc_op) : enc_op := fun buf e =>
  fill ops (cbor_encoder_create_map n buf e {| e_data := 0; e_end := None; e_remaining := 0; e_flags := 0 |}).

(** The error of closing a container declared for [n] items after [k]. *)
Definition count_error (n k : Z) (fits : CborError) : CborError :=
  if k <? n then CborErrorTooFewItems else if n <? k then CborErrorTooManyItems else fits.

Lemma run_ops_ok ops bss : Forall2 (fun op bs => appends op bs dec) ops bss ->
  forall buf e out, enc_rel buf e out ->
  exists buf' e', run_ops ops buf e = (buf', e') /\ enc_rel buf' e' (out ++ concat bss) /\
    length buf' = length buf /\
    drop (length (out ++ concat bss)) buf' = drop (length (out ++ concat bss)) buf /\
    e_remaining e' = Nat.iter (length ops) dec (e_remaining e) /\ e_flags e' = e_flags e.
Proof.
  induction 1 as [|op bs ops bss Hop _ IH]; intros buf e out Hr; cbn [run_ops concat].
  - rewrite app_nil_r. eauto 10.
  - destruct (Hop buf e out Hr) as (buf1 & e1 & -> & Hr1 & Hl1 & Hd1 & Hm1 & Hf1).
    destruct (IH buf1 e1 _ Hr1) as (buf2 & e2 & -> & Hr2 & Hl2 & Hd2 & Hm2 & Hf2).
    rewrite <- app_assoc in *. exists buf2, e2. rewrite Hl2, Hl1, Hf2, Hf1, Hd2, Hm2, Hm1. cbn [length].
    repeat split; try done; [|by rewrite Nat.iter_succ_r].
    rewrite app_assoc, (length_app _ (concat bss)), <- !drop_drop. by rewrite Hd1.
Qed.

Lemma iter_dec k r : 0 <= r -> Nat.iter k dec r = Z.max 0 (r - Z.of_nat k).
Proof.
  intros Hr. induction k as [|k IH]; cbn [Nat.iter nat_rect]; [lia|].
  change (nat_rect _ r (fun _ => dec) k) with (Nat.iter k dec r). rewrite IH. unfold dec. case_bool; lia.
Qed.

(** Opening, filling and closing a container appends its head and the bytes of
    its items, and reports a wrong number of items before lack of space: [k]
    items for an array of [k], or a map of half as many pairs. *)
Lemma fill_ok major n k ops bss : (major = 4 /\ k = n \/ major = 5 /\ k = 2 * n) -> 0 <= n -> k < 2 ^ 64 - 1 ->
  Forall2 (fun op bs => appends op bs dec) ops bss ->
  forall buf e out, enc_rel buf e out -> let out' := out ++ Cbor.head_bytes major n ++ concat bss in
  exists buf' e',
    fill ops (create_container n (32 * major) buf e) =
      (count_error k (Z.of_nat (length ops)) (fit_error buf out'), buf', e') /\
    enc_rel buf' e' out' /\ length buf' = length buf /\
    drop (length out') buf' = drop (length out') buf /\
    e_remaining e' = dec (e_remaining e) /\ e_flags e' = e_flags e.
Proof.
  intros Hk Hn Hlt Hops buf e out Hr out'. unfold fill, create_container, CborIndefiniteLength, SIZE_MAX.
  destruct (Z.eqb_spec n (2 ^ 64 - 1)); [lia|]. rewrite (u64_small (n + 1)) by lia.
  assert (Hrem : (if Z.land (32 * major) ContainerIsMapFlag =? 0 then n + 1 else u64 (n + 1 + n)) = k + 1).
  { destruct Hk as [[-> ->]|[-> ->]]; [done|]. change (Z.land (32 * 5) ContainerIsMapFlag =? 0) with false. cbn match.
    rewrite u64_small; lia. }
  rewrite Hrem. set (c0 := {| e_data := e_data e; e_end := e_end e; e_remaining := k + 1; e_flags := Z.land (32 * major) ContainerIsMapFlag |}).
  destruct (encode_number_no_update_ok n major) with (buf := buf) (e := c0) (out := out)
    as (buf1 & c1 & -> & Hr1 & Hl1 & Hd1 & Hm1 & Hf1); [lia.. | by apply (enc_rel_same buf e) |].
  destruct (run_ops_ok ops bss Hops buf1 c1 _ Hr1) as (buf2 & c2 & -> & Hr2 & Hl2 & Hd2 & Hm2 & Hf2).
  rewrite <- app_assoc in Hr2, Hd2. fold out' in Hr2, Hd2.
  rewrite iter_dec in Hm2 by (rewrite Hm1; cbn; lia). rewrite Hm1 in Hm2. cbn [c0 e_remaining] in Hm2.
  unfold cbor_encoder_close_container_checked, cbor_encoder_close_container. cbn [e_end].
  rewrite Hf2, Hf1, Hm2. cbn [c0 e_flags].
  assert (Hu : Z.land (Z.land (32 * major) ContainerIsMapFlag) UnknownLengthFlag = 0) by (by destruct Hk as [[-> _]|[-> _]]).
  rewrite Hu. cbn [Z.eqb negb]. eexists buf2, _. split.
  - unfold count_error.
    destruct (Z.eqb_spec (Z.max 0 (k + 1 - Z.of_nat (length ops))) 1); cbn [negb];
      destruct (Z.ltb_spec (Z.of_nat (length ops)) k), (Z.ltb_spec k (Z.of_nat (length ops))); try lia;
      try (case_bool; done || lia).
    unfold fit_error. destruct Hr2 as [(Hf & -> & _)|(Hf & -> & _)];
      destruct (Nat.leb_spec (length out') (length buf)); try lia; done.
  - cbn [e_remaining e_flags]. rewrite Hl2, Hl1, Hd2. repeat split; try done.
    + unfold out'. rewrite app_assoc, (length_app _ (concat bss)), <- !drop_drop. by rewrite Hd1.
    + unfold saturated_decrement, dec. by case_bool.
    + unfold saturated_decrement. by case_bool.
Qed.

(** A client that writes an item with the functions of the interface. *)
Fixpoint encode_item (i : Cbor.item) : enc_op :=
  match i with
  | Cbor.CUInt n => cbor_encode_uint n
  | Cbor.CNInt n => cbor_encode_negative_int (u64 (n + 1))
  | Cbor.CBytes bs => cbor_encode_byte_string bs
  | Cbor.CText bs => cbor_encode_text_string bs
  | Cbor.CArray l => array_of (Z.of_nat (length l)) (map encode_item l)
  | Cbor.CSimple n => cbor_encode_simple_value n
  | Cbor.CDouble bits => cbor_encode_double bits
  | Cbor.CMap l => map_of (Z.of_nat (Nat.div2 (length l))) (map encode_item l)
  | Cbor.CTag n i => fun buf e => let '(_, buf, e) := cbor_encode_tag n buf e in encode_item i buf e
  | Cbor.CHalf bits => cbor_encode_half_float bits
  | Cbor.CFloat bits => cbor_encode_float bits
  end.

Lemma wf_elems l : foldr (fun i P => Cbor.wf i /\ P) True l -> Forall Cbor.wf l.
Proof. induction l; intros H; constructor; [apply H | apply IHl, H]. Qed.

(** The elements of a container. *)
Lemma fill_items major n l : (major = 4 /\ Z.of_nat (length l) = n \/ major = 5 /\ Z.of_nat (length l) = 2 * n) -> 0 <= n ->
  Z.of_nat (length l) < 2 ^ 64 - 1 ->
  Forall (fun i => Cbor.wf i -> appends (encode_item i) (Cbor.encode i) dec) l -> foldr (fun i P => Cbor.wf i /\ P) True l ->
  appends (fun buf e => fill (map encode_item l) (create_container n (32 * major) buf e))
    (Cbor.head_bytes major n ++ flat_map Cbor.encode l) dec.
Proof.
  intros Hk Hn Hl IH Hwf buf e out Hr. apply wf_elems in Hwf.
  destruct (fill_ok major n (Z.of_nat (length l)) (map encode_item l) (map Cbor.encode l) ltac:(lia) Hn Hl) with (buf := buf) (e := e) (out := out)
    as (buf' & e' & H & H'); [|done|].
  - apply Forall2_fmap, Forall_Forall2_diag. apply Forall_lookup. intros k i Hi.
    rewrite Forall_lookup in IH, Hwf. by eapply IH; [|eapply Hwf].
  - rewrite <- flat_map_concat_map in H, H'. exists buf', e'. rewrite H. split; [|done].
    rewrite length_map. unfold count_error. by case_bool; [lia|].
Qed.

Lemma encode_item_ok i : Cbor.wf i -> appends (encode_item i) (Cbor.encode i) dec.
Proof.
  induction i as [n|n|bs|bs|l IH|n|b|l IH|n i IH|b|b] using Cbor.item_ind'; intros Hwf; cbn [Cbor.wf Cbor.encode encode_item] in *.
  - by apply (encode_number_ok n 0).
  - unfold cbor_encode_negative_int. replace (u64 (u64 (n + 1) - 1)) with n by (unfold u64; div_lia).
    by apply (encode_number_ok n 1).
  - by apply (encode_string_ok bs 2).
  - by apply (encode_string_ok bs 3).
  - destruct Hwf as [Hl Hwf]. apply (fill_items 4); try done; lia.
  - by apply cbor_encode_simple_value_ok.
  - by apply cbor_encode_double_ok.
  - destruct Hwf as (He & Hl & Hwf). pose proof (Cbor.double_half l He) as Hd. unfold map_of, cbor_encoder_create_map, SIZE_MAX.
    replace (Z.of_nat (Nat.div2 (length l)) >? (2 ^ 64 - 1) / 2) with false
      by (symmetry; rewrite Z.gtb_ltb, Z.ltb_ge; change ((2 ^ 64 - 1) / 2) with (2 ^ 63 - 1); lia).
    rewrite andb_false_r. apply (fill_items 5); try done; [right; split; [done|]|..]; lia.
  - destruct Hwf as [Hn Hwf].
    apply (appends_seq (cbor_encode_tag n) (encode_item i) _ _ (fun r => r) dec); [by apply cbor_encode_tag_ok | by apply IH].
  - apply cbor_encode_half_float_ok.
  - apply cbor_encode_float_ok.
Qed.

Lemma enc_rel_init buf : enc_rel buf (cbor_encoder_init (Z.of_nat (length buf)) 0) [].
Proof. left. cbn. repeat split; lia. Qed.

(** For every 64-bit signed integer [cbor_encode_int] appends the
    shortest RFC 7049 encoding of that integer, at the position where the
    encoder stands, counts one item, leaves the bytes after it and the length
    of the buffer alone and returns [CborErrorOutOfMemory] exactly when the
    bytes do not fit. *)
Theorem cbor_encode_int_appends v buf e out :
  INT64_MIN <= v <= INT64_MAX -> enc_rel buf e out ->
  let out' := out ++ Cbor.encode (Cbor.of_int v) in
  exists buf' e',
    cbor_encode_int v buf e = (fit_error buf out', buf', e') /\ enc_rel buf' e' out' /\
    length buf' = length buf /\ drop (length out') buf' = drop (length out') buf /\
    e_remaining e' = dec (e_remaining e) /\ e_flags e' = e_flags e.
Proof. intros Hv Hr. by apply cbor_encode_int_bytes. Qed.

Lemma cbor_encode_int_appends_witness :
  exists buf' e', cbor_encode_int (-500) (replicate 8 0) (cbor_encoder_init 8 0) = (CborNoError, buf', e') /\
    take 3 buf' = [57; 1; 243].
Proof.
  destruct (cbor_encode_int_appends (-500) (replicate 8 0) (cbor_encoder_init 8 0) [])
    as (buf' & e' & H & [(_ & _ & _ & Ht)|(Hn & _)] & Hl & _); [by vm_compute | apply (enc_rel_init (replicate 8 0)) | |].
  - exists buf', e'. split; [exact H | exact Ht].
  - rewrite Hl in Hn. change (8 < 3)%nat in Hn. lia.
Defined.

(** Writing any data item of definite length with the encoder's
    functions into a buffer that is large enough reports no error; the first
    [cbor_encoder_get_buffer_size] bytes of the buffer decode to exactly that
    item, and the bytes after them are untouched. *)
Theorem cbor_encode_roundtrip i buf :
  Cbor.wf i -> (length (Cbor.encode i) <= length buf)%nat -> Z.of_nat (length buf) < 2 ^ 64 ->
  exists buf' e',
    encode_item i buf (cbor_encoder_init (Z.of_nat (length buf)) 0) = (CborNoError, buf', e') /\
    let size := Z.to_nat (cbor_encoder_get_buffer_size e') in
    Cbor.decode (Cbor.depth i) (take size buf') = Some (i, []) /\
    drop size buf' = drop size buf /\ length buf' = length buf /\
    cbor_encoder_get_extra_bytes_needed e' = 0.
Proof.
  intros Hwf Hfit Hb. destruct (encode_item_ok i Hwf _ _ _ (enc_rel_init buf)) as (buf' & e' & -> & Hr & Hl & Hd & _).
  rewrite app_nil_l in *. unfold fit_error. destruct (Nat.leb_spec (length (Cbor.encode i)) (length buf)); [|lia].
  exists buf', e'. split; [done|]. destruct Hr as [(_ & He & Hdat & Ht)|(Hn & _)]; [|lia].
  unfold cbor_encoder_get_buffer_size, cbor_encoder_get_extra_bytes_needed. rewrite Hdat, He, u64_small, Nat2Z.id by lia.
  cbn. rewrite Ht. repeat split; try done.
  rewrite <- (app_nil_r (Cbor.encode i)). by apply Cbor.decode_encode.
Qed.

Definition sample_item : Cbor.item :=
  Cbor.CArray [Cbor.CUInt 300; Cbor.CNInt 4; Cbor.CText [97; 98]; Cbor.CArray [Cbor.CSimple 21; Cbor.CDouble 7]].

(** A tagged map with a simple value and a half float. *)
Definition sample_map : Cbor.item :=
  Cbor.CTag 100000 (Cbor.CMap [Cbor.CText [97]; Cbor.CSimple 200; Cbor.CUInt 7; Cbor.CArray [Cbor.CHalf 15360; Cbor.CFloat 5]]).

Lemma sample_item_wf : Cbor.wf sample_item.
Proof. cbn. repeat split; lia. Qed.

Lemma sample_map_wf : Cbor.wf sample_map.
Proof. split; [lia|]. split; [by exists 2%nat|]. cbn. repeat split; lia. Qed.

Lemma cbor_encode_roundtrip_witness :
  exists buf' e', encode_item sample_item (replicate 32 0) (cbor_encoder_init 32 0) = (CborNoError, buf', e') /\
    let size := Z.to_nat (cbor_encoder_get_buffer_size e') in
    Cbor.decode (Cbor.depth sample_item) (take size buf') = Some (sample_item, []).
Proof.
  destruct (cbor_encode_roundtrip sample_item (replicate 32 0)) as (buf' & e' & H & H' & _);
    [apply sample_item_wf | by vm_compute; lia | by vm_compute | by exists buf', e'].
Defined.

(** When the encoding of an item does not fit, the encoder reports
    [CborErrorOutOfMemory], never writes outside the buffer, and
    [cbor_encoder_get_extra_bytes_needed] is exactly the number of bytes the
    buffer lacks, so that a second try with that many more bytes succeeds. *)
Theorem cbor_encode_too_small i buf :
  Cbor.wf i -> (length buf < length (Cbor.encode i))%nat -> Z.of_nat (length (Cbor.encode i)) < 2 ^ 64 ->
  exists buf' e',
    encode_item i buf (cbor_encoder_init (Z.of_nat (length buf)) 0) = (CborErrorOutOfMemory, buf', e') /\
    length buf' = length buf /\
    cbor_encoder_get_extra_bytes_needed e' = Z.of_nat (length (Cbor.encode i)) - Z.of_nat (length buf) /\
    let extra := Z.to_nat (cbor_encoder_get_extra_bytes_needed e') in
    exists buf2 e2,
      encode_item i (buf ++ replicate extra 0) (cbor_encoder_init (Z.of_nat (length buf + extra)) 0) = (CborNoError, buf2, e2).
Proof.
  intros Hwf Hno Hb. destruct (encode_item_ok i Hwf _ _ _ (enc_rel_init buf)) as (buf' & e' & -> & Hr & Hl & _).
  rewrite app_nil_l in *. unfold fit_error. destruct (Nat.leb_spec (length (Cbor.encode i)) (length buf)); [lia|].
  exists buf', e'. split; [done|]. split; [done|]. destruct Hr as [(Hn & _)|(_ & He & Hdat)]; [lia|].
  unfold cbor_encoder_get_extra_bytes_needed. rewrite He, Hdat, Hl, u64_small by lia. split; [done|]. cbn zeta.
  set (extra := Z.to_nat _).
  destruct (encode_item_ok i Hwf _ _ _ (enc_rel_init (buf ++ replicate extra 0))) as (buf2 & e2 & H2 & _).
  rewrite length_app, length_replicate in H2. exists buf2, e2. rewrite H2, app_nil_l. unfold fit_error.
  rewrite length_app, length_replicate. by destruct (Nat.leb_spec (length (Cbor.encode i)) (length buf + extra)); [|lia].
Qed.

Lemma cbor_encode_too_small_witness :
  exists buf' e', encode_item sample_item (replicate 7 0) (cbor_encoder_init 7 0) = (CborErrorOutOfMemory, buf', e') /\
    cbor_encoder_get_extra_bytes_needed e' = 12.
Proof.
  destruct (cbor_encode_too_small sample_item (replicate 7 0)) as (buf' & e' & H & _ & H' & _);
    [apply sample_item_wf | by vm_compute; lia | by vm_compute | by exists buf', e'].
Defined.

(** Closing an array that was opened for [n] items succeeds only after
    exactly [n] items: with fewer it reports [CborErrorTooFewItems], with more
    [CborErrorTooManyItems], whether or not the bytes fit the buffer. *)
Theorem cbor_close_counts n l buf e out :
  0 <= n < 2 ^ 64 - 1 -> Forall Cbor.wf l -> enc_rel buf e out ->
  exists buf' e',
    array_of n (map encode_item l) buf e =
      (count_error n (Z.of_nat (length l))
         (fit_error buf (out ++ Cbor.head_bytes 4 n ++ flat_map Cbor.encode l)), buf', e').
Proof.
  intros Hn Hwf Hr. destruct (fill_ok 4 n n (map encode_item l) (map Cbor.encode l) ltac:(lia) ltac:(lia) ltac:(lia)) with (buf := buf) (e := e) (out := out)
    as (buf' & e' & H & _); [|done|].
  - apply Forall2_fmap, Forall_Forall2_diag. eapply Forall_impl; [done|]. apply encode_item_ok.
  - unfold array_of. change (cbor_encoder_create_array n buf e) with (create_container n (32 * 4) buf e).
    rewrite H, length_map, flat_map_concat_map. eauto.
Qed.

Lemma cbor_close_counts_witness :
  exists buf' e', array_of 3 (map encode_item [Cbor.CUInt 1; Cbor.CUInt 2]) (replicate 8 0) (cbor_encoder_init 8 0)
    = (CborErrorTooFewItems, buf', e').
Proof.
  apply (cbor_close_counts 3 [Cbor.CUInt 1; Cbor.CUInt 2] (replicate 8 0) (cbor_encoder_init 8 0) []);
    [by vm_compute | repeat constructor; by vm_compute | apply (enc_rel_init (replicate 8 0))].
Defined.
