(* ===== verification/CborParser.v ===== *)
(** * The CBOR parser ([tinycbor/src/cborparser.c], [tinycbor/src/cbor.h])

    The parser that comes with the encoder of [CborEncoder]: a pull parser
    over a buffer.  A [CborValue] is a position with the partially decoded
    item there; [ptr] is an offset into the buffer, and every read outside of
    it is [UndefinedBehaviour].  A function returns the error code with the
    value it leaves.  The parser reads back what the encoder writes, and is
    safe on any bytes ([CborRead]). *)

From stdpp Require Import base numbers gmap list.
From S2P Require Import Prelude CborEncoder.

(** ** Constants *)

Definition CborIntegerType : Z := 0.
Definition CborByteStringType : Z := 64.
Definition CborTextStringType : Z := 96.
Definition CborArrayType : Z := 128.
Definition CborMapType : Z := 160.
Definition CborTagType : Z := 192.
Definition CborSimpleType : Z := 224.
Definition CborBooleanType : Z := 245.
Definition CborNullType : Z := 246.
Definition CborUndefinedType : Z := 247.
Definition CborHalfFloatType : Z := 249.
Definition CborFloatType : Z := 250.
Definition CborDoubleType : Z := 251.
Definition CborInvalidType : Z := 255.

Definition CborIteratorFlag_IntegerValueTooLarge : Z := 1.
Definition CborIteratorFlag_NegativeInteger : Z := 2.
Definition CborIteratorFlag_IteratingStringChunks : Z := 2.
Definition CborIteratorFlag_UnknownLength : Z := 4.

Definition SmallValueMask : Z := 31.
Definition MajorTypeMask : Z := 224.
Definition Value64Bit : Z := 27.
Definition UINT32_MAX : Z := 2 ^ 32 - 1.
Definition CBOR_PARSER_MAX_RECURSIONS : nat := 1024.

(** [struct CborValue] without the pointer to the parser. *)
Record CborValue : Set := {
  v_ptr : Z;
  v_remaining : Z;
  v_extra : Z;
  v_type : Z;
  v_flags : Z;
}.

Definition set_ptr (it : CborValue) (p : Z) : CborValue :=
  {| v_ptr := p; v_remaining := v_remaining it; v_extra := v_extra it; v_type := v_type it; v_flags := v_flags it |}.

Definition set_vremaining (it : CborValue) (r : Z) : CborValue :=
  {| v_ptr := v_ptr it; v_remaining := r; v_extra := v_extra it; v_type := v_type it; v_flags := v_flags it |}.

Definition set_type (it : CborValue) (t : Z) : CborValue :=
  {| v_ptr := v_ptr it; v_remaining := v_remaining it; v_extra := v_extra it; v_type := t; v_flags := v_flags it |}.

Definition set_flag (it : CborValue) (f : Z) : CborValue :=
  {| v_ptr := v_ptr it; v_remaining := v_remaining it; v_extra := v_extra it; v_type := v_type it;
     v_flags := Z.lor (v_flags it) f |}.

(** What [preparse_value] assigns. *)
Definition set_parsed (it : CborValue) (type flags extra : Z) : CborValue :=
  {| v_ptr := v_ptr it; v_remaining := v_remaining it; v_extra := extra; v_type := type; v_flags := flags |}.

Definition has_flag (it : CborValue) (f : Z) : bool := negb (Z.land (v_flags it) f =? 0).

(** ** Tests of [cbor.h] *)

Definition cbor_value_at_end (it : CborValue) : bool := v_remaining it =? 0.
Definition cbor_value_is_container (it : CborValue) : bool :=
  (v_type it =? CborArrayType) || (v_type it =? CborMapType).
Definition cbor_value_is_valid (it : CborValue) : bool := negb (v_type it =? CborInvalidType).
Definition cbor_value_is_boolean (it : CborValue) : bool := v_type it =? CborBooleanType.
Definition cbor_value_is_simple_type (it : CborValue) : bool := v_type it =? CborSimpleType.
Definition cbor_value_is_integer (it : CborValue) : bool := v_type it =? CborIntegerType.
Definition cbor_value_is_length_known (it : CborValue) : bool := negb (has_flag it CborIteratorFlag_UnknownLength).
Definition cbor_value_is_tag (it : CborValue) : bool := v_type it =? CborTagType.
Definition cbor_value_is_byte_string (it : CborValue) : bool := v_type it =? CborByteStringType.
Definition cbor_value_is_text_string (it : CborValue) : bool := v_type it =? CborTextStringType.
Definition cbor_value_is_map (it : CborValue) : bool := v_type it =? CborMapType.
Definition cbor_value_is_array (it : CborValue) : bool := v_type it =? CborArrayType.
Definition cbor_value_is_null (it : CborValue) : bool := v_type it =? CborNullType.
Definition cbor_value_is_undefined (it : CborValue) : bool := v_type it =? CborUndefinedType.
Definition cbor_value_is_unsigned_integer (it : CborValue) : bool :=
  cbor_value_is_integer it && negb (has_flag it CborIteratorFlag_NegativeInteger).
Definition cbor_value_is_negative_integer (it : CborValue) : bool :=
  cbor_value_is_integer it && has_flag it CborIteratorFlag_NegativeInteger.
Definition cbor_value_is_half_float (it : CborValue) : bool := v_type it =? CborHalfFloatType.
Definition cbor_value_is_float (it : CborValue) : bool := v_type it =? CborFloatType.
Definition cbor_value_is_double (it : CborValue) : bool := v_type it =? CborDoubleType.

Definition is_fixed_type (type : Z) : bool :=
  negb (type =? CborTextStringType) && negb (type =? CborByteStringType) &&
  negb (type =? CborArrayType) && negb (type =? CborMapType).

Section parser.
Context (data : list Z).

(** [parser->end]. *)
Definition p_end : Z := Z.of_nat (length data).

(** [*ptr], and [get16], [get32], [get64] for 2, 4 and 8 bytes. *)
Definition byte (p : Z) : outcome Z := if p <? 0 then Fail UndefinedBehaviour else deref (data !! Z.to_nat p).

Definition get_be (n : nat) (p : Z) : outcome Z :=
  if (0 <=? p) && (p + Z.of_nat n <=? p_end) then Ok (be_int (slice (Z.to_nat p) n data))
  else Fail UndefinedBehaviour.

(** [_cbor_value_extract_number]: the error, the position after and the
    number (which is not assigned when there is an error). *)
Definition _cbor_value_extract_number (ptr : Z) : outcome (CborError * Z * Z) :=
  b ← byte ptr;
  let additional_information := Z.land b SmallValueMask in
  let ptr := ptr + 1 in
  if additional_information <? Value8Bit then Ok (CborNoError, ptr, additional_information)
  else if additional_information >? Value64Bit then Ok (CborErrorIllegalNumber, ptr, 0)
  else
    let bytesNeeded := Z.shiftl 1 (additional_information - Value8Bit) in
    if bytesNeeded >? p_end - ptr then Ok (CborErrorUnexpectedEOF, ptr, 0)
    else v ← get_be (Z.to_nat bytesNeeded) ptr; Ok (CborNoError, ptr + bytesNeeded, v).

(** [extract_length]; a [size_t] holds every 64-bit number. *)
Definition extract_length (ptr : Z) : outcome (CborError * Z * Z) :=
  '(err, ptr, v) ← _cbor_value_extract_number ptr;
  if bool_decide (err = CborNoError) then Ok (CborNoError, ptr, v) else Ok (err, ptr, 0).

(** The [switch] of [preparse_value] on simple and floating point types. *)
Definition preparse_simple (it : CborValue) (byte0 descriptor : Z) : outcome (CborError * CborValue) :=
  if descriptor =? 20 then Ok (CborNoError, set_parsed it CborBooleanType 0 0)
  else if (descriptor =? 26) || (descriptor =? 27) then
    Ok (CborNoError, set_parsed it byte0 CborIteratorFlag_IntegerValueTooLarge descriptor)
  else if (descriptor =? 21) || (descriptor =? 22) || (descriptor =? 23) || (descriptor =? 25) then
    Ok (CborNoError, set_parsed it byte0 0 descriptor)
  else if descriptor =? 24 then
    x ← byte (v_ptr it + 1);
    if x <? 32 then Ok (CborErrorIllegalSimpleType, set_parsed it CborInvalidType 0 x)
    else Ok (CborNoError, set_parsed it CborSimpleType 0 x)
  else if 28 <=? descriptor then Fail AssertFailed
  else Ok (CborNoError, set_parsed it CborSimpleType 0 descriptor).

Definition preparse_value (it : CborValue) : outcome (CborError * CborValue) :=
  let it := set_type it CborInvalidType in
  if v_ptr it =? p_end then Ok (CborErrorUnexpectedEOF, it)
  else
    byte0 ← byte (v_ptr it);
    let type := Z.land byte0 MajorTypeMask in
    let descriptor := Z.land byte0 SmallValueMask in
    let it := set_parsed it type 0 descriptor in
    if descriptor >? Value64Bit then
      if negb (descriptor =? IndefiniteLength) then
        Ok (if type =? CborSimpleType then CborErrorUnknownType else CborErrorIllegalNumber, it)
      else if negb (is_fixed_type type) then Ok (CborNoError, set_flag it CborIteratorFlag_UnknownLength)
      else Ok (if type =? CborSimpleType then CborErrorUnexpectedBreak else CborErrorIllegalNumber, it)
    else
      let bytesNeeded := if descriptor <? Value8Bit then 0 else Z.shiftl 1 (descriptor - Value8Bit) in
      if bytesNeeded + 1 >? p_end - v_ptr it then Ok (CborErrorUnexpectedEOF, it)
      else
        let majortype := Z.shiftr type MajorTypeShift in
        if majortype =? 7 then preparse_simple it byte0 descriptor
        else
          let it := if majortype =? 1 then set_type (set_flag it CborIteratorFlag_NegativeInteger) CborIntegerType
                    else it in
          if descriptor <? Value8Bit then Ok (CborNoError, it)
          else if descriptor =? 24 then
            x ← byte (v_ptr it + 1); Ok (CborNoError, set_parsed it (v_type it) (v_flags it) x)
          else if descriptor =? 25 then
            x ← get_be 2 (v_ptr it + 1); Ok (CborNoError, set_parsed it (v_type it) (v_flags it) x)
          else Ok (CborNoError, set_flag it CborIteratorFlag_IntegerValueTooLarge).

Definition preparse_next_value_nodecrement (it : CborValue) : outcome (CborError * CborValue) :=
  brk ← (if (v_remaining it =? UINT32_MAX) && negb (v_ptr it =? p_end)
         then b ← byte (v_ptr it); Ok (b =? BreakByte) else Ok false);
  if (brk : bool) then
    Ok (CborNoError, set_vremaining (set_type (set_ptr it (v_ptr it + 1)) CborInvalidType) 0)
  else preparse_value it.

Definition preparse_next_value (it : CborValue) : outcome (CborError * CborValue) :=
  if negb (v_remaining it =? UINT32_MAX) && negb (v_type it =? CborTagType) then
    let it := set_vremaining it (u32 (v_remaining it - 1)) in
    if v_remaining it =? 0 then Ok (CborNoError, set_type it CborInvalidType)
    else preparse_next_value_nodecrement it
  else preparse_next_value_nodecrement it.

Definition advance_internal (it : CborValue) : outcome (CborError * CborValue) :=
  '(err, ptr, len) ← _cbor_value_extract_number (v_ptr it);
  _ ← c_assert (bool_decide (err = CborNoError));
  let it := set_ptr it ptr in
  if (v_type it =? CborByteStringType) || (v_type it =? CborTextStringType) then
    _ ← c_assert (negb (has_flag it CborIteratorFlag_UnknownLength));
    preparse_next_value (set_ptr it (ptr + len))
  else preparse_next_value it.

(** [_cbor_value_decode_int64_internal]. *)
Definition _cbor_value_decode_int64_internal (it : CborValue) : outcome Z :=
  _ ← c_assert (has_flag it CborIteratorFlag_IntegerValueTooLarge || (v_type it =? CborFloatType) ||
                (v_type it =? CborDoubleType));
  b ← byte (v_ptr it);
  _ ← c_assert ((Z.land b SmallValueMask =? 26) || (Z.land b SmallValueMask =? 27));
  if Z.land b 1 =? Z.land 26 1 then get_be 4 (v_ptr it + 1)
  else _ ← c_assert (Z.land b SmallValueMask =? Value64Bit); get_be 8 (v_ptr it + 1).

Definition _cbor_value_extract_int64_helper (it : CborValue) : outcome Z :=
  if has_flag it CborIteratorFlag_IntegerValueTooLarge then _cbor_value_decode_int64_internal it
  else Ok (v_extra it).

(** [cbor_parser_init].  The caller's [flags] and [extra], which the source
    leaves as they are when the buffer is empty, are 0 here. *)
Definition cbor_parser_init : outcome (CborError * CborValue) :=
  preparse_value {| v_ptr := 0; v_remaining := 1; v_extra := 0; v_type := 0; v_flags := 0 |}.

Definition cbor_value_advance_fixed (it : CborValue) : outcome (CborError * CborValue) :=
  _ ← c_assert (negb (v_type it =? CborInvalidType));
  _ ← c_assert (is_fixed_type (v_type it));
  if v_remaining it =? 0 then Ok (CborErrorAdvancePastEOF, it) else advance_internal it.

(** ** Containers *)

Definition cbor_value_enter_container (it : CborValue) : outcome (CborError * CborValue) :=
  _ ← c_assert (cbor_value_is_container it);
  if has_flag it CborIteratorFlag_UnknownLength then
    preparse_next_value_nodecrement (set_ptr (set_vremaining it UINT32_MAX) (v_ptr it + 1))
  else
    '(err, ptr, len) ← _cbor_value_extract_number (v_ptr it);
    _ ← c_assert (bool_decide (err = CborNoError));
    let recursed := set_vremaining (set_ptr it ptr) (u32 len) in
    if negb (v_remaining recursed =? len) || (len =? UINT32_MAX) then
      Ok (CborErrorDataTooLarge, set_ptr recursed (v_ptr it))
    else if (v_type recursed =? CborMapType) && (v_remaining recursed >? UINT32_MAX / 2) then
      Ok (CborErrorDataTooLarge, set_ptr recursed (v_ptr it))
    else
      let recursed := if v_type recursed =? CborMapType
                      then set_vremaining recursed (u32 (v_remaining recursed * 2)) else recursed in
      if len =? 0 then Ok (CborNoError, set_type recursed CborInvalidType)
      else preparse_next_value_nodecrement recursed.

Definition cbor_value_leave_container (it recursed : CborValue) : outcome (CborError * CborValue) :=
  _ ← c_assert (cbor_value_is_container it);
  _ ← c_assert (v_type recursed =? CborInvalidType);
  preparse_next_value (set_ptr it (v_ptr recursed)).

(** ** Strings *)

Definition prepare_string_iteration (it : CborValue) : CborValue :=
  if cbor_value_is_length_known it then it
  else set_flag (set_ptr it (v_ptr it + 1)) CborIteratorFlag_IteratingStringChunks.

(** The part of [get_string_chunk] from its test for the end of the data: the
    error, the value, and the chunk: its position and length, or [None] for a
    NULL [bufferptr]. *)
Definition chunk_at (it : CborValue) : outcome (CborError * CborValue * option (Z * Z)) :=
  if v_ptr it =? p_end then Ok (CborErrorUnexpectedEOF, it, None)
  else
    b ← byte (v_ptr it);
    if b =? BreakByte then
      '(err, it) ← preparse_next_value (set_ptr it (v_ptr it + 1)); Ok (err, it, None)
    else if Z.land b MajorTypeMask =? v_type it then
      '(err, ptr, len) ← extract_length (v_ptr it);
      let it := set_ptr it ptr in
      if negb (bool_decide (err = CborNoError)) then Ok (err, it, None)
      else if len >? p_end - ptr then Ok (CborErrorUnexpectedEOF, it, None)
      else Ok (CborNoError, set_flag (set_ptr it (ptr + len)) CborIteratorFlag_IteratingStringChunks,
               Some (ptr, len))
    else Ok (CborErrorIllegalType, it, None).

Definition get_string_chunk (it : CborValue) : outcome (CborError * CborValue * option (Z * Z)) :=
  if has_flag it CborIteratorFlag_IteratingStringChunks then
    if cbor_value_is_length_known it then '(err, it) ← preparse_next_value it; Ok (err, it, None)
    else chunk_at it
  else chunk_at (prepare_string_iteration it).

(** The functions that treat one chunk, [src], at offset [off] of the
    caller's buffer: nothing, a comparison, a copy. *)
Inductive iterate_function : Set := iterate_noop | iterate_memcmp | iterate_memcpy.

Definition iterate (func : iterate_function) (buf : list Z) (off : Z) (src : list Z) : bool * list Z :=
  match func with
  | iterate_noop => (true, buf)
  | iterate_memcmp => (bool_decide (slice (Z.to_nat off) (length src) buf = src), buf)
  | iterate_memcpy => (true, write_at buf off src)
  end.

(** The state of [iterate_string_chunks]. *)
Record chunks : Set := { c_buf : list Z; c_total : Z; c_result : bool }.

(** The [while] loop; every turn but one consumes a chunk, so one turn more
    than there are bytes and one for the end suffice. *)
Fixpoint chunk_loop (fuel : nat) (func : iterate_function) (buflen : Z) (it : CborValue) (c : chunks)
    : outcome (CborError * CborValue * chunks) :=
  match fuel with
  | O => Fail OutOfFuel
  | S fuel =>
      '(err, it, chunk) ← get_string_chunk it;
      if negb (bool_decide (err = CborNoError)) then Ok (err, it, c)
      else
        match chunk with
        | None => Ok (CborNoError, it, c)
        | Some (ptr, len) =>
            if c_total c + len >=? 2 ^ 64 then Ok (CborErrorDataTooLarge, it, c)
            else
              let '(result, buf) :=
                if c_result c && (buflen >=? c_total c + len)
                then iterate func (c_buf c) (c_total c) (slice (Z.to_nat ptr) (Z.to_nat len) data)
                else (false, c_buf c) in
              chunk_loop fuel func buflen it {| c_buf := buf; c_total := c_total c + len; c_result := result |}
        end
  end.

(** [iterate_string_chunks] with a caller's buffer of [buflen] bytes (a C
    string for a comparison is followed by its NUL).  [c_total] of the result
    is [*buflen], which an error leaves as it was. *)
Definition iterate_string_chunks (func : iterate_function) (buf : list Z) (buflen : Z) (it : CborValue)
    : outcome (CborError * CborValue * chunks) :=
  _ ← c_assert (cbor_value_is_byte_string it || cbor_value_is_text_string it);
  '(err, it, c) ← chunk_loop (S (S (length data))) func buflen it {| c_buf := buf; c_total := 0; c_result := true |};
  if negb (bool_decide (err = CborNoError))
  then Ok (err, it, {| c_buf := c_buf c; c_total := buflen; c_result := c_result c |})
  else
    let '(result, buf) := if c_result c && (buflen >? c_total c) then iterate func (c_buf c) (c_total c) [0]
                          else (c_result c, c_buf c) in
    Ok (CborNoError, it, {| c_buf := buf; c_total := c_total c; c_result := result |}).

(** [_cbor_value_copy_string]; without a buffer only the length is computed.
    The error, the value after the string, the buffer and the length. *)
Definition _cbor_value_copy_string (buf : option (list Z)) (buflen : Z) (it : CborValue)
    : outcome (CborError * CborValue * list Z * Z) :=
  '(err, it, c) ← iterate_string_chunks (match buf with Some _ => iterate_memcpy | None => iterate_noop end)
                    (default [] buf) buflen it;
  Ok (if bool_decide (err = CborNoError) then if c_result c then CborNoError else CborErrorOutOfMemory else err,
      it, c_buf c, c_total c).

Definition cbor_value_calculate_string_length (it : CborValue) : outcome (CborError * Z) :=
  '(err, _, _, len) ← _cbor_value_copy_string None SIZE_MAX it; Ok (err, len).

(** [_cbor_value_dup_string]: [malloc n] is a new block of [n] bytes, or
    [None]. *)
Definition _cbor_value_dup_string (malloc : Z -> option (list Z)) (it : CborValue)
    : outcome (CborError * CborValue * list Z * Z) :=
  '(err, _, _, buflen) ← _cbor_value_copy_string None SIZE_MAX it;
  if negb (bool_decide (err = CborNoError)) then Ok (err, it, [], buflen)
  else
    let buflen := u64 (buflen + 1) in
    match malloc buflen with
    | None => Ok (CborErrorOutOfMemory, it, [], buflen)
    | Some block =>
        '(err, next, buffer, buflen) ← _cbor_value_copy_string (Some block) buflen it;
        if negb (bool_decide (err = CborNoError)) then Ok (err, next, [], buflen)
        else Ok (CborNoError, next, buffer, buflen)
    end.

(** [_cbor_value_prepare_string_iteration] and [_cbor_value_get_string_chunk],
    for callers that iterate themselves. *)
Definition _cbor_value_prepare_string_iteration (it : CborValue) : outcome (CborError * CborValue) :=
  _ ← c_assert (negb (has_flag it CborIteratorFlag_IteratingStringChunks));
  let it := prepare_string_iteration it in
  Ok (if v_ptr it =? p_end then CborErrorUnexpectedEOF else CborNoError, it).

Definition _cbor_value_get_string_chunk (it : CborValue) : outcome (CborError * CborValue * option (Z * Z)) :=
  get_string_chunk it.

(** ** Tags *)

(** The [while] loop of [cbor_value_skip_tag]; a tag has at least a byte. *)
Fixpoint skip_tags (fuel : nat) (it : CborValue) : outcome (CborError * CborValue) :=
  if cbor_value_is_tag it then
    match fuel with
    | O => Fail OutOfFuel
    | S fuel =>
        '(err, it) ← cbor_value_advance_fixed it;
        if negb (bool_decide (err = CborNoError)) then Ok (err, it) else skip_tags fuel it
    end
  else Ok (CborNoError, it).

Definition cbor_value_skip_tag (it : CborValue) : outcome (CborError * CborValue) := skip_tags (length data) it.

(** [cbor_value_text_string_equals] with the C string [string], without its
    NUL; [false] when the result is not assigned. *)
Definition cbor_value_text_string_equals (string : list Z) (it : CborValue) : outcome (CborError * bool) :=
  '(err, copy) ← cbor_value_skip_tag it;
  if negb (bool_decide (err = CborNoError)) then Ok (err, false)
  else if negb (cbor_value_is_text_string copy) then Ok (CborNoError, false)
  else
    '(err, _, c) ← iterate_string_chunks iterate_memcmp (string ++ [0]) (Z.of_nat (length string)) copy;
    Ok (err, c_result c).

(** ** Advancing *)

(** The [while] loop of [advance_recursive]; every item has at least a
    byte. *)
Fixpoint advance_items (advance : CborValue -> outcome (CborError * CborValue)) (fuel : nat) (recursed : CborValue)
    : outcome (CborError * CborValue) :=
  if cbor_value_at_end recursed then Ok (CborNoError, recursed)
  else
    match fuel with
    | O => Fail OutOfFuel
    | S fuel =>
        '(err, recursed) ← advance recursed;
        if negb (bool_decide (err = CborNoError)) then Ok (err, recursed)
        else advance_items advance fuel recursed
    end.

Fixpoint advance_recursive (nestingLevel : nat) (it : CborValue) {struct nestingLevel}
    : outcome (CborError * CborValue) :=
  if is_fixed_type (v_type it) then advance_internal it
  else if negb (cbor_value_is_container it) then
    '(err, it, _, _) ← _cbor_value_copy_string None SIZE_MAX it; Ok (err, it)
  else
    match nestingLevel with
    | O => Ok (CborErrorNestingTooDeep, it)
    | S level =>
        '(err, recursed) ← cbor_value_enter_container it;
        if negb (bool_decide (err = CborNoError)) then Ok (err, it)
        else
          '(err, recursed) ← advance_items (advance_recursive level) (S (length data)) recursed;
          if negb (bool_decide (err = CborNoError)) then Ok (err, it)
          else cbor_value_leave_container it recursed
    end.

Definition cbor_value_advance (it : CborValue) : outcome (CborError * CborValue) :=
  _ ← c_assert (negb (v_type it =? CborInvalidType));
  if v_remaining it =? 0 then Ok (CborErrorAdvancePastEOF, it)
  else advance_recursive CBOR_PARSER_MAX_RECURSIONS it.

Definition cbor_value_validate_basic (it : CborValue) : outcome CborError :=
  '(err, _) ← cbor_value_advance it; Ok err.

(** The [while] loop of [cbor_value_map_find_value] and what follows it. *)
Definition find_error (err : CborError) (element : CborValue) : outcome (CborError * CborValue) :=
  Ok (err, set_type element CborInvalidType).

Definition skip_map_value (element : CborValue) : outcome (CborError * CborValue) :=
  '(err, element) ← cbor_value_skip_tag element;
  if negb (bool_decide (err = CborNoError)) then Ok (err, element) else cbor_value_advance element.

Fixpoint find_loop (fuel : nat) (string : list Z) (element : CborValue) : outcome (CborError * CborValue) :=
  if cbor_value_at_end element then Ok (CborNoError, set_type element CborInvalidType)
  else
    match fuel with
    | O => Fail OutOfFuel
    | S fuel =>
        '(err, element) ← cbor_value_skip_tag element;
        if negb (bool_decide (err = CborNoError)) then find_error err element
        else if cbor_value_is_text_string element then
          '(err, element, c) ← iterate_string_chunks iterate_memcmp (string ++ [0]) (Z.of_nat (length string)) element;
          if negb (bool_decide (err = CborNoError)) then find_error err element
          else if c_result c then preparse_value element
          else
            '(err, element) ← skip_map_value element;
            if negb (bool_decide (err = CborNoError)) then find_error err element else find_loop fuel string element
        else
          '(err, element) ← cbor_value_advance element;
          if negb (bool_decide (err = CborNoError)) then find_error err element
          else
            '(err, element) ← skip_map_value element;
            if negb (bool_decide (err = CborNoError)) then find_error err element else find_loop fuel string element
    end.

Definition cbor_value_map_find_value (string : list Z) (map : CborValue) : outcome (CborError * CborValue) :=
  _ ← c_assert (cbor_value_is_map map);
  '(err, element) ← cbor_value_enter_container map;
  if negb (bool_decide (err = CborNoError)) then find_error err element
  else find_loop (S (length data)) string element.

(** ** Reading values *)

Definition cbor_value_get_raw_integer (it : CborValue) : outcome Z :=
  _ ← c_assert (cbor_value_is_integer it); _cbor_value_extract_int64_helper it.

Definition cbor_value_get_boolean (it : CborValue) : outcome bool :=
  _ ← c_assert (cbor_value_is_boolean it); Ok (negb (v_extra it =? 0)).

Definition cbor_value_get_simple_type (it : CborValue) : outcome Z :=
  _ ← c_assert (cbor_value_is_simple_type it); Ok (u8 (v_extra it)).

Definition cbor_value_get_double (it : CborValue) : outcome Z :=
  _ ← c_assert (cbor_value_is_double it);
  _ ← c_assert (has_flag it CborIteratorFlag_IntegerValueTooLarge);
  _cbor_value_decode_int64_internal it.

Definition cbor_value_get_int64_checked (it : CborValue) : outcome (CborError * Z) :=
  _ ← c_assert (cbor_value_is_integer it);
  v ← _cbor_value_extract_int64_helper it;
  if v >? INT64_MAX then Ok (CborErrorDataTooLarge, 0)
  else Ok (CborNoError, if has_flag it CborIteratorFlag_NegativeInteger then - v - 1 else v).

Definition cbor_value_get_int_checked (it : CborValue) : outcome (CborError * Z) :=
  _ ← c_assert (cbor_value_is_integer it);
  v ← _cbor_value_extract_int64_helper it;
  if v >? 2 ^ 31 - 1 then Ok (CborErrorDataTooLarge, 0)
  else Ok (CborNoError, if has_flag it CborIteratorFlag_NegativeInteger then - v - 1 else v).

Definition cbor_value_get_uint64 (it : CborValue) : outcome Z :=
  _ ← c_assert (cbor_value_is_unsigned_integer it); _cbor_value_extract_int64_helper it.

(** The unchecked getters convert the number before its sign is applied; a
    negation that overflows is undefined. *)
Definition cbor_value_get_int64 (it : CborValue) : outcome Z :=
  _ ← c_assert (cbor_value_is_integer it);
  v ← _cbor_value_extract_int64_helper it;
  if has_flag it CborIteratorFlag_NegativeInteger then n ← i64 (- s64 v); i64 (n - 1) else Ok (s64 v).

Definition cbor_value_get_int (it : CborValue) : outcome Z :=
  _ ← c_assert (cbor_value_is_integer it);
  v ← _cbor_value_extract_int64_helper it;
  let result := if u32 v <? 2 ^ 31 then u32 v else u32 v - 2 ^ 32 in
  if has_flag it CborIteratorFlag_NegativeInteger then
    if result =? - 2 ^ 31 then Fail UndefinedBehaviour else Ok (- result - 1)
  else Ok result.

Definition cbor_value_get_tag (it : CborValue) : outcome Z :=
  _ ← c_assert (cbor_value_is_tag it); _cbor_value_extract_int64_helper it.

Definition get_length (it : CborValue) : outcome (CborError * Z) :=
  if negb (cbor_value_is_length_known it) then Ok (CborErrorUnknownLength, 0)
  else v ← _cbor_value_extract_int64_helper it; Ok (CborNoError, v).

Definition cbor_value_get_string_length (it : CborValue) : outcome (CborError * Z) :=
  _ ← c_assert (cbor_value_is_byte_string it || cbor_value_is_text_string it); get_length it.
Definition cbor_value_get_array_length (it : CborValue) : outcome (CborError * Z) :=
  _ ← c_assert (cbor_value_is_array it); get_length it.
Definition cbor_value_get_map_length (it : CborValue) : outcome (CborError * Z) :=
  _ ← c_assert (cbor_value_is_map it); get_length it.

Definition cbor_value_get_half_float (it : CborValue) : outcome Z :=
  _ ← c_assert (cbor_value_is_half_float it); get_be 2 (v_ptr it + 1).
Definition cbor_value_get_float (it : CborValue) : outcome Z :=
  _ ← c_assert (cbor_value_is_float it);
  _ ← c_assert (has_flag it CborIteratorFlag_IntegerValueTooLarge);
  v ← _cbor_value_decode_int64_internal it; Ok (u32 v).

End parser.
