(* ===== verification/CborRead.v ===== *)
(** * What the CBOR parser guarantees

    On any bytes, the functions of cborparser.c and cbor.h that are listed as
    [call] and [question] return when they are called under their documented
    conditions: no read is outside of the buffer and no assertion fails
    ([obtained], [parser_safe]).  Not so [cbor_value_map_find_value]
    ([map_find_odd_map]); and the getters that convert without a check
    ([cbor_value_get_int64], [cbor_value_get_int]) are left out, because the
    negation of the smallest number is undefined, and so are the functions
    that iterate over the chunks of a string, which are internal to the
    library.  That the parser reads back what the encoder writes is in [CborReadBack]. *)

From stdpp Require Import base numbers gmap list.
From S2P Require Import Prelude CborEncoder CborParser.

(** ** Heads of items *)

(** The bytes of the argument that follow an initial byte with low bits [d]. *)
Definition need (d : Z) : Z := if d <? Value8Bit then 0 else Z.shiftl 1 (d - Value8Bit).

Lemma need_cases d : 0 <= d <= 27 ->
  (d < 24 /\ need d = 0) \/ (d = 24 /\ need d = 1) \/ (d = 25 /\ need d = 2) \/ (d = 26 /\ need d = 4) \/
  (d = 27 /\ need d = 8).
Proof.
  intros H. unfold need, Value8Bit. destruct (Z.ltb_spec d 24); [left; lia|right].
  assert (d = 24 \/ d = 25 \/ d = 26 \/ d = 27) as [->|[->|[->| ->]]] by lia; compute; intuition congruence.
Qed.

(** The low and the high bits of every byte, by evaluation. *)
Lemma byte_masks :
  forallb (fun b => (Z.land b SmallValueMask =? b mod 32) && (Z.land b MajorTypeMask =? 32 * (b / 32)))
    (seqZ 0 256) = true.
Proof. vm_compute. reflexivity. Qed.

Lemma byte_split b : 0 <= b < 256 ->
  exists m d, 0 <= m < 8 /\ 0 <= d < 32 /\ b = 32 * m + d /\ Z.land b SmallValueMask = d /\
              Z.land b MajorTypeMask = 32 * m.
Proof.
  intros Hb. pose proof byte_masks as H. rewrite forallb_forall in H.
  specialize (H b). rewrite <- list_elem_of_In, elem_of_seqZ, andb_true_iff, !Z.eqb_eq in H.
  destruct H as [-> ->]; [lia|]. exists (b / 32), (b mod 32). repeat split; div_lia.
Qed.

Lemma is_no_error : bool_decide (CborNoError = CborNoError) = true.
Proof. by apply bool_decide_eq_true_2. Qed.

Section safety.
Context (data : list Z) (Hbytes : bytes_ok data).

Abbreviation p_end := (p_end data).

Lemma byte_ok p : 0 <= p < p_end -> exists b, byte data p = Ok b /\ 0 <= b < 256.
Proof.
  unfold byte, CborParser.p_end. intros Hp. destruct (Z.ltb_spec p 0); [lia|].
  destruct (lookup_lt_is_Some_2 data (Z.to_nat p)) as [b Hb]; [lia|].
  rewrite Hb. exists b. split; [done|]. by apply (Forall_lookup_1 _ _ _ _ Hbytes Hb).
Qed.

Lemma le_int_range l : bytes_ok l -> 0 <= le_int l < 256 ^ Z.of_nat (length l).
Proof.
  induction 1 as [|b l Hb _ IH]; cbn [le_int length]; [done|].
  rewrite Nat2Z.inj_succ, Z.pow_succ_r by lia. lia.
Qed.

Lemma get_be_ok n p : 0 <= p -> p + Z.of_nat n <= p_end ->
  exists v, get_be data n p = Ok v /\ 0 <= v < 256 ^ Z.of_nat n.
Proof.
  intros H0 H1. unfold get_be. replace (_ && _) with true by lia. eexists. split; [done|].
  unfold be_int, slice, CborParser.p_end in *.
  assert (Hr : bytes_ok (rev (take n (drop (Z.to_nat p) data)))).
  { apply Forall_rev, Forall_take, Forall_drop, Hbytes. }
  apply le_int_range in Hr. by rewrite length_rev, length_take, length_drop, Nat.min_l in Hr by lia.
Qed.

(** What a successful [preparse_value] establishes: the initial byte has been
    seen, and so have the bytes of its argument. *)
Inductive head (it : CborValue) : Prop :=
| head_known b d :
    byte data (v_ptr it) = Ok b -> Z.land b SmallValueMask = d -> 0 <= d <= 27 ->
    v_ptr it + 1 + need d <= p_end ->
    has_flag it CborIteratorFlag_UnknownLength = false ->
    (has_flag it CborIteratorFlag_IntegerValueTooLarge = true -> 26 <= d) ->
    (is_fixed_type (v_type it) = false ->
     v_type it = Z.land b MajorTypeMask /\ has_flag it CborIteratorFlag_IteratingStringChunks = false) ->
    (v_type it = CborHalfFloatType -> d = 25) ->
    (v_type it = CborFloatType \/ v_type it = CborDoubleType ->
     has_flag it CborIteratorFlag_IntegerValueTooLarge = true) ->
    v_type it <> CborInvalidType ->
    0 <= v_extra it < 2 ^ 16 ->
    head it
| head_unknown b :
    byte data (v_ptr it) = Ok b -> Z.land b SmallValueMask = IndefiniteLength ->
    v_ptr it + 1 <= p_end ->
    has_flag it CborIteratorFlag_UnknownLength = true ->
    has_flag it CborIteratorFlag_IteratingStringChunks = false ->
    has_flag it CborIteratorFlag_IntegerValueTooLarge = false ->
    is_fixed_type (v_type it) = false -> v_type it = Z.land b MajorTypeMask ->
    head it.

Lemma extract_number_ok p b d : 0 <= p -> byte data p = Ok b -> Z.land b SmallValueMask = d -> 0 <= d <= 27 ->
  p + 1 + need d <= p_end ->
  exists v, _cbor_value_extract_number data p = Ok (CborNoError, p + 1 + need d, v) /\ 0 <= v < 2 ^ 64.
Proof.
  intros Hp Hb Hd Hr Hn. unfold _cbor_value_extract_number. rewrite Hb. cbn. rewrite Hd.
  unfold Value64Bit. unfold need in *. destruct (Z.ltb_spec d Value8Bit) as [Hlt|Hge].
  { exists d. rewrite Z.add_0_r. split; [done|lia]. }
  destruct (Z.gtb_spec d 27); [lia|]. destruct (Z.gtb_spec (Z.shiftl 1 (d - Value8Bit)) (p_end - (p + 1))); [lia|].
  pose proof (need_cases d Hr) as Hc. unfold need in Hc. replace (d <? Value8Bit) with false in Hc by lia.
  set (k := Z.shiftl 1 (d - Value8Bit)) in *.
  assert (Hk : k = 1 \/ k = 2 \/ k = 4 \/ k = 8) by (unfold Value8Bit in *; lia).
  destruct (get_be_ok (Z.to_nat k) (p + 1)) as (v & -> & Hv); [lia|lia|]. cbn.
  exists v. split; [done|]. rewrite Z2Nat.id in Hv by lia. destruct Hk as [->|[->|[->| ->]]]; lia.
Qed.

(** [is_fixed_type] of the value that [preparse_value] computes, and its
    flags, are found by evaluation of the eight major types. *)
Ltac majors m :=
  let H := fresh in
  assert (H : m = 0 \/ m = 1 \/ m = 2 \/ m = 3 \/ m = 4 \/ m = 5 \/ m = 6 \/ m = 7) by lia;
  destruct H as [->|[->|[->|[->|[->|[->|[->| ->]]]]]]].

Definition same_place (it it' : CborValue) : Prop := v_ptr it' = v_ptr it /\ v_remaining it' = v_remaining it.

Lemma head_known_intro it t f x b d :
  byte data (v_ptr it) = Ok b -> Z.land b SmallValueMask = d -> 0 <= d <= 27 -> v_ptr it + 1 + need d <= p_end ->
  f = 0 \/ f = 2 /\ t = CborIntegerType \/ (f = 1 \/ f = 3 /\ t = CborIntegerType) /\ 26 <= d ->
  (is_fixed_type t = false -> t = Z.land b MajorTypeMask) ->
  (t = CborHalfFloatType -> d = 25) -> (t = CborFloatType \/ t = CborDoubleType -> f = 1) ->
  t <> CborInvalidType -> 0 <= x < 2 ^ 16 ->
  head (set_parsed it t f x).
Proof.
  intros Hb Hd Hr Hn Hf Ht Hh Hfl Hi Hx. apply head_known with (b := b) (d := d); try done; cbn [set_parsed v_flags v_type].
  - destruct Hf as [->|[[-> ->]|[[->|[-> ->]] ?]]]; done.
  - destruct Hf as [->|[[-> ->]|[[->|[-> ->]] ?]]]; done.
  - intros Hnf. split; [auto|]. destruct Hf as [->|[[-> ->]|[[->|[-> ->]] ?]]]; done.
  - intros H. by rewrite Hfl.
Qed.

Lemma preparse_simple_ok it d : byte data (v_ptr it) = Ok (224 + d) -> 0 <= d <= 27 ->
  0 <= v_ptr it -> v_ptr it + 1 + need d <= p_end ->
  exists err it', preparse_simple data it (224 + d) d = Ok (err, it') /\ same_place it it' /\
                  (err = CborNoError -> head it').
Proof.
  intros Hb Hd Hp Hn. unfold preparse_simple.
  destruct (byte_split (224 + d)) as (m & d' & Hm & Hd' & Eb & El & Eh); [lia|].
  assert (d' = d) as -> by lia. pose proof (need_cases d Hd) as Hc.
  pose proof (fun t f x => head_known_intro it t f x _ d Hb El Hd Hn) as Hk.
  destruct (Z.eqb_spec d 20).
  { do 2 eexists. split; [done|]. split; [done|]. intros _. apply Hk; try done; auto; by intros []. }
  destruct ((d =? 26) || (d =? 27)) eqn:E1.
  { do 2 eexists. split; [done|]. split; [done|]. intros _.
    assert (d = 26 \/ d = 27) as [-> | ->] by lia; apply Hk; try done; auto;
      (right; right; split; [by left|lia]). }
  destruct ((d =? 21) || (d =? 22) || (d =? 23) || (d =? 25)) eqn:E2.
  { do 2 eexists. split; [done|]. split; [done|]. intros _.
    assert (d = 21 \/ d = 22 \/ d = 23 \/ d = 25) as [->|[->|[->| ->]]] by lia; apply Hk; try done; auto; by intros []. }
  destruct (Z.eqb_spec d 24) as [->|].
  { destruct (byte_ok (v_ptr it + 1)) as (x & -> & Hx); [lia|]. cbn.
    destruct (x <? 32); do 2 eexists; (split; [done|]; split; [done|]); [done|]. intros _.
    apply Hk; try done; auto; try lia. by intros []. }
  destruct (Z.leb_spec 28 d); [lia|]. do 2 eexists. split; [done|]. split; [done|]. intros _.
  apply Hk; try done; auto; try lia. by intros [].
Qed.

(** A branch that returns an error. *)
Ltac refused := do 2 eexists; split; [done|split; [done|discriminate]].

Lemma preparse_value_ok it : 0 <= v_ptr it <= p_end ->
  exists err it', preparse_value data it = Ok (err, it') /\ same_place it it' /\ (err = CborNoError -> head it').
Proof.
  intros Hp. unfold preparse_value. cbn [set_type v_ptr].
  destruct (Z.eqb_spec (v_ptr it) p_end) as [E|E]; [refused|].
  destruct (byte_ok (v_ptr it)) as (b & Hb & Hr); [lia|]. rewrite Hb. cbn [mbind outcome_bind].
  destruct (byte_split b Hr) as (m & d & Hm & Hd & Eb & El & Eh). rewrite El, Eh.
  unfold Value64Bit. destruct (Z.gtb_spec d 27) as [H27|H27].
  { destruct (Z.eqb_spec d IndefiniteLength) as [E31|E31]; cbn [negb];
      [|destruct (32 * m =? CborSimpleType); refused].
    destruct (is_fixed_type (32 * m)) eqn:Ef; cbn [negb].
    - destruct (32 * m =? CborSimpleType); refused.
    - do 2 eexists. split; [done|]. split; [done|]. intros _. apply head_unknown with (b := b); cbn; try done; try lia.
      all: congruence. }
  fold (need d). cbn [set_parsed set_type v_ptr].
  destruct (Z.gtb_spec (need d + 1) (p_end - v_ptr it)) as [Hn|Hn]; [refused|].
  set (it1 := set_parsed it (32 * m) 0 d).
  destruct (Z.shiftr (32 * m) MajorTypeShift =? 7) eqn:E7.
  { assert (m = 7) as -> by (majors m; done). subst b.
    destruct (preparse_simple_ok it1 d) as (err & it' & H); [done|lia|cbn; lia..|]. by exists err, it'. }
  set (it2 := if Z.shiftr (32 * m) MajorTypeShift =? 1
              then set_type (set_flag (set_parsed (set_type it CborInvalidType) (32 * m) 0 d)
                               CborIteratorFlag_NegativeInteger) CborIntegerType
              else set_parsed (set_type it CborInvalidType) (32 * m) 0 d).
  assert (H2 : exists t f, it2 = set_parsed it t f d /\ (f = 0 /\ t = 32 * m /\ m < 7 \/ f = 2 /\ t = CborIntegerType)).
  { subst it2. assert (m < 7) by (assert (m <> 7) by (intros ->; done); lia).
    destruct (_ =? 1); do 2 eexists; (split; [done|]); [by right|left; auto]. }
  destruct H2 as (t & f & -> & Htf). cbn [set_parsed v_ptr v_type v_flags]. pose proof (need_cases d) as Hc.
  assert (Hk : forall g x, (g = 0 \/ g = 1 /\ 26 <= d) -> 0 <= x < 2 ^ 16 -> head (set_parsed it t (Z.lor f g) x)).
  { intros g x Hg Hx. apply (head_known_intro it _ _ _ b d); try done; try lia.
    - destruct Hg as [->|[-> ?]], Htf as [(-> & -> & ?)|[-> ->]]; cbn; tauto.
    - intros Hnf. destruct Htf as [(-> & -> & ?)|[-> ->]]; [done|discriminate].
    - intros ->. unfold CborHalfFloatType, CborIntegerType in Htf. lia.
    - unfold CborFloatType, CborDoubleType, CborIntegerType in *. lia.
    - unfold CborInvalidType, CborIntegerType in *. lia. }
  unfold Value8Bit. destruct (Z.ltb_spec d 24).
  { do 2 eexists. split; [done|]. split; [done|]. intros _. rewrite <- (Z.lor_0_r f). apply Hk; [auto|lia]. }
  destruct (Z.eqb_spec d 24).
  { destruct (byte_ok (v_ptr it + 1)) as (x & -> & Hx); [lia|]. do 2 eexists. split; [done|]. split; [done|].
    intros _. cbn. rewrite <- (Z.lor_0_r f). apply Hk; [auto|lia]. }
  destruct (Z.eqb_spec d 25).
  { destruct (get_be_ok 2 (v_ptr it + 1)) as (x & -> & Hx); [lia|lia|]. do 2 eexists. split; [done|]. split; [done|].
    intros _. cbn. rewrite <- (Z.lor_0_r f). apply Hk; [auto|lia]. }
  do 2 eexists. split; [done|]. split; [done|]. intros _. apply (Hk 1 d); [right; split; [done|lia]|lia].
Qed.

(** ** Values a client can hold *)

(** A value is at the end of its container, or in front of an item whose head
    has been read. *)
Definition good (it : CborValue) : Prop :=
  0 <= v_ptr it <= p_end /\ 0 <= v_remaining it <= UINT32_MAX /\
  (v_remaining it = 0 /\ v_type it = CborInvalidType \/ 0 < v_remaining it /\ head it).

(** The call returns; after a success the value is good and not before [p]. *)
Definition returns (m : outcome (CborError * CborValue)) (p : Z) : Prop :=
  exists err it, m = Ok (err, it) /\ (err = CborNoError -> good it /\ p <= v_ptr it).

Lemma returns_weaken m p q : q <= p -> returns m p -> returns m q.
Proof. intros Hq (err & it & -> & H). exists err, it. split; [done|]. intros E. destruct (H E). split; [done|lia]. Qed.

Lemma head_range it : head it -> v_ptr it < p_end.
Proof.
  intros [b d Hb _ Hd Hn _ _ _ _ _ _ _|]; [|lia]. pose proof (need_cases d Hd). lia.
Qed.

Lemma head_valid it : head it -> v_type it <> CborInvalidType.
Proof. intros [|b ? ? ? ? ? ? Hf ?]; [done|]. intros E. by rewrite E in Hf. Qed.

Lemma good_not_end it : good it -> v_type it <> CborInvalidType -> 0 < v_remaining it /\ head it.
Proof. by intros (_ & _ & [[_ ?]|?]). Qed.

Lemma nodecrement_returns it : 0 <= v_ptr it <= p_end -> 0 < v_remaining it <= UINT32_MAX ->
  returns (preparse_next_value_nodecrement data it) (v_ptr it).
Proof.
  intros Hp Hr. unfold preparse_next_value_nodecrement.
  assert (Hv : returns (preparse_value data it) (v_ptr it)).
  { destruct (preparse_value_ok it Hp) as (err & it' & -> & [Hp' Hr'] & Hh). exists err, it'. split; [done|].
    intros E. split; [|lia]. split; [lia|]. split; [lia|]. right. split; [lia|auto]. }
  destruct ((v_remaining it =? UINT32_MAX) && negb (v_ptr it =? p_end)) eqn:E; [|done].
  destruct (byte_ok (v_ptr it)) as (b & -> & Hb); [lia|]. cbn.
  destruct (b =? BreakByte); [|done]. do 2 eexists. split; [done|]. intros _. cbn. unfold good. cbn.
  unfold UINT32_MAX. repeat split; try lia.
Qed.

Lemma next_returns it : 0 <= v_ptr it <= p_end -> 0 < v_remaining it <= UINT32_MAX ->
  returns (preparse_next_value data it) (v_ptr it).
Proof.
  intros Hp Hr. unfold preparse_next_value.
  destruct (negb (v_remaining it =? UINT32_MAX) && negb (v_type it =? CborTagType)) eqn:E;
    [|by apply nodecrement_returns].
  replace (u32 (v_remaining it - 1)) with (v_remaining it - 1)
    by (symmetry; apply Z.mod_small; unfold UINT32_MAX in *; lia).
  cbn. destruct (Z.eqb_spec (v_remaining it - 1) 0).
  - do 2 eexists. split; [done|]. intros _. unfold good. cbn. unfold UINT32_MAX. repeat split; try lia.
  - apply (nodecrement_returns (set_vremaining it (v_remaining it - 1))); cbn; lia.
Qed.

Lemma advance_internal_returns it : good it -> 0 < v_remaining it -> is_fixed_type (v_type it) = true ->
  returns (advance_internal data it) (v_ptr it + 1).
Proof.
  intros (Hp & Hr & [[? _]|[_ Hh]]) Hm Hf; [lia|]. unfold advance_internal.
  destruct Hh as [b d Hb Hd Hdr Hn|b ? ? ? ? ? ? Hf']; [|congruence].
  destruct (extract_number_ok (v_ptr it) b d) as (v & -> & _); try done; try lia. cbn.
  pose proof (need_cases d Hdr).
  replace ((v_type it =? CborByteStringType) || (v_type it =? CborTextStringType)) with false
    by (symmetry; unfold is_fixed_type in Hf; lia).
  apply returns_weaken with (p := v_ptr (set_ptr it (v_ptr it + 1 + need d))); [cbn; lia|].
  apply next_returns; cbn; lia.
Qed.

Lemma enter_returns it : good it -> cbor_value_is_container it = true ->
  returns (cbor_value_enter_container data it) (v_ptr it + 1).
Proof.
  intros Hg Hc. unfold cbor_value_enter_container. rewrite Hc. cbn.
  assert (Hi : v_type it <> CborInvalidType)
    by (unfold cbor_value_is_container, CborArrayType, CborMapType, CborInvalidType in *; lia).
  destruct (good_not_end it Hg Hi) as [Hm Hh]. pose proof (head_range it Hh) as Hlt.
  destruct Hg as (Hp & Hr & _).
  assert (Hnf : is_fixed_type (v_type it) = false) by (unfold cbor_value_is_container, is_fixed_type in *; lia).
  destruct Hh as [b d Hb Hd Hdr Hn Hu _ _ _ _ _ _|b Hb Hd Hn Hu _ _ _ _]; rewrite Hu.
  - destruct (extract_number_ok (v_ptr it) b d) as (len & -> & Hl); try done; try lia. cbn.
    pose proof (need_cases d Hdr).
    destruct (negb (u32 len =? len) || (len =? UINT32_MAX)) eqn:E1; [by do 2 eexists|].
    destruct ((v_type it =? CborMapType) && (u32 len >? UINT32_MAX / 2)) eqn:E2; [by do 2 eexists|].
    assert (Hu' : u32 len = len) by lia.
    assert (Hlt' : 0 <= len < 2 ^ 32) by (rewrite <- Hu'; apply Z.mod_pos_bound; lia). rewrite Hu' in *.
    assert (Hrem : exists r, (if v_type it =? CborMapType
                    then set_vremaining (set_vremaining (set_ptr it (v_ptr it + 1 + need d)) len) (u32 (len * 2))
                    else set_vremaining (set_ptr it (v_ptr it + 1 + need d)) len) =
                    set_vremaining (set_ptr it (v_ptr it + 1 + need d)) r /\ 0 <= r <= UINT32_MAX /\
                    (r = 0 <-> len = 0)).
    { unfold u32, UINT32_MAX in *. destruct (v_type it =? CborMapType).
      - exists (len * 2). rewrite Z.mod_small by (cbn in E2; change ((2 ^ 32 - 1) / 2) with (2 ^ 31 - 1) in E2; lia).
        cbn in E2. change ((2 ^ 32 - 1) / 2) with (2 ^ 31 - 1) in E2. split; [done|lia].
      - exists len. split; [done|]. lia. }
    destruct Hrem as (r' & -> & Hr' & Hz). destruct (Z.eqb_spec len 0).
    + do 2 eexists. split; [done|]. intros _. unfold good. cbn. repeat split; try lia.
    + apply returns_weaken with (p := v_ptr it + 1 + need d); [lia|].
      apply (nodecrement_returns (set_vremaining (set_ptr it (v_ptr it + 1 + need d)) r')); cbn; lia.
  - apply (nodecrement_returns (set_ptr (set_vremaining it UINT32_MAX) (v_ptr it + 1))); cbn; unfold UINT32_MAX; lia.
Qed.

Lemma leave_returns it recursed : good it -> cbor_value_is_container it = true ->
  good recursed -> v_remaining recursed = 0 ->
  returns (cbor_value_leave_container data it recursed) (v_ptr recursed).
Proof.
  intros Hg Hc (Hp' & _ & Hrec) H0. unfold cbor_value_leave_container. rewrite Hc. cbn.
  destruct Hrec as [[_ ->]|[? _]]; [|lia]. cbn.
  assert (Hi : v_type it <> CborInvalidType)
    by (unfold cbor_value_is_container, CborArrayType, CborMapType, CborInvalidType in *; lia).
  destruct (good_not_end it Hg Hi) as [Hm _]. destruct Hg as (Hp & Hr & _).
  apply (next_returns (set_ptr it (v_ptr recursed))); cbn; lia.
Qed.

(** *** Strings *)

Definition is_string (it : CborValue) : bool := cbor_value_is_byte_string it || cbor_value_is_text_string it.

(** A string value in front of its first chunk or after one of its chunks. *)
Definition in_string (it : CborValue) : Prop :=
  is_string it = true /\ 0 <= v_ptr it <= p_end /\ 0 < v_remaining it <= UINT32_MAX /\
  (head it \/ has_flag it CborIteratorFlag_IteratingStringChunks = true).

Lemma has_flag_set it f g : has_flag (set_flag it f) g = has_flag it g || negb (Z.land f g =? 0).
Proof.
  unfold has_flag, set_flag; cbn [v_flags]. rewrite Z.land_comm, Z.land_lor_distr_r, (Z.land_comm g), (Z.land_comm g).
  destruct (Z.eqb_spec (Z.land (v_flags it) g) 0) as [->|E1]; [done|]. cbn.
  destruct (Z.eqb_spec (Z.lor (Z.land (v_flags it) g) (Z.land f g)) 0) as [E|E]; [|done].
  apply Z.lor_eq_0_iff in E as [E _]. congruence.
Qed.

(** The outcome of one [get_string_chunk]. *)
Definition chunk_result (it it' : CborValue) (chunk : option (Z * Z)) : Prop :=
  match chunk with
  | None => good it' /\ v_ptr it <= v_ptr it' /\ (head it -> v_ptr it < v_ptr it')
  | Some (p, len) => in_string it' /\ v_ptr it < p /\ 0 <= len /\ v_ptr it' = p + len
  end.

Lemma chunk_at_ok it : is_string it = true -> 0 <= v_ptr it <= p_end -> 0 < v_remaining it <= UINT32_MAX ->
  exists err it' chunk, chunk_at data it = Ok (err, it', chunk) /\
    (err = CborNoError -> chunk_result it it' chunk /\ v_ptr it < v_ptr it').
Proof.
  intros Hs Hp Hr. unfold chunk_at. destruct (Z.eqb_spec (v_ptr it) p_end) as [E|E]; [by do 3 eexists|].
  destruct (byte_ok (v_ptr it)) as (b & Hb & Hbr); [lia|]. rewrite Hb. cbn [mbind outcome_bind].
  destruct (Z.eqb_spec b BreakByte).
  { destruct (next_returns (set_ptr it (v_ptr it + 1))) as (err & it' & -> & Hi); cbn; try lia.
    do 3 eexists. split; [done|]. intros E'. destruct (Hi E') as [? Hq]. cbn in Hq |- *. split; [|lia]. split; [done|lia]. }
  destruct (Z.land b MajorTypeMask =? v_type it); [|by do 3 eexists].
  destruct (byte_split b Hbr) as (m & d & Hm & Hd & Eb & El & _).
  unfold extract_length. destruct (Z.gtb_spec d 27) as [Hd27|Hd27].
  { unfold _cbor_value_extract_number. rewrite Hb. cbn [mbind outcome_bind]. rewrite El.
    replace (d <? Value8Bit) with false by (unfold Value8Bit; lia).
    replace (d >? Value64Bit) with true by (unfold Value64Bit; lia). cbn. by do 3 eexists. }
  destruct (Z.le_gt_cases (v_ptr it + 1 + need d) p_end) as [Hn|Hn].
  - destruct (extract_number_ok (v_ptr it) b d) as (len & -> & Hl); try done; try lia.
    pose proof (need_cases d ltac:(lia)). cbn. rewrite is_no_error. cbn. rewrite is_no_error. cbn.
    destruct (Z.gtb_spec len (p_end - (v_ptr it + 1 + need d))); [by do 3 eexists|].
    do 3 eexists. split; [done|]. intros _. cbn. split; [|lia]. split; [|lia]. unfold in_string. cbn. repeat split; try done; try lia.
    right. rewrite has_flag_set. apply orb_true_r.
  - unfold _cbor_value_extract_number. rewrite Hb. cbn [mbind outcome_bind]. rewrite El. unfold need in Hn.
    destruct (Z.ltb_spec d Value8Bit); [lia|].
    replace (d >? Value64Bit) with false by (unfold Value64Bit; lia).
    destruct (Z.gtb_spec (Z.shiftl 1 (d - Value8Bit)) (p_end - (v_ptr it + 1))); [|lia]. cbn. by do 3 eexists.
Qed.

Lemma get_string_chunk_ok it : in_string it ->
  exists err it' chunk, get_string_chunk data it = Ok (err, it', chunk) /\
    (err = CborNoError -> chunk_result it it' chunk).
Proof.
  intros (Hs & Hp & Hr & Hst). unfold get_string_chunk.
  assert (Hnf : is_fixed_type (v_type it) = false)
    by (unfold is_string, cbor_value_is_byte_string, cbor_value_is_text_string, is_fixed_type in *; lia).
  destruct (has_flag it CborIteratorFlag_IteratingStringChunks) eqn:Ek.
  - destruct (cbor_value_is_length_known it).
    + destruct (next_returns it) as (err & it' & -> & Hi); try done. do 3 eexists. split; [done|]. cbn.
      intros E. destruct (Hi E). split; [done|]. split; [done|]. intros Hh.
      destruct Hh as [b d _ _ _ _ _ _ Ht _ _ _ _|b _ _ _ _ Ht _ _ _]; [destruct (Ht Hnf) as [_ Ht']|]; congruence.
    + destruct (chunk_at_ok it) as (err & it' & chunk & -> & Hc); try done. do 3 eexists. split; [done|].
      intros E. by apply Hc.
  - destruct Hst as [Hh|?]; [|congruence]. pose proof (head_range it Hh).
    assert (H1 : exists p f, prepare_string_iteration it = set_parsed (set_ptr it p) (v_type it) f (v_extra it) /\
                             v_ptr it <= p <= p_end).
    { unfold prepare_string_iteration. destruct (cbor_value_is_length_known it).
      - exists (v_ptr it), (v_flags it). split; [by destruct it|lia].
      - do 2 eexists. split; [done|lia]. }
    destruct H1 as (p & f & -> & Hpp). set (it1 := set_parsed _ _ _ _).
    destruct (chunk_at_ok it1) as (err & it' & chunk & -> & Hc); try done; [cbn; lia|]. do 3 eexists. split; [done|].
    intros E. destruct (Hc E) as [Hc' Hlt]. cbn in Hlt. destruct chunk as [[q len]|]; cbn in Hc' |- *.
    + destruct Hc' as (Hi & ? & ? & ?). split; [done|lia].
    + destruct Hc' as (Hg & _ & _). split; [done|lia].
Qed.

(** The buffer a caller lends keeps its size. *)
Lemma iterate_length func buf off src buflen : 0 <= off -> off + Z.of_nat (length src) <= buflen ->
  (func = iterate_memcpy -> buflen <= Z.of_nat (length buf)) ->
  length (iterate func buf off src).2 = length buf.
Proof.
  intros H0 H1 H2. destruct func; cbn; [done..|]. specialize (H2 eq_refl). unfold write_at.
  rewrite !length_app, length_take, length_drop. lia.
Qed.

Lemma chunk_loop_ok func buflen fuel it c : in_string it -> p_end - v_ptr it < Z.of_nat fuel -> 0 <= c_total c ->
  (func = iterate_memcpy -> buflen <= Z.of_nat (length (c_buf c))) ->
  exists err it' c', chunk_loop data fuel func buflen it c = Ok (err, it', c') /\
    length (c_buf c') = length (c_buf c) /\ 0 <= c_total c' /\
    (err = CborNoError -> good it' /\ v_ptr it <= v_ptr it' /\ (head it -> v_ptr it < v_ptr it')).
Proof.
  revert it c. induction fuel as [|fuel IH]; intros it c Hs Hf H0 Hb; [destruct Hs as (_ & ? & _); lia|].
  cbn. destruct (get_string_chunk_ok it Hs) as (err & it' & chunk & -> & Hc). cbn.
  destruct (bool_decide_reflect (err = CborNoError)) as [->|Hne]; cbn; [|by do 3 eexists].
  specialize (Hc eq_refl). destruct chunk as [[p len]|]; [|by do 3 eexists].
  destruct Hc as (Hs' & Hlt & Hlen & Hp').
  destruct (c_total c + len >=? 2 ^ 64); [by do 3 eexists|].
  destruct (if c_result c && _ then _ else _) as [result buf] eqn:Ei.
  assert (Hl : length buf = length (c_buf c)).
  { destruct (c_result c && _) eqn:Et; [|by injection Ei as <- <-].
    change buf with (result, buf).2. rewrite <- Ei. apply iterate_length with (buflen := buflen); try done.
    unfold slice. rewrite length_take. lia. }
  destruct (IH it' {| c_buf := buf; c_total := c_total c + len; c_result := result |})
    as (err & it2 & c2 & -> & Hl2 & Ht2 & H2); try done; cbn; [lia|lia|by rewrite Hl|].
  do 3 eexists. split; [done|]. cbn in Hl2. split; [congruence|]. split; [done|]. intros E.
  destruct (H2 E) as (Hg & ? & _). split; [done|]. lia.
Qed.

Lemma iterate_string_chunks_ok func buf buflen it : good it -> is_string it = true ->
  (func = iterate_memcpy -> buflen <= Z.of_nat (length buf)) ->
  exists err it' c, iterate_string_chunks data func buf buflen it = Ok (err, it', c) /\
    length (c_buf c) = length buf /\ (err = CborNoError -> good it' /\ v_ptr it + 1 <= v_ptr it').
Proof.
  intros Hg Hs Hb. unfold iterate_string_chunks. unfold is_string in Hs. rewrite Hs. cbn [c_assert mbind outcome_bind].
  assert (Hi : v_type it <> CborInvalidType).
  { intros E. unfold cbor_value_is_byte_string, cbor_value_is_text_string in Hs. by rewrite E in Hs. }
  destruct (good_not_end it Hg Hi) as [Hm Hh]. destruct Hg as (Hp & Hr & _).
  destruct (chunk_loop_ok func buflen (S (S (length data))) it {| c_buf := buf; c_total := 0; c_result := true |})
    as (err & it' & c & -> & Hl & Ht & Hc); cbn; try done.
  { repeat split; try lia; [done|by left]. }
  { unfold CborParser.p_end in *. lia. }
  destruct (bool_decide_reflect (err = CborNoError)) as [->|Hne]; cbn; [|by do 3 eexists].
  destruct (if c_result c && _ then _ else _) as [result buf'] eqn:Ei.
  do 3 eexists. split; [done|]. cbn. split.
  - destruct (c_result c && _) eqn:Et; [|injection Ei as <- <-; done].
    cbn in Hl. change buf' with (result, buf').2. rewrite <- Ei, <- Hl. apply iterate_length with (buflen := buflen); cbn; try done.
    + cbn. lia.
    + by rewrite Hl.
  - intros _. destruct (Hc eq_refl) as (Hg' & _ & Hlt). split; [done|]. specialize (Hlt Hh). lia.
Qed.

Lemma copy_string_ok buf buflen it : good it -> is_string it = true ->
  (forall b, buf = Some b -> buflen <= Z.of_nat (length b)) ->
  exists err it' buf' len, _cbor_value_copy_string data buf buflen it = Ok (err, it', buf', len) /\
    length buf' = length (default [] buf) /\ (err = CborNoError -> good it' /\ v_ptr it + 1 <= v_ptr it').
Proof.
  intros Hg Hs Hb. unfold _cbor_value_copy_string.
  destruct (iterate_string_chunks_ok (match buf with Some _ => iterate_memcpy | None => iterate_noop end)
              (default [] buf) buflen it) as (err & it' & c & -> & Hl & Hc); try done.
  { destruct buf as [b|]; [|done]. intros _. cbn. auto. }
  cbn. do 4 eexists. split; [done|]. split; [done|].
  destruct (bool_decide_reflect (err = CborNoError)); [|done]. by destruct (c_result c); auto.
Qed.

(** *** Advancing *)

Lemma advance_items_ok advance fuel it :
  (forall it, good it -> 0 < v_remaining it -> returns (advance it) (v_ptr it + 1)) ->
  good it -> p_end - v_ptr it <= Z.of_nat fuel ->
  exists err it', advance_items advance fuel it = Ok (err, it') /\
    (err = CborNoError -> good it' /\ v_ptr it <= v_ptr it' /\ v_remaining it' = 0).
Proof.
  intros Ha. revert it. induction fuel as [|fuel IH]; intros it Hg Hf; cbn; unfold cbor_value_at_end;
    destruct (Z.eqb_spec (v_remaining it) 0) as [E|E];
    try (do 2 eexists; split; [done|]; intros _; split; [done|lia]).
  { destruct Hg as (Hp & Hr & [[? _]|[_ Hh]]); [lia|]. pose proof (head_range it Hh). lia. }
  assert (Hm : 0 < v_remaining it) by (destruct Hg as (_ & ? & _); lia).
  destruct (Ha it Hg Hm) as (err & it' & -> & H). cbn.
  destruct (bool_decide_reflect (err = CborNoError)) as [->|Hne]; cbn; [|by do 2 eexists].
  destruct (H eq_refl) as [Hg' Hp']. destruct (IH it' Hg') as (err & it2 & -> & H2); [lia|].
  do 2 eexists. split; [done|]. intros E2. destruct (H2 E2) as (? & ? & ?). split; [done|lia].
Qed.

Lemma advance_recursive_returns level it : good it -> 0 < v_remaining it ->
  returns (advance_recursive data level it) (v_ptr it + 1).
Proof.
  revert it. induction level as [|level IH]; intros it Hg Hm; cbn [advance_recursive];
    (destruct (is_fixed_type (v_type it)) eqn:Ef; [by apply advance_internal_returns|]);
    (destruct (cbor_value_is_container it) eqn:Ec; cbn [negb];
     [|assert (Hs : is_string it = true)
         by (unfold is_string, cbor_value_is_byte_string, cbor_value_is_text_string, cbor_value_is_container,
               is_fixed_type in *; lia);
       destruct (copy_string_ok None SIZE_MAX it Hg Hs) as (err & it' & b & l & -> & _ & H); [done|];
       cbn; by do 2 eexists]); [by do 2 eexists|].
  destruct (enter_returns it Hg Ec) as (err & rec & -> & H). cbn [mbind outcome_bind].
  destruct (bool_decide_reflect (err = CborNoError)) as [->|Hne]; cbn [negb]; [|by do 2 eexists].
  destruct (H eq_refl) as [Hg' Hp'].
  destruct (advance_items_ok (advance_recursive data level) (S (length data)) rec IH Hg') as (err & rec' & -> & H').
  { destruct Hg' as (? & _). unfold CborParser.p_end in *. lia. }
  cbn. destruct (bool_decide_reflect (err = CborNoError)) as [->|Hne]; cbn; [|by do 2 eexists].
  destruct (H' eq_refl) as (Hg2 & ? & H0). apply returns_weaken with (p := v_ptr rec'); [lia|].
  by apply leave_returns.
Qed.

Lemma advance_returns it : good it -> cbor_value_is_valid it = true ->
  returns (cbor_value_advance data it) (v_ptr it + 1).
Proof.
  unfold cbor_value_is_valid. intros Hg Hv. unfold cbor_value_advance. rewrite Hv. cbn [c_assert mbind outcome_bind].
  destruct (good_not_end it Hg) as [Hm _]; [lia|]. destruct (Z.eqb_spec (v_remaining it) 0); [lia|].
  by apply advance_recursive_returns.
Qed.

Lemma advance_fixed_returns it : good it -> cbor_value_is_valid it = true -> is_fixed_type (v_type it) = true ->
  returns (cbor_value_advance_fixed data it) (v_ptr it + 1).
Proof.
  unfold cbor_value_is_valid. intros Hg Hv Hf. unfold cbor_value_advance_fixed. rewrite Hv, Hf. cbn.
  destruct (good_not_end it Hg) as [Hm _]; [lia|]. destruct (Z.eqb_spec (v_remaining it) 0); [lia|].
  by apply advance_internal_returns.
Qed.

Lemma skip_tags_returns fuel it : good it -> p_end - v_ptr it <= Z.of_nat fuel ->
  returns (skip_tags data fuel it) (v_ptr it).
Proof.
  revert it. induction fuel as [|fuel IH]; intros it Hg Hf; cbn;
    (destruct (cbor_value_is_tag it) eqn:Et; [|do 2 eexists; split; [done|]; intros _; split; [done|lia]]);
    unfold cbor_value_is_tag in Et; apply Z.eqb_eq in Et.
  { destruct (good_not_end it Hg) as [_ Hh]; [by rewrite Et|]. pose proof (head_range it Hh). lia. }
  destruct (advance_fixed_returns it Hg) as (err & it' & -> & H); [unfold cbor_value_is_valid; by rewrite Et..|]. cbn.
  destruct (bool_decide_reflect (err = CborNoError)) as [->|Hne]; cbn; [|by do 2 eexists].
  destruct (H eq_refl) as [Hg' Hp']. apply returns_weaken with (p := v_ptr it'); [lia|]. apply IH; [done|lia].
Qed.

(** *** Getters *)

Lemma decode_int64_ok it : good it -> has_flag it CborIteratorFlag_IntegerValueTooLarge = true -> 0 < v_remaining it ->
  exists v, _cbor_value_decode_int64_internal data it = Ok v /\ 0 <= v < 2 ^ 64.
Proof.
  intros (Hp & _ & [[? _]|[_ Hh]]) Hf Hm; [lia|]. unfold _cbor_value_decode_int64_internal. rewrite Hf. cbn.
  destruct Hh as [b d Hb Hd Hdr Hn _ H26 _ _ _ _ _|b _ _ _ _ _ Hno _ _]; [|congruence].
  specialize (H26 Hf). rewrite Hb. cbn. rewrite Hd. pose proof (need_cases d Hdr).
  replace ((d =? 26) || (d =? 27)) with true by lia. cbn.
  assert (Hbit : Z.land b 1 = Z.land d 1) by (rewrite <- Hd, <- Z.land_assoc; done). rewrite Hbit.
  assert (d = 26 \/ d = 27) as [-> | ->] by lia; cbn.
  - destruct (get_be_ok 4 (v_ptr it + 1)) as (v & -> & Hv); [lia|lia|]. exists v. split; [done|lia].
  - destruct (get_be_ok 8 (v_ptr it + 1)) as (v & -> & Hv); [lia|lia|]. exists v. split; [done|lia].
Qed.

Lemma extract_int64_ok it : good it -> 0 < v_remaining it -> has_flag it CborIteratorFlag_UnknownLength = false ->
  exists v, _cbor_value_extract_int64_helper data it = Ok v /\ 0 <= v < 2 ^ 64.
Proof.
  intros Hg Hm Hu. unfold _cbor_value_extract_int64_helper. destruct (has_flag it CborIteratorFlag_IntegerValueTooLarge) eqn:Ef; [by apply decode_int64_ok|].
  destruct Hg as (_ & _ & [[? _]|[_ Hh]]); [lia|].
  destruct Hh as [b d _ _ _ _ _ _ _ _ _ _ Hx|b _ _ _ Hno _ _ _ _]; [|congruence]. exists (v_extra it). split; [done|lia].
Qed.

Lemma fixed_known it : good it -> v_type it <> CborInvalidType -> is_fixed_type (v_type it) = true ->
  0 < v_remaining it /\ has_flag it CborIteratorFlag_UnknownLength = false.
Proof.
  intros Hg Hi Hf. destruct (good_not_end it Hg Hi) as [Hm Hh]. split; [done|].
  destruct Hh as [|b ? ? ? ? ? ? Hf' ?]; [done|congruence].
Qed.

(** ** What a client may call *)

Inductive call : Set :=
| Advance
| AdvanceFixed
| Enter
| Leave (recursed : CborValue)
| SkipTag
| CopyString (buffer : option (list Z))
| DupString (malloc : Z -> option (list Z)).

(** What the interface documents as the condition of a call. *)
Definition allowed (c : call) (it : CborValue) : Prop :=
  match c with
  | Advance => cbor_value_is_valid it = true
  | AdvanceFixed => cbor_value_is_valid it = true /\ is_fixed_type (v_type it) = true
  | Enter => cbor_value_is_container it = true
  | Leave recursed => cbor_value_is_container it = true /\ cbor_value_at_end recursed = true
  | SkipTag => True
  | CopyString _ => is_string it = true
  | DupString malloc => is_string it = true /\ forall n b, malloc n = Some b -> n = Z.of_nat (length b)
  end.

Definition perform (c : call) (it : CborValue) : outcome (CborError * CborValue) :=
  match c with
  | Advance => cbor_value_advance data it
  | AdvanceFixed => cbor_value_advance_fixed data it
  | Enter => cbor_value_enter_container data it
  | Leave recursed => cbor_value_leave_container data it recursed
  | SkipTag => cbor_value_skip_tag data it
  | CopyString buffer =>
      '(err, next, _, _) ← _cbor_value_copy_string data buffer
                             (match buffer with Some b => Z.of_nat (length b) | None => SIZE_MAX end) it;
      Ok (err, next)
  | DupString malloc => '(err, next, _, _) ← _cbor_value_dup_string data malloc it; Ok (err, next)
  end.

(** Calls that leave the value as it is, with their conditions and the number
    they answer. *)
Inductive question : Set :=
| ValidateBasic
| TextStringEquals (string : list Z)
| CalculateStringLength
| GetBoolean
| GetSimpleType
| GetUint64
| GetInt64Checked
| GetIntChecked
| GetStringLength
| GetArrayLength
| GetMapLength.

Definition answerable (q : question) (it : CborValue) : bool :=
  match q with
  | ValidateBasic => cbor_value_is_valid it
  | TextStringEquals _ => true
  | CalculateStringLength | GetStringLength => is_string it
  | GetBoolean => cbor_value_is_boolean it
  | GetSimpleType => cbor_value_is_simple_type it
  | GetUint64 => cbor_value_is_unsigned_integer it
  | GetInt64Checked | GetIntChecked => cbor_value_is_integer it
  | GetArrayLength => cbor_value_is_array it
  | GetMapLength => cbor_value_is_map it
  end.

Definition answer (q : question) (it : CborValue) : outcome (CborError * Z) :=
  match q with
  | ValidateBasic => err ← cbor_value_validate_basic data it; Ok (err, 0)
  | TextStringEquals string => '(err, r) ← cbor_value_text_string_equals data string it; Ok (err, Z.b2z r)
  | CalculateStringLength => cbor_value_calculate_string_length data it
  | GetBoolean => b ← cbor_value_get_boolean it; Ok (CborNoError, Z.b2z b)
  | GetSimpleType => v ← cbor_value_get_simple_type it; Ok (CborNoError, v)
  | GetUint64 => v ← cbor_value_get_uint64 data it; Ok (CborNoError, v)
  | GetInt64Checked => cbor_value_get_int64_checked data it
  | GetIntChecked => cbor_value_get_int_checked data it
  | GetStringLength => cbor_value_get_string_length data it
  | GetArrayLength => cbor_value_get_array_length data it
  | GetMapLength => cbor_value_get_map_length data it
  end.

(** The values a client obtains from successful calls; it may keep copies and
    use them in any order. *)
Inductive obtained : CborValue -> Prop :=
| obtained_init it : cbor_parser_init data = Ok (CborNoError, it) -> obtained it
| obtained_call c it it' : obtained it -> allowed c it ->
    (forall recursed, c = Leave recursed -> obtained recursed) ->
    perform c it = Ok (CborNoError, it') -> obtained it'.

Lemma init_returns : returns (cbor_parser_init data) 0.
Proof.
  unfold cbor_parser_init. set (it := {| v_ptr := 0 |}).
  destruct (preparse_value_ok it) as (err & it' & -> & [Hp Hr] & Hh); [cbn; unfold CborParser.p_end; lia|].
  exists err, it'. split; [done|]. intros E. cbn in Hp, Hr. split; [|lia]. split; [unfold CborParser.p_end; lia|].
  split; [unfold UINT32_MAX; lia|]. right. split; [lia|auto].
Qed.

Lemma dup_string_returns malloc it : good it -> is_string it = true ->
  (forall n b, malloc n = Some b -> n = Z.of_nat (length b)) -> returns (perform (DupString malloc) it) 0.
Proof.
  intros Hg Hs Hm. cbn [perform]. unfold _cbor_value_dup_string, returns.
  destruct (copy_string_ok None SIZE_MAX it Hg Hs) as (err & i1 & b1 & l1 & -> & _ & _); [done|]. cbn [mbind outcome_bind].
  destruct (bool_decide_reflect (err = CborNoError)) as [->|Hne]; cbn; [|by do 2 eexists].
  destruct (malloc (u64 (l1 + 1))) as [block|] eqn:Eb; [|by do 2 eexists].
  destruct (copy_string_ok (Some block) (u64 (l1 + 1)) it Hg Hs) as (err & i2 & b2 & l2 & -> & _ & H).
  { intros b [= <-]. rewrite (Hm _ _ Eb). lia. }
  cbn. destruct (bool_decide_reflect (err = CborNoError)) as [->|Hne]; cbn; [|by do 2 eexists].
  do 2 eexists. split; [done|]. intros _. destruct (H eq_refl) as [? ?], Hg as [? _]. split; [done|lia].
Qed.

Lemma equals_answers string it : good it ->
  exists err v, answer (TextStringEquals string) it = Ok (err, v).
Proof.
  intros Hg. cbn [answer]. unfold cbor_value_text_string_equals, cbor_value_skip_tag.
  destruct (skip_tags_returns (length data) it Hg) as (err & it' & -> & H); [destruct Hg as [? _]; unfold CborParser.p_end; lia|].
  cbn. destruct (bool_decide_reflect (err = CborNoError)) as [->|Hne]; cbn; [|eauto].
  destruct (H eq_refl) as [Hg' _]. destruct (cbor_value_is_text_string it') eqn:Et; cbn; [|eauto].
  destruct (iterate_string_chunks_ok iterate_memcmp (string ++ [0]) (Z.of_nat (length string)) it')
    as (err & it2 & c & -> & _); [done| |done|cbn; eauto].
  unfold is_string. rewrite Et. apply orb_true_r.
Qed.

Lemma integer_answers it : good it -> cbor_value_is_integer it = true ->
  exists v, _cbor_value_extract_int64_helper data it = Ok v.
Proof.
  intros Hg Ha. unfold cbor_value_is_integer in Ha. apply Z.eqb_eq in Ha.
  destruct (fixed_known it Hg) as [Hm Hu]; [by rewrite Ha..|]. destruct (extract_int64_ok it Hg Hm Hu) as (v & -> & _). eauto.
Qed.

Lemma length_answers it : good it -> v_type it <> CborInvalidType ->
  exists err v, (_ ← c_assert true; get_length data it) = Ok (err, v).
Proof.
  intros Hg Hi. cbn. unfold get_length, cbor_value_is_length_known. rewrite negb_involutive.
  destruct (has_flag it CborIteratorFlag_UnknownLength) eqn:Hu; [eauto|].
  destruct (good_not_end it Hg Hi) as [Hm _]. destruct (extract_int64_ok it Hg Hm Hu) as (v & -> & _). cbn. eauto.
Qed.

Lemma perform_returns c it : good it -> allowed c it -> (forall recursed, c = Leave recursed -> good recursed) ->
  returns (perform c it) 0.
Proof.
  intros Hg Ha Hl. assert (H0 : 0 <= v_ptr it) by apply Hg.
  destruct c; cbn [perform]; cbn in Ha.
  - eapply returns_weaken; [|by apply advance_returns]. lia.
  - destruct Ha. eapply returns_weaken; [|by apply advance_fixed_returns]. lia.
  - eapply returns_weaken; [|by apply enter_returns]. lia.
  - destruct Ha as [Hc He]. specialize (Hl _ eq_refl). unfold cbor_value_at_end in He. apply Z.eqb_eq in He.
    eapply returns_weaken; [|by apply leave_returns]. apply Hl.
  - eapply returns_weaken; [exact H0|]. apply skip_tags_returns; [done|]. unfold CborParser.p_end. lia.
  - destruct (copy_string_ok buffer (match buffer with Some b => Z.of_nat (length b) | None => SIZE_MAX end) it)
      as (err & it' & b & l & -> & _ & H); try done; [by intros b ->|].
    exists err, it'. split; [done|]. intros E. destruct (H E). split; [done|lia].
  - destruct Ha as [Hs Hm]. by apply dup_string_returns.
Qed.

Lemma answers it q : good it -> answerable q it = true -> exists err v, answer q it = Ok (err, v).
Proof.
  intros Hg Ha. destruct q; cbn [answer answerable] in *.
  - unfold cbor_value_validate_basic. destruct (advance_returns it Hg Ha) as (err & it' & -> & _). cbn. eauto.
  - by apply equals_answers.
  - unfold cbor_value_calculate_string_length.
    destruct (copy_string_ok None SIZE_MAX it Hg Ha) as (err & it' & b & l & -> & _); [done|]. cbn. eauto.
  - unfold cbor_value_get_boolean. rewrite Ha. cbn. eauto.
  - unfold cbor_value_get_simple_type. rewrite Ha. cbn. eauto.
  - unfold cbor_value_get_uint64. rewrite Ha. apply andb_prop in Ha as [Ha _].
    destruct (integer_answers it Hg Ha) as (v & ->). cbn. eauto.
  - unfold cbor_value_get_int64_checked. rewrite Ha. destruct (integer_answers it Hg Ha) as (v & ->). cbn. destruct (_ >? _); eauto.
  - unfold cbor_value_get_int_checked. rewrite Ha. destruct (integer_answers it Hg Ha) as (v & ->). cbn. destruct (_ >? _); eauto.
  - unfold cbor_value_get_string_length. unfold is_string in Ha. rewrite Ha. apply length_answers; [done|].
    intros E. unfold cbor_value_is_byte_string, cbor_value_is_text_string in Ha. by rewrite E in Ha.
  - unfold cbor_value_get_array_length. rewrite Ha. apply length_answers; [done|].
    intros E. unfold cbor_value_is_array in Ha. by rewrite E in Ha.
  - unfold cbor_value_get_map_length. rewrite Ha. apply length_answers; [done|].
    intros E. unfold cbor_value_is_map in Ha. by rewrite E in Ha.
Qed.

Lemma obtained_good it : obtained it -> good it.
Proof.
  induction 1 as [it Hi|c it it' _ IH Ha _ IHl Hp].
  - destruct init_returns as (err & it' & E & H). rewrite Hi in E. injection E as <- <-. by apply H.
  - destruct (perform_returns c it IH Ha IHl) as (err & it2 & E & H). rewrite Hp in E. injection E as <- <-. by apply H.
Qed.

End safety.

(** C20: The parser is safe on any bytes.  [cbor_parser_init] returns.  A
    client that starts from there, keeps the values that successful calls gave
    it and uses them in any order, may make any [call] (advance, advance over
    a fixed type, enter and leave a container, skip tags, copy or duplicate a
    string) and ask any [question] (basic validation, comparison with a
    string, boolean, simple value, checked integers, lengths) whose documented
    condition holds: it returns, with success or an error, so that no byte is
    read outside of the buffer, no assertion fails and no loop runs on.  The
    raw integers, tags and floating point values are read within the buffer,
    and advancing goes strictly forward.  [cbor_value_map_find_value] is not
    among the calls: it can fail an assertion ([map_find_odd_map]). *)
Theorem parser_safe data : bytes_ok data ->
  (exists err it, cbor_parser_init data = Ok (err, it)) /\
  forall it, obtained data it ->
    0 <= v_ptr it <= p_end data /\
    (forall c, allowed c it -> (forall recursed, c = Leave recursed -> obtained data recursed) ->
       exists err it', perform data c it = Ok (err, it')) /\
    (forall q, answerable q it = true -> exists err v, answer data q it = Ok (err, v)) /\
    (forall it', allowed Advance it -> perform data Advance it = Ok (CborNoError, it') -> v_ptr it < v_ptr it') /\
    (cbor_value_is_integer it = true -> exists v, cbor_value_get_raw_integer data it = Ok v /\ 0 <= v < 2 ^ 64) /\
    (cbor_value_is_tag it = true -> exists v, cbor_value_get_tag data it = Ok v /\ 0 <= v < 2 ^ 64) /\
    (cbor_value_is_half_float it = true -> exists v, cbor_value_get_half_float data it = Ok v /\ 0 <= v < 2 ^ 16) /\
    (cbor_value_is_float it = true -> exists v, cbor_value_get_float data it = Ok v /\ 0 <= v < 2 ^ 32) /\
    (cbor_value_is_double it = true -> exists v, cbor_value_get_double data it = Ok v /\ 0 <= v < 2 ^ 64).
Proof.
  intros Hb. split.
  { destruct (init_returns data Hb) as (err & it & E & _). eauto. }
  intros it Ho. pose proof (obtained_good data Hb it Ho) as Hg. split; [apply Hg|]. split.
  { intros c Ha Hl. destruct (perform_returns data Hb c it) as (err & it' & E & _); try done; [|by eauto].
    intros r Er. apply (obtained_good data Hb), Hl, Er. }
  split; [intros q; by apply answers|]. split.
  { intros it' Ha E. destruct (advance_returns data Hb it Hg Ha) as (err & it2 & E2 & H).
    cbn [perform] in E. rewrite E in E2. injection E2 as <- <-. destruct (H eq_refl). lia. }
  assert (Hk : forall t, v_type it = t -> is_fixed_type t = true -> t <> CborInvalidType ->
                 0 < v_remaining it /\ has_flag it CborIteratorFlag_UnknownLength = false /\ head data it).
  { intros t <- Hf Hi. destruct (fixed_known data it Hg Hi Hf). destruct (good_not_end data it Hg Hi). auto. }
  unfold cbor_value_is_integer, cbor_value_is_tag, cbor_value_is_half_float, cbor_value_is_float, cbor_value_is_double.
  split; [|split; [|split; [|split]]]; intros Ht; pose proof Ht as Ht'; apply Z.eqb_eq in Ht';
    destruct (Hk _ Ht' eq_refl ltac:(done)) as (Hm & Hu & Hh).
  - unfold cbor_value_get_raw_integer, cbor_value_is_integer. rewrite Ht. by apply extract_int64_ok.
  - unfold cbor_value_get_tag, cbor_value_is_tag. rewrite Ht. by apply extract_int64_ok.
  - unfold cbor_value_get_half_float, cbor_value_is_half_float. rewrite Ht. cbn [c_assert mbind outcome_bind].
    destruct Hh as [b d _ _ _ Hn _ _ _ H25 _ _ _|b _ _ _ H _ _ _ _]; [|congruence]. rewrite (H25 Ht') in Hn.
    destruct Hg as (? & _). apply get_be_ok; [done|lia|change (need 25) with 2 in Hn; lia].
  - unfold cbor_value_get_float, cbor_value_is_float. rewrite Ht. cbn [c_assert mbind outcome_bind].
    destruct Hh as [b d _ _ _ _ _ _ _ _ Hf _ _|b _ _ _ H _ _ _ _]; [|congruence]. rewrite Hf by auto.
    destruct (decode_int64_ok data Hb it Hg (Hf (or_introl Ht')) Hm) as (v & -> & _). cbn. eexists. split; [done|].
    apply Z.mod_pos_bound. lia.
  - unfold cbor_value_get_double, cbor_value_is_double. rewrite Ht. cbn [c_assert mbind outcome_bind].
    destruct Hh as [b d _ _ _ _ _ _ _ _ Hf _ _|b _ _ _ H _ _ _ _]; [|congruence]. rewrite Hf by auto.
    apply (decode_int64_ok data Hb it Hg (Hf (or_intror Ht')) Hm).
Qed.

(** An array of an integer and an empty array of unknown length. *)
Definition sample_bytes : list Z := [130; 1; 159; 255].

Lemma parser_safe_witness :
  exists it, cbor_parser_init sample_bytes = Ok (CborNoError, it) /\
             exists err it', cbor_value_advance sample_bytes it = Ok (err, it').
Proof.
  eexists. split; [vm_compute; reflexivity|].
  destruct (parser_safe sample_bytes) as [_ H]; [by repeat constructor|].
  destruct (H _ (obtained_init sample_bytes _ eq_refl)) as (_ & Hc & _).
  apply (Hc Advance); [reflexivity|discriminate].
Defined.

(** A map of unknown length with a key and no value, [{"a": }], then a 1. *)
Definition odd_map : list Z := [191; 97; 97; 255; 1].

(** [cbor_value_map_find_value] does not expect such a map, which
    [cbor_value_validate_basic] accepts: looking for another key runs into
    the assertion of [cbor_value_advance], and looking for the key itself
    gives the integer behind the map. *)
Lemma map_find_odd_map :
  exists it, cbor_parser_init odd_map = Ok (CborNoError, it) /\ cbor_value_is_map it = true /\
    cbor_value_validate_basic odd_map it = Ok CborNoError /\
    cbor_value_map_find_value odd_map [98] it = Fail AssertFailed /\
    exists it', cbor_value_map_find_value odd_map [97] it = Ok (CborNoError, it') /\
                cbor_value_is_integer it' = true /\ cbor_value_get_raw_integer odd_map it' = Ok 1.
Proof.
  eexists. split; [vm_compute; reflexivity|]. split; [reflexivity|]. split; [vm_compute; reflexivity|].
  split; [vm_compute; reflexivity|]. eexists. split; [vm_compute; reflexivity|]. by split.
Qed.
