(* ===== verification/OutputCbor.v ===== *)
(** * CBOR output ([src/output_cbor.h], [src/output_cbor.c])

    One record of the output is a CBOR array with an item for every selected
    column, written by the encoder of [CborEncoder] into a buffer of 4096
    bytes on the stack.  The columns follow the source line by line; [cells]
    says which data items a record consists of, and the row is proved to be
    the encoding of the array of those items. *)

From stdpp Require Import base numbers strings gmap list.
From S2P Require Import Prelude Doubles Common Libs Packet PacketFrame Config TimeFmt Output.
From S2P Require Import CborEncoder.

Section cbor.
Context `{K : Libknot} `{L : Libc}.

Abbreviation mem := (gmap loc dns_packet).

(** ** Writing a row *)

(** The buffer and the encoder [eitem]. *)
Definition row_state : Set := list Z * encoder.
Definition row_op : Set := row_state -> outcome row_state.

(** [CERR]: dies on any encoder error. *)
Definition CERR (op : enc_op) : row_op := fun '(buf, e) =>
  let '(err, buf, e) := op buf e in
  if decide (err = CborNoError) then Ok (buf, e) else Fail (Died "CBOR error").

(** [CONDIF]'s second condition: a null item when it does not hold. *)
Definition CONDIF {A} (secondary : option A) (body : A -> row_op) : row_op :=
  match secondary with
  | None => CERR cbor_encode_null
  | Some a => body a
  end.

(** An integer argument, converted to [int64_t]. *)
Definition encode_int (v : Z) : row_op := CERR (cbor_encode_int (s64 v)).

Definition IPPROTO_UDP : Z := 17.

(** [inet_ntop] into [addrbuf], which is then read as a string. *)
Definition write_addr (af : Z) (addr : list Z) : row_op := fun st =>
  s ← deref (inet_ntop af addr);
  CERR (cbor_encode_text_stringz s) st.

(** [WRITEFLAG]. *)
Definition WRITEFLAG (p : option dns_packet) (get : list Z -> Z) : row_op :=
  CONDIF p (fun r => CERR (cbor_encode_boolean (negb (get (kp_wire (knot_packet r)) =? 0)))).

Definition opt_rr_of (p : option dns_packet) : option knot_rrset_t :=
  match p with None => None | Some r => kp_opt_rr (knot_packet r) end.

(** [COND_OPT_RR]: the option with the given code. *)
Definition COND_OPT_RR (code : Z) (rr : option knot_rrset_t) (body : list Z -> row_op) : row_op :=
  CONDIF rr (fun rr => CONDIF (knot_edns_get_option rr code) body).

(** The length of an option, a [uint16_t]. *)
Definition opt_length (opt : list Z) : Z := u16 (knot_edns_opt_get_length opt).

(** The loop of [WRITE_UNDERSTOOD_LIST]: [(opt + 4 + i)[i]]. *)
Fixpoint understood_loop (opt : list Z) (i n : nat) (st : row_state) : outcome row_state :=
  match n with
  | O => Ok st
  | S n =>
      v ← deref (opt !! (4 + i + i)%nat);
      st ← encode_int v st;
      understood_loop opt (S i) n st
  end.

(** An array of [n] items: what is between [CERR(cbor_encoder_create_array)]
    and [CERR(cbor_encoder_close_container_checked)] writes to the container. *)
Definition in_array (n : Z) (body : row_op) : row_op := fun '(buf, e) =>
  let '(err, buf, e, c) := cbor_encoder_create_array n buf e in
  if decide (err = CborNoError) then
    '(buf, c) ← body (buf, c);
    CERR (cbor_encoder_close_container_checked c) (buf, e)
  else Fail (Died "CBOR error").

(** [WRITE_UNDERSTOOD_LIST]. *)
Definition WRITE_UNDERSTOOD_LIST (code : Z) (rr : option knot_rrset_t) : row_op :=
  COND_OPT_RR code rr (fun opt =>
    let len := opt_length opt in
    in_array len (understood_loop opt 0 (Z.to_nat len))).

(** The NSID option as a byte string. *)
Definition write_nsid (opt : list Z) : row_op := fun st =>
  let len := Z.to_nat (opt_length opt) in
  if (length opt <? 4 + len)%nat then Fail UndefinedBehaviour
  else CERR (cbor_encode_byte_string (slice 4 len opt)) st.

(** A column: its flag, the name in the header, and what is written for a
    packet and its attached response. *)
Record column : Type := col {
  c_field : dns_output_field;
  c_name : string;
  c_body : dns_packet -> option dns_packet -> row_op;
}.

(** Guards on the request or the response part of the packet. *)
Definition if_request (p : dns_packet) (body : dns_packet -> row_op) : row_op :=
  CONDIF (DNS_PACKET_REQUEST p) body.
Definition if_response (p : dns_packet) (q : option dns_packet) (body : dns_packet -> row_op) : row_op :=
  CONDIF (DNS_PACKET_RESPONSE p q) body.

(** The columns before the DNS header. *)
Definition net_columns : list column := [
  col dns_field_time "time" (fun p _ =>
    CERR (cbor_encode_double (Double.bits64 (Double.div (Double.of_Z (ts p)) (Double.of_Z 1000000)))));
  col dns_field_delay_us "delay_us" (fun p q => CONDIF q (fun r st =>
    d ← i64 (ts r - ts p); encode_int d st));
  col dns_field_req_dns_len "req_dns_len" (fun p _ => if_request p (fun r => encode_int (dns_data_size_orig r)));
  col dns_field_resp_dns_len "resp_dns_len" (fun p q => if_response p q (fun r => encode_int (dns_data_size_orig r)));
  col dns_field_req_net_len "req_net_len" (fun p _ => if_request p (fun r => encode_int (net_size r)));
  col dns_field_resp_net_len "resp_net_len" (fun p q => if_response p q (fun r => encode_int (net_size r)));
  col dns_field_client_addr "client_addr" (fun p _ => write_addr (DNS_PACKET_AF p) (DNS_PACKET_CLIENT_ADDR p));
  col dns_field_client_port "client_port" (fun p _ => encode_int (DNS_PACKET_CLIENT_PORT p));
  col dns_field_server_addr "server_addr" (fun p _ => write_addr (DNS_PACKET_AF p) (DNS_PACKET_SERVER_ADDR p));
  col dns_field_server_port "server_port" (fun p _ => encode_int (DNS_PACKET_SERVER_PORT p));
  col dns_field_net_proto "net_proto" (fun p _ => encode_int (net_protocol p));
  col dns_field_net_ipv "net_ipv" (fun p _ =>
    if DNS_SOCKADDR_AF (src_addr p) =? AF_INET then encode_int 4
    else if DNS_SOCKADDR_AF (src_addr p) =? AF_INET6 then encode_int 6 else fun st => Ok st);
  col dns_field_net_ttl "net_ttl" (fun p _ =>
    CONDIF (if net_ttl p >? 0 then Some tt else None) (fun _ => encode_int (net_ttl p)));
  col dns_field_req_udp_sum "req_udp_sum" (fun p _ =>
    CONDIF (if net_protocol p =? IPPROTO_UDP then DNS_PACKET_REQUEST p else None)
      (fun r => encode_int (net_udp_sum r)))].

(** The DNS header, the question and the record counts. *)
Definition dns_columns : list column := [
  col dns_field_id "id" (fun p _ => encode_int (knot_wire_get_id (kp_wire (knot_packet p))));
  col dns_field_qtype "qtype" (fun p _ => encode_int (knot_pkt_qtype (knot_packet p)));
  col dns_field_qclass "qclass" (fun p _ => encode_int (knot_pkt_qclass (knot_packet p)));
  col dns_field_opcode "opcode" (fun p _ => encode_int (knot_wire_get_opcode (kp_wire (knot_packet p))));
  col dns_field_rcode "rcode" (fun p q => if_response p q (fun r =>
    encode_int (knot_wire_get_rcode (kp_wire (knot_packet r)))));
  col dns_field_flags "resp_aa" (fun p q => WRITEFLAG (DNS_PACKET_RESPONSE p q) knot_wire_get_aa);
  col dns_field_flags "resp_tc" (fun p q => WRITEFLAG (DNS_PACKET_RESPONSE p q) knot_wire_get_tc);
  col dns_field_flags "req_rd" (fun p _ => WRITEFLAG (DNS_PACKET_REQUEST p) knot_wire_get_rd);
  col dns_field_flags "resp_ra" (fun p q => WRITEFLAG (DNS_PACKET_RESPONSE p q) knot_wire_get_ra);
  col dns_field_flags "req_z" (fun p _ => WRITEFLAG (DNS_PACKET_REQUEST p) knot_wire_get_z);
  col dns_field_flags "resp_ad" (fun p q => WRITEFLAG (DNS_PACKET_RESPONSE p q) knot_wire_get_ad);
  col dns_field_flags "req_cd" (fun p _ => WRITEFLAG (DNS_PACKET_REQUEST p) knot_wire_get_cd);
  col dns_field_qname "qname" (fun p _ =>
    CONDIF (knot_dname_to_str (knot_pkt_qname (knot_packet p)) 1024) (fun res =>
      CERR (cbor_encode_text_stringz res)));
  col dns_field_rr_counts "resp_ancount" (fun p q => if_response p q (fun r =>
    encode_int (knot_wire_get_ancount (dns_data r))));
  col dns_field_rr_counts "resp_arcount" (fun p q => if_response p q (fun r =>
    encode_int (knot_wire_get_arcount (dns_data r))));
  col dns_field_rr_counts "resp_nscount" (fun p q => if_response p q (fun r =>
    encode_int (knot_wire_get_nscount (dns_data r))))].

(** The EDNS columns; the last two are always null. *)
Definition edns_columns : list column := [
  col dns_field_edns "req_edns_ver" (fun p _ => CONDIF (opt_rr_of (DNS_PACKET_REQUEST p)) (fun rr =>
    encode_int (knot_edns_get_version rr)));
  col dns_field_edns "req_edns_udp" (fun p _ => CONDIF (opt_rr_of (DNS_PACKET_REQUEST p)) (fun rr =>
    encode_int (knot_edns_get_payload rr)));
  col dns_field_edns "req_edns_do" (fun p _ => CONDIF (opt_rr_of (DNS_PACKET_REQUEST p)) (fun rr =>
    CERR (cbor_encode_boolean (knot_edns_do rr))));
  col dns_field_edns "resp_edns_rcode" (fun p q => CONDIF (opt_rr_of (DNS_PACKET_RESPONSE p q)) (fun rr =>
    encode_int (knot_edns_get_ext_rcode rr)));
  col dns_field_edns "req_edns_dau" (fun p _ => WRITE_UNDERSTOOD_LIST 5 (opt_rr_of (DNS_PACKET_REQUEST p)));
  col dns_field_edns "req_edns_dhu" (fun p _ => WRITE_UNDERSTOOD_LIST 6 (opt_rr_of (DNS_PACKET_REQUEST p)));
  col dns_field_edns "req_edns_n3u" (fun p _ => WRITE_UNDERSTOOD_LIST 7 (opt_rr_of (DNS_PACKET_REQUEST p)));
  col dns_field_edns "resp_edns_nsid" (fun p q =>
    COND_OPT_RR 3 (opt_rr_of (DNS_PACKET_RESPONSE p q)) write_nsid);
  col dns_field_edns "edns_client_subnet" (fun _ _ => CERR cbor_encode_null);
  col dns_field_edns "edns_other" (fun _ _ => CERR cbor_encode_null)].

Definition columns : list column := net_columns ++ dns_columns ++ edns_columns.

(** One column: [COND] with the header's name when there is no packet. *)
Definition write_column (fields : Z) (pkt : option (dns_packet * option dns_packet))
    (st : row_state) (c : column) : outcome row_state :=
  if field_selected fields (c_field c) then
    match pkt with
    | None => CERR (cbor_encode_text_stringz (bytes_of_string (c_name c))) st
    | Some (p, q) => c_body c p q st
    end
  else Ok st.

(** [__builtin_popcount] of a [uint32_t]. *)
Definition popcount (n : Z) : Z :=
  Z.of_nat (length (List.filter (fun i => Z.testbit n (Z.of_nat i)) (seq 0 32))).

(** The number of items announced for the row. *)
Definition noitems (fields : Z) : Z :=
  popcount fields + (if field_selected fields dns_field_flags then 6 else 0)
  + (if field_selected fields dns_field_rr_counts then 2 else 0)
  + (if field_selected fields dns_field_edns then 9 else 0).

Definition OUTBUF_SIZE : nat := 4096.

(** [write_packet]: the bytes written to the file; [outbuf] is the stack
    buffer as the function finds it. *)
Definition write_packet (outbuf : list Z) (fields : Z) (pkt : option (dns_packet * option dns_packet))
    : outcome (list Z) :=
  let ebase := cbor_encoder_init (Z.of_nat (length outbuf)) 0 in
  '(buf, ebase) ← in_array (u64 (noitems fields))
                    (fun st => foldM (write_column fields pkt) st columns) (outbuf, ebase);
  Ok (take (Z.to_nat (cbor_encoder_get_buffer_size ebase)) buf).

(** ** The hooks *)

(** [struct dns_output_cbor] without its base. *)
Record dns_output_cbor : Set := { oc_fields : Z }.

Definition stack_buffer : list Z := replicate OUTBUF_SIZE 0.

(** [dns_output_cbor_start_file]. *)
Definition dns_output_cbor_start_file (c : dns_output_cbor) (o : dns_output) (time : Z) : outcome dns_output :=
  _ ← c_assert (bool_decide (is_Some (o_file o)));
  b ← write_packet stack_buffer (oc_fields c) None;
  Ok (emit o b).

(** [dns_output_cbor_write_packet]. *)
Definition dns_output_cbor_write_packet (c : dns_output_cbor) (m : mem) (o : dns_output) (p : dns_packet)
    : outcome dns_output :=
  q ← attached m p;
  b ← write_packet stack_buffer (oc_fields c) (Some (p, q));
  Ok (account_packet (emit o b) p q).

(** [dns_output_cbor_create]. *)
Definition dns_output_cbor_create (conf : dns_config) : dns_output * dns_output_cbor :=
  (dns_output_init (Some (output_path_fmt conf)) (Some (output_pipe_cmd conf)) (output_period_sec conf),
   {| oc_fields := cbor_fields conf |}).

(** ** What a record consists of *)

Definition null : Cbor.item := Cbor.CSimple 22.
Definition boolean (b : bool) : Cbor.item := Cbor.CSimple (if b then 21 else 20).
Definition text (s : list Z) : Cbor.item := Cbor.CText (c_string s).
Definition int (v : Z) : Cbor.item := Cbor.of_int (s64 v).

(** The items of one column for a packet and its attached response. *)
Definition cell : Type := dns_packet -> option dns_packet -> outcome (list Cbor.item).

Definition one (i : Cbor.item) : outcome (list Cbor.item) := Ok [i].

Definition opt_item {A} (o : option A) (f : A -> Cbor.item) : outcome (list Cbor.item) :=
  one (match o with None => null | Some a => f a end).

Definition addr_item (af : Z) (addr : list Z) : outcome (list Cbor.item) :=
  s ← deref (inet_ntop af addr); one (text s).

Definition flag_item (p : option dns_packet) (get : list Z -> Z) : outcome (list Cbor.item) :=
  opt_item p (fun r => boolean (negb (get (kp_wire (knot_packet r)) =? 0))).

(** The octets an understood-algorithms column shows: every other octet from
    offset 4 of the option on. *)
Definition understood (opt : list Z) : outcome (list Z) :=
  mapO (fun i => deref (opt !! (4 + i + i)%nat)) (seq 0 (Z.to_nat (opt_length opt))).

Definition list_item (code : Z) (rr : option knot_rrset_t) : outcome (list Cbor.item) :=
  match rr ≫= fun rr => knot_edns_get_option rr code with
  | None => one null
  | Some opt => vs ← understood opt; one (Cbor.CArray (map int vs))
  end.

Definition nsid_item (rr : option knot_rrset_t) : outcome (list Cbor.item) :=
  match rr ≫= fun rr => knot_edns_get_option rr 3 with
  | None => one null
  | Some opt =>
      let len := Z.to_nat (opt_length opt) in
      if (length opt <? 4 + len)%nat then Fail UndefinedBehaviour else one (Cbor.CBytes (slice 4 len opt))
  end.

Definition net_cells : list cell := [
  (fun p _ => one (Cbor.CDouble (Double.bits64 (Double.div (Double.of_Z (ts p)) (Double.of_Z 1000000)))));
  (fun p q => match q with None => one null | Some r => d ← i64 (ts r - ts p); one (int d) end);
  (fun p _ => opt_item (DNS_PACKET_REQUEST p) (fun r => int (dns_data_size_orig r)));
  (fun p q => opt_item (DNS_PACKET_RESPONSE p q) (fun r => int (dns_data_size_orig r)));
  (fun p _ => opt_item (DNS_PACKET_REQUEST p) (fun r => int (net_size r)));
  (fun p q => opt_item (DNS_PACKET_RESPONSE p q) (fun r => int (net_size r)));
  (fun p _ => addr_item (DNS_PACKET_AF p) (DNS_PACKET_CLIENT_ADDR p));
  (fun p _ => one (int (DNS_PACKET_CLIENT_PORT p)));
  (fun p _ => addr_item (DNS_PACKET_AF p) (DNS_PACKET_SERVER_ADDR p));
  (fun p _ => one (int (DNS_PACKET_SERVER_PORT p)));
  (fun p _ => one (int (net_protocol p)));
  (fun p _ => if DNS_PACKET_AF p =? AF_INET then one (int 4)
              else if DNS_PACKET_AF p =? AF_INET6 then one (int 6) else Ok []);
  (fun p _ => one (if net_ttl p >? 0 then int (net_ttl p) else null));
  (fun p _ => opt_item (if net_protocol p =? IPPROTO_UDP then DNS_PACKET_REQUEST p else None)
                (fun r => int (net_udp_sum r)))].

Definition dns_cells : list cell := [
  (fun p _ => one (int (knot_wire_get_id (kp_wire (knot_packet p)))));
  (fun p _ => one (int (knot_pkt_qtype (knot_packet p))));
  (fun p _ => one (int (knot_pkt_qclass (knot_packet p))));
  (fun p _ => one (int (knot_wire_get_opcode (kp_wire (knot_packet p)))));
  (fun p q => opt_item (DNS_PACKET_RESPONSE p q) (fun r => int (knot_wire_get_rcode (kp_wire (knot_packet r)))));
  (fun p q => flag_item (DNS_PACKET_RESPONSE p q) knot_wire_get_aa);
  (fun p q => flag_item (DNS_PACKET_RESPONSE p q) knot_wire_get_tc);
  (fun p q => flag_item (DNS_PACKET_REQUEST p) knot_wire_get_rd);
  (fun p q => flag_item (DNS_PACKET_RESPONSE p q) knot_wire_get_ra);
  (fun p q => flag_item (DNS_PACKET_REQUEST p) knot_wire_get_z);
  (fun p q => flag_item (DNS_PACKET_RESPONSE p q) knot_wire_get_ad);
  (fun p q => flag_item (DNS_PACKET_REQUEST p) knot_wire_get_cd);
  (fun p _ => opt_item (knot_dname_to_str (knot_pkt_qname (knot_packet p)) 1024) text);
  (fun p q => opt_item (DNS_PACKET_RESPONSE p q) (fun r => int (knot_wire_get_ancount (dns_data r))));
  (fun p q => opt_item (DNS_PACKET_RESPONSE p q) (fun r => int (knot_wire_get_arcount (dns_data r))));
  (fun p q => opt_item (DNS_PACKET_RESPONSE p q) (fun r => int (knot_wire_get_nscount (dns_data r))))].

Definition edns_cells : list cell := [
  (fun p _ => opt_item (opt_rr_of (DNS_PACKET_REQUEST p)) (fun rr => int (knot_edns_get_version rr)));
  (fun p _ => opt_item (opt_rr_of (DNS_PACKET_REQUEST p)) (fun rr => int (knot_edns_get_payload rr)));
  (fun p _ => opt_item (opt_rr_of (DNS_PACKET_REQUEST p)) (fun rr => boolean (knot_edns_do rr)));
  (fun p q => opt_item (opt_rr_of (DNS_PACKET_RESPONSE p q)) (fun rr => int (knot_edns_get_ext_rcode rr)));
  (fun p _ => list_item 5 (opt_rr_of (DNS_PACKET_REQUEST p)));
  (fun p _ => list_item 6 (opt_rr_of (DNS_PACKET_REQUEST p)));
  (fun p _ => list_item 7 (opt_rr_of (DNS_PACKET_REQUEST p)));
  (fun p q => nsid_item (opt_rr_of (DNS_PACKET_RESPONSE p q)));
  (fun _ _ => one null);
  (fun _ _ => one null)].

Definition cells : list (dns_output_field * cell) :=
  zip (map c_field columns) (net_cells ++ dns_cells ++ edns_cells).

(** The items of the record of a packet, and of the header. *)
Definition row_items (fields : Z) (p : dns_packet) (q : option dns_packet) : outcome (list Cbor.item) :=
  (@concat _) <$> mapO (fun c : dns_output_field * cell =>
                     if field_selected fields c.1 then c.2 p q else Ok []) cells.

Definition header_items (fields : Z) : list Cbor.item :=
  map (fun c => text (bytes_of_string (c_name c)))
    (List.filter (fun c => field_selected fields (c_field c)) columns).

(** ** The row is the encoding of those items *)

(** [f] appends the encoding of the items [its], or dies when it does not fit. *)
Definition writes (f : row_op) (its : list Cbor.item) : Prop :=
  forall buf e out, enc_rel buf e out -> (length out <= length buf)%nat -> Z.of_nat (length buf) < 2 ^ 64 ->
  let out' := out ++ flat_map Cbor.encode its in
  if (length out' <=? length buf)%nat then
    exists buf' e', f (buf, e) = Ok (buf', e') /\ enc_rel buf' e' out' /\ length buf' = length buf /\
      e_remaining e' = Nat.iter (length its) dec (e_remaining e) /\ e_flags e' = e_flags e
  else f (buf, e) = Fail (Died "CBOR error").

Lemma writes_nil : writes (fun st => Ok st) [].
Proof.
  intros buf e out Hr Hf Hbuf. cbn. rewrite app_nil_r. destruct (Nat.leb_spec (length out) (length buf)); [|lia]. eauto 10.
Qed.

Lemma writes_CERR op i : appends op (Cbor.encode i) dec -> writes (CERR op) [i].
Proof.
  intros H buf e out Hr Hf Hbuf. cbn [flat_map]. rewrite app_nil_r. unfold CERR. cbn zeta.
  destruct (H buf e out Hr) as (buf' & e' & -> & Hr' & Hl & _ & Hm & Hfl). unfold fit_error.
  destruct (Nat.leb_spec (length (out ++ Cbor.encode i)) (length buf)); [|done].
  destruct decide; [|done]. cbn. eauto 10.
Qed.

Lemma writes_seq f g is1 is2 : writes f is1 -> writes g is2 -> writes (fun st => f st ≫= g) (is1 ++ is2).
Proof.
  intros H1 H2 buf e out Hr Hf Hbuf. specialize (H1 buf e out Hr Hf Hbuf). cbn zeta in *. rewrite flat_map_app.
  rewrite app_assoc, !length_app in *.
  destruct (Nat.leb_spec (length out + length (flat_map Cbor.encode is1)) (length buf)).
  - destruct H1 as (buf1 & e1 & -> & Hr1 & Hl1 & Hm1 & Hf1). cbn [mbind outcome_bind].
    specialize (H2 buf1 e1 _ Hr1). cbn zeta in H2. rewrite !length_app, Hl1 in H2. specialize (H2 ltac:(lia) ltac:(lia)).
    case_match; [|done]. destruct H2 as (buf2 & e2 & -> & Hr2 & Hl2 & Hm2 & Hf2).
    exists buf2, e2. rewrite Hl2, Hm2, Hm1, Hf2, <- Nat.iter_add, Nat.add_comm. done.
  - rewrite H1. cbn. by destruct (Nat.leb_spec (length out + length (flat_map Cbor.encode is1) + length (flat_map Cbor.encode is2)) (length buf)); [lia|].
Qed.

(** An array with a body that writes items: it succeeds only for the
    announced number of items. *)
Lemma in_array_run n body its buf e out : 0 <= n < 2 ^ 64 - 1 -> writes body its ->
  enc_rel buf e out -> (length out <= length buf)%nat -> Z.of_nat (length buf) < 2 ^ 64 ->
  let out' := out ++ Cbor.head_bytes 4 n ++ flat_map Cbor.encode its in
  if (length out' <=? length buf)%nat && (Z.of_nat (length its) =? n) then
    exists buf' e', in_array n body (buf, e) = Ok (buf', e') /\ enc_rel buf' e' out' /\
      length buf' = length buf /\ e_remaining e' = dec (e_remaining e) /\ e_flags e' = e_flags e
  else in_array n body (buf, e) = Fail (Died "CBOR error").
Proof.
  intros Hn Hb Hr Hf Hbuf out'. unfold in_array, cbor_encoder_create_array, create_container, CborIndefiniteLength, SIZE_MAX.
  destruct (Z.eqb_spec n (2 ^ 64 - 1)); [lia|]. change (Z.shiftl 4 MajorTypeShift) with (32 * 4).
  change (Z.land (32 * 4) ContainerIsMapFlag) with 0. cbn [Z.eqb]. rewrite u64_small by lia.
  set (c0 := {| e_data := e_data e; e_end := e_end e; e_remaining := n + 1; e_flags := 0 |}).
  destruct (encode_number_no_update_ok n 4) with (buf := buf) (e := c0) (out := out)
    as (buf1 & c1 & -> & Hr1 & Hl1 & _ & Hm1 & Hf1); [lia.. | by apply (enc_rel_same buf e) |].
  unfold fit_error. destruct (Nat.leb_spec (length (out ++ Cbor.head_bytes 4 n)) (length buf)) as [Hh|Hh].
  2: { destruct (Nat.leb_spec (length out') (length buf)); [|by cbn; destruct decide].
       unfold out' in *. rewrite !length_app in *. lia. }
  destruct decide; [|done]. specialize (Hb buf1 c1 _ Hr1). cbn zeta in Hb. rewrite <- app_assoc, Hl1 in Hb.
  fold out' in Hb. specialize (Hb Hh Hbuf). destruct (Nat.leb_spec (length out') (length buf)); [|by rewrite Hb].
  destruct Hb as (buf2 & c2 & -> & Hr2 & Hl2 & Hm2 & Hf2). cbn [mbind outcome_bind andb].
  rewrite iter_dec in Hm2 by (rewrite Hm1; cbn; lia). rewrite Hm1 in Hm2. cbn [c0 e_remaining] in Hm2.
  unfold CERR, cbor_encoder_close_container_checked, cbor_encoder_close_container. cbn [e_end].
  rewrite Hf2, Hf1, Hm2. cbn [c0 e_flags]. change (Z.land 0 UnknownLengthFlag) with 0. cbn [Z.eqb negb].
  destruct Hr2 as [Hr2|Hr2]; [|lia].
  destruct (Z.eqb_spec (Z.of_nat (length its)) n), (Z.eqb_spec (Z.max 0 (n + 1 - Z.of_nat (length its))) 1); try lia; cbn [negb].
  - rewrite (proj1 (proj2 Hr2)). destruct decide; [|done]. eexists buf2, _. split; [done|].
    split; [left; cbn; tauto|]. split; [congruence|]. unfold saturated_decrement, dec. by destruct (Z.eqb_spec (e_remaining e) 0).
  - by repeat case_match.
Qed.

Lemma in_array_writes n body its : 0 <= n < 2 ^ 64 - 1 -> writes body its -> Z.of_nat (length its) = n ->
  writes (in_array n body) [Cbor.CArray its].
Proof.
  intros Hn Hb Hlen buf e out Hr Hf Hbuf. pose proof (in_array_run n body its buf e out Hn Hb Hr Hf Hbuf) as H.
  cbn [flat_map Cbor.encode length Nat.iter nat_rect]. rewrite app_nil_r, Hlen in *. cbn zeta in *.
  rewrite Z.eqb_refl, andb_true_r in H. done.
Qed.

(** ** Columns write their cells *)

Lemma writes_int v : writes (encode_int v) [int v].
Proof. apply writes_CERR, cbor_encode_int_bytes, s64_range. Qed.

Lemma writes_null : writes (CERR cbor_encode_null) [null].
Proof. apply writes_CERR. apply (cbor_encode_simple_value_ok 22). lia. Qed.

Lemma writes_boolean b : writes (CERR (cbor_encode_boolean b)) [boolean b].
Proof. apply writes_CERR. destruct b; [apply (cbor_encode_simple_value_ok 21) | apply (cbor_encode_simple_value_ok 20)]; lia. Qed.

Lemma writes_double d : writes (CERR (cbor_encode_double (Double.bits64 d))) [Cbor.CDouble (Double.bits64 d)].
Proof. apply writes_CERR, cbor_encode_double_ok, u64_range. Qed.

(** A string of any length: one that is too long for the encoding is also too
    long for the buffer. *)
Lemma writes_string major s (i : Cbor.item) : 0 <= major < 8 ->
  Cbor.encode i = Cbor.head_bytes major (Z.of_nat (length s)) ++ s ->
  writes (CERR (encode_string (32 * major) s)) [i].
Proof.
  intros Hm Hi. destruct (Z.lt_ge_cases (Z.of_nat (length s)) (2 ^ 64)) as [Hs|Hs].
  { apply writes_CERR. rewrite Hi. by apply encode_string_ok. }
  intros buf e out Hr Hf Hbuf. cbn zeta. cbn [flat_map]. rewrite app_nil_r, Hi, !length_app.
  destruct (Nat.leb_spec (length out + (length (Cbor.head_bytes major (Z.of_nat (length s))) + length s)) (length buf)); [lia|].
  unfold CERR, encode_string, encode_number, encode_number_no_update. set (bs := if _ <? _ then _ else _).
  assert (Hbs : Z.of_nat (length bs) < 2 ^ 64).
  { unfold bs. destruct (_ <? _); [done|]. cbn [length]. rewrite length_be_bytes.
    by destruct (_ >? 255), (_ >? 65535), (_ >? 4294967295). }
  destruct (appends_decrement _ _ (append_to_buffer_ok bs Hbs) buf e out Hr) as (buf' & e' & -> & Hr' & Hl & _).
  unfold append_to_buffer. replace (would_overflow e' (Z.of_nat (length s))) with true.
  - destruct (e_end e'); by case_decide.
  - symmetry. unfold would_overflow. destruct Hr' as [(? & -> & -> & _)|(? & -> & ->)]; lia.
Qed.

Lemma writes_text s : writes (CERR (cbor_encode_text_stringz s)) [text s].
Proof. by apply (writes_string 3). Qed.

Lemma writes_bytes s : writes (CERR (cbor_encode_byte_string s)) [Cbor.CBytes s].
Proof. by apply (writes_string 2). Qed.

Lemma writes_addr af a its : addr_item af a = Ok its -> writes (write_addr af a) its.
Proof.
  unfold addr_item, write_addr. destruct (inet_ntop af a) as [s|]; cbn; [|done]. intros [= <-]. apply writes_text.
Qed.

Lemma writes_understood opt i n vs : mapO (fun i => deref (opt !! (4 + i + i)%nat)) (seq i n) = Ok vs ->
  writes (understood_loop opt i n) (map int vs).
Proof.
  revert i vs. induction n as [|n IH]; intros i vs; cbn [seq mapO understood_loop].
  - intros [= <-]. apply writes_nil.
  - intros H. inv_ok. rewrite H0. cbn [deref mbind outcome_bind map].
    apply (writes_seq _ _ [int a] (map int a0)); [apply writes_int | by apply IH].
Qed.

Lemma mapO_length {A B} (f : A -> outcome B) l l' : mapO f l = Ok l' -> length l' = length l.
Proof. revert l'. induction l as [|a l IH]; intros l' H; cbn in H; inv_ok; cbn; auto using f_equal. Qed.

Lemma opt_length_range opt : 0 <= opt_length opt < 65536.
Proof. apply Z.mod_pos_bound. lia. Qed.

Lemma writes_list code rr its : list_item code rr = Ok its -> writes (WRITE_UNDERSTOOD_LIST code rr) its.
Proof.
  unfold list_item, WRITE_UNDERSTOOD_LIST, COND_OPT_RR, CONDIF. destruct rr as [rr|]; cbn.
  2: { intros [= <-]. apply writes_null. }
  destruct (knot_edns_get_option rr code) as [opt|]; cbn.
  2: { intros [= <-]. apply writes_null. }
  intros H. inv_ok. injection H as <-. pose proof (opt_length_range opt) as Hl. apply in_array_writes; [lia | by apply writes_understood |].
  rewrite length_map, (mapO_length _ _ _ H0), length_seq. lia.
Qed.

Lemma writes_nsid_item rr its : nsid_item rr = Ok its -> writes (COND_OPT_RR 3 rr write_nsid) its.
Proof.
  unfold nsid_item, COND_OPT_RR, CONDIF, write_nsid. destruct rr as [rr|]; cbn.
  2: { intros [= <-]. apply writes_null. }
  destruct (knot_edns_get_option rr 3) as [opt|]; cbn.
  2: { intros [= <-]. apply writes_null. }
  case_match; [done|]. intros [= <-]. apply writes_bytes.
Qed.

Lemma writes_opt {A} (o : option A) body (f : A -> Cbor.item) its :
  (forall a, writes (body a) [f a]) -> opt_item o f = Ok its -> writes (CONDIF o body) its.
Proof. intros Hb. destruct o; cbn; intros [= <-]; [apply Hb | apply writes_null]. Qed.

Create HintDb cbor.
#[local] Hint Resolve writes_int writes_null writes_boolean writes_double writes_text writes_bytes writes_addr
  writes_list writes_nsid_item writes_nil : cbor.

(** Every column writes the items of its cell. *)
Lemma columns_write : Forall2 (fun c (cl : cell) => forall p q its, cl p q = Ok its -> writes (c_body c p q) its)
  columns (net_cells ++ dns_cells ++ edns_cells).
Proof.
  unfold columns, net_columns, dns_columns, edns_columns, net_cells, dns_cells, edns_cells. cbn [app].
  repeat (apply Forall2_cons_2; [cbn [c_body]; intros p q its H;
    first [ by auto with cbor | by injection H as <-; auto with cbor
          | by eapply writes_opt in H; [exact H | intros; cbn beta; auto with cbor] | idtac] |]).
  all: try apply Forall2_nil_2.
  - destruct q as [r|]; cbn; [|by injection H as <-; auto with cbor].
    destruct (i64 (ts r - ts p)); cbn in *; [|done]. injection H as <-. auto with cbor.
  - unfold DNS_PACKET_AF in H. destruct (_ =? AF_INET); [by injection H as <-; auto with cbor|].
    destruct (_ =? AF_INET6); injection H as <-; auto with cbor.
  - destruct (net_ttl p >? 0); injection H as <-; cbn; auto with cbor.
Qed.

Lemma write_columns_ok fields p q cols (cls : list cell) :
  Forall2 (fun c (cl : cell) => forall p q its, cl p q = Ok its -> writes (c_body c p q) its) cols cls ->
  forall ls, mapO (fun c : dns_output_field * cell => if field_selected fields c.1 then c.2 p q else Ok [])
    (zip (map c_field cols) cls) = Ok ls ->
  writes (fun st => foldM (write_column fields (Some (p, q))) st cols) (concat ls).
Proof.
  induction 1 as [|c cl cols cls Hc _ IH]; intros ls H; cbn in H; inv_ok; cbn [foldM concat]; [apply writes_nil|].
  apply (writes_seq (fun st => write_column fields (Some (p, q)) st c)); [|by apply IH].
  unfold write_column. destruct (field_selected fields (c_field c)); [by apply Hc|]. injection H0 as <-. apply writes_nil.
Qed.

Lemma write_header_ok fields cols :
  writes (fun st => foldM (write_column fields None) st cols)
    (map (fun c => text (bytes_of_string (c_name c))) (List.filter (fun c => field_selected fields (c_field c)) cols)).
Proof.
  induction cols as [|c cols IH]; cbn [foldM List.filter]; [apply writes_nil|].
  destruct (field_selected fields (c_field c)) eqn:E; cbn [map].
  - apply (writes_seq (fun st => write_column fields None st c) _ [_]); [|done].
    unfold write_column. rewrite E. apply writes_text.
  - apply (writes_seq (fun st => write_column fields None st c) _ []); [|done].
    unfold write_column. rewrite E. apply writes_nil.
Qed.

Lemma OUTBUF_SIZE_Z : Z.of_nat OUTBUF_SIZE = 4096.
Proof. reflexivity. Qed.

Lemma noitems_range fields : 0 <= noitems fields < 100.
Proof.
  unfold noitems, popcount. pose proof (List.filter_length_le (fun i => Z.testbit fields (Z.of_nat i)) (seq 0 32)) as Hle.
  rewrite length_seq in Hle. repeat case_match; lia.
Qed.

(** A record, given the items its columns write. *)
Lemma cbor_packet_run outbuf fields pkt its : length outbuf = OUTBUF_SIZE ->
  writes (fun st => foldM (write_column fields pkt) st columns) its ->
  write_packet outbuf fields pkt =
    if (length (Cbor.encode (Cbor.CArray its)) <=? OUTBUF_SIZE)%nat && (Z.of_nat (length its) =? noitems fields)
    then Ok (Cbor.encode (Cbor.CArray its)) else Fail (Died "CBOR error").
Proof.
  pose proof OUTBUF_SIZE_Z as Hsize. revert Hsize. unfold write_packet. generalize OUTBUF_SIZE as size.
  generalize (fun st : row_state => foldM (write_column fields pkt) st columns) as body.
  intros body size Hsize Hbuf Hw.
  pose proof (noitems_range fields) as Hn. revert Hn. generalize (noitems fields) as n. intros n Hn.
  rewrite u64_small by lia.
  pose proof (in_array_run n _ its outbuf _ [] ltac:(lia) Hw (enc_rel_init outbuf)) as H.
  rewrite Hbuf in H. specialize (H (Nat.le_0_l _) ltac:(rewrite Hsize; lia)). cbn [app length] in H. cbn zeta in H.
  destruct (Z.eqb_spec (Z.of_nat (length its)) n) as [E|E].
  - cbn [Cbor.encode]. rewrite E. rewrite andb_true_r in *. case_match; [|by rewrite Hbuf, H].
    rewrite Hbuf. destruct H as (buf' & e' & -> & [(Hfit & _ & Hd & Ht)|(Hno & _)] & Hl & _); cbn [mbind outcome_bind].
    + unfold cbor_encoder_get_buffer_size. rewrite Hd, u64_small, Nat2Z.id, Ht; [done|].
      rewrite Hl in Hfit. lia.
    + apply Nat.leb_le in H0. lia.
  - rewrite andb_false_r in *. by rewrite Hbuf, H.
Qed.

(** ** The announced number of items is the number of items *)

Definition ind (b : bool) : Z := if b then 1 else 0.

Lemma length_filter_sum {A} (f : A -> bool) (l : list A) :
  Z.of_nat (length (List.filter f l)) = foldr (fun x n => ind (f x) + n) 0 l.
Proof. induction l as [|x l IH]; cbn; [done|]. destruct (f x); cbn [ind length]; lia. Qed.

Lemma count_selected fields : 0 <= fields < 2 ^ 23 ->
  Z.of_nat (length (List.filter (fun c => field_selected fields (c_field c)) columns)) = noitems fields.
Proof.
  intros Hf. assert (Hhigh : forall i, 23 <= i -> Z.testbit fields i = false).
  { intros i Hi. destruct (Z.eq_dec fields 0) as [->|]; [apply Z.testbit_0_l|].
    apply Z.bits_above_log2; [lia|]. apply Z.lt_le_trans with 23; [|lia]. apply Z.log2_lt_pow2; lia. }
  unfold noitems, popcount. rewrite !length_filter_sum, !field_selected_testbit.
  change columns with (net_columns ++ dns_columns ++ edns_columns).
  unfold net_columns, dns_columns, edns_columns.
  cbn [app foldr c_field seq]. rewrite !field_selected_testbit. cbn [field_num].
  repeat match goal with |- context [Z.of_nat ?k] =>
    let z := eval vm_compute in (Z.of_nat k) in change (Z.of_nat k) with z end.
  rewrite (Hhigh 23), (Hhigh 24), (Hhigh 25), (Hhigh 26), (Hhigh 27), (Hhigh 28), (Hhigh 29), (Hhigh 30),
    (Hhigh 31) by lia.
  destruct (Z.testbit fields 19), (Z.testbit fields 21), (Z.testbit fields 22); cbn [ind]; lia.
Qed.

(** A packet over IPv4 or IPv6. *)
Definition ip_packet (p : dns_packet) : Prop := DNS_PACKET_AF p = AF_INET \/ DNS_PACKET_AF p = AF_INET6.

Lemma one_length i its : one i = Ok its -> length its = 1%nat.
Proof. by intros [= <-]. Qed.

Lemma cells_single : Forall (fun cl : cell => forall p q its, ip_packet p -> cl p q = Ok its -> length its = 1%nat)
  (net_cells ++ dns_cells ++ edns_cells).
Proof.
  unfold net_cells, dns_cells, edns_cells. cbn [app].
  repeat (apply Forall_cons; split; [intros p q its Hip H; try (by injection H as <-) |]); try apply Forall_nil_2.
  - destruct q; inv_ok; by eapply one_length.
  - unfold addr_item in H. inv_ok. by eapply one_length.
  - unfold addr_item in H. inv_ok. by eapply one_length.
  - destruct Hip as [E|E]; rewrite E in H; by injection H as <-.
  - unfold list_item in H. case_match; inv_ok; by eapply one_length.
  - unfold list_item in H. case_match; inv_ok; by eapply one_length.
  - unfold list_item in H. case_match; inv_ok; by eapply one_length.
  - unfold nsid_item in H. repeat case_match; inv_ok; by eapply one_length.
Qed.

Lemma row_items_length fields p q its : ip_packet p -> row_items fields p q = Ok its ->
  length its = length (List.filter (fun c => field_selected fields (c_field c)) columns).
Proof.
  intros Hip. unfold row_items, cells. pose proof cells_single as Hs. revert Hs its.
  assert (Hlen : length (net_cells ++ dns_cells ++ edns_cells) = length columns) by reflexivity. revert Hlen.
  generalize (net_cells ++ dns_cells ++ edns_cells) as cls. generalize columns as cols.
  induction cols as [|c cols IH]; intros [|cl cls] Hlen Hs its H; try done; cbn in H.
  - by injection H as <-.
  - apply Forall_cons in Hs as [Hc Hs]. injection Hlen as Hlen.
    destruct (if field_selected fields (c_field c) then cl p q else Ok []) as [l1|] eqn:E1; [|done]. cbn in H.
    specialize (IH cls Hlen Hs). destruct (mapO _ _) as [ls|]; [|done]. cbn in H, IH. injection H as <-.
    rewrite length_app, (IH _ eq_refl). cbn [List.filter]. destruct (field_selected fields (c_field c)); cbn.
    + by rewrite (Hc p q l1 Hip E1).
    + by injection E1 as <-.
Qed.

(** ** Records decode *)

Lemma length_head_bytes major n : (1 <= length (Cbor.head_bytes major n) <= 9)%nat.
Proof. unfold Cbor.head_bytes. repeat case_match; cbn [length]; rewrite ?length_be_bytes; lia. Qed.

Lemma length_encode_pos i : (1 <= length (Cbor.encode i))%nat.
Proof.
  destruct i; cbn [Cbor.encode]; rewrite ?length_app;
    try match goal with |- context [Cbor.head_bytes ?m ?n] => pose proof (length_head_bytes m n) end; cbn [length]; lia.
Qed.

Lemma length_items l : (length l <= length (flat_map Cbor.encode l))%nat.
Proof.
  induction l as [|i l IH]; cbn [flat_map length]; [lia|]. rewrite length_app. pose proof (length_encode_pos i). lia.
Qed.

(** Items of a record: well formed as soon as they fit, and not deeply nested. *)
Definition sane (i : Cbor.item) : Prop :=
  ((length (Cbor.encode i) <= OUTBUF_SIZE)%nat -> Cbor.wf i) /\ (Cbor.depth i <= 2)%nat.

Lemma sane_int v : sane (int v) /\ Cbor.wf (int v) /\ Cbor.depth (int v) = 1%nat.
Proof.
  pose proof (s64_range v) as Hv. unfold sane, int, Cbor.of_int, INT64_MIN, INT64_MAX in *.
  destruct (Z.ltb_spec (s64 v) 0); cbn; repeat split; intros; lia.
Qed.

Lemma sane_text s : sane (text s).
Proof.
  pose proof OUTBUF_SIZE_Z. split; [|cbn; lia]. unfold text. cbn [Cbor.encode Cbor.wf]. rewrite length_app. lia.
Qed.

Lemma sane_bytes s : sane (Cbor.CBytes s).
Proof. pose proof OUTBUF_SIZE_Z. split; [|cbn; lia]. cbn [Cbor.encode Cbor.wf]. rewrite length_app. lia. Qed.

Lemma sane_ints vs : sane (Cbor.CArray (map int vs)).
Proof.
  pose proof OUTBUF_SIZE_Z. split; cbn [Cbor.encode Cbor.wf Cbor.depth].
  - rewrite length_app. pose proof (length_items (map int vs)). intros. split; [lia|].
    clear. induction vs; cbn; [done|]. split; [apply sane_int | done].
  - apply le_n_S. clear. induction vs as [|v vs IH]; cbn [map foldr]; [lia|].
    pose proof (sane_int v) as (_ & _ & ->). lia.
Qed.

Lemma sane_simple n : 0 <= n < 24 -> sane (Cbor.CSimple n).
Proof. split; cbn; lia. Qed.

Lemma sane_double d : sane (Cbor.CDouble (Double.bits64 d)).
Proof. split; [intros _; apply u64_range | cbn; lia]. Qed.

Lemma sane_one i its : one i = Ok its -> sane i -> Forall sane its.
Proof. intros [= <-] H. by constructor. Qed.

Lemma sane_opt {A} (o : option A) f its : (forall a, sane (f a)) -> opt_item o f = Ok its -> Forall sane its.
Proof. intros Hf. destruct o; cbn; intros [= <-]; constructor; auto. by apply sane_simple. Qed.

Lemma sane_bool b : sane (boolean b).
Proof. apply sane_simple. by destruct b. Qed.

#[local] Hint Resolve sane_text sane_bytes sane_ints sane_simple sane_double sane_bool : cbor.
#[local] Hint Extern 1 (sane (int _)) => apply sane_int : cbor.
#[local] Hint Extern 1 (sane null) => by apply sane_simple : cbor.

Lemma cells_sane : Forall (fun cl : cell => forall p q its, cl p q = Ok its -> Forall sane its)
  (net_cells ++ dns_cells ++ edns_cells).
Proof.
  unfold net_cells, dns_cells, edns_cells. cbn [app].
  repeat (apply Forall_cons; split;
    [intros p q its H; first [ by apply sane_one in H; auto with cbor
       | by apply sane_opt in H; [exact H | intros; cbn beta; auto with cbor] | idtac] |]);
    try apply Forall_nil_2.
  - destruct q; inv_ok; apply sane_one in H; auto with cbor.
  - unfold addr_item in H. inv_ok. apply sane_one in H; auto with cbor.
  - unfold addr_item in H. inv_ok. apply sane_one in H; auto with cbor.
  - repeat case_match; inv_ok; [apply sane_one in H; auto with cbor..|constructor].
  - apply sane_one in H; auto. case_match; auto with cbor.
  - unfold list_item in H. case_match; inv_ok; apply sane_one in H; auto with cbor.
  - unfold list_item in H. case_match; inv_ok; apply sane_one in H; auto with cbor.
  - unfold list_item in H. case_match; inv_ok; apply sane_one in H; auto with cbor.
  - unfold nsid_item in H. repeat case_match; inv_ok; apply sane_one in H; auto with cbor.
Qed.

Lemma row_items_sane fields p q its : row_items fields p q = Ok its -> Forall sane its.
Proof.
  unfold row_items, cells. pose proof cells_sane as Hs. revert Hs its.
  generalize (net_cells ++ dns_cells ++ edns_cells) as cls. generalize (map c_field columns) as fs.
  induction fs as [|f fs IH]; intros [|cl cls] Hs its H; cbn in H; try (injection H as <-; constructor).
  apply Forall_cons in Hs as [Hc Hs]. specialize (IH cls Hs).
  destruct (if field_selected fields f then cl p q else Ok []) as [l1|] eqn:E1; [|done]. cbn in H.
  destruct (mapO _ _) as [ls|]; [|done]. cbn in H, IH. injection H as <-. apply Forall_app. split; [|by apply IH].
  destruct (field_selected fields f); [by eapply Hc|]. by injection E1 as <-.
Qed.

(** An array of such items that fits the buffer decodes. *)
Lemma row_wf its : Forall sane its -> (length (Cbor.encode (Cbor.CArray its)) <= OUTBUF_SIZE)%nat ->
  Cbor.wf (Cbor.CArray its).
Proof.
  intros Hs Hfit. pose proof OUTBUF_SIZE_Z as Hz. cbn [Cbor.encode Cbor.wf] in *. rewrite length_app in Hfit.
  pose proof (length_items its). split; [lia|].
  assert (Hf : (length (flat_map Cbor.encode its) <= OUTBUF_SIZE)%nat) by lia.
  clear - Hs Hf. induction Hs as [|i its [Hi _] _ IH]; cbn in *; [done|]. rewrite length_app in Hf.
  split; [apply Hi; lia | apply IH; lia].
Qed.

Lemma row_depth its : Forall sane its -> (Cbor.depth (Cbor.CArray its) <= 3)%nat.
Proof.
  intros Hs. cbn [Cbor.depth]. apply le_n_S. induction Hs as [|i its [_ Hi] _ IH]; cbn; lia.
Qed.

Lemma decode_row its rest : Forall sane its -> (length (Cbor.encode (Cbor.CArray its)) <= OUTBUF_SIZE)%nat ->
  Cbor.decode 3 (Cbor.encode (Cbor.CArray its) ++ rest) = Some (Cbor.CArray its, rest).
Proof. intros Hs Hfit. apply Cbor.decode_encode; [by apply row_wf | by apply row_depth]. Qed.

Lemma header_sane fields : Forall sane (header_items fields).
Proof. apply Forall_map, Forall_forall. intros c _. cbn. apply sane_text. Qed.

Lemma length_flat_map_filter (f : column -> bool) (g : column -> Cbor.item) cols :
  (length (flat_map Cbor.encode (map g (List.filter f cols))) <= length (flat_map Cbor.encode (map g cols)))%nat.
Proof.
  induction cols as [|c cols IH]; cbn [List.filter map flat_map]; [done|].
  destruct (f c); cbn [map flat_map]; rewrite !length_app; lia.
Qed.

Lemma header_fits fields : (length (Cbor.encode (Cbor.CArray (header_items fields))) <= OUTBUF_SIZE)%nat.
Proof.
  cbn [Cbor.encode]. rewrite length_app. pose proof (length_head_bytes 4 (Z.of_nat (length (header_items fields)))) as Hh.
  pose proof (length_flat_map_filter (fun c => field_selected fields (c_field c))
                (fun c => text (bytes_of_string (c_name c))) columns) as Hl.
  fold (header_items fields) in Hl. pose proof OUTBUF_SIZE_Z as Hz.
  assert (Hall : Z.of_nat (length (flat_map Cbor.encode (map (fun c => text (bytes_of_string (c_name c))) columns))) <= 1000)
    by (vm_compute; discriminate). lia.
Qed.

Lemma cbor_header_row outbuf fields : length outbuf = OUTBUF_SIZE -> 0 <= fields < 2 ^ 23 ->
  write_packet outbuf fields None = Ok (Cbor.encode (Cbor.CArray (header_items fields))).
Proof.
  intros Hb Hf. rewrite (cbor_packet_run outbuf fields None (header_items fields) Hb (write_header_ok fields columns)).
  rewrite (proj2 (Nat.leb_le _ _) (header_fits fields)). unfold header_items at 1. rewrite length_map, count_selected by done.
  by rewrite Z.eqb_refl.
Qed.

(** ** The format *)

#[export] Instance cbor_format (c : dns_output_cbor) : OutputFormat.
Proof.
  refine {| start_file := dns_output_cbor_start_file c;
            Output.write_packet := dns_output_cbor_write_packet c;
            header := match write_packet stack_buffer (oc_fields c) None with Ok b => b | Fail _ => [] end;
            record := fun p q => write_packet stack_buffer (oc_fields c) (Some (p, q)) |}.
  - intros o time o' Hf H. unfold dns_output_cbor_start_file in H. inv_ok. rewrite H1. eauto 10.
  - done.
Defined.

(** Starting a file succeeds for every selection of columns. *)
Lemma stack_buffer_length : length stack_buffer = OUTBUF_SIZE.
Proof. unfold stack_buffer. exact (length_replicate OUTBUF_SIZE 0). Qed.

Lemma cbor_start_file_ok (c : dns_output_cbor) o time : 0 <= oc_fields c < 2 ^ 23 -> is_Some (o_file o) ->
  dns_output_cbor_start_file c o time = Ok (emit o (Cbor.encode (Cbor.CArray (header_items (oc_fields c))))).
Proof.
  intros Hc Hf. unfold dns_output_cbor_start_file. rewrite c_assert_true by (by apply bool_decide_eq_true_2).
  rewrite bind_Ok, (cbor_header_row _ _ stack_buffer_length Hc), bind_Ok. reflexivity.
Qed.

(** The record of a packet whose columns can be read. *)
Lemma cbor_packet_row outbuf fields p q its : length outbuf = OUTBUF_SIZE -> 0 <= fields < 2 ^ 23 -> ip_packet p ->
  row_items fields p q = Ok its ->
  write_packet outbuf fields (Some (p, q)) =
    if (length (Cbor.encode (Cbor.CArray its)) <=? OUTBUF_SIZE)%nat then Ok (Cbor.encode (Cbor.CArray its))
    else Fail (Died "CBOR error").
Proof.
  intros Hb Hf Hip Hr. pose proof (row_items_length fields p q its Hip Hr) as Hlen.
  assert (Hw : writes (fun st => foldM (write_column fields (Some (p, q))) st columns) its).
  { unfold row_items in Hr. destruct (mapO _ cells) as [ls|] eqn:E; [|done]. injection Hr as <-.
    eapply write_columns_ok; [apply columns_write | exact E]. }
  rewrite (cbor_packet_run outbuf fields (Some (p, q)) its Hb Hw).
  by rewrite Hlen, count_selected, Z.eqb_refl, andb_true_r by done.
Qed.

(** ** Properties *)

(** C22: the CBOR record of a packet.  Whatever the stack buffer held before,
    for a packet over IPv4 or IPv6 whose columns can be read the function
    writes exactly the CBOR encoding of the array of the selected columns'
    items when that takes at most 4096 bytes, and stops the program
    otherwise; the array has as many items as the header, and decoding the
    written bytes gives the items back. *)
Theorem cbor_record_correct (outbuf : list Z) (fields : Z) (p : dns_packet) (q : option dns_packet)
    (its : list Cbor.item) :
  length outbuf = OUTBUF_SIZE -> 0 <= fields < 2 ^ 23 -> ip_packet p -> row_items fields p q = Ok its ->
  let row := Cbor.encode (Cbor.CArray its) in
  length its = length (header_items fields) /\
  ((length row <= OUTBUF_SIZE)%nat -> write_packet outbuf fields (Some (p, q)) = Ok row /\
     forall rest, Cbor.decode 3 (row ++ rest) = Some (Cbor.CArray its, rest)) /\
  ((OUTBUF_SIZE < length row)%nat -> write_packet outbuf fields (Some (p, q)) = Fail (Died "CBOR error")).
Proof.
  intros Hb Hf Hip Hr row. pose proof (row_items_length fields p q its Hip Hr) as Hlen.
  pose proof (cbor_packet_row outbuf fields p q its Hb Hf Hip Hr) as Hrun. fold row in Hrun.
  split; [unfold header_items; by rewrite length_map|]. split; intros Hfit.
  - rewrite (proj2 (Nat.leb_le _ _) Hfit) in Hrun. split; [done|]. intros rest.
    apply decode_row; [by eapply row_items_sane | done].
  - by rewrite (proj2 (Nat.leb_gt _ _) Hfit) in Hrun.
Qed.

(** The CBOR header.  For every selection of columns the header fits the
    buffer, is written without error and decodes to the array of the names of
    the selected columns. *)
Theorem cbor_header_correct (outbuf : list Z) (fields : Z) :
  length outbuf = OUTBUF_SIZE -> 0 <= fields < 2 ^ 23 ->
  exists row, write_packet outbuf fields None = Ok row /\
    forall rest, Cbor.decode 3 (row ++ rest) = Some (Cbor.CArray (header_items fields), rest).
Proof.
  intros Hb Hf. eexists. split; [by apply cbor_header_row|]. intros rest.
  apply decode_row; [apply header_sane | apply header_fits].
Qed.

End cbor.

(** ** Closed examples *)

Section examples.
#[local] Existing Instances Sample.sample_knot sample_libc.

Definition garbage : list Z := replicate OUTBUF_SIZE 170.

(** A query with its answer, all columns. *)
Definition sample_items : list Cbor.item :=
  match row_items ALL_FIELDS (packet_of sample_query) (Some (packet_of sample_answer)) with
  | Ok its => its
  | Fail _ => []
  end.

Lemma cbor_record_correct_witness :
  write_packet garbage ALL_FIELDS (Some (packet_of sample_query, Some (packet_of sample_answer))) =
    Ok (Cbor.encode (Cbor.CArray sample_items)) /\ length sample_items = 40%nat.
Proof.
  destruct (cbor_record_correct garbage ALL_FIELDS (packet_of sample_query) (Some (packet_of sample_answer)) sample_items)
    as (_ & H & _); [apply length_replicate | by vm_compute | left; by vm_compute | by vm_compute |].
  split; [|by vm_compute]. apply H. pose proof OUTBUF_SIZE_Z as Hz.
  assert (Hl : Z.of_nat (length (Cbor.encode (Cbor.CArray sample_items))) <= 4096) by (vm_compute; discriminate). lia.
Defined.

Lemma cbor_header_correct_witness : exists row,
  write_packet garbage 7 None = Ok row /\
  Cbor.decode 3 row = Some (Cbor.CArray (map (fun s => text (bytes_of_string s)) ["time"; "delay_us"; "req_dns_len"]%string), []).
Proof.
  destruct (cbor_header_correct garbage 7) as (row & Hw & Hd); [apply length_replicate | by vm_compute |].
  exists row. split; [done|]. rewrite <- (app_nil_r row). apply Hd.
Defined.

End examples.
