(* ===== verification/CborReadBack.v ===== *)
(** * The CBOR parser reads back what the encoder writes

    [read_item] is a client of the parser that builds the item in front of a
    value; on the encoding of an item of definite length it returns that item,
    and [cbor_value_advance] skips exactly the bytes of one without tags.  With [OutputCbor] this
    gives that the records of the collector can be read with tinycbor. *)

From stdpp Require Import base numbers gmap list.
From S2P Require Import Prelude Packet CborEncoder CborParser CborRead OutputCbor.
From S2P Require Import Libs Config TimeFmt.

(** ** A client that reads items *)

Section reader.
Context (data : list Z) (malloc : Z -> option (list Z)).

(** The item [i] with the value after it, unless the call failed. *)
Definition finish (i : Cbor.item) (m : outcome (CborError * CborValue)) : outcome (CborError + Cbor.item * CborValue) :=
  '(err, next) ← m;
  Ok (if bool_decide (err = CborNoError) then inr (i, next) else inl err).

Definition read_string (make : list Z -> Cbor.item) (it : CborValue) : outcome (CborError + Cbor.item * CborValue) :=
  '(err, next, buffer, len) ← _cbor_value_dup_string data malloc it;
  finish (make (take (Z.to_nat len) buffer)) (Ok (err, next)).

Fixpoint read_items (read : CborValue -> outcome (CborError + Cbor.item * CborValue)) (fuel : nat) (it : CborValue)
    : outcome (CborError + list Cbor.item * CborValue) :=
  if cbor_value_at_end it then Ok (inr ([], it))
  else
    match fuel with
    | O => Fail OutOfFuel
    | S fuel =>
        r ← read it;
        match r with
        | inl err => Ok (inl err)
        | inr (i, it) =>
            r ← read_items read fuel it;
            Ok (match r with inl err => inl err | inr (l, it) => inr (i :: l, it) end)
        end
    end.

Definition read_fixed (it : CborValue) : outcome (CborError + Cbor.item * CborValue) :=
  if cbor_value_is_integer it then
    n ← cbor_value_get_raw_integer data it;
    finish (if cbor_value_is_negative_integer it then Cbor.CNInt n else Cbor.CUInt n) (cbor_value_advance_fixed data it)
  else if cbor_value_is_boolean it then
    b ← cbor_value_get_boolean it; finish (Cbor.CSimple (if (b : bool) then 21 else 20)) (cbor_value_advance_fixed data it)
  else if cbor_value_is_null it then finish (Cbor.CSimple 22) (cbor_value_advance_fixed data it)
  else if cbor_value_is_undefined it then finish (Cbor.CSimple 23) (cbor_value_advance_fixed data it)
  else if cbor_value_is_simple_type it then
    n ← cbor_value_get_simple_type it; finish (Cbor.CSimple n) (cbor_value_advance_fixed data it)
  else if cbor_value_is_double it then
    b ← cbor_value_get_double data it; finish (Cbor.CDouble b) (cbor_value_advance_fixed data it)
  else if cbor_value_is_half_float it then
    b ← cbor_value_get_half_float data it; finish (Cbor.CHalf b) (cbor_value_advance_fixed data it)
  else if cbor_value_is_float it then
    b ← cbor_value_get_float data it; finish (Cbor.CFloat b) (cbor_value_advance_fixed data it)
  else Ok (inl CborErrorUnknownType).

Fixpoint read_item (level : nat) (it : CborValue) : outcome (CborError + Cbor.item * CborValue) :=
  if cbor_value_is_byte_string it then read_string Cbor.CBytes it
  else if cbor_value_is_text_string it then read_string Cbor.CText it
  else if cbor_value_is_tag it then
    match level with
    | O => Ok (inl CborErrorNestingTooDeep)
    | S level =>
        n ← cbor_value_get_tag data it;
        '(err, it) ← cbor_value_advance_fixed data it;
        if negb (bool_decide (err = CborNoError)) then Ok (inl err)
        else r ← read_item level it;
             Ok (match r with inl err => inl err | inr (i, it) => inr (Cbor.CTag n i, it) end)
    end
  else if cbor_value_is_container it then
    match level with
    | O => Ok (inl CborErrorNestingTooDeep)
    | S level =>
        '(err, recursed) ← cbor_value_enter_container data it;
        if negb (bool_decide (err = CborNoError)) then Ok (inl err)
        else
          r ← read_items (read_item level) (S (length data)) recursed;
          match r with
          | inl err => Ok (inl err)
          | inr (l, recursed) => 
              finish (if cbor_value_is_array it then Cbor.CArray l else Cbor.CMap l)
                (cbor_value_leave_container data it recursed)
          end
    end
  else read_fixed it.

(** Parse a buffer and read its first item: the item and the position after
    it. *)
Definition read_buffer (level : nat) : outcome (CborError + Cbor.item * Z) :=
  '(err, it) ← cbor_parser_init data;
  if negb (bool_decide (err = CborNoError)) then Ok (inl err)
  else r ← read_item level it;
       Ok (match r with inl err => inl err | inr (i, next) => inr (i, v_ptr next) end).

End reader.

(** ** Bytes at a position *)

Section readback.
Context (data : list Z).

Abbreviation p_end := (p_end data).

Definition holds (p : Z) (bs : list Z) : Prop :=
  0 <= p /\ p + Z.of_nat (length bs) <= p_end /\ slice (Z.to_nat p) (length bs) data = bs.

Lemma holds_app p a b : holds p (a ++ b) <-> holds p a /\ holds (p + Z.of_nat (length a)) b.
Proof.
  unfold holds, slice. rewrite length_app, Nat2Z.inj_add. split.
  - intros (H0 & H1 & H2). rewrite <- take_take_drop, drop_drop in H2.
    apply app_inj_1 in H2 as [Ha Hb];
      [|rewrite length_take, length_drop; unfold CborParser.p_end in H1; lia].
    repeat split; try lia; [done|]. by rewrite Z2Nat.inj_add, Nat2Z.id by lia.
  - intros ((H0 & H1 & Ha) & (_ & H3 & Hb)). repeat split; [done|lia|].
    rewrite <- take_take_drop, drop_drop, Ha. f_equal. by rewrite Z2Nat.inj_add, Nat2Z.id in Hb by lia.
Qed.

Lemma holds_byte p b bs : holds p (b :: bs) -> byte data p = Ok b /\ 0 <= p < p_end /\ holds (p + 1) bs.
Proof.
  intros H. change (b :: bs) with ([b] ++ bs) in H. apply holds_app in H as [(H0 & H1 & H2) H]. cbn in H1.
  split; [|split; [lia|done]]. unfold byte, slice in *. replace (p <? 0) with false by lia. cbn in H2.
  rewrite <- (Nat.add_0_r (Z.to_nat p)), <- lookup_drop.
  destruct (drop (Z.to_nat p) data) as [|c l]; [done|]. cbn in *. congruence.
Qed.

Lemma holds_get_be p n bs : holds p bs -> length bs = n -> get_be data n p = Ok (be_int bs).
Proof.
  intros (H0 & H1 & H2) <-. unfold get_be. by replace (_ && _) with true by lia; rewrite H2.
Qed.

(** ** Heads *)

Lemma head_form m n : 0 <= n < 2 ^ 64 ->
  exists d, 0 <= d <= 27 /\ Cbor.head_bytes m n = (32 * m + d) :: be_bytes (Z.to_nat (need d)) n /\
            (d < 24 -> d = n) /\ (24 <= d -> n < 256 ^ need d) /\ (d <= 25 <-> n <= 65535).
Proof.
  intros Hn. unfold Cbor.head_bytes.
  destruct (Z.ltb_spec n 24); [|destruct (Z.leb_spec n 255); [|destruct (Z.leb_spec n 65535);
    [|destruct (Z.leb_spec n 4294967295)]]].
  - exists n. unfold need, Value8Bit. replace (n <? 24) with true by lia. repeat split; lia.
  - exists 24. change (need 24) with 1. repeat split; lia.
  - exists 25. change (need 25) with 2. repeat split; lia.
  - exists 26. change (need 26) with 4. repeat split; lia.
  - exists 27. change (need 27) with 8. repeat split; lia.
Qed.

Lemma low_bits m d : 0 <= m < 8 -> 0 <= d < 32 ->
  Z.land (32 * m + d) SmallValueMask = d /\ Z.land (32 * m + d) MajorTypeMask = 32 * m.
Proof.
  intros Hm Hd. destruct (byte_split (32 * m + d)) as (m' & d' & ? & ? & ? & -> & ->); lia.
Qed.

(** The number after an initial byte. *)
Lemma extract_holds p b d bs : holds p (b :: bs) -> Z.land b SmallValueMask = d -> 24 <= d <= 27 ->
  Z.of_nat (length bs) = need d ->
  _cbor_value_extract_number data p = Ok (CborNoError, p + 1 + need d, be_int bs).
Proof.
  intros Hh Hb Hd Hl. apply holds_byte in Hh as (E & Hp & Hh). unfold _cbor_value_extract_number. rewrite E.
  cbn [mbind outcome_bind]. rewrite Hb. unfold Value64Bit.
  replace (d <? Value8Bit) with false by (unfold Value8Bit; lia). replace (d >? 27) with false by lia.
  assert (En : Z.shiftl 1 (d - Value8Bit) = need d)
    by (unfold need, Value8Bit; by replace (d <? 24) with false by lia).
  rewrite En. pose proof Hh as (_ & Hfit & _). destruct (Z.gtb_spec (need d) (p_end - (p + 1))); [lia|].
  by rewrite (holds_get_be _ (Z.to_nat (need d)) _ Hh) by lia.
Qed.

Lemma extract_small p b d : holds p [b] -> Z.land b SmallValueMask = d -> 0 <= d < 24 ->
  _cbor_value_extract_number data p = Ok (CborNoError, p + 1, d).
Proof.
  intros Hh Hb Hd. apply holds_byte in Hh as (E & Hp & _). unfold _cbor_value_extract_number. rewrite E.
  cbn [mbind outcome_bind]. rewrite Hb. by replace (d <? Value8Bit) with true by (unfold Value8Bit; lia).
Qed.

Lemma head_number p m n : 0 <= m < 8 -> 0 <= n < 2 ^ 64 -> holds p (Cbor.head_bytes m n) ->
  _cbor_value_extract_number data p = Ok (CborNoError, p + Z.of_nat (length (Cbor.head_bytes m n)), n).
Proof.
  intros Hm Hn Hh. destruct (head_form m n Hn) as (d & Hd & E & Hs & Hl & _). rewrite E in *.
  cbn [length]. rewrite length_be_bytes. destruct (low_bits m d Hm ltac:(lia)) as [Hlow _].
  pose proof (need_cases d Hd) as Hc. destruct (Z.lt_ge_cases d 24) as [H24|H24].
  - assert (E0 : need d = 0) by lia. rewrite E0 in *. rewrite (extract_small p _ d Hh Hlow) by lia.
    do 3 f_equal. by apply Hs.
  - rewrite (extract_holds p _ d _ Hh Hlow) by (rewrite ?length_be_bytes; lia).
    rewrite be_int_be_bytes, Z2Nat.id, Z.mod_small by lia. do 3 f_equal. lia.
Qed.

(** ** The value in front of an item *)

Definition arg_flags (n : Z) : Z := if n <=? 65535 then 0 else CborIteratorFlag_IntegerValueTooLarge.
Definition arg_extra (n : Z) : Z := if n <=? 65535 then n else if n <=? 4294967295 then 26 else 27.

Definition parsed_number (it : CborValue) (m n : Z) : CborValue :=
  set_parsed it (if m =? 1 then CborIntegerType else 32 * m)
    (Z.lor (if m =? 1 then CborIteratorFlag_NegativeInteger else 0) (arg_flags n)) (arg_extra n).

Definition parsed_item (it : CborValue) (i : Cbor.item) : CborValue :=
  match i with
  | Cbor.CUInt n => parsed_number it 0 n
  | Cbor.CNInt n => parsed_number it 1 n
  | Cbor.CBytes bs => parsed_number it 2 (Z.of_nat (length bs))
  | Cbor.CText bs => parsed_number it 3 (Z.of_nat (length bs))
  | Cbor.CArray l => parsed_number it 4 (Z.of_nat (length l))
  | Cbor.CSimple n =>
      if n =? 20 then set_parsed it CborBooleanType 0 0
      else if (n <? 20) || (24 <=? n) then set_parsed it CborSimpleType 0 n else set_parsed it (224 + n) 0 n
  | Cbor.CDouble _ => set_parsed it CborDoubleType CborIteratorFlag_IntegerValueTooLarge 27
  | Cbor.CMap l => parsed_number it 5 (Z.of_nat (Nat.div2 (length l)))
  | Cbor.CTag n _ => parsed_number it 6 n
  | Cbor.CHalf _ => set_parsed it CborHalfFloatType 0 25
  | Cbor.CFloat _ => set_parsed it CborFloatType CborIteratorFlag_IntegerValueTooLarge 26
  end.

Lemma head_extra m n d : 0 <= n < 2 ^ 64 -> Cbor.head_bytes m n = (32 * m + d) :: be_bytes (Z.to_nat (need d)) n ->
  0 <= d <= 27 -> ~ n <= 65535 -> arg_extra n = d.
Proof.
  intros Hn E Hd H. unfold arg_extra, Cbor.head_bytes in *.
  replace (n <=? 65535) with false in * by lia. replace (n <=? 255) with false in E by lia.
  replace (n <? 24) with false in E by lia. destruct (n <=? 4294967295); injection E as E _; lia.
Qed.

Lemma preparse_number it m n : 0 <= m < 7 -> 0 <= n < 2 ^ 64 -> holds (v_ptr it) (Cbor.head_bytes m n) ->
  preparse_value data it = Ok (CborNoError, parsed_number it m n).
Proof.
  intros Hm Hn Hh. destruct (head_form m n Hn) as (d & Hd & E & Hs & Hl & Hx).
  pose proof (head_extra m n d Hn E Hd) as Hex. rewrite E in Hh.
  apply holds_byte in Hh as (Hb & Hp & Hh). unfold preparse_value. cbn [set_type v_ptr].
  destruct (Z.eqb_spec (v_ptr it) p_end); [lia|]. rewrite Hb. cbn [mbind outcome_bind].
  destruct (low_bits m d) as [-> ->]; [lia..|]. unfold Value64Bit. destruct (Z.gtb_spec d 27); [lia|].
  fold (need d). cbn [set_parsed set_type v_ptr]. pose proof (need_cases d Hd) as Hc.
  pose proof Hh as (_ & Hfit & _). rewrite length_be_bytes in Hfit.
  destruct (Z.gtb_spec (need d + 1) (p_end - v_ptr it)); [lia|].
  assert (E7 : Z.shiftr (32 * m) MajorTypeShift = m)
    by (unfold MajorTypeShift; rewrite Z.shiftr_div_pow2 by lia; div_lia).
  rewrite E7. destruct (Z.eqb_spec m 7); [lia|]. unfold Value8Bit, parsed_number, arg_flags.
  destruct (Z.ltb_spec d 24).
  { rewrite (Hs ltac:(lia)). unfold arg_extra. replace (n <=? 65535) with true by lia. by destruct (m =? 1). }
  destruct (Z.eqb_spec d 24) as [->|].
  { change (need 24) with 1 in *. cbn in Hh.
    apply holds_byte in Hh as (Hb' & _ & _). unfold arg_extra. replace (n <=? 65535) with true by lia.
    replace (n mod 256) with n in Hb' by (symmetry; apply Z.mod_small; lia).
    destruct (m =? 1); cbn [set_flag set_type set_parsed v_ptr]; by rewrite Hb'. }
  destruct (Z.eqb_spec d 25) as [->|].
  { change (need 25) with 2 in *. unfold arg_extra. replace (n <=? 65535) with true by lia.
    pose proof (holds_get_be _ 2 _ Hh ltac:(by rewrite length_be_bytes)) as Hg.
    rewrite be_int_be_bytes in Hg. change (256 ^ Z.of_nat (Z.to_nat 2)) with 65536 in Hg. rewrite Z.mod_small in Hg by lia.
    destruct (m =? 1); cbn [set_flag set_type set_parsed v_ptr]; by rewrite Hg. }
  replace (n <=? 65535) with false by lia. rewrite Hex by lia. by destruct (m =? 1).
Qed.

(** Simple values in the initial byte or the byte after it. *)
Lemma preparse_simple_value it n : 0 <= n < 24 \/ 32 <= n < 256 -> holds (v_ptr it) (Cbor.head_bytes 7 n) ->
  preparse_value data it = Ok (CborNoError, parsed_item it (Cbor.CSimple n)).
Proof.
  intros Hn Hh. destruct (head_form 7 n) as (d & Hd & E & Hs & _ & _); [lia|]. unfold Cbor.head_bytes in E.
  assert (Hdn : d = n \/ d = 24 /\ 32 <= n < 256).
  { destruct (Z.ltb_spec n 24); [left; injection E; lia|]. right. destruct (Z.leb_spec n 255); [|lia]. injection E. lia. }
  clear E Hs. assert (E : Cbor.head_bytes 7 n = (32 * 7 + d) :: (if n <? 24 then [] else [n])).
  { unfold Cbor.head_bytes. destruct (Z.ltb_spec n 24); [by replace d with n by lia|].
    replace d with 24 by lia. destruct (Z.leb_spec n 255); [|lia]. cbn. rewrite Z.mod_small by lia. done. }
  rewrite E in Hh. pose proof Hh as (_ & Hfit & _). cbn [length] in Hfit. apply holds_byte in Hh as (Hb & Hp & Hh).
  unfold preparse_value. cbn [set_type v_ptr].
  destruct (Z.eqb_spec (v_ptr it) p_end); [lia|]. rewrite Hb. cbn [mbind outcome_bind].
  destruct (low_bits 7 d) as [-> ->]; [lia..|]. unfold Value64Bit. destruct (Z.gtb_spec d 27); [lia|].
  fold (need d). cbn [set_parsed set_type v_ptr].
  destruct (Z.gtb_spec (need d + 1) (p_end - v_ptr it)).
  { exfalso. pose proof (need_cases d ltac:(lia)). destruct (Z.ltb_spec n 24); cbn [length] in Hfit; lia. }
  cbn [Z.shiftr Z.mul]. unfold preparse_simple. destruct Hdn as [->|[-> Hn2]].
  - destruct (Z.eqb_spec n 20) as [->|]; [done|]. cbn [parsed_item].
    replace (n =? 20) with false by lia. replace ((n =? 26) || (n =? 27)) with false by lia.
    destruct (Z.ltb_spec n 20); cbn [orb].
    + replace ((n =? 21) || (n =? 22) || (n =? 23) || (n =? 25)) with false by lia.
      replace (n =? 24) with false by lia. by replace (28 <=? n) with false by lia.
    + assert (Hn' : n < 24) by (destruct Hn; [lia|]; lia).
      replace (24 <=? n) with false by lia. by replace ((n =? 21) || (n =? 22) || (n =? 23) || (n =? 25)) with true by lia.
  - cbn [Z.eqb Pos.eqb orb]. destruct (Z.ltb_spec n 24); [lia|]. apply holds_byte in Hh as (Hb' & _).
    cbn [set_parsed set_type v_ptr]. rewrite Hb'. cbn [mbind outcome_bind parsed_item].
    replace (n <? 32) with false by lia. replace (n =? 20) with false by lia.
    replace (24 <=? n) with true by lia. by rewrite orb_true_r.
Qed.

(** The three floating point types. *)
Lemma preparse_float it d bs : 25 <= d <= 27 -> Z.of_nat (length bs) = need d -> holds (v_ptr it) ((32 * 7 + d) :: bs) ->
  preparse_value data it =
    Ok (CborNoError, set_parsed it (32 * 7 + d) (if d =? 25 then 0 else CborIteratorFlag_IntegerValueTooLarge) d).
Proof.
  intros Hd Hl Hh. pose proof Hh as (_ & Hfit & _). cbn [length] in Hfit. apply holds_byte in Hh as (Hb & Hp & _).
  unfold preparse_value. cbn [set_type v_ptr]. destruct (Z.eqb_spec (v_ptr it) p_end); [lia|]. rewrite Hb. cbn [mbind outcome_bind].
  destruct (low_bits 7 d) as [-> ->]; [lia..|]. unfold Value64Bit. destruct (Z.gtb_spec d 27); [lia|].
  fold (need d). cbn [set_parsed set_type v_ptr]. destruct (Z.gtb_spec (need d + 1) (p_end - v_ptr it)); [lia|].
  assert (d = 25 \/ d = 26 \/ d = 27) as [->|[->| ->]] by lia; done.
Qed.

Lemma preparse_item it i : Cbor.wf i -> holds (v_ptr it) (Cbor.encode i) ->
  preparse_value data it = Ok (CborNoError, parsed_item it i).
Proof.
  intros Hw Hh. destruct i as [n|n|bs|bs|l|n|b|l|n i|b|b]; cbn [Cbor.wf Cbor.encode parsed_item] in Hw, Hh |- *;
    try (apply holds_app in Hh as [Hh _]); try (apply preparse_number; [done|lia|done]).
  - by apply preparse_simple_value.
  - by apply (preparse_float it 27 (be_bytes 8 b)).
  - apply preparse_number; [done| |done]. destruct Hw as (He & Hl & _). pose proof (Cbor.double_half l He). lia.
  - by apply (preparse_float it 25 (be_bytes 2 b)).
  - by apply (preparse_float it 26 (be_bytes 4 b)).
Qed.
(** ** Cursors

    [cursor it l]: the value is in front of the encodings of [l], the items
    that remain in its container. *)

(** Items the parser can represent: a container has fewer than 2^32 - 1
    elements, a 32-bit counter with one value reserved. *)
Fixpoint readable (i : Cbor.item) : Prop :=
  match i with
  | Cbor.CArray l => Z.of_nat (length l) < UINT32_MAX /\ foldr (fun i P => readable i /\ P) True l
  | Cbor.CMap l =>
      Nat.Even (length l) /\ Z.of_nat (length l) < UINT32_MAX /\ foldr (fun i P => readable i /\ P) True l
  | Cbor.CTag n i => 0 <= n < 2 ^ 64 /\ readable i
  | _ => Cbor.wf i
  end.

Lemma readable_elems l : foldr (fun i P => readable i /\ P) True l <-> Forall readable l.
Proof.
  split; [|by induction 1].
  induction l as [|i l IH]; cbn; [by constructor|]. intros [? ?]. constructor; auto.
Qed.

Lemma wf_readable_elems l : Z.of_nat (length (flat_map Cbor.encode l)) < UINT32_MAX ->
  Forall (fun i => Cbor.wf i -> Z.of_nat (length (Cbor.encode i)) < UINT32_MAX -> readable i) l ->
  foldr (fun i P => Cbor.wf i /\ P) True l ->
  Z.of_nat (length l) < UINT32_MAX /\ foldr (fun i P => readable i /\ P) True l.
Proof.
  intros Hf IH Hw. pose proof (length_items l). split; [lia|]. apply readable_elems. clear H.
  induction IH as [|i l Hi _ IHl]; cbn [foldr flat_map length] in *; [done|]. rewrite length_app in Hf.
  destruct Hw as [Hwi Hwl]. constructor; [apply Hi; [done|lia]|]. apply IHl; [lia|done].
Qed.

Lemma wf_readable i : Cbor.wf i -> Z.of_nat (length (Cbor.encode i)) < UINT32_MAX -> readable i.
Proof.
  induction i as [n|n|bs|bs|l IH|n|b|l IH|n i IH|b|b] using Cbor.item_ind'; try done;
    cbn [Cbor.wf Cbor.encode readable]; rewrite length_app.
  - intros [_ Hw] Hl. apply wf_readable_elems; [lia|done..].
  - intros (He & _ & Hw) Hl. split; [done|]. apply wf_readable_elems; [lia|done..].
  - intros [Hn Hw] Hl. split; [done|]. apply IH; [done|lia].
Qed.

Lemma readable_wf_elems l : Forall (fun i => readable i -> Cbor.wf i) l ->
  foldr (fun i P => readable i /\ P) True l -> foldr (fun i P => Cbor.wf i /\ P) True l.
Proof. intros IH Hr. induction IH as [|i l Hi _ IHl]; cbn in *; [done|]. destruct Hr. auto. Qed.

Lemma readable_wf i : readable i -> Cbor.wf i.
Proof.
  induction i as [n|n|bs|bs|l IH|n|b|l IH|n i IH|b|b] using Cbor.item_ind'; cbn; try done.
  - intros [Hl Hr]. unfold UINT32_MAX in Hl. split; [lia|]. by apply readable_wf_elems.
  - intros (He & Hl & Hr). unfold UINT32_MAX in Hl. split; [done|]. split; [lia|]. by apply readable_wf_elems.
  - intros [Hn Hr]. split; [done|]. by apply IH.
Qed.

Definition cursor (it : CborValue) (l : list Cbor.item) : Prop :=
  holds (v_ptr it) (flat_map Cbor.encode l) /\ v_remaining it = Z.of_nat (length l) /\
  Z.of_nat (length l) < UINT32_MAX /\ Forall readable l /\
  match l with
  | [] => v_type it = CborInvalidType
  | i :: _ => it = parsed_item it i
  end.

Lemma parsed_same it i : parsed_item (parsed_item it i) i = parsed_item it i.
Proof.
  destruct i; cbn; try done. by repeat (destruct (_ =? _) || destruct (_ || _)).
Qed.

Lemma parsed_place it i : same_place it (parsed_item it i).
Proof. destruct i; cbn; try done. by repeat (destruct (_ =? _) || destruct (_ || _)). Qed.

Lemma nodecrement_cursor it l : l <> [] -> holds (v_ptr it) (flat_map Cbor.encode l) ->
  v_remaining it = Z.of_nat (length l) -> Z.of_nat (length l) < UINT32_MAX -> Forall readable l ->
  exists it', preparse_next_value_nodecrement data it = Ok (CborNoError, it') /\ cursor it' l /\ v_ptr it' = v_ptr it.
Proof.
  intros Hn Hh Hr Hl Hw. unfold preparse_next_value_nodecrement. replace (v_remaining it =? UINT32_MAX) with false by lia.
  destruct l as [|i l]; [done|]. cbn [mbind outcome_bind andb].
  cbn [flat_map] in Hh. pose proof Hh as Hh'. apply holds_app in Hh' as [Hi _].
  rewrite (preparse_item it i) by (try done; apply readable_wf; by inversion Hw).
  destruct (parsed_place it i) as [Hp Hm]. eexists. split; [done|]. split; [|done].
  split; [by rewrite Hp|]. split; [congruence|]. split; [done|]. split; [done|]. by rewrite parsed_same.
Qed.

(** Leaving an item: its value, moved behind it, becomes the next cursor. *)
Lemma next_cursor it l : v_type it <> CborTagType -> holds (v_ptr it) (flat_map Cbor.encode l) ->
  v_remaining it = Z.of_nat (S (length l)) -> Z.of_nat (S (length l)) < UINT32_MAX -> Forall readable l ->
  exists it', preparse_next_value data it = Ok (CborNoError, it') /\ cursor it' l /\ v_ptr it' = v_ptr it.
Proof.
  intros Ht Hh Hr Hl Hw. unfold preparse_next_value.
  replace (v_remaining it =? UINT32_MAX) with false by lia. replace (v_type it =? CborTagType) with false by lia.
  cbn [negb andb]. replace (u32 (v_remaining it - 1)) with (Z.of_nat (length l))
    by (symmetry; unfold u32; rewrite Z.mod_small; unfold UINT32_MAX in *; lia).
  cbn [set_vremaining v_remaining].
  destruct l as [|i l].
  - eexists. split; [done|]. split; [|done]. split; [done|]. by repeat split.
  - replace (Z.of_nat (length (i :: l)) =? 0) with false by (symmetry; apply Z.eqb_neq; cbn [length]; lia).
    destruct (nodecrement_cursor (set_vremaining it (Z.of_nat (length (i :: l)))) (i :: l)) as (it' & H); try done; [lia|].
    by exists it'.
Qed.

(** *** Items without content *)

Definition fixed_item (i : Cbor.item) : bool :=
  match i with Cbor.CBytes _ | Cbor.CText _ | Cbor.CArray _ | Cbor.CMap _ | Cbor.CTag _ _ => false | _ => true end.

Lemma float_number p d bs : 25 <= d <= 27 -> Z.of_nat (length bs) = need d -> holds p ((32 * 7 + d) :: bs) ->
  exists n, _cbor_value_extract_number data p = Ok (CborNoError, p + Z.of_nat (length ((32 * 7 + d) :: bs)), n).
Proof.
  intros Hd Hl Hh. exists (be_int bs). rewrite (extract_holds p _ d _ Hh); [|apply low_bits; lia|lia|done].
  cbn [length]. do 3 f_equal. lia.
Qed.

Lemma fixed_number i p : Cbor.wf i -> fixed_item i = true -> holds p (Cbor.encode i) ->
  exists n, _cbor_value_extract_number data p = Ok (CborNoError, p + Z.of_nat (length (Cbor.encode i)), n).
Proof.
  intros Hw Hf Hh. destruct i as [n|n|bs|bs|l|n|b|l|n i|b|b]; try done; cbn [Cbor.encode Cbor.wf] in *.
  - eexists. by apply head_number.
  - eexists. by apply head_number.
  - eexists. apply head_number; [done|lia|done].
  - by apply (float_number p 27).
  - by apply (float_number p 25).
  - by apply (float_number p 26).
Qed.

Lemma parsed_fixed it i : Cbor.wf i -> fixed_item i = true ->
  is_fixed_type (v_type (parsed_item it i)) = true /\ v_type (parsed_item it i) <> CborTagType /\
  v_type (parsed_item it i) <> CborInvalidType.
Proof.
  intros Hw Hf. destruct i as [n|n|bs|bs|l|n|b|l|n i|b|b]; try done. cbn in Hw |- *.
  destruct (Z.eqb_spec n 20); [done|]. destruct (_ || _) eqn:E; [done|].
  assert (n = 21 \/ n = 22 \/ n = 23) as [->|[->| ->]] by lia; done.
Qed.

(** What a cursor in front of [i] says. *)
Lemma cursor_item it i l : cursor it (i :: l) ->
  holds (v_ptr it) (Cbor.encode i) /\ holds (v_ptr it + Z.of_nat (length (Cbor.encode i))) (flat_map Cbor.encode l) /\
  v_remaining it = Z.of_nat (S (length l)) /\ Z.of_nat (S (length l)) < UINT32_MAX /\
  readable i /\ Forall readable l /\ it = parsed_item it i.
Proof.
  intros (Hh & Hr & Hl & Hw & Hit). cbn [flat_map] in Hh. apply holds_app in Hh as [? ?]. inversion Hw. auto 10.
Qed.

Lemma advance_internal_cursor it i l : cursor it (i :: l) -> fixed_item i = true ->
  exists it', advance_internal data it = Ok (CborNoError, it') /\ cursor it' l /\
              v_ptr it' = v_ptr it + Z.of_nat (length (Cbor.encode i)).
Proof.
  intros Hc Hf. destruct (cursor_item it i l Hc) as (Hi & Hh & Hr & Hl & Hw & Hws & Hit).
  destruct (parsed_fixed it i (readable_wf i Hw) Hf) as (Ht & Htag & _). rewrite <- Hit in Ht, Htag.
  unfold advance_internal. destruct (fixed_number i (v_ptr it) (readable_wf i Hw) Hf Hi) as (n & ->).
  cbn [mbind outcome_bind]. rewrite is_no_error. cbn [c_assert mbind outcome_bind set_ptr v_type].
  replace ((v_type it =? CborByteStringType) || (v_type it =? CborTextStringType)) with false
    by (symmetry; unfold is_fixed_type in Ht; lia).
  by apply (next_cursor (set_ptr it (v_ptr it + Z.of_nat (length (Cbor.encode i))))).
Qed.

Lemma advance_fixed_cursor it i l : cursor it (i :: l) -> fixed_item i = true ->
  exists it', cbor_value_advance_fixed data it = Ok (CborNoError, it') /\ cursor it' l /\
              v_ptr it' = v_ptr it + Z.of_nat (length (Cbor.encode i)).
Proof.
  intros Hc Hf. destruct (cursor_item it i l Hc) as (_ & _ & Hr & _ & Hw & _ & Hit).
  destruct (parsed_fixed it i (readable_wf i Hw) Hf) as (Ht & _ & Hv). rewrite <- Hit in Ht, Hv.
  unfold cbor_value_advance_fixed. rewrite Ht. replace (v_type it =? CborInvalidType) with false by lia.
  cbn [c_assert negb mbind outcome_bind]. replace (v_remaining it =? 0) with false by lia.
  by apply advance_internal_cursor.
Qed.

(** *** Strings *)

Definition string_item (i : Cbor.item) (m : Z) (bs : list Z) : Prop :=
  i = Cbor.CBytes bs /\ m = 2 \/ i = Cbor.CText bs /\ m = 3.

Lemma parsed_string it i m bs : string_item i m bs -> it = parsed_item it i ->
  v_type it = 32 * m /\ has_flag it CborIteratorFlag_IteratingStringChunks = false /\
  has_flag it CborIteratorFlag_UnknownLength = false.
Proof.
  intros Hs ->. unfold has_flag. destruct Hs as [[-> ->]|[-> ->]]; cbn; unfold arg_flags;
    destruct (Z.of_nat (length bs) <=? 65535); done.
Qed.

(** A string of known length is one chunk... *)
Lemma string_chunk it i m bs l : cursor it (i :: l) -> string_item i m bs ->
  let p := v_ptr it + Z.of_nat (length (Cbor.head_bytes m (Z.of_nat (length bs)))) in
  get_string_chunk data it =
    Ok (CborNoError, set_flag (set_ptr it (p + Z.of_nat (length bs))) CborIteratorFlag_IteratingStringChunks,
        Some (p, Z.of_nat (length bs))) /\
  holds p bs.
Proof.
  intros Hc Hs p. destruct (cursor_item it i l Hc) as (Hi & _ & _ & _ & Hw & _ & Hit).
  destruct (parsed_string it i m bs Hs Hit) as (Ht & H2 & H4).
  assert (Hn : 0 <= Z.of_nat (length bs) < 2 ^ 64 /\ 0 <= m < 7 /\ 2 <= m <= 3 /\
               holds (v_ptr it) (Cbor.head_bytes m (Z.of_nat (length bs)) ++ bs)).
  { destruct Hs as [[-> ->]|[-> ->]]; cbn in Hw, Hi; (split; [lia|done]). }
  destruct Hn as (Hn & Hm & Hm' & Hi'). apply holds_app in Hi' as [Hhead Hbs]. split; [|done].
  unfold get_string_chunk, prepare_string_iteration, cbor_value_is_length_known. rewrite H2, H4. cbn [negb].
  unfold chunk_at. destruct (head_form m _ Hn) as (d & Hd & E & _).
  assert (Hb : byte data (v_ptr it) = Ok (32 * m + d) /\ 0 <= v_ptr it < p_end).
  { pose proof Hhead as Hh. rewrite E in Hh. apply holds_byte in Hh. tauto. }
  destruct Hb as [Hb Hp]. replace (v_ptr it =? p_end) with false by lia. rewrite Hb. cbn [mbind outcome_bind].
  destruct (low_bits m d) as [_ ->]; [lia..|].
  replace (32 * m + d =? BreakByte) with false by (unfold BreakByte; lia). rewrite Ht, Z.eqb_refl.
  unfold extract_length. rewrite (head_number _ m _ ltac:(lia) Hn Hhead). cbn [mbind outcome_bind].
  rewrite is_no_error. cbn [mbind outcome_bind]. rewrite is_no_error. cbn [negb].
  destruct Hbs as (_ & Hfit & _). by replace (Z.of_nat (length bs) >? _) with false by lia.
Qed.

(** ... after which the iteration is at its end. *)
Lemma string_end it i m bs l : cursor it (i :: l) -> string_item i m bs ->
  let p := v_ptr it + Z.of_nat (length (Cbor.encode i)) in
  exists it', get_string_chunk data (set_flag (set_ptr it p) CborIteratorFlag_IteratingStringChunks) =
                Ok (CborNoError, it', None) /\ cursor it' l /\ v_ptr it' = p.
Proof.
  intros Hc Hs p. destruct (cursor_item it i l Hc) as (_ & Hh & Hr & Hl & Hw & Hws & Hit).
  destruct (parsed_string it i m bs Hs Hit) as (Ht & H2 & H4).
  unfold get_string_chunk, cbor_value_is_length_known. rewrite !has_flag_set. cbn -[preparse_next_value].
  change (has_flag (set_ptr it p) ?f) with (has_flag it f). rewrite H2, H4. cbn -[preparse_next_value].
  set (it1 := set_flag _ _). destruct (next_cursor it1 l) as (it' & -> & Hc' & Hp'); try done.
  { cbn. rewrite Ht. destruct Hs as [[_ ->]|[_ ->]]; done. }
  by exists it'.
Qed.

Lemma encode_string_item i m bs : string_item i m bs ->
  Cbor.encode i = Cbor.head_bytes m (Z.of_nat (length bs)) ++ bs.
Proof. by intros [[-> ->]|[-> ->]]. Qed.

(** The loop over the chunks of a string treats its bytes at once. *)
Lemma chunk_loop_cursor it i m bs l func buf buflen fuel : cursor it (i :: l) -> string_item i m bs ->
  exists it' buf' result,
    chunk_loop data (S (S fuel)) func buflen it {| c_buf := buf; c_total := 0; c_result := true |} =
      Ok (CborNoError, it', {| c_buf := buf'; c_total := Z.of_nat (length bs); c_result := result |}) /\
    cursor it' l /\ v_ptr it' = v_ptr it + Z.of_nat (length (Cbor.encode i)) /\
    (result, buf') = (if buflen >=? Z.of_nat (length bs) then iterate func buf 0 bs else (false, buf)).
Proof.
  intros Hc Hs. destruct (string_chunk it i m bs l Hc Hs) as [E Hbs]. cbn zeta in E, Hbs.
  destruct (string_end it i m bs l Hc Hs) as (it' & E' & Hc' & Hp'). cbn zeta in E', Hp'.
  assert (Hp : v_ptr it + Z.of_nat (length (Cbor.encode i)) =
    v_ptr it + Z.of_nat (length (Cbor.head_bytes m (Z.of_nat (length bs)))) + Z.of_nat (length bs))
    by (rewrite (encode_string_item i m bs Hs), length_app; lia).
  rewrite Hp in *. cbn [chunk_loop]. rewrite E. cbn [mbind outcome_bind]. rewrite is_no_error. cbn [negb].
  cbn [c_total c_result c_buf andb]. rewrite !Z.add_0_l.
  assert (Hlt : Z.of_nat (length bs) < 2 ^ 64).
  { destruct (cursor_item it i l Hc) as (_ & _ & _ & _ & Hw & _). by destruct Hs as [[-> _]|[-> _]]. }
  replace (Z.of_nat (length bs) >=? 2 ^ 64) with false by lia.
  destruct Hbs as (_ & _ & Hbs). rewrite Nat2Z.id, Hbs.
  destruct (if buflen >=? _ then _ else _) as [result buf'] eqn:Ei.
  rewrite E'. cbn [mbind outcome_bind]. rewrite is_no_error. cbn [negb]. by exists it', buf', result.
Qed.

(** [_cbor_value_copy_string] copies the string and a NUL where there is room
    for both, or measures it. *)
Lemma copy_string_cursor it i m bs l buf buflen : cursor it (i :: l) -> string_item i m bs ->
  Z.of_nat (length bs) < buflen ->
  exists it', _cbor_value_copy_string data buf buflen it =
      Ok (CborNoError, it', match buf with
                            | Some b => write_at (write_at b 0 bs) (Z.of_nat (length bs)) [0]
                            | None => []
                            end, Z.of_nat (length bs)) /\
    cursor it' l /\ v_ptr it' = v_ptr it + Z.of_nat (length (Cbor.encode i)).
Proof.
  intros Hc Hs Hlen. destruct (cursor_item it i l Hc) as (_ & _ & _ & _ & _ & _ & Hit).
  destruct (parsed_string it i m bs Hs Hit) as (Ht & _ & _).
  assert (Hstr : cbor_value_is_byte_string it || cbor_value_is_text_string it = true)
    by (unfold cbor_value_is_byte_string, cbor_value_is_text_string; rewrite Ht; by destruct Hs as [[_ ->]|[_ ->]]).
  unfold _cbor_value_copy_string, iterate_string_chunks. rewrite Hstr. cbn [c_assert mbind outcome_bind].
  set (func := match buf with Some _ => iterate_memcpy | None => iterate_noop end).
  destruct (chunk_loop_cursor it i m bs l func (default [] buf) buflen (length data) Hc Hs)
    as (it1 & buf1 & r1 & -> & Hc' & Hp & Er). replace (buflen >=? Z.of_nat (length bs)) with true in Er by lia.
  cbn [mbind outcome_bind]. rewrite is_no_error. cbn [negb c_result c_total c_buf].
  replace (buflen >? Z.of_nat (length bs)) with true by lia. rewrite andb_true_r.
  assert (E : r1 = true /\ iterate func buf1 (Z.of_nat (length bs)) [0] =
    (true, match buf with Some b => write_at (write_at b 0 bs) (Z.of_nat (length bs)) [0] | None => [] end)).
  { subst func. destruct buf; cbn in Er |- *; by injection Er as -> ->. }
  destruct E as [-> ->]. cbn [mbind outcome_bind c_result c_buf c_total]. rewrite is_no_error. by exists it1.
Qed.

(** [_cbor_value_dup_string] gives a copy of the string. *)
Lemma dup_string_cursor malloc it i m bs l : cursor it (i :: l) -> string_item i m bs ->
  (forall n, 0 <= n -> exists b, malloc n = Some b /\ length b = Z.to_nat n) -> p_end < 2 ^ 64 - 1 ->
  exists it' buf, _cbor_value_dup_string data malloc it = Ok (CborNoError, it', buf, Z.of_nat (length bs)) /\
    take (length bs) buf = bs /\ cursor it' l /\ v_ptr it' = v_ptr it + Z.of_nat (length (Cbor.encode i)).
Proof.
  intros Hc Hs Hmal Hend. destruct (cursor_item it i l Hc) as ((? & Hfit & _) & _).
  rewrite (encode_string_item i m bs Hs), length_app in Hfit. unfold _cbor_value_dup_string.
  destruct (copy_string_cursor it i m bs l None SIZE_MAX Hc Hs) as (it1 & -> & _); [unfold SIZE_MAX; lia|].
  cbn [mbind outcome_bind]. rewrite is_no_error. cbn [negb]. rewrite u64_small by lia.
  destruct (Hmal (Z.of_nat (length bs) + 1)) as (block & -> & Hlen); [lia|].
  destruct (copy_string_cursor it i m bs l (Some block) (Z.of_nat (length bs) + 1) Hc Hs) as (it2 & -> & Hc2 & Hp2); [lia|].
  cbn [mbind outcome_bind]. rewrite is_no_error. cbn [negb]. do 2 eexists. split; [done|]. split; [|done].
  unfold write_at. change (Z.to_nat 0) with 0%nat. rewrite Nat2Z.id. cbn [take app].
  rewrite (take_app_le (take _ _)) by (rewrite length_take, !length_app; lia). rewrite take_take, Nat.min_id.
  cbn [take app]. rewrite take_0. cbn [app]. by rewrite take_app_length.
Qed.

(** *** Arrays and maps *)

(** The items of major type [m] with the elements [l] and the number [n]. *)
Definition container_item (i : Cbor.item) (m n : Z) (l : list Cbor.item) : Prop :=
  i = Cbor.CArray l /\ m = 4 /\ n = Z.of_nat (length l) \/
  i = Cbor.CMap l /\ m = 5 /\ n = Z.of_nat (Nat.div2 (length l)).

Lemma container_readable i m n l : container_item i m n l -> readable i ->
  Cbor.encode i = Cbor.head_bytes m n ++ flat_map Cbor.encode l /\
  0 <= n <= Z.of_nat (length l) /\ Z.of_nat (length l) < UINT32_MAX /\ Forall readable l /\
  (m = 4 /\ Z.of_nat (length l) = n \/ m = 5 /\ Z.of_nat (length l) = n * 2).
Proof.
  intros [(-> & -> & ->)|(-> & -> & ->)]; cbn [readable Cbor.encode].
  - intros [Hl Hw]. apply readable_elems in Hw. split; [done|]. repeat split; try done; lia.
  - intros (He & Hl & Hw). apply readable_elems in Hw. pose proof (Cbor.double_half l He).
    split; [done|]. split; [lia|]. do 2 (split; [done|]). right. split; [done|lia].
Qed.

Lemma parsed_container it i m n l : container_item i m n l -> it = parsed_item it i ->
  v_type it = 32 * m /\ cbor_value_is_container it = true /\ has_flag it CborIteratorFlag_UnknownLength = false.
Proof.
  intros Hc ->. unfold has_flag. destruct Hc as [(-> & -> & ->)|(-> & -> & ->)]; cbn; unfold arg_flags; by destruct (_ <=? 65535).
Qed.

Lemma enter_cursor it i m n l rest : cursor it (i :: rest) -> container_item i m n l ->
  exists it', cbor_value_enter_container data it = Ok (CborNoError, it') /\ cursor it' l /\
              v_ptr it' = v_ptr it + Z.of_nat (length (Cbor.head_bytes m n)).
Proof.
  intros Hc Hi. destruct (cursor_item it _ rest Hc) as (Hh & _ & _ & _ & Hw & _ & Hit).
  destruct (container_readable i m n l Hi Hw) as (E & Hn & Hl & Hr & Hm). rewrite E in Hh. apply holds_app in Hh as [Hhead Hels].
  destruct (parsed_container it i m n l Hi Hit) as (Ht & Hcont & H4).
  unfold UINT32_MAX in Hl. unfold cbor_value_enter_container. rewrite Hcont, H4. cbn [c_assert mbind outcome_bind].
  rewrite (head_number _ m n ltac:(lia) ltac:(lia) Hhead). cbn [mbind outcome_bind]. rewrite is_no_error.
  cbn [c_assert mbind outcome_bind set_ptr set_vremaining v_type v_remaining v_ptr]. rewrite Ht.
  replace (u32 n) with n by (symmetry; apply Z.mod_small; lia).
  rewrite Z.eqb_refl. replace (n =? UINT32_MAX) with false by (unfold UINT32_MAX; lia). cbn [negb orb].
  replace ((32 * m =? CborMapType) && (n >? UINT32_MAX / 2)) with false
    by (symmetry; apply andb_false_iff; change (UINT32_MAX / 2) with 2147483647; unfold CborMapType; lia).
  assert (Hrem : (if 32 * m =? CborMapType then u32 (n * 2) else n) = Z.of_nat (length l)).
  { unfold CborMapType. destruct Hm as [[-> <-]|[-> Hm]]; [done|]. rewrite Hm. apply Z.mod_small. lia. }
  match goal with |- context [if 32 * m =? CborMapType then ?a else ?b] =>
    set (rec := if 32 * m =? CborMapType then a else b) end.
  assert (Hrec : v_remaining rec = Z.of_nat (length l) /\ v_ptr rec = v_ptr it + Z.of_nat (length (Cbor.head_bytes m n)))
    by (rewrite <- Hrem; unfold rec; by destruct (32 * m =? CborMapType)).
  destruct Hrec as [Hrec Hptr]. destruct l as [|j l].
  - replace (n =? 0) with true by (cbn [length] in Hm; lia). eexists. split; [done|]. split; [|done].
    split; [cbn [flat_map]; cbn; by rewrite Hptr|]. cbn. by repeat split.
  - replace (n =? 0) with false by (cbn [length] in Hm; lia).
    destruct (nodecrement_cursor rec (j :: l)) as (it' & E' & Hc' & Hp'); try done; [by rewrite Hptr|].
    exists it'. split; [done|]. split; [done|]. congruence.
Qed.

Lemma leave_cursor it i m n l rest recursed : cursor it (i :: rest) -> container_item i m n l -> cursor recursed [] ->
  v_ptr recursed = v_ptr it + Z.of_nat (length (Cbor.encode i)) ->
  exists it', cbor_value_leave_container data it recursed = Ok (CborNoError, it') /\ cursor it' rest /\
              v_ptr it' = v_ptr recursed.
Proof.
  intros Hc Hi (_ & _ & _ & _ & Hr) Hp. destruct (cursor_item it _ rest Hc) as (_ & Hh & Hrem & Hl & _ & Hws & Hit).
  destruct (parsed_container it i m n l Hi Hit) as (Ht & Hcont & _).
  unfold cbor_value_leave_container. rewrite Hcont, Hr. rewrite Z.eqb_refl. cbn [c_assert mbind outcome_bind].
  apply (next_cursor (set_ptr it (v_ptr recursed))); try done; [|cbn; by rewrite Hp].
  cbn. rewrite Ht. destruct Hi as [(_ & -> & _)|(_ & -> & _)]; done.
Qed.

(** *** Tags *)

(** Behind a tag is the tagged item, in the same place of its container. *)
Lemma tag_cursor it n i rest : cursor it (Cbor.CTag n i :: rest) ->
  v_type it = CborTagType /\ 0 <= n < 2 ^ 64 /\ it = parsed_number it 6 n /\ holds (v_ptr it) (Cbor.head_bytes 6 n) /\
  exists it', cbor_value_advance_fixed data it = Ok (CborNoError, it') /\ cursor it' (i :: rest) /\
              v_ptr it' = v_ptr it + Z.of_nat (length (Cbor.head_bytes 6 n)).
Proof.
  intros Hc. destruct (cursor_item it _ rest Hc) as (Hh & Hrest & Hr & Hl & [Hn Hw] & Hws & Hit).
  cbn [Cbor.encode parsed_item] in Hh, Hrest, Hit. apply holds_app in Hh as [Hhead Hi].
  assert (Ht : v_type it = CborTagType) by (by rewrite Hit). split; [done|]. split; [done|]. split; [done|]. split; [done|].
  unfold cbor_value_advance_fixed. rewrite Ht. change (is_fixed_type CborTagType) with true.
  change (CborTagType =? CborInvalidType) with false. cbn [negb c_assert mbind outcome_bind].
  replace (v_remaining it =? 0) with false by lia. unfold advance_internal.
  rewrite (head_number _ 6 n ltac:(lia) Hn Hhead). cbn [mbind outcome_bind]. rewrite is_no_error.
  cbn [c_assert mbind outcome_bind set_ptr v_type]. rewrite Ht. change (CborTagType =? CborByteStringType) with false.
  change (CborTagType =? CborTextStringType) with false. cbn [orb]. unfold preparse_next_value. cbn [set_ptr v_type v_remaining].
  rewrite Ht, Z.eqb_refl. cbn [negb]. rewrite andb_false_r.
  match goal with |- context [preparse_next_value_nodecrement data ?r] =>
    destruct (nodecrement_cursor r (i :: rest)) as (it' & E & Hc' & Hp') end; try done; [| |by exists it'].
  - cbn [set_ptr v_ptr flat_map]. apply holds_app. split; [done|]. rewrite length_app in Hrest.
    replace (v_ptr it + Z.of_nat (length (Cbor.head_bytes 6 n)) + Z.of_nat (length (Cbor.encode i)))
      with (v_ptr it + Z.of_nat (length (Cbor.head_bytes 6 n) + length (Cbor.encode i))) by lia. done.
  - by constructor.
Qed.

(** *** Numbers *)

(** The low bit tells the two large encodings apart. *)
Lemma decode_int64_holds it b d bs : (d = 26 \/ d = 27) -> Z.land b SmallValueMask = d -> holds (v_ptr it) (b :: bs) ->
  Z.of_nat (length bs) = need d -> has_flag it CborIteratorFlag_IntegerValueTooLarge = true ->
  _cbor_value_decode_int64_internal data it = Ok (be_int bs).
Proof.
  intros Hd Hb Hh Hl Hf. apply holds_byte in Hh as (E & _ & Hh). unfold _cbor_value_decode_int64_internal.
  rewrite Hf, E. cbn [orb c_assert mbind outcome_bind]. rewrite Hb.
  assert (Hbit : Z.land b 1 = Z.land d 1) by (rewrite <- Hb, <- Z.land_assoc; done). rewrite Hbit.
  destruct Hd as [-> | ->]; cbn [Z.eqb Pos.eqb orb c_assert mbind outcome_bind].
  - change (need 26) with 4 in Hl. cbn. apply (holds_get_be _ 4); [done|lia].
  - change (need 27) with 8 in Hl. cbn. apply (holds_get_be _ 8); [done|lia].
Qed.

Lemma helper_number it m n : 0 <= m < 7 -> 0 <= n < 2 ^ 64 -> it = parsed_number it m n ->
  holds (v_ptr it) (Cbor.head_bytes m n) -> _cbor_value_extract_int64_helper data it = Ok n.
Proof.
  intros Hm Hn Hit Hh. unfold _cbor_value_extract_int64_helper.
  assert (Hf : has_flag it CborIteratorFlag_IntegerValueTooLarge = negb (n <=? 65535)).
  { rewrite Hit. unfold has_flag, parsed_number, arg_flags. cbn. by destruct (m =? 1), (n <=? 65535). }
  rewrite Hf. destruct (Z.leb_spec n 65535) as [Hs|Hs]; cbn [negb].
  { rewrite Hit. cbn. unfold arg_extra. by replace (n <=? 65535) with true by lia. }
  destruct (head_form m n Hn) as (d & Hd & E & _ & Hl & Hx). rewrite E in Hh.
  destruct (low_bits m d) as [Hlow _]; [lia..|].
  rewrite (decode_int64_holds it _ d _ ltac:(lia) Hlow Hh); [|rewrite length_be_bytes; pose proof (need_cases d Hd); lia|].
  - rewrite be_int_be_bytes, Z2Nat.id, Z.mod_small; [done|lia|]. pose proof (need_cases d Hd). lia.
  - by rewrite Hf.
Qed.

(** ** Reading back *)

(** What a read in front of [i] shall give. *)
Definition reads (m : outcome (CborError + Cbor.item * CborValue)) (it : CborValue) (i : Cbor.item)
    (l : list Cbor.item) : Prop :=
  exists it', m = Ok (inr (i, it')) /\ cursor it' l /\ v_ptr it' = v_ptr it + Z.of_nat (length (Cbor.encode i)).

Lemma finish_fixed it i l : cursor it (i :: l) -> fixed_item i = true ->
  reads (finish i (cbor_value_advance_fixed data it)) it i l.
Proof.
  intros Hc Hf. destruct (advance_fixed_cursor it i l Hc Hf) as (it' & -> & H). exists it'. cbn.
  by rewrite is_no_error.
Qed.

Lemma read_fixed_cursor it i l : cursor it (i :: l) -> fixed_item i = true -> reads (read_fixed data it) it i l.
Proof.
  intros Hc Hf. pose proof (finish_fixed it i l Hc Hf) as Hfin.
  destruct (cursor_item it i l Hc) as (Hi & _ & _ & _ & Hw & _ & Hit). apply readable_wf in Hw.
  unfold read_fixed, cbor_value_is_integer, cbor_value_is_boolean, cbor_value_is_null, cbor_value_is_undefined,
    cbor_value_is_simple_type, cbor_value_is_double, cbor_value_is_half_float, cbor_value_is_float.
  destruct i as [n|n|bs|bs|ls|n|b|ls|n i|b|b]; try done; cbn [Cbor.wf Cbor.encode parsed_item] in *.
  - assert (Ht : v_type it = CborIntegerType) by (rewrite Hit; done). rewrite Ht. cbn [Z.eqb CborIntegerType].
    unfold cbor_value_get_raw_integer, cbor_value_is_negative_integer, cbor_value_is_integer. rewrite Ht.
    cbn [Z.eqb CborIntegerType c_assert mbind outcome_bind andb]. rewrite (helper_number it 0 n) by done. cbn [mbind outcome_bind].
    replace (has_flag it CborIteratorFlag_NegativeInteger) with false; [done|].
    rewrite Hit. unfold has_flag. cbn. unfold arg_flags. by destruct (n <=? 65535).
  - assert (Ht : v_type it = CborIntegerType) by (rewrite Hit; done). rewrite Ht. cbn [Z.eqb CborIntegerType].
    unfold cbor_value_get_raw_integer, cbor_value_is_negative_integer, cbor_value_is_integer. rewrite Ht.
    cbn [Z.eqb CborIntegerType c_assert mbind outcome_bind andb]. rewrite (helper_number it 1 n) by done. cbn [mbind outcome_bind].
    replace (has_flag it CborIteratorFlag_NegativeInteger) with true; [done|].
    rewrite Hit. unfold has_flag. cbn. unfold arg_flags. by destruct (n <=? 65535).
  - assert (Hcase : n = 20 \/ (n < 20 \/ 24 <= n) \/ n = 21 \/ n = 22 \/ n = 23) by lia.
    destruct Hcase as [->|[Hn|[->|[->| ->]]]];
      cbn [Z.eqb Z.ltb Z.leb Pos.eqb Z.compare Pos.compare Pos.compare_cont orb] in Hit.
    + assert (Ht : v_type it = CborBooleanType) by (by rewrite Hit). assert (Hx : v_extra it = 0) by (by rewrite Hit).
      unfold cbor_value_get_boolean, cbor_value_is_boolean. rewrite Ht, Hx. exact Hfin.
    + replace (n =? 20) with false in Hit by lia. replace ((n <? 20) || (24 <=? n)) with true in Hit by lia.
      assert (Ht : v_type it = CborSimpleType) by (by rewrite Hit). assert (Hx : v_extra it = n) by (by rewrite Hit).
      unfold cbor_value_get_simple_type, cbor_value_is_simple_type. rewrite Ht, Hx.
      cbn -[u8 finish]. replace (u8 n) with n by (symmetry; apply Z.mod_small; lia). exact Hfin.
    + assert (Ht : v_type it = CborBooleanType) by (by rewrite Hit). assert (Hx : v_extra it = 21) by (by rewrite Hit).
      unfold cbor_value_get_boolean, cbor_value_is_boolean. rewrite Ht, Hx. exact Hfin.
    + assert (Ht : v_type it = CborNullType) by (by rewrite Hit). rewrite Ht. exact Hfin.
    + assert (Ht : v_type it = CborUndefinedType) by (by rewrite Hit). rewrite Ht. exact Hfin.
  - assert (Ht : v_type it = CborDoubleType) by (by rewrite Hit).
    assert (Hl : has_flag it CborIteratorFlag_IntegerValueTooLarge = true) by (by rewrite Hit).
    unfold cbor_value_get_double, cbor_value_is_double. rewrite Ht, Hl.
    cbn [Z.eqb Pos.eqb CborDoubleType CborIntegerType CborBooleanType CborNullType CborUndefinedType CborSimpleType
         c_assert mbind outcome_bind].
    rewrite (decode_int64_holds it 251 27 _ ltac:(by right) eq_refl Hi) by done. cbn [mbind outcome_bind].
    rewrite be_int_be_bytes, Z.mod_small by done. exact Hfin.
  - assert (Ht : v_type it = CborHalfFloatType) by (by rewrite Hit). apply holds_byte in Hi as (_ & _ & Hi).
    unfold cbor_value_get_half_float, cbor_value_is_half_float. rewrite Ht.
    cbn [Z.eqb Pos.eqb CborHalfFloatType CborDoubleType CborIntegerType CborBooleanType CborNullType CborUndefinedType
         CborSimpleType c_assert mbind outcome_bind].
    rewrite (holds_get_be _ 2 _ Hi) by apply length_be_bytes. cbn [mbind outcome_bind].
    rewrite be_int_be_bytes, Z.mod_small by done. exact Hfin.
  - assert (Ht : v_type it = CborFloatType) by (by rewrite Hit).
    assert (Hl : has_flag it CborIteratorFlag_IntegerValueTooLarge = true) by (by rewrite Hit).
    unfold cbor_value_get_float, cbor_value_is_float. rewrite Ht, Hl.
    cbn [Z.eqb Pos.eqb CborFloatType CborHalfFloatType CborDoubleType CborIntegerType CborBooleanType CborNullType
         CborUndefinedType CborSimpleType c_assert mbind outcome_bind].
    rewrite (decode_int64_holds it 250 26 _ ltac:(by left) eq_refl Hi) by done. cbn [mbind outcome_bind].
    rewrite be_int_be_bytes, Z.mod_small by done. replace (u32 b) with b by (symmetry; by apply Z.mod_small). exact Hfin.
Qed.

Context (malloc : Z -> option (list Z)).
Context (Hmalloc : forall n, 0 <= n -> exists b, malloc n = Some b /\ length b = Z.to_nat n).
Context (Hsize : p_end < 2 ^ 64 - 1).

Lemma read_string_cursor make it i m bs l : cursor it (i :: l) -> string_item i m bs -> make bs = i ->
  reads (read_string data malloc make it) it i l.
Proof.
  intros Hc Hs Hm. unfold read_string.
  destruct (dup_string_cursor malloc it i m bs l Hc Hs Hmalloc Hsize) as (it' & buf & -> & Ht & H).
  cbn. rewrite is_no_error, Nat2Z.id, Ht, Hm. by exists it'.
Qed.

Lemma read_items_cursor read fuel l it : cursor it l ->
  Forall (fun i => forall it rest, cursor it (i :: rest) -> reads (read it) it i rest) l -> (length l <= fuel)%nat ->
  exists it', read_items read fuel it = Ok (inr (l, it')) /\ cursor it' [] /\
              v_ptr it' = v_ptr it + Z.of_nat (length (flat_map Cbor.encode l)).
Proof.
  intros Hc Hr. revert it fuel Hc. induction Hr as [|i l Hi _ IH]; intros it fuel Hc Hf.
  - exists it. destruct Hc as (? & Hrem & Hc). assert (E : cbor_value_at_end it = true) by (unfold cbor_value_at_end; cbn in Hrem; lia).
    destruct fuel; cbn [read_items]; rewrite E; (split; [done|]; split; [done|cbn; lia]).
  - destruct fuel as [|fuel]; cbn in Hf; [lia|].
    assert (E : cbor_value_at_end it = false).
    { destruct Hc as (_ & Hrem & _). unfold cbor_value_at_end. rewrite Hrem. apply Z.eqb_neq. cbn [length]. lia. }
    cbn [read_items]. rewrite E. destruct (Hi it l Hc) as (it1 & -> & Hc1 & Hp1). cbn [mbind outcome_bind].
    destruct (IH it1 fuel Hc1) as (it2 & -> & Hc2 & Hp2); [lia|]. exists it2. split; [done|]. split; [done|].
    cbn [flat_map]. rewrite length_app. lia.
Qed.

(** An array has no more elements than the buffer bytes. *)
Lemma cursor_short it l : cursor it l -> (length l <= length data)%nat.
Proof.
  intros ((H0 & H1 & _) & _). pose proof (length_items l) as Hl. unfold CborParser.p_end in H1. lia.
Qed.

Lemma depth_elem i l : i ∈ l -> (Cbor.depth i <= foldr (fun i n => Nat.max (Cbor.depth i) n) O l)%nat.
Proof. induction 1; cbn; lia. Qed.

Lemma read_item_cursor level i it rest : cursor it (i :: rest) -> (Cbor.depth i <= level)%nat ->
  reads (read_item data malloc level it) it i rest.
Proof.
  revert i it rest. induction level as [|level IH]; intros i it rest Hc Hd; [destruct i; cbn in Hd; lia|].
  destruct (cursor_item it i rest Hc) as (_ & _ & _ & _ & Hw & _ & Hit).
  cbn [read_item]. unfold cbor_value_is_byte_string, cbor_value_is_text_string, cbor_value_is_tag.
  destruct (fixed_item i) eqn:Hf.
  { destruct (parsed_fixed it i (readable_wf i Hw) Hf) as (Ht & Htag & _). rewrite <- Hit in Ht, Htag. unfold is_fixed_type in Ht.
    replace (v_type it =? CborByteStringType) with false by lia. replace (v_type it =? CborTextStringType) with false by lia.
    replace (v_type it =? CborTagType) with false by lia.
    replace (cbor_value_is_container it) with false by (unfold cbor_value_is_container; lia). by apply read_fixed_cursor. }
  assert (Hcont : forall m n l, container_item i m n l -> (foldr (fun i n => Nat.max (Cbor.depth i) n) O l <= level)%nat ->
    reads ('(err, recursed) ← cbor_value_enter_container data it;
           if negb (bool_decide (err = CborNoError)) then Ok (inl err)
           else r ← read_items (read_item data malloc level) (S (length data)) recursed;
                match r with
                | inl err => Ok (inl err)
                | inr (l, recursed) => finish (if cbor_value_is_array it then Cbor.CArray l else Cbor.CMap l)
                                         (cbor_value_leave_container data it recursed)
                end) it i rest).
  { intros m n l Hi Hlev. destruct (enter_cursor it i m n l rest Hc Hi) as (it1 & -> & Hc1 & Hp1). cbn [mbind outcome_bind].
    rewrite is_no_error. cbn [negb].
    destruct (read_items_cursor (read_item data malloc level) (S (length data)) l it1) as (it2 & -> & Hc2 & Hp2); try done.
    { apply Forall_forall. intros j Hj it' rest' Hc'. apply IH; [done|]. pose proof (depth_elem j l Hj). lia. }
    { pose proof (cursor_short it1 l Hc1). lia. }
    cbn [mbind outcome_bind]. assert (Hp : v_ptr it2 = v_ptr it + Z.of_nat (length (Cbor.encode i))).
    { destruct (container_readable i m n l Hi Hw) as (-> & _). rewrite length_app. lia. }
    destruct (leave_cursor it i m n l rest it2 Hc Hi Hc2 Hp) as (it3 & -> & Hc3 & Hp3). cbn. rewrite is_no_error.
    exists it3. split; [|split; [done|by rewrite Hp3]]. destruct (parsed_container it i m n l Hi Hit) as (Ht & _).
    unfold cbor_value_is_array. rewrite Ht. by destruct Hi as [(-> & -> & _)|(-> & -> & _)]. }
  destruct i as [n|n|bs|bs|l|n|b|l|n i|b|b]; try done.
  - destruct (parsed_string it _ 2 bs (or_introl (conj eq_refl eq_refl)) Hit) as (Ht & _). rewrite Ht.
    apply read_string_cursor with (m := 2) (bs := bs); [done|by left|done].
  - destruct (parsed_string it _ 3 bs (or_intror (conj eq_refl eq_refl)) Hit) as (Ht & _). rewrite Ht.
    apply read_string_cursor with (m := 3) (bs := bs); [done|by right|done].
  - assert (Hi : container_item (Cbor.CArray l) 4 (Z.of_nat (length l)) l) by (by left).
    destruct (parsed_container it _ _ _ _ Hi Hit) as (Ht & -> & _). rewrite Ht. apply (Hcont _ _ _ Hi). cbn in Hd. lia.
  - assert (Hi : container_item (Cbor.CMap l) 5 (Z.of_nat (Nat.div2 (length l))) l) by (by right).
    destruct (parsed_container it _ _ _ _ Hi Hit) as (Ht & -> & _). rewrite Ht. apply (Hcont _ _ _ Hi). cbn in Hd. lia.
  - destruct (tag_cursor it n i rest Hc) as (Ht & Hn & Hpn & Hh & it1 & E & Hc1 & Hp1). rewrite Ht.
    change (CborTagType =? CborByteStringType) with false. change (CborTagType =? CborTextStringType) with false. rewrite Z.eqb_refl.
    unfold cbor_value_get_tag, cbor_value_is_tag. rewrite Ht, Z.eqb_refl. cbn [c_assert mbind outcome_bind].
    rewrite (helper_number it 6 n) by done. cbn [mbind outcome_bind]. rewrite E. cbn [mbind outcome_bind].
    rewrite is_no_error. cbn [negb]. destruct (IH i it1 rest Hc1) as (it2 & -> & Hc2 & Hp2); [cbn in Hd; lia|].
    exists it2. split; [done|]. split; [done|]. cbn [Cbor.encode]. rewrite length_app. lia.
Qed.

(** ** Skipping

    [cbor_value_advance] goes over a tag only, not over the item behind it. *)

Fixpoint untagged (i : Cbor.item) : bool :=
  match i with
  | Cbor.CArray l | Cbor.CMap l => forallb untagged l
  | Cbor.CTag _ _ => false
  | _ => true
  end.

Lemma advance_items_cursor advance fuel l it : cursor it l ->
  Forall (fun i => forall it rest, cursor it (i :: rest) ->
    exists it', advance it = Ok (CborNoError, it') /\ cursor it' rest /\
                v_ptr it' = v_ptr it + Z.of_nat (length (Cbor.encode i))) l ->
  (length l <= fuel)%nat ->
  exists it', advance_items advance fuel it = Ok (CborNoError, it') /\ cursor it' [] /\
              v_ptr it' = v_ptr it + Z.of_nat (length (flat_map Cbor.encode l)).
Proof.
  intros Hc Hr. revert it fuel Hc. induction Hr as [|i l Hi _ IH]; intros it fuel Hc Hf.
  - exists it. destruct Hc as (? & Hrem & Hc).
    assert (E : cbor_value_at_end it = true) by (unfold cbor_value_at_end; cbn in Hrem; lia).
    destruct fuel; cbn [advance_items]; rewrite E; (split; [done|]; split; [done|cbn; lia]).
  - destruct fuel as [|fuel]; cbn in Hf; [lia|].
    assert (E : cbor_value_at_end it = false).
    { destruct Hc as (_ & Hrem & _). unfold cbor_value_at_end. rewrite Hrem. apply Z.eqb_neq. cbn [length]. lia. }
    cbn [advance_items]. rewrite E. destruct (Hi it l Hc) as (it1 & -> & Hc1 & Hp1). cbn [mbind outcome_bind].
    rewrite is_no_error. cbn [negb].
    destruct (IH it1 fuel Hc1) as (it2 & -> & Hc2 & Hp2); [lia|]. exists it2. split; [done|]. split; [done|].
    cbn [flat_map]. rewrite length_app. lia.
Qed.

Lemma advance_recursive_cursor level i it rest : cursor it (i :: rest) -> (Cbor.depth i <= level)%nat -> untagged i = true ->
  exists it', advance_recursive data level it = Ok (CborNoError, it') /\ cursor it' rest /\
              v_ptr it' = v_ptr it + Z.of_nat (length (Cbor.encode i)).
Proof.
  revert i it rest. induction level as [|level IH]; intros i it rest Hc Hd Hu; [destruct i; cbn in Hd; lia|].
  destruct (cursor_item it i rest Hc) as (Hfit & _ & _ & _ & Hw & _ & Hit).
  cbn [advance_recursive].
  destruct (fixed_item i) eqn:Hf.
  { destruct (parsed_fixed it i (readable_wf i Hw) Hf) as (Ht & _). rewrite <- Hit in Ht. rewrite Ht.
    by apply advance_internal_cursor. }
  assert (Hstr : forall m bs, string_item i m bs ->
    exists it', advance_recursive data (S level) it = Ok (CborNoError, it') /\ cursor it' rest /\
                v_ptr it' = v_ptr it + Z.of_nat (length (Cbor.encode i))).
  { intros m bs Hs. destruct Hfit as (Hp0 & Hfit & _). rewrite (encode_string_item i m bs Hs), length_app in Hfit.
    destruct (parsed_string it i m bs Hs Hit) as (Ht & _).
    destruct (copy_string_cursor it i m bs rest None SIZE_MAX Hc Hs) as (it' & E & H); [unfold SIZE_MAX; lia|].
    exists it'. split; [|done]. cbn [advance_recursive]. unfold cbor_value_is_container. rewrite E, Ht.
    by destruct Hs as [[_ ->]|[_ ->]]. }
  assert (Hcont : forall m n l, container_item i m n l -> (foldr (fun i n => Nat.max (Cbor.depth i) n) O l <= level)%nat ->
    forallb untagged l = true ->
    exists it', advance_recursive data (S level) it = Ok (CborNoError, it') /\ cursor it' rest /\
                v_ptr it' = v_ptr it + Z.of_nat (length (Cbor.encode i))).
  { intros m n l Hi Hlev Hul. cbn [advance_recursive]. destruct (parsed_container it i m n l Hi Hit) as (Ht & -> & _). rewrite Ht.
    replace (is_fixed_type (32 * m)) with false by (by destruct Hi as [(_ & -> & _)|(_ & -> & _)]). cbn [negb].
    destruct (enter_cursor it i m n l rest Hc Hi) as (it1 & -> & Hc1 & Hp1). cbn [mbind outcome_bind].
    rewrite is_no_error. cbn [negb].
    destruct (advance_items_cursor (advance_recursive data level) (S (length data)) l it1)
      as (it2 & -> & Hc2 & Hp2); try done.
    { apply Forall_forall. intros j Hj it' rest' Hc'. apply IH; [done| |].
      - pose proof (depth_elem j l Hj). lia.
      - rewrite forallb_forall in Hul. apply Hul. by apply list_elem_of_In. }
    { pose proof (cursor_short it1 l Hc1). lia. }
    cbn [mbind outcome_bind]. rewrite is_no_error. cbn [negb].
    assert (Hp : v_ptr it2 = v_ptr it + Z.of_nat (length (Cbor.encode i))).
    { destruct (container_readable i m n l Hi Hw) as (-> & _). rewrite length_app. lia. }
    destruct (leave_cursor it i m n l rest it2 Hc Hi Hc2 Hp) as (it3 & -> & Hc3 & Hp3).
    exists it3. split; [done|]. split; [done|]. by rewrite Hp3. }
  destruct i as [n|n|bs|bs|l|n|b|l|n i|b|b]; try done.
  - apply (Hstr 2 bs). by left.
  - apply (Hstr 3 bs). by right.
  - apply (Hcont 4 (Z.of_nat (length l)) l); [by left|cbn in Hd; lia|done].
  - apply (Hcont 5 (Z.of_nat (Nat.div2 (length l))) l); [by right|cbn in Hd; lia|done].
Qed.

(** The parser in front of the first item of its buffer. *)
Lemma init_cursor i rest : readable i -> data = Cbor.encode i ++ rest ->
  exists it, cbor_parser_init data = Ok (CborNoError, it) /\ cursor it [i] /\ v_ptr it = 0.
Proof.
  intros Hr Hd. assert (Hh : holds 0 (Cbor.encode i)).
  { unfold holds, slice, CborParser.p_end. rewrite Hd, length_app. repeat split; [lia..|]. cbn [Z.to_nat].
    by rewrite drop_0, take_app_length. }
  unfold cbor_parser_init. set (it0 := {| v_ptr := 0 |}).
  rewrite (preparse_item it0 i (readable_wf i Hr) Hh). destruct (parsed_place it0 i) as [Hp Hm].
  eexists. split; [done|]. split; [|done]. split; [cbn [flat_map]; rewrite app_nil_r; by rewrite Hp|].
  split; [done|]. split; [done|]. split; [by constructor|]. by rewrite parsed_same.
Qed.

End readback.

(** ** Properties *)

(** C21: the parser reads back what the encoder writes.  Writing a data item
    (integers, byte and text strings, simple values, floating point numbers of
    the three sizes, tags, arrays and maps of definite length, nested in any
    way) with the encoder's functions into a buffer that is large enough and
    reading the buffer with the parser, with a [malloc] that does not fail,
    gives the item and the position after it, whatever follows in the buffer.
    A container has fewer than 2^32 - 1 elements; items of indefinite length
    are not covered. *)
Theorem parser_reads_back (malloc : Z -> option (list Z)) (i : Cbor.item) (buf : list Z) :
  (forall n, 0 <= n -> exists b, malloc n = Some b /\ length b = Z.to_nat n) ->
  readable i -> (length (Cbor.encode i) <= length buf)%nat -> Z.of_nat (length buf) < 2 ^ 64 - 1 ->
  exists buf' e',
    encode_item i buf (cbor_encoder_init (Z.of_nat (length buf)) 0) = (CborNoError, buf', e') /\
    read_buffer buf' malloc (Cbor.depth i) = Ok (inr (i, cbor_encoder_get_buffer_size e')).
Proof.
  intros Hm Hr Hfit Hb.
  destruct (encode_item_ok i (readable_wf i Hr) _ _ _ (enc_rel_init buf)) as (buf' & e' & -> & Hrel & Hl & _).
  rewrite app_nil_l in *. unfold fit_error. destruct (Nat.leb_spec (length (Cbor.encode i)) (length buf)); [|lia].
  exists buf', e'. split; [done|]. destruct Hrel as [(_ & He & Hdat & Ht)|(Hn & _)]; [|lia].
  unfold cbor_encoder_get_buffer_size. rewrite Hdat, u64_small by lia.
  assert (Hd : buf' = Cbor.encode i ++ drop (length (Cbor.encode i)) buf') by (rewrite <- Ht at 1; by rewrite take_drop).
  destruct (init_cursor buf' i _ Hr Hd) as (it & Ei & Hc & Hp). unfold read_buffer. rewrite Ei. cbn [mbind outcome_bind].
  rewrite is_no_error. cbn [negb].
  destruct (read_item_cursor buf' malloc Hm ltac:(unfold p_end; lia) (Cbor.depth i) i it [] Hc) as (it' & -> & _ & Hp'); [lia|].
  cbn. by rewrite Hp', Hp.
Qed.

(** A [malloc] that never fails and does not clear its blocks. *)
Definition sample_malloc (n : Z) : option (list Z) := Some (replicate (Z.to_nat n) 171).

Lemma parser_reads_back_witness :
  exists buf' e', encode_item sample_map (replicate 32 0) (cbor_encoder_init 32 0) = (CborNoError, buf', e') /\
    read_buffer buf' sample_malloc (Cbor.depth sample_map) = Ok (inr (sample_map, 20)).
Proof.
  destruct (parser_reads_back sample_malloc sample_map (replicate 32 0)) as (buf' & e' & G & G');
    [intros n _; eexists; split; [reflexivity|apply length_replicate]
    |apply wf_readable; [apply sample_map_wf | by vm_compute] | by vm_compute; lia | by vm_compute |].
  exists buf', e'. split; [exact G|]. rewrite G'. vm_compute in G. by injection G as <- <-.
Defined.

(** Advancing and validating.  In front of the encoding of an item that has no
    tags and is nested at most 1024 deep, [cbor_value_advance] skips exactly the bytes
    of that item and is at the end, and [cbor_value_validate_basic] accepts
    it. *)
Theorem parser_validates (i : Cbor.item) (rest : list Z) :
  readable i -> (Cbor.depth i <= CBOR_PARSER_MAX_RECURSIONS)%nat -> untagged i = true ->
  let data := Cbor.encode i ++ rest in
  Z.of_nat (length data) < 2 ^ 64 - 1 ->
  exists it it', cbor_parser_init data = Ok (CborNoError, it) /\
    cbor_value_advance data it = Ok (CborNoError, it') /\
    cbor_value_validate_basic data it = Ok CborNoError /\
    v_ptr it' = Z.of_nat (length (Cbor.encode i)) /\ cbor_value_at_end it' = true.
Proof.
  intros Hr Hd Hu data Hs. destruct (init_cursor data i rest Hr eq_refl) as (it & Ei & Hc & Hp).
  destruct (advance_recursive_cursor data Hs CBOR_PARSER_MAX_RECURSIONS i it [] Hc Hd Hu) as (it' & Ea & Hc' & Hp').
  destruct (cursor_item data it i [] Hc) as (_ & _ & Hrem & _ & _ & _ & Hit).
  assert (Hv : (v_type it =? CborInvalidType) = false).
  { rewrite Hit. destruct (fixed_item i) eqn:Hf.
    - destruct (parsed_fixed it i (readable_wf i Hr) Hf) as (_ & _ & ?). lia.
    - by destruct i. }
  assert (Eadv : cbor_value_advance data it = Ok (CborNoError, it')).
  { unfold cbor_value_advance. rewrite Hv, Hrem. exact Ea. }
  exists it, it'. split; [done|]. split; [done|]. split; [unfold cbor_value_validate_basic; by rewrite Eadv|].
  split; [lia|]. destruct Hc' as (_ & Hrem' & _). unfold cbor_value_at_end. by rewrite Hrem'.
Qed.

Lemma parser_validates_witness :
  let data := Cbor.encode sample_item ++ [7] in
  exists it it', cbor_parser_init data = Ok (CborNoError, it) /\
    cbor_value_advance data it = Ok (CborNoError, it') /\ v_ptr it' = 19 /\ cbor_value_at_end it' = true.
Proof.
  destruct (parser_validates sample_item [7]) as (it & it' & H1 & H2 & _ & H4 & H5);
    [apply wf_readable; [apply sample_item_wf | by vm_compute] | by vm_compute; lia | by vm_compute | by vm_compute |].
  exists it, it'. split; [exact H1|]. split; [exact H2|]. split; [rewrite H4; by vm_compute|exact H5].
Defined.

(** ** The files of the collector *)

(** A client that reads a file, one item after another. *)
Fixpoint read_file (fuel : nat) (malloc : Z -> option (list Z)) (file : list Z)
    : outcome (CborError + list Cbor.item) :=
  match file with
  | [] => Ok (inr [])
  | _ =>
      match fuel with
      | O => Fail OutOfFuel
      | S fuel =>
          r ← read_buffer file malloc 3;
          match r with
          | inl err => Ok (inl err)
          | inr (i, pos) =>
              r ← read_file fuel malloc (drop (Z.to_nat pos) file);
              Ok (match r with inl err => inl err | inr l => inr (i :: l) end)
          end
      end
  end.

Lemma read_file_items fuel malloc l :
  (forall n, 0 <= n -> exists b, malloc n = Some b /\ length b = Z.to_nat n) ->
  Forall (fun i => readable i /\ (Cbor.depth i <= 3)%nat) l ->
  Z.of_nat (length (flat_map Cbor.encode l)) < 2 ^ 64 - 1 -> (length l <= fuel)%nat ->
  read_file fuel malloc (flat_map Cbor.encode l) = Ok (inr l).
Proof.
  intros Hm Hl. revert fuel. induction Hl as [|i l [Hr Hd] _ IH]; intros fuel Hs Hf; [by destruct fuel|].
  destruct fuel as [|fuel]; cbn [length] in Hf; [lia|]. cbn [flat_map] in *.
  set (data := Cbor.encode i ++ flat_map Cbor.encode l) in *.
  assert (Hne : data <> []) by (pose proof (length_encode_pos i); subst data; destruct (Cbor.encode i); cbn in *; [lia|done]).
  cbn [read_file]. destruct (init_cursor data i _ Hr eq_refl) as (it & Ei & Hc & Hp).
  destruct (read_item_cursor data malloc Hm Hs 3 i it [] Hc Hd) as (it' & Er & _ & Hp').
  assert (Eb : read_buffer data malloc 3 = Ok (inr (i, Z.of_nat (length (Cbor.encode i))))).
  { unfold read_buffer. rewrite Ei. cbn [mbind outcome_bind]. rewrite is_no_error. cbn [negb]. rewrite Er. cbn.
    by rewrite Hp', Hp. }
  destruct data as [|b0 data0] eqn:E; [done|]. rewrite Eb. cbn [mbind outcome_bind].
  rewrite Nat2Z.id, <- E. unfold data. rewrite drop_app_length, IH; [done| |lia].
  rewrite <- E in Hs. unfold data in Hs. rewrite length_app in Hs. lia.
Qed.

Section files.
Context {K : Libknot} {L : Libc}.

(** C19: the CBOR files of the collector can be read with the parser of the
    library that wrote them: the header and the records of any packets that
    fit the buffer, written one after another, are read back item for item. *)
Theorem cbor_file_readable (malloc : Z -> option (list Z)) (outbuf : list Z) (fields : Z)
    (recs : list (dns_packet * option dns_packet)) (itss : list (list Cbor.item)) :
  (forall n, 0 <= n -> exists b, malloc n = Some b /\ length b = Z.to_nat n) ->
  length outbuf = OUTBUF_SIZE -> 0 <= fields < 2 ^ 23 ->
  Forall2 (fun pq its => ip_packet pq.1 /\ row_items fields pq.1 pq.2 = Ok its /\
                         (length (Cbor.encode (Cbor.CArray its)) <= OUTBUF_SIZE)%nat) recs itss ->
  Z.of_nat (length recs) < 2 ^ 50 ->
  exists header rows,
    write_packet outbuf fields None = Ok header /\
    mapO (fun pq => write_packet outbuf fields (Some pq)) recs = Ok rows /\
    read_file (S (length recs)) malloc (header ++ concat rows) =
      Ok (inr (map Cbor.CArray (header_items fields :: itss))).
Proof.
  intros Hm Hb Hf Hrecs Hn. pose proof OUTBUF_SIZE_Z as Hz.
  exists (Cbor.encode (Cbor.CArray (header_items fields))), (map (fun its => Cbor.encode (Cbor.CArray its)) itss).
  split; [by apply cbor_header_row|]. split.
  { clear Hn. induction Hrecs as [|[p q] its recs itss (Hip & Hr & Hfit) _ IH]; [done|]. cbn [mapO map].
    rewrite (cbor_packet_row outbuf fields p q its Hb Hf Hip Hr), (proj2 (Nat.leb_le _ _) Hfit).
    cbn [mbind outcome_bind]. by rewrite IH. }
  assert (Hall : Forall (fun its => Forall sane its /\ (length (Cbor.encode (Cbor.CArray its)) <= OUTBUF_SIZE)%nat)
                   (header_items fields :: itss)).
  { constructor; [split; [apply header_sane | apply header_fits]|].
    clear Hn. induction Hrecs as [|pq its recs itss (_ & Hr & Hfit) _ IH]; constructor; [|done].
    split; [by eapply row_items_sane | done]. }
  replace (Cbor.encode (Cbor.CArray (header_items fields)) ++ concat (map (fun its => Cbor.encode (Cbor.CArray its)) itss))
    with (flat_map Cbor.encode (map Cbor.CArray (header_items fields :: itss)))
    by (cbn [map flat_map]; f_equal; rewrite flat_map_concat_map, map_map; done).
  apply Forall2_length in Hrecs. apply read_file_items; [done| | |].
  - apply Forall_map. eapply Forall_impl; [exact Hall|]. intros its [Hs Hfit]. split; [|by apply row_depth].
    apply wf_readable; [by apply row_wf|]. unfold UINT32_MAX. lia.
  - rewrite <- (length_map Cbor.CArray) in Hrecs.
    assert (Hlen : (length (flat_map Cbor.encode (map Cbor.CArray (header_items fields :: itss))) <=
                    OUTBUF_SIZE * length (header_items fields :: itss))%nat).
    { clear -Hall. induction Hall as [|its l [_ Hfit] _ IH]; cbn [map flat_map length]; [lia|]. rewrite length_app. lia. }
    rewrite length_map in Hrecs. cbn [length] in Hlen. nia.
  - rewrite length_map. cbn [length]. lia.
Qed.

End files.

#[local] Existing Instances Sample.sample_knot sample_libc.

Lemma cbor_file_readable_witness :
  exists header rows,
    write_packet garbage ALL_FIELDS None = Ok header /\
    mapO (fun pq => write_packet garbage ALL_FIELDS (Some pq)) [(packet_of sample_query, Some (packet_of sample_answer))] =
      Ok rows /\
    read_file 2 sample_malloc (header ++ concat rows) =
      Ok (inr [Cbor.CArray (header_items ALL_FIELDS); Cbor.CArray sample_items]).
Proof.
  apply (cbor_file_readable sample_malloc garbage ALL_FIELDS [(packet_of sample_query, Some (packet_of sample_answer))]
           [sample_items]).
  - intros n _. eexists. split; [reflexivity|apply length_replicate].
  - apply length_replicate.
  - by vm_compute.
  - constructor; [|constructor]. split; [left; by vm_compute|]. split; [by vm_compute|].
    pose proof OUTBUF_SIZE_Z as Hz.
    assert (Hl : Z.of_nat (length (Cbor.encode (Cbor.CArray sample_items))) <= 4096) by (vm_compute; discriminate). lia.
  - by vm_compute.
Defined.
