(* ===== verification/OutputCsv.v ===== *)
(** * CSV output ([src/output_csv.h], [src/output_csv.c])

    One line of the output is built in a buffer of 2048 bytes on the stack,
    by [snprintf] at a write position that advances by the length of the full
    text, whether it fitted or not.  The columns follow the source; [cells]
    says which texts a line consists of. *)

From stdpp Require Import base numbers strings gmap list.
From S2P Require Import Prelude Doubles Common Libs Packet PacketFrame Config TimeFmt Output.

Section csv.
Context `{K : Libknot} `{L : Libc}.

Abbreviation mem := (gmap loc dns_packet).

(** ** The line buffer *)

Definition OUTBUF_SIZE : Z := 2048.

(** The locals [outbuf], [p] (as an offset) and [first] of [write_packet]. *)
Record line : Set := { l_buf : list Z; l_p : Z; l_first : bool }.

Definition line_op : Set := line -> outcome line.

Definition poke (buf : list Z) (off : Z) (bs : list Z) : list Z :=
  take (Z.to_nat off) buf ++ bs ++ drop (Z.to_nat off + length bs) buf.

(** [WRITE] of a text: [snprintf] stores what fits with a NUL and returns the
    full length.  Past the end of the buffer the size argument is negative,
    that is, huge. *)
Definition WRITE (bs : list Z) : line_op := fun l =>
  let size := OUTBUF_SIZE - l_p l in
  if size <? 0 then Fail UndefinedBehaviour
  else
    let buf := if size =? 0 then l_buf l else poke (l_buf l) (l_p l) (take (Z.to_nat (size - 1)) bs ++ [0]) in
    Ok {| l_buf := buf; l_p := l_p l + Z.of_nat (length bs); l_first := l_first l |}.

Definition WRITENULL : line_op := WRITE [BACKSLASH; 78].

(** [*(p++) = c]. *)
Definition put_char (c : Z) : line_op := fun l =>
  if OUTBUF_SIZE <=? l_p l then Fail UndefinedBehaviour
  else Ok {| l_buf := poke (l_buf l) (l_p l) [c]; l_p := l_p l + 1; l_first := l_first l |}.

(** [p += dns_snescape(p, outbuf + sizeof(outbuf) - p, ...)]. *)
Definition put_escaped (separator : Z) (data : list Z) : line_op := fun l =>
  let size := OUTBUF_SIZE - l_p l in
  if size <? 0 then Fail UndefinedBehaviour
  else
    let '(s, n) := dns_snescape size separator data in
    let buf := if size =? 0 then l_buf l else poke (l_buf l) (l_p l) (s ++ [0]) in
    Ok {| l_buf := buf; l_p := l_p l + n; l_first := l_first l |}.

Definition skip : line_op := fun l => Ok l.

(** [if (o) body]. *)
Definition when {A} (o : option A) (body : A -> line_op) : line_op :=
  match o with None => skip | Some a => body a end.

(** ** The columns *)

Definition IPPROTO_UDP : Z := 17.

Definition write_addr (af : Z) (addr : list Z) : line_op := fun l =>
  s ← deref (inet_ntop af addr); WRITE s l.

Definition WRITEFLAG (p : option dns_packet) (get : list Z -> Z) : line_op :=
  when p (fun r => WRITE (print_int (if get (kp_wire (knot_packet r)) =? 0 then 0 else 1))).

Definition opt_rr_of (p : option dns_packet) : option knot_rrset_t :=
  match p with None => None | Some r => kp_opt_rr (knot_packet r) end.

(** The length of an option, a [uint16_t]. *)
Definition opt_length (opt : list Z) : Z := u16 (knot_edns_opt_get_length opt).

Definition comma (separator : Z) : list Z := if separator =? 44 then [BACKSLASH; 44] else [44].

(** The loop of [WRITE_UNDERSTOOD_LIST]: [(opt + 4 + i)[i]]. *)
Fixpoint understood_loop (separator : Z) (opt : list Z) (i n : nat) (l : line) : outcome line :=
  match n with
  | O => Ok l
  | S n =>
      l ← (if (0 <? i)%nat then WRITE (comma separator) l else Ok l);
      v ← deref (opt !! (4 + i + i)%nat);
      l ← WRITE (print_int v) l;
      understood_loop separator opt (S i) n l
  end.

(** [WRITE_UNDERSTOOD_LIST]. *)
Definition WRITE_UNDERSTOOD_LIST (separator code : Z) (rr : option knot_rrset_t) : line_op :=
  match rr with
  | None => WRITENULL
  | Some rr =>
      match knot_edns_get_option rr code with
      | None => WRITENULL
      | Some opt => understood_loop separator opt 0 (Z.to_nat (opt_length opt))
      end
  end.

(** The NSID option, escaped. *)
Definition write_nsid (separator : Z) (rr : option knot_rrset_t) : line_op :=
  match rr with
  | None => WRITENULL
  | Some rr =>
      match knot_edns_get_option rr 3 with
      | None => WRITENULL
      | Some opt =>
          let len := Z.to_nat (opt_length opt) in
          if (length opt <? 4 + len)%nat then fun _ => Fail UndefinedBehaviour
          else put_escaped separator (slice 4 len opt)
      end
  end.

(** [edns_client_subnet]: empty when the option is there. *)
Definition write_client_subnet (req resp : option knot_rrset_t) : line_op :=
  let opt := resp ≫= fun rr => knot_edns_get_option rr 8 in
  let opt := match req, opt with Some rr, None => knot_edns_get_option rr 8 | _, _ => opt end in
  match opt with Some _ => skip | None => WRITENULL end.

Record column : Type := col {
  c_field : dns_output_field;
  c_name : string;
  c_body : Z -> dns_packet -> option dns_packet -> line_op;
}.

(** The columns before the DNS header. *)
Definition net_columns : list column := [
  col dns_field_time "time" (fun _ p _ =>
    WRITE (print_int (Z.quot (ts p) 1000000) ++ [46] ++ print_int06 (Z.rem (ts p) 1000000)));
  col dns_field_delay_us "delay_us" (fun _ p q => when q (fun r l =>
    d ← i64 (ts r - ts p); WRITE (print_int d) l));
  col dns_field_req_dns_len "req_dns_len" (fun _ p _ =>
    when (DNS_PACKET_REQUEST p) (fun r => WRITE (print_int (s64 (dns_data_size_orig r)))));
  col dns_field_resp_dns_len "resp_dns_len" (fun _ p q =>
    when (DNS_PACKET_RESPONSE p q) (fun r => WRITE (print_int (s64 (dns_data_size_orig r)))));
  col dns_field_req_net_len "req_net_len" (fun _ p _ =>
    when (DNS_PACKET_REQUEST p) (fun r => WRITE (print_int (s64 (net_size r)))));
  col dns_field_resp_net_len "resp_net_len" (fun _ p q =>
    when (DNS_PACKET_RESPONSE p q) (fun r => WRITE (print_int (s64 (net_size r)))));
  col dns_field_client_addr "client_addr" (fun _ p _ => write_addr (DNS_PACKET_AF p) (DNS_PACKET_CLIENT_ADDR p));
  col dns_field_client_port "client_port" (fun _ p _ => WRITE (print_int (DNS_PACKET_CLIENT_PORT p)));
  col dns_field_server_addr "server_addr" (fun _ p _ => write_addr (DNS_PACKET_AF p) (DNS_PACKET_SERVER_ADDR p));
  col dns_field_server_port "server_port" (fun _ p _ => WRITE (print_int (DNS_PACKET_SERVER_PORT p)));
  col dns_field_net_proto "net_proto" (fun _ p _ => WRITE (print_int (net_protocol p)));
  col dns_field_net_ipv "net_ipv" (fun _ p _ =>
    if DNS_SOCKADDR_AF (src_addr p) =? AF_INET then WRITE [52]
    else if DNS_SOCKADDR_AF (src_addr p) =? AF_INET6 then WRITE [54] else skip);
  col dns_field_net_ttl "net_ttl" (fun _ p _ => if net_ttl p >? 0 then WRITE (print_int (net_ttl p)) else skip);
  col dns_field_req_udp_sum "req_udp_sum" (fun _ p _ =>
    when (if net_protocol p =? IPPROTO_UDP then DNS_PACKET_REQUEST p else None)
      (fun r => WRITE (print_int (net_udp_sum r))))].

(** The DNS header, the question and the record counts. *)
Definition dns_columns : list column := [
  col dns_field_id "id" (fun _ p _ => WRITE (print_int (knot_wire_get_id (kp_wire (knot_packet p)))));
  col dns_field_qtype "qtype" (fun _ p _ => WRITE (print_int (knot_pkt_qtype (knot_packet p))));
  col dns_field_qclass "qclass" (fun _ p _ => WRITE (print_int (knot_pkt_qclass (knot_packet p))));
  col dns_field_opcode "opcode" (fun _ p _ => WRITE (print_int (knot_wire_get_opcode (kp_wire (knot_packet p)))));
  col dns_field_rcode "rcode" (fun _ p q => when (DNS_PACKET_RESPONSE p q) (fun r =>
    WRITE (print_int (knot_wire_get_rcode (kp_wire (knot_packet r))))));
  col dns_field_flags "resp_aa" (fun _ p q => WRITEFLAG (DNS_PACKET_RESPONSE p q) knot_wire_get_aa);
  col dns_field_flags "resp_tc" (fun _ p q => WRITEFLAG (DNS_PACKET_RESPONSE p q) knot_wire_get_tc);
  col dns_field_flags "req_rd" (fun _ p _ => WRITEFLAG (DNS_PACKET_REQUEST p) knot_wire_get_rd);
  col dns_field_flags "resp_ra" (fun _ p q => WRITEFLAG (DNS_PACKET_RESPONSE p q) knot_wire_get_ra);
  col dns_field_flags "req_z" (fun _ p _ => WRITEFLAG (DNS_PACKET_REQUEST p) knot_wire_get_z);
  col dns_field_flags "resp_ad" (fun _ p q => WRITEFLAG (DNS_PACKET_RESPONSE p q) knot_wire_get_ad);
  col dns_field_flags "req_cd" (fun _ p _ => WRITEFLAG (DNS_PACKET_REQUEST p) knot_wire_get_cd);
  col dns_field_qname "qname" (fun _ p _ =>
    match knot_dname_to_str (knot_pkt_qname (knot_packet p)) 1024 with
    | Some res => WRITE res
    | None => WRITENULL
    end);
  col dns_field_rr_counts "resp_ancount" (fun _ p q => when (DNS_PACKET_RESPONSE p q) (fun r =>
    WRITE (print_int (knot_wire_get_ancount (dns_data r)))));
  col dns_field_rr_counts "resp_arcount" (fun _ p q => when (DNS_PACKET_RESPONSE p q) (fun r =>
    WRITE (print_int (knot_wire_get_arcount (dns_data r)))));
  col dns_field_rr_counts "resp_nscount" (fun _ p q => when (DNS_PACKET_RESPONSE p q) (fun r =>
    WRITE (print_int (knot_wire_get_nscount (dns_data r)))))].

(** The EDNS columns. *)
Definition edns_columns : list column := [
  col dns_field_edns "req_edns_ver" (fun _ p _ => when (opt_rr_of (DNS_PACKET_REQUEST p)) (fun rr =>
    WRITE (print_int (knot_edns_get_version rr))));
  col dns_field_edns "req_edns_udp" (fun _ p _ => when (opt_rr_of (DNS_PACKET_REQUEST p)) (fun rr =>
    WRITE (print_int (knot_edns_get_payload rr))));
  col dns_field_edns "req_edns_do" (fun _ p _ => when (opt_rr_of (DNS_PACKET_REQUEST p)) (fun rr =>
    WRITE (print_int (if knot_edns_do rr then 1 else 0))));
  col dns_field_edns "resp_edns_rcode" (fun _ p q => when (opt_rr_of (DNS_PACKET_RESPONSE p q)) (fun rr =>
    WRITE (print_int (knot_edns_get_ext_rcode rr))));
  col dns_field_edns "req_edns_ping" (fun _ _ _ => skip);
  col dns_field_edns "req_edns_dau" (fun sep p _ => WRITE_UNDERSTOOD_LIST sep 5 (opt_rr_of (DNS_PACKET_REQUEST p)));
  col dns_field_edns "req_edns_dhu" (fun sep p _ => WRITE_UNDERSTOOD_LIST sep 6 (opt_rr_of (DNS_PACKET_REQUEST p)));
  col dns_field_edns "req_edns_n3u" (fun sep p _ => WRITE_UNDERSTOOD_LIST sep 7 (opt_rr_of (DNS_PACKET_REQUEST p)));
  col dns_field_edns "resp_edns_nsid" (fun sep p q => write_nsid sep (opt_rr_of (DNS_PACKET_RESPONSE p q)));
  col dns_field_edns "edns_client_subnet" (fun _ p q =>
    write_client_subnet (opt_rr_of (DNS_PACKET_REQUEST p)) (opt_rr_of (DNS_PACKET_RESPONSE p q)));
  col dns_field_edns "edns_other" (fun _ p q =>
    match opt_rr_of (DNS_PACKET_REQUEST p), opt_rr_of (DNS_PACKET_RESPONSE p q) with
    | None, None => WRITENULL
    | _, _ => skip
    end)].

Definition columns : list column := net_columns ++ dns_columns ++ edns_columns.

(** [COND]: the separator before every column but the first, then the name
    in the header or the value. *)
Definition write_column (fields separator : Z) (pkt : option (dns_packet * option dns_packet))
    (l : line) (c : column) : outcome line :=
  if field_selected fields (c_field c) then
    l ← (if l_first l then Ok {| l_buf := l_buf l; l_p := l_p l; l_first := false |}
         else put_char (u8 separator) l);
    match pkt with
    | None => WRITE (bytes_of_string (c_name c)) l
    | Some (p, q) => c_body c separator p q l
    end
  else Ok l.

(** [write_packet]: the bytes written to the file. *)
Definition write_packet (outbuf : list Z) (fields separator : Z) (pkt : option (dns_packet * option dns_packet))
    : outcome (list Z) :=
  l ← foldM (write_column fields separator pkt) {| l_buf := outbuf; l_p := 0; l_first := true |} columns;
  let l := if l_p l >? OUTBUF_SIZE - 2
           then {| l_buf := l_buf l; l_p := OUTBUF_SIZE - 2; l_first := l_first l |} else l in
  l ← put_char NEWLINE l;
  l ← put_char 0 l;
  Ok (take (Z.to_nat (l_p l - 1)) (l_buf l)).

(** ** The hooks *)

(** [struct dns_output_csv] without its base; [sys_header n] is whether the
    header file can be opened at tick [n]. *)
Record dns_output_csv : Set := {
  separator : Z;
  inline_header : bool;
  external_header_path_fmt : list Z;
  oc_fields : Z;
}.

Definition stack_buffer : list Z := replicate (Z.to_nat OUTBUF_SIZE) 0.

(** [dns_output_csv_start_file]. *)
Definition dns_output_csv_start_file (sys_header : nat -> bool) (c : dns_output_csv) (o : dns_output) (time : Z)
    : outcome dns_output :=
  _ ← c_assert (bool_decide (is_Some (o_file o)));
  o ← (if inline_header c then b ← write_packet stack_buffer (oc_fields c) (separator c) None; Ok (emit o b) else Ok o);
  match external_header_path_fmt c with
  | [] => Ok o
  | fmt =>
      s ← dns_us_time_strftime (Z.of_nat (length fmt) + DNS_OUTPUT_FILENAME_EXTRA) fmt time;
      match s with
      | None => Fail (Died "Expanded filename")
      | Some path =>
          if sys_header (o_ticks o) then
            b ← write_packet stack_buffer (oc_fields c) (separator c) None; Ok (add_extra o path b)
          else Fail (Died "Unable to open output header file")
      end
  end.

(** [dns_output_csv_write_packet]. *)
Definition dns_output_csv_write_packet (c : dns_output_csv) (m : mem) (o : dns_output) (p : dns_packet)
    : outcome dns_output :=
  q ← attached m p;
  b ← write_packet stack_buffer (oc_fields c) (separator c) (Some (p, q));
  Ok (account_packet (emit o b) p q).

(** [dns_output_csv_create]; the separator is a [char] stored in an [int]. *)
Definition dns_output_csv_create (conf : dns_config) : dns_output * dns_output_csv :=
  (dns_output_init (Some (output_path_fmt conf)) (Some (output_pipe_cmd conf)) (output_period_sec conf),
   {| separator := to_char (default 0 (head (csv_separator conf)));
      inline_header := negb (csv_inline_header conf =? 0);
      external_header_path_fmt := csv_external_header_path_fmt conf;
      oc_fields := csv_fields conf |}).

(** [dns_output_csv_finalize]. *)
Definition dns_output_csv_finalize (o : dns_output) (running : bool) : outcome unit :=
  dns_output_finalize o running.

(** ** What a line consists of *)

(** The text of one column for a packet and its attached response. *)
Definition cell : Type := Z -> dns_packet -> option dns_packet -> outcome (list Z).

Definition NULL_TEXT : list Z := [BACKSLASH; 78].

Definition opt_text {A} (o : option A) (f : A -> list Z) : outcome (list Z) :=
  Ok (match o with None => [] | Some a => f a end).

Definition flag_text (p : option dns_packet) (get : list Z -> Z) : outcome (list Z) :=
  opt_text p (fun r => print_int (if get (kp_wire (knot_packet r)) =? 0 then 0 else 1)).

Fixpoint join (sep : list Z) (l : list (list Z)) : list Z :=
  match l with
  | [] => []
  | [c] => c
  | c :: l => c ++ sep ++ join sep l
  end.

Definition list_text (sep code : Z) (rr : option knot_rrset_t) : outcome (list Z) :=
  match rr ≫= fun rr => knot_edns_get_option rr code with
  | None => Ok NULL_TEXT
  | Some opt =>
      vs ← mapO (fun i => deref (opt !! (4 + i + i)%nat)) (seq 0 (Z.to_nat (opt_length opt)));
      Ok (join (comma sep) (map print_int vs))
  end.

Definition nsid_text (sep : Z) (rr : option knot_rrset_t) : outcome (list Z) :=
  match rr ≫= fun rr => knot_edns_get_option rr 3 with
  | None => Ok NULL_TEXT
  | Some opt =>
      let len := Z.to_nat (opt_length opt) in
      if (length opt <? 4 + len)%nat then Fail UndefinedBehaviour
      else Ok (flat_map (snescape_char sep) (slice 4 len opt))
  end.

Definition net_cells : list cell := [
  (fun _ p _ => Ok (print_int (Z.quot (ts p) 1000000) ++ [46] ++ print_int06 (Z.rem (ts p) 1000000)));
  (fun _ p q => match q with None => Ok [] | Some r => d ← i64 (ts r - ts p); Ok (print_int d) end);
  (fun _ p _ => opt_text (DNS_PACKET_REQUEST p) (fun r => print_int (s64 (dns_data_size_orig r))));
  (fun _ p q => opt_text (DNS_PACKET_RESPONSE p q) (fun r => print_int (s64 (dns_data_size_orig r))));
  (fun _ p _ => opt_text (DNS_PACKET_REQUEST p) (fun r => print_int (s64 (net_size r))));
  (fun _ p q => opt_text (DNS_PACKET_RESPONSE p q) (fun r => print_int (s64 (net_size r))));
  (fun _ p _ => deref (inet_ntop (DNS_PACKET_AF p) (DNS_PACKET_CLIENT_ADDR p)));
  (fun _ p _ => Ok (print_int (DNS_PACKET_CLIENT_PORT p)));
  (fun _ p _ => deref (inet_ntop (DNS_PACKET_AF p) (DNS_PACKET_SERVER_ADDR p)));
  (fun _ p _ => Ok (print_int (DNS_PACKET_SERVER_PORT p)));
  (fun _ p _ => Ok (print_int (net_protocol p)));
  (fun _ p _ => Ok (if DNS_PACKET_AF p =? AF_INET then [52] else if DNS_PACKET_AF p =? AF_INET6 then [54] else []));
  (fun _ p _ => Ok (if net_ttl p >? 0 then print_int (net_ttl p) else []));
  (fun _ p _ => opt_text (if net_protocol p =? IPPROTO_UDP then DNS_PACKET_REQUEST p else None)
                  (fun r => print_int (net_udp_sum r)))].

Definition dns_cells : list cell := [
  (fun _ p _ => Ok (print_int (knot_wire_get_id (kp_wire (knot_packet p)))));
  (fun _ p _ => Ok (print_int (knot_pkt_qtype (knot_packet p))));
  (fun _ p _ => Ok (print_int (knot_pkt_qclass (knot_packet p))));
  (fun _ p _ => Ok (print_int (knot_wire_get_opcode (kp_wire (knot_packet p)))));
  (fun _ p q => opt_text (DNS_PACKET_RESPONSE p q) (fun r => print_int (knot_wire_get_rcode (kp_wire (knot_packet r)))));
  (fun _ p q => flag_text (DNS_PACKET_RESPONSE p q) knot_wire_get_aa);
  (fun _ p q => flag_text (DNS_PACKET_RESPONSE p q) knot_wire_get_tc);
  (fun _ p _ => flag_text (DNS_PACKET_REQUEST p) knot_wire_get_rd);
  (fun _ p q => flag_text (DNS_PACKET_RESPONSE p q) knot_wire_get_ra);
  (fun _ p _ => flag_text (DNS_PACKET_REQUEST p) knot_wire_get_z);
  (fun _ p q => flag_text (DNS_PACKET_RESPONSE p q) knot_wire_get_ad);
  (fun _ p _ => flag_text (DNS_PACKET_REQUEST p) knot_wire_get_cd);
  (fun _ p _ => Ok (default NULL_TEXT (knot_dname_to_str (knot_pkt_qname (knot_packet p)) 1024)));
  (fun _ p q => opt_text (DNS_PACKET_RESPONSE p q) (fun r => print_int (knot_wire_get_ancount (dns_data r))));
  (fun _ p q => opt_text (DNS_PACKET_RESPONSE p q) (fun r => print_int (knot_wire_get_arcount (dns_data r))));
  (fun _ p q => opt_text (DNS_PACKET_RESPONSE p q) (fun r => print_int (knot_wire_get_nscount (dns_data r))))].

Definition edns_cells : list cell := [
  (fun _ p _ => opt_text (opt_rr_of (DNS_PACKET_REQUEST p)) (fun rr => print_int (knot_edns_get_version rr)));
  (fun _ p _ => opt_text (opt_rr_of (DNS_PACKET_REQUEST p)) (fun rr => print_int (knot_edns_get_payload rr)));
  (fun _ p _ => opt_text (opt_rr_of (DNS_PACKET_REQUEST p)) (fun rr => print_int (if knot_edns_do rr then 1 else 0)));
  (fun _ p q => opt_text (opt_rr_of (DNS_PACKET_RESPONSE p q)) (fun rr => print_int (knot_edns_get_ext_rcode rr)));
  (fun _ _ _ => Ok []);
  (fun sep p _ => list_text sep 5 (opt_rr_of (DNS_PACKET_REQUEST p)));
  (fun sep p _ => list_text sep 6 (opt_rr_of (DNS_PACKET_REQUEST p)));
  (fun sep p _ => list_text sep 7 (opt_rr_of (DNS_PACKET_REQUEST p)));
  (fun sep p q => nsid_text sep (opt_rr_of (DNS_PACKET_RESPONSE p q)));
  (fun _ p q =>
     let has rr := is_Some (rr ≫= fun rr => knot_edns_get_option rr 8) in
     Ok (if bool_decide (has (opt_rr_of (DNS_PACKET_RESPONSE p q)) \/ has (opt_rr_of (DNS_PACKET_REQUEST p)))
         then [] else NULL_TEXT));
  (fun _ p q =>
     Ok (if bool_decide (is_Some (opt_rr_of (DNS_PACKET_REQUEST p)) \/ is_Some (opt_rr_of (DNS_PACKET_RESPONSE p q)))
         then [] else NULL_TEXT))].

Definition all_cells : list cell := net_cells ++ dns_cells ++ edns_cells.

(** The selected columns' texts, and the selected names. *)
Fixpoint select_cells (fields sep : Z) (p : dns_packet) (q : option dns_packet) (cols : list column) (cls : list cell)
    : outcome (list (list Z)) :=
  match cols, cls with
  | c :: cols, cl :: cls =>
      if field_selected fields (c_field c)
      then t ← cl sep p q; ts ← select_cells fields sep p q cols cls; Ok (t :: ts)
      else select_cells fields sep p q cols cls
  | _, _ => Ok []
  end.

Definition row_cells (fields sep : Z) (p : dns_packet) (q : option dns_packet) : outcome (list (list Z)) :=
  select_cells fields sep p q columns all_cells.

Definition header_cells (fields : Z) : list (list Z) :=
  map (fun c => bytes_of_string (c_name c)) (List.filter (fun c => field_selected fields (c_field c)) columns).

(** ** Writing to the line *)

Definition line_ok (l : line) : Prop := Z.of_nat (length (l_buf l)) = OUTBUF_SIZE /\ 0 <= l_p l <= OUTBUF_SIZE.

Definition content (l : line) : list Z := take (Z.to_nat (l_p l)) (l_buf l).

(** [op] appends [t] to a line with room for it and a NUL. *)
Definition prints (op : line_op) (t : list Z) : Prop :=
  forall l, line_ok l -> l_p l + Z.of_nat (length t) < OUTBUF_SIZE ->
  exists l', op l = Ok l' /\ line_ok l' /\ content l' = content l ++ t /\ l_first l' = l_first l /\
    l_p l' = l_p l + Z.of_nat (length t).

Lemma poke_ok buf off bs rest : 0 <= off -> (Z.to_nat off + length (bs ++ rest) <= length buf)%nat ->
  length (poke buf off (bs ++ rest)) = length buf /\
  take (Z.to_nat off + length bs) (poke buf off (bs ++ rest)) = take (Z.to_nat off) buf ++ bs.
Proof.
  intros Ho Hl. unfold poke. rewrite length_app in *. split.
  - rewrite !length_app, length_take, length_drop. lia.
  - rewrite <- !app_assoc, app_assoc. rewrite take_app_le by (rewrite length_app, length_take; lia).
    rewrite take_ge by (rewrite length_app, length_take; lia). done.
Qed.

(** Storing [t ++ rest] at the write position appends [t]. *)
Lemma poke_prints l t rest : line_ok l -> l_p l + Z.of_nat (length (t ++ rest)) <= OUTBUF_SIZE ->
  let l' := {| l_buf := poke (l_buf l) (l_p l) (t ++ rest); l_p := l_p l + Z.of_nat (length t); l_first := l_first l |} in
  line_ok l' /\ content l' = content l ++ t.
Proof.
  intros [Hb Hp] Ht. destruct (poke_ok (l_buf l) (l_p l) t rest) as [H1 H2]; [lia | lia |].
  rewrite length_app in Ht. unfold line_ok, content. cbn. rewrite H1, Z2Nat.inj_add, Nat2Z.id, H2 by lia. split; [lia | done].
Qed.

Lemma prints_WRITE t : prints (WRITE t) t.
Proof.
  intros l Hok Ht. unfold WRITE. cbn zeta. destruct (Z.ltb_spec (OUTBUF_SIZE - l_p l) 0); [lia|].
  destruct (Z.eqb_spec (OUTBUF_SIZE - l_p l) 0); [lia|]. rewrite take_ge by lia.
  destruct (poke_prints l t [0] Hok) as [H1 H2]; [rewrite length_app; cbn; lia|]. eauto 10.
Qed.

Lemma prints_skip : prints skip [].
Proof. intros l Hok _. exists l. cbn. rewrite app_nil_r, Z.add_0_r. done. Qed.

Lemma prints_seq f g t1 t2 : prints f t1 -> prints g t2 -> prints (fun l => f l ≫= g) (t1 ++ t2).
Proof.
  intros Hf Hg l Hok Ht. rewrite length_app in Ht.
  destruct (Hf l Hok) as (l1 & -> & Hok1 & Hc1 & Hfi1 & Hp1); [lia|]. cbn.
  destruct (Hg l1 Hok1) as (l2 & -> & Hok2 & Hc2 & Hfi2 & Hp2); [lia|].
  exists l2. rewrite Hc2, Hc1, length_app, app_assoc. do 3 (split; [done|]). split; [congruence | lia].
Qed.

Lemma prints_escaped sep data : prints (put_escaped sep data) (flat_map (snescape_char sep) data).
Proof.
  intros l Hok Ht. unfold put_escaped. cbn zeta. destruct (Z.ltb_spec (OUTBUF_SIZE - l_p l) 0); [lia|].
  unfold dns_snescape. destruct (Z.leb_spec (OUTBUF_SIZE - l_p l) 0); [lia|].
  destruct (Z.eqb_spec (OUTBUF_SIZE - l_p l) 0); [lia|]. rewrite snescape_loop_all by lia.
  destruct (poke_prints l (flat_map (snescape_char sep) data) [0] Hok) as [H1 H2]; [rewrite length_app; cbn; lia|]. eauto 10.
Qed.

(** ** Columns print their cells *)

Lemma join_cons sep c l : join sep (c :: l) = c ++ flat_map (fun d => sep ++ d) l.
Proof.
  revert c. induction l as [|d l IH]; intros c; [cbn; by rewrite app_nil_r|].
  change (join sep (c :: d :: l)) with (c ++ sep ++ join sep (d :: l)). rewrite IH. cbn. by rewrite <- app_assoc.
Qed.

Lemma prints_understood_rest sep opt n : forall i vs,
  mapO (fun i => deref (opt !! (4 + i + i)%nat)) (seq (S i) n) = Ok vs ->
  prints (understood_loop sep opt (S i) n) (flat_map (fun d => comma sep ++ d) (map print_int vs)).
Proof.
  induction n as [|n IH]; intros i vs H; cbn [seq mapO understood_loop] in *; inv_ok; [apply prints_skip|].
  rewrite H0. cbn [deref mbind outcome_bind map flat_map Nat.ltb Nat.leb].
  rewrite <- app_assoc. apply (prints_seq (WRITE (comma sep)) _ (comma sep)); [apply prints_WRITE|].
  apply (prints_seq (WRITE (print_int a)) _ (print_int a)); [apply prints_WRITE | by apply IH].
Qed.

Lemma prints_understood sep opt n vs :
  mapO (fun i => deref (opt !! (4 + i + i)%nat)) (seq 0 n) = Ok vs ->
  prints (understood_loop sep opt 0 n) (join (comma sep) (map print_int vs)).
Proof.
  destruct n as [|n]; intros H; cbn [seq mapO understood_loop] in *; inv_ok; [apply prints_skip|].
  rewrite H0. cbn [deref mbind outcome_bind Nat.ltb Nat.leb]. cbn [map]. rewrite join_cons.
  apply (prints_seq (WRITE (print_int a)) _ (print_int a)); [apply prints_WRITE | by apply prints_understood_rest].
Qed.

Lemma prints_list sep code rr t : list_text sep code rr = Ok t -> prints (WRITE_UNDERSTOOD_LIST sep code rr) t.
Proof.
  unfold list_text, WRITE_UNDERSTOOD_LIST. destruct rr as [rr|]; cbn; [|intros [= <-]; apply prints_WRITE].
  destruct (knot_edns_get_option rr code) as [opt|]; cbn; [|intros [= <-]; apply prints_WRITE].
  intros H. inv_ok. by apply prints_understood.
Qed.

Lemma prints_nsid sep rr t : nsid_text sep rr = Ok t -> prints (write_nsid sep rr) t.
Proof.
  unfold nsid_text, write_nsid. destruct rr as [rr|]; cbn; [|intros [= <-]; apply prints_WRITE].
  destruct (knot_edns_get_option rr 3) as [opt|]; cbn; [|intros [= <-]; apply prints_WRITE].
  case_match; [done|]. intros [= <-]. apply prints_escaped.
Qed.

Lemma prints_opt {A} (o : option A) f t : opt_text o f = Ok t -> prints (when o (fun a => WRITE (f a))) t.
Proof. destruct o; cbn; intros [= <-]; [apply prints_WRITE | apply prints_skip]. Qed.

Lemma prints_addr af a t : deref (inet_ntop af a) = Ok t -> prints (write_addr af a) t.
Proof. unfold write_addr. intros ->. apply prints_WRITE. Qed.

Create HintDb csv.
#[local] Hint Resolve prints_WRITE prints_skip prints_list prints_nsid prints_opt prints_addr : csv.

Lemma columns_print : Forall2 (fun c (cl : cell) => forall sep p q t, cl sep p q = Ok t -> prints (c_body c sep p q) t)
  columns all_cells.
Proof.
  unfold columns, all_cells, net_columns, dns_columns, edns_columns, net_cells, dns_cells, edns_cells. cbn [app].
  repeat (apply Forall2_cons_2; [cbn [c_body]; intros sep p q t H;
    first [ by auto with csv | by injection H as <-; auto with csv | by apply prints_opt in H | idtac] |]).
  all: try apply Forall2_nil_2.
  - destruct q as [r|]; cbn; [|injection H as <-; auto with csv].
    destruct (i64 (ts r - ts p)); cbn in *; [|done]. injection H as <-. auto with csv.
  - unfold DNS_PACKET_AF in H. injection H as <-. repeat case_match; auto with csv.
  - injection H as <-. case_match; auto with csv.
  - injection H as <-. case_match; cbn; auto with csv. apply prints_WRITE.
  - injection H as <-. unfold write_client_subnet.
    destruct (opt_rr_of (DNS_PACKET_RESPONSE p q)) as [rr|], (opt_rr_of (DNS_PACKET_REQUEST p)) as [rr'|];
      cbn [mbind option_bind]; repeat match goal with |- context [knot_edns_get_option ?r 8] => destruct (knot_edns_get_option r 8) end;
      case_bool_decide as E; try apply prints_skip; try apply prints_WRITE;
      try (by destruct E; eauto); try (by destruct E as [[]|[]]).
  - injection H as <-.
    destruct (opt_rr_of (DNS_PACKET_REQUEST p)), (opt_rr_of (DNS_PACKET_RESPONSE p q));
      case_bool_decide as E; try apply prints_skip; try apply prints_WRITE;
      try (by destruct E; eauto); try (by destruct E as [[]|[]]).
Qed.

(** ** Lines *)

(** The line so far holds the cells [cs]. *)
Definition holds_cells (sep : Z) (cs : list (list Z)) (l : line) : Prop :=
  line_ok l /\ l_first l = bool_decide (cs = []) /\ content l = join [u8 sep] cs /\
  l_p l = Z.of_nat (length (join [u8 sep] cs)).

Lemma join_snoc sep cs t : join sep (cs ++ [t]) = if bool_decide (cs = []) then t else join sep cs ++ sep ++ t.
Proof.
  destruct cs as [|c cs]; [done|]. rewrite bool_decide_eq_false_2 by done. cbn [app].
  rewrite !join_cons, flat_map_app. cbn. by rewrite app_nil_r, <- app_assoc.
Qed.

(** One selected column appends a cell. *)
Lemma column_appends sep cs l body t : holds_cells sep cs l -> prints body t ->
  Z.of_nat (length (join [u8 sep] (cs ++ [t]))) < OUTBUF_SIZE ->
  exists l', ((if l_first l then Ok {| l_buf := l_buf l; l_p := l_p l; l_first := false |}
               else put_char (u8 sep) l) ≫= body) = Ok l' /\ holds_cells sep (cs ++ [t]) l'.
Proof.
  intros (Hok & Hfi & Hc & Hp) Hb. rewrite join_snoc, Hfi. case_bool_decide as E; intros Hlen; cbn [mbind outcome_bind].
  - subst cs. cbn in Hc, Hp. destruct (Hb {| l_buf := l_buf l; l_p := l_p l; l_first := false |}) as (l' & -> & Hok' & Hc' & Hfi' & Hp').
    { exact Hok. } { cbn. lia. }
    exists l'. split; [done|]. unfold holds_cells. rewrite Hc', Hfi', Hp'. cbn. split; [done|]. split; [done|].
    split; [|lia]. unfold content in *. cbn. by rewrite Hc.
  - rewrite !length_app in Hlen. cbn in Hlen. unfold put_char.
    destruct (Z.leb_spec OUTBUF_SIZE (l_p l)); [lia|]. cbn [mbind outcome_bind].
    destruct (poke_prints l [u8 sep] [] Hok) as [Hok1 Hc1]; [cbn; lia|]. cbn [app length] in Hok1, Hc1. change (Z.of_nat 1) with 1 in *.
    destruct (Hb _ Hok1) as (l' & -> & Hok' & Hc' & Hfi' & Hp'); [cbn; lia|].
    exists l'. split; [done|]. unfold holds_cells. rewrite Hc', Hc1, Hfi', Hp', Hc, join_snoc. cbn [l_first l_p].
    rewrite (bool_decide_eq_false_2 (cs = [])) by done. split; [done|].
    rewrite bool_decide_eq_false_2 by (intros [_ ?]%app_nil; done). split; [by rewrite ?Hfi|].
    rewrite !length_app. cbn. split; [by rewrite <- app_assoc | lia].
Qed.

Lemma length_join_app sep cs1 cs2 : (length (join sep cs1) <= length (join sep (cs1 ++ cs2)))%nat.
Proof.
  destruct cs1 as [|c cs1]; [cbn; lia|]. cbn [app]. rewrite !join_cons, flat_map_app, !length_app. lia.
Qed.

(** A selected column that prints [t] adds a cell, before the cells [ts] of
    the remaining columns. *)
Lemma write_column_selected fields sep pkt c cs t ts l :
  field_selected fields (c_field c) = true -> holds_cells sep cs l ->
  prints (fun l => match pkt with
                   | None => WRITE (bytes_of_string (c_name c)) l
                   | Some (p, q) => c_body c sep p q l end) t ->
  Z.of_nat (length (join [u8 sep] (cs ++ t :: ts))) < OUTBUF_SIZE ->
  exists l', write_column fields sep pkt l c = Ok l' /\ holds_cells sep (cs ++ [t]) l'.
Proof.
  intros Hs Hh Hp Hlen. unfold write_column. rewrite Hs. apply (column_appends sep cs l _ t Hh Hp).
  pose proof (length_join_app [u8 sep] (cs ++ [t]) ts) as Hm. rewrite <- app_assoc in Hm. cbn in Hm. lia.
Qed.

Lemma packet_columns_run fields sep p q cols cls :
  Forall2 (fun c (cl : cell) => forall sep p q t, cl sep p q = Ok t -> prints (c_body c sep p q) t) cols cls ->
  forall cs l ts, select_cells fields sep p q cols cls = Ok ts -> holds_cells sep cs l ->
  Z.of_nat (length (join [u8 sep] (cs ++ ts))) < OUTBUF_SIZE ->
  exists l', foldM (write_column fields sep (Some (p, q))) l cols = Ok l' /\ holds_cells sep (cs ++ ts) l'.
Proof.
  induction 1 as [|c cl cols cls Hc _ IH]; intros cs l ts Hts Hh Hlen; cbn [select_cells foldM] in *.
  - inv_ok. exists l. by rewrite app_nil_r.
  - destruct (field_selected fields (c_field c)) eqn:E.
    + inv_ok. destruct (write_column_selected fields sep (Some (p, q)) c cs a a0 l E Hh (Hc _ _ _ _ H) Hlen)
        as (l1 & -> & Hh1). cbn [mbind outcome_bind].
      destruct (IH (cs ++ [a]) l1 a0 H0 Hh1) as (l2 & -> & Hh2); [by rewrite <- app_assoc|].
      exists l2. by rewrite <- app_assoc in Hh2.
    + assert (Hw : forall pkt, write_column fields sep pkt l c = Ok l) by (intros; unfold write_column; by rewrite E).
      rewrite Hw. cbn [mbind outcome_bind]. by apply IH.
Qed.

Lemma header_columns_run fields sep cols : forall cs l,
  let ts := map (fun c => bytes_of_string (c_name c)) (List.filter (fun c => field_selected fields (c_field c)) cols) in
  holds_cells sep cs l -> Z.of_nat (length (join [u8 sep] (cs ++ ts))) < OUTBUF_SIZE ->
  exists l', foldM (write_column fields sep None) l cols = Ok l' /\ holds_cells sep (cs ++ ts) l'.
Proof.
  induction cols as [|c cols IH]; intros cs l ts Hh Hlen; subst ts; cbn [List.filter map foldM] in *.
  - exists l. by rewrite app_nil_r.
  - destruct (field_selected fields (c_field c)) eqn:E; cbn [map] in *.
    + destruct (write_column_selected fields sep None c cs _ _ l E Hh (prints_WRITE _) Hlen) as (l1 & -> & Hh1).
      cbn [mbind outcome_bind]. destruct (IH _ l1 Hh1) as (l2 & -> & Hh2); [by rewrite <- app_assoc|].
      exists l2. by rewrite <- app_assoc in Hh2.
    + assert (Hw : forall pkt, write_column fields sep pkt l c = Ok l) by (intros; unfold write_column; by rewrite E).
      rewrite Hw. cbn [mbind outcome_bind]. by apply IH.
Qed.

(** The end of [write_packet] on a line that fits. *)
Lemma csv_packet_run outbuf fields sep pkt ts : Z.of_nat (length outbuf) = OUTBUF_SIZE ->
  Z.of_nat (length (join [u8 sep] ts)) <= OUTBUF_SIZE - 2 ->
  (forall l, holds_cells sep [] l -> exists l', foldM (write_column fields sep pkt) l columns = Ok l' /\ holds_cells sep ts l') ->
  write_packet outbuf fields sep pkt = Ok (join [u8 sep] ts ++ [NEWLINE]).
Proof.
  intros Hb Hlen Hrun. unfold write_packet.
  destruct (Hrun {| l_buf := outbuf; l_p := 0; l_first := true |}) as (l & -> & Hok & _ & Hc & Hp).
  { split; [|done]. split; [done|]. cbn. unfold OUTBUF_SIZE. lia. }
  cbn [mbind outcome_bind]. destruct (Z.gtb_spec (l_p l) (OUTBUF_SIZE - 2)); [lia|].
  destruct (poke_prints l [NEWLINE] [] Hok) as [Hok1 Hc1]; [cbn; lia|]. cbn [app length] in Hok1, Hc1.
  change (Z.of_nat 1) with 1 in *. set (l1 := {| l_buf := poke _ _ [NEWLINE]; l_p := _; l_first := _ |}) in *.
  assert (Hput : put_char NEWLINE l = Ok l1).
  { unfold put_char. by destruct (Z.leb_spec OUTBUF_SIZE (l_p l)); [lia|]. }
  rewrite Hput. cbn [mbind outcome_bind]. assert (Hp1 : l_p l1 = l_p l + 1) by done. clearbody l1. unfold put_char.
  destruct (Z.leb_spec OUTBUF_SIZE (l_p l1)); [lia|]. cbn [mbind outcome_bind l_p l_buf].
  destruct (poke_ok (l_buf l1) (l_p l1) [] [0]) as [_ Hpk]; [destruct Hok1; lia | destruct Hok1; cbn [app length]; lia|].
  cbn [app length] in Hpk. rewrite Nat.add_0_r, app_nil_r in Hpk.
  replace (l_p l1 + 1 - 1) with (l_p l1) by lia. rewrite Hpk. fold (content l1). by rewrite Hc1, Hc.
Qed.

Lemma header_length fields sep : Z.of_nat (length (join [u8 sep] (header_cells fields))) <= OUTBUF_SIZE - 2.
Proof.
  assert (Hj : forall cs, (length (join [u8 sep] cs) <= length (concat cs) + length cs)%nat).
  { induction cs as [|c [|d cs] IH]; cbn [join concat length] in *; rewrite ?length_app in *; cbn [length] in *; lia. }
  assert (Hf : forall cols : list column,
    let names := map (fun c => bytes_of_string (c_name c)) in
    let sel := List.filter (fun c => field_selected fields (c_field c)) cols in
    (length (concat (names sel)) + length (names sel) <= length (concat (names cols)) + length (names cols))%nat).
  { induction cols as [|c cols IH]; cbn in *; [done|]. destruct (field_selected fields (c_field c)); cbn; rewrite ?length_app; lia. }
  specialize (Hj (header_cells fields)). specialize (Hf columns). cbn zeta in Hf. fold (header_cells fields) in Hf.
  assert (Hall : Z.of_nat (length (concat (map (fun c => bytes_of_string (c_name c)) columns)) +
    length (map (fun c => bytes_of_string (c_name c)) columns)) <= 1000) by (vm_compute; discriminate).
  unfold OUTBUF_SIZE. lia.
Qed.

Lemma csv_header_row outbuf fields sep : Z.of_nat (length outbuf) = OUTBUF_SIZE ->
  write_packet outbuf fields sep None = Ok (join [u8 sep] (header_cells fields) ++ [NEWLINE]).
Proof.
  intros Hb. pose proof (header_length fields sep) as Hl. apply csv_packet_run; [done..|]. intros l Hh.
  apply (header_columns_run fields sep columns [] l Hh). fold (header_cells fields). cbn [app]. lia.
Qed.

(** ** The format *)

#[export] Instance csv_format (sys_header : nat -> bool) (c : dns_output_csv) : OutputFormat.
Proof.
  refine {| start_file := dns_output_csv_start_file sys_header c;
            Output.write_packet := dns_output_csv_write_packet c;
            header := if inline_header c then match write_packet stack_buffer (oc_fields c) (separator c) None with
                                              | Ok b => b | Fail _ => [] end else [];
            record := fun p q => write_packet stack_buffer (oc_fields c) (separator c) (Some (p, q)) |}.
  - intros o time o' Hf H. unfold dns_output_csv_start_file in H. inv_ok. exists a0. split.
    + destruct (inline_header c); inv_ok; [|by left]. rewrite H2. by right.
    + destruct (external_header_path_fmt c); inv_ok; [by left|]. destruct a1; [|done].
      destruct (sys_header _); [|done]. inv_ok. right. eauto.
  - done.
Defined.

(** ** Reading a line back *)

(** Splits at separators that no backslash precedes. *)
Fixpoint split_line (sep : Z) (esc : bool) (cur : list Z) (s : list Z) : list (list Z) :=
  match s with
  | [] => [rev cur]
  | c :: s =>
      if esc then split_line sep false (c :: cur) s
      else if c =? BACKSLASH then split_line sep true (c :: cur) s
      else if c =? sep then rev cur :: split_line sep false [] s
      else split_line sep false (c :: cur) s
  end.

(** A text in which every separator is escaped and no escape is open. *)
Fixpoint clean (sep : Z) (esc : bool) (s : list Z) : bool :=
  match s with
  | [] => negb esc
  | c :: s =>
      if esc then clean sep false s
      else if c =? BACKSLASH then clean sep true s
      else negb (c =? sep) && clean sep false s
  end.

Lemma split_clean sep s : forall esc cur rest, clean sep esc s = true ->
  split_line sep esc cur (s ++ rest) = split_line sep false (rev s ++ cur) rest.
Proof.
  induction s as [|c s IH]; intros esc cur rest H; cbn in *; [by destruct esc|].
  rewrite <- app_assoc. cbn. destruct esc; [by apply IH|]. destruct (c =? BACKSLASH); [by apply IH|].
  destruct (c =? sep); [done|]. by apply IH.
Qed.

Lemma split_join sep cs : sep <> BACKSLASH -> cs <> [] -> Forall (fun c => clean sep false c = true) cs ->
  split_line sep false [] (join [sep] cs) = cs.
Proof.
  intros Hs Hne Hcs. destruct cs as [|c cs]; [done|]. clear Hne. rewrite join_cons.
  revert c Hcs. induction cs as [|d cs IH]; intros c [Hc Hcs]%Forall_cons.
  - cbn. rewrite split_clean by done. cbn. by rewrite app_nil_r, rev_involutive.
  - cbn [flat_map]. rewrite split_clean by done. rewrite app_nil_r. cbn [app split_line].
    destruct (Z.eqb_spec sep BACKSLASH); [done|]. rewrite Z.eqb_refl, rev_involutive. f_equal. by apply IH.
Qed.

Lemma clean_app_esc sep s1 s2 esc : clean sep esc s1 = true -> clean sep false s2 = true -> clean sep esc (s1 ++ s2) = true.
Proof.
  revert esc. induction s1 as [|c s1 IH]; intros esc H1 H2; cbn in *; [by destruct esc|].
  destruct esc; [by apply IH|]. destruct (c =? BACKSLASH); [by apply IH|]. destruct (c =? sep); cbn in *; auto.
Qed.

Lemma clean_app sep s1 s2 : clean sep false s1 = true -> clean sep false s2 = true -> clean sep false (s1 ++ s2) = true.
Proof. apply clean_app_esc. Qed.

Lemma clean_plain sep s : Forall (fun c => c <> BACKSLASH /\ c <> sep) s -> clean sep false s = true.
Proof.
  induction 1 as [|c s [Hb Hs] _ IH]; [done|]. cbn. destruct (Z.eqb_spec c BACKSLASH); [done|].
  by destruct (Z.eqb_spec c sep).
Qed.

(** A separator that passes the configuration check. *)
Definition accepted (sep : Z) : Prop :=
  0 < sep <= 127 /\ isalnum sep = false /\ strchr forbidden_separators sep = false.

Lemma accepted_char sep : accepted sep ->
  u8 sep = sep /\ sep <> BACKSLASH /\ sep <> 45 /\ sep <> 46 /\ (forall c, isalnum c = true -> c <> sep).
Proof.
  intros (Hr & Ha & Hf). unfold strchr, forbidden_separators, BACKSLASH in *. cbn in Hf.
  split; [apply Z.mod_small; lia|]. repeat split; try (intros ->; cbn in Hf; discriminate).
  intros c Hc ->. congruence.
Qed.

Definition num_char (c : Z) : Prop := 48 <= c <= 57 \/ c = 45.

Lemma print_digits_chars fuel z : 0 <= z -> Forall num_char (print_digits fuel z).
Proof.
  revert z. induction fuel as [|fuel IH]; intros z Hz; cbn; [constructor|].
  destruct (Z.ltb_spec z 10).
  - constructor; [left; lia | constructor].
  - apply Forall_app. split; [apply IH; div_lia|]. constructor; [left; div_lia | constructor].
Qed.

Lemma print_int_chars z : Forall num_char (print_int z).
Proof.
  unfold print_int. destruct (Z.ltb_spec z 0); [|by apply print_digits_chars].
  constructor; [by right | apply print_digits_chars; lia].
Qed.

Lemma print_int06_chars z : Forall num_char (print_int06 z).
Proof.
  unfold print_int06. assert (Hz : forall n, Forall num_char (replicate n 48)).
  { intros n. apply Forall_replicate. left. lia. }
  destruct (Z.ltb_spec z 0); [constructor; [by right|]|]; apply Forall_app; (split; [done | apply print_digits_chars; lia]).
Qed.

Lemma clean_num sep s : accepted sep -> Forall num_char s -> clean sep false s = true.
Proof.
  intros (_ & Hb & H45 & _ & Ha)%accepted_char Hs. apply clean_plain. eapply Forall_impl; [exact Hs|].
  intros c [Hc| ->]; [|done]. unfold BACKSLASH. split; [lia|]. apply Ha. unfold isalnum.
  apply orb_true_iff. left. apply orb_true_iff. left. lia.
Qed.

Lemma clean_int sep z : accepted sep -> clean sep false (print_int z) = true.
Proof. intros Ha. apply clean_num; [done | apply print_int_chars]. Qed.

Lemma clean_ints sep vs : accepted sep -> clean sep false (join (comma sep) (map print_int vs)) = true.
Proof.
  intros Ha. destruct vs as [|v vs]; [done|]. cbn [map]. rewrite join_cons. apply clean_app; [by apply clean_int|].
  induction vs as [|w vs IH]; [done|]. cbn [map flat_map]. apply clean_app; [|done].
  apply clean_app; [|by apply clean_int]. unfold comma. destruct (Z.eqb_spec sep 44) as [->|Hn]; [done|].
  apply clean_plain. repeat constructor; [done | lia].
Qed.

Lemma clean_escaped sep data : accepted sep -> clean sep false (flat_map (snescape_char sep) data) = true.
Proof.
  intros Ha. pose proof (accepted_char sep Ha) as (_ & Hb & _ & _ & Hal). destruct Ha as (Hr & _).
  induction data as [|c data IH]; [done|]. cbn [flat_map]. apply clean_app; [|done]. unfold snescape_char.
  destruct (Z.eqb_spec c 0); [done|]. destruct (Z.eqb_spec c BACKSLASH); [done|]. destruct (Z.eqb_spec c NEWLINE); [done|].
  destruct (Z.eqb_spec c sep); [|by apply clean_plain; repeat constructor]. destruct (isgraph sep); [done|].
  change (clean sep false (drop 1 (octal3 sep)) = true). apply clean_plain.
  assert (Hd : forall d, 0 <= d <= 9 -> 48 + d <> BACKSLASH /\ 48 + d <> sep).
  { intros d Hd. unfold BACKSLASH. split; [lia|]. apply Hal. unfold isalnum.
    apply orb_true_iff. left. apply orb_true_iff. left. lia. }
  repeat constructor; apply Hd; div_lia.
Qed.

Lemma select_cells_length fields sep p q cols cls ts : length cols = length cls ->
  select_cells fields sep p q cols cls = Ok ts ->
  length ts = length (List.filter (fun c => field_selected fields (c_field c)) cols).
Proof.
  revert cls ts. induction cols as [|c cols IH]; intros [|cl cls] ts Hl H; try done; cbn in *.
  - by injection H as <-.
  - injection Hl as Hl. destruct (field_selected fields (c_field c)); [|by eapply IH]. inv_ok. cbn. f_equal. by eapply IH.
Qed.

Lemma select_cells_all (P : list Z -> Prop) fields sep p q cols cls ts :
  Forall (fun cl : cell => forall t, cl sep p q = Ok t -> P t) cls ->
  select_cells fields sep p q cols cls = Ok ts -> Forall P ts.
Proof.
  revert cls ts. induction cols as [|c cols IH]; intros [|cl cls] ts Hall H; cbn in *; try (injection H as <-; constructor).
  apply Forall_cons in Hall as [Hcl Hall]. destruct (field_selected fields (c_field c)); [|by eapply IH].
  inv_ok. constructor; [by apply Hcl | by eapply IH].
Qed.

Lemma select_cells_app fields sep p q cols1 cls1 cols2 cls2 ts : length cols1 = length cls1 ->
  select_cells fields sep p q (cols1 ++ cols2) (cls1 ++ cls2) = Ok ts ->
  exists ts1 ts2, ts = ts1 ++ ts2 /\ select_cells fields sep p q cols1 cls1 = Ok ts1 /\
    select_cells fields sep p q cols2 cls2 = Ok ts2.
Proof.
  revert cls1 ts. induction cols1 as [|c cols1 IH]; intros [|cl cls1] ts Hl H; try done; cbn in *; [by exists [], ts|].
  injection Hl as Hl. destruct (field_selected fields (c_field c)); [|by apply IH]. inv_ok.
  destruct (IH _ _ Hl H1) as (ts1 & ts2 & -> & E1 & E2). exists (a :: ts1), ts2. split; [done|]. rewrite H0. cbn. by rewrite E1.
Qed.

(** The text of the name. *)
Definition name_text (p : dns_packet) : list Z :=
  default NULL_TEXT (knot_dname_to_str (knot_pkt_qname (knot_packet p)) 1024).

(** Addresses are printed with these characters. *)
Definition addr_char (c : Z) : Prop := isalnum c = true \/ c = 46 \/ c = 58.

(** The columns but the name. *)
Lemma other_cells_clean sep p q : accepted sep -> sep <> 58 ->
  (forall a t, a ∈ [DNS_PACKET_CLIENT_ADDR p; DNS_PACKET_SERVER_ADDR p] ->
     inet_ntop (DNS_PACKET_AF p) a = Some t -> Forall addr_char t) ->
  Forall (fun cl : cell => forall t, cl sep p q = Ok t -> clean sep false t = true) (take 26 all_cells ++ drop 27 all_cells).
Proof.
  intros Ha H58 Haddr. pose proof (accepted_char sep Ha) as (_ & Hbs & _ & H46 & Hal).
  assert (Hopt : forall A (o : option A) f t, (forall a, clean sep false (f a) = true) -> opt_text o f = Ok t ->
    clean sep false t = true) by (intros A [a|] f t Hf [= <-]; [apply Hf | done]).
  assert (Hip : forall a t, a ∈ [DNS_PACKET_CLIENT_ADDR p; DNS_PACKET_SERVER_ADDR p] ->
    deref (inet_ntop (DNS_PACKET_AF p) a) = Ok t -> clean sep false t = true).
  { intros a t Hin H. inv_ok. apply clean_plain. eapply Forall_impl; [by eapply Haddr|].
    intros c [Hc|[->| ->]]; [|by unfold BACKSLASH; split; lia..]. split; [|by apply Hal]. intros ->. discriminate. }
  assert (Hlist : forall code rr t, list_text sep code rr = Ok t -> clean sep false t = true).
  { intros code rr t H. unfold list_text in H. case_match; inv_ok; [by apply clean_ints | done]. }
  unfold all_cells, net_cells, dns_cells, edns_cells. cbn [app take drop].
  repeat (apply Forall_cons; split; [intros t H;
    first [ by eapply Hip; [|exact H]; set_solver | by eapply Hlist | by eapply Hopt in H; [exact H | intros; by apply clean_int]
          | by injection H as <-; apply clean_int | by injection H as <- | idtac] |]); try apply Forall_nil_2.
  - injection H as <-. apply clean_app; [by apply clean_int|]. apply (clean_app sep [46]).
    + apply clean_plain. repeat constructor; [done | lia].
    + apply clean_num; [done | apply print_int06_chars].
  - destruct q; inv_ok; [by apply clean_int | done].
  - injection H as <-. repeat case_match; [| | done]; (apply clean_num; [done|]; repeat constructor; lia).
  - injection H as <-. case_match; [by apply clean_int | done].
  - unfold nsid_text in H. repeat case_match; inv_ok; [by apply clean_escaped | done].
  - injection H as <-. by case_bool_decide.
  - injection H as <-. by case_bool_decide.
Qed.

(** ** Properties *)

(** C23: the CSV line of a packet.  Whatever the stack buffer held before, when
    the line takes at most 2046 bytes the function writes exactly the texts of
    the selected columns, joined by the separator and ended by a newline, as
    many as the header has; and when every text is free of unescaped
    separators, splitting the line gives the texts back. *)
Theorem csv_record_correct (outbuf : list Z) (fields sep : Z) (p : dns_packet) (q : option dns_packet)
    (cs : list (list Z)) :
  Z.of_nat (length outbuf) = OUTBUF_SIZE -> accepted sep -> row_cells fields sep p q = Ok cs ->
  Z.of_nat (length (join [sep] cs)) <= OUTBUF_SIZE - 2 ->
  write_packet outbuf fields sep (Some (p, q)) = Ok (join [sep] cs ++ [NEWLINE]) /\
  length cs = length (header_cells fields) /\
  (cs <> [] -> Forall (fun c => clean sep false c = true) cs -> split_line sep false [] (join [sep] cs) = cs).
Proof.
  intros Hb Ha Hcs Hlen. pose proof (accepted_char sep Ha) as (Hu & Hbs & _). split; [|split].
  - rewrite <- Hu in Hlen |- * at 2. apply csv_packet_run; [done | by rewrite Hu in *|]. intros l Hh.
    apply (packet_columns_run fields sep p q columns all_cells columns_print [] l cs Hcs Hh). cbn [app]. lia.
  - unfold header_cells. rewrite length_map. by eapply select_cells_length; [|exact Hcs].
  - intros Hne Hcl. by apply split_join.
Qed.


End csv.

(** ** Closed examples *)

Section examples.
#[local] Existing Instances Sample.sample_knot sample_libc.

Definition garbage : list Z := replicate (Z.to_nat OUTBUF_SIZE) 170.

(** A query with its answer, all columns, comma separated. *)
Definition sample_cells : list (list Z) :=
  match row_cells ALL_FIELDS 44 (packet_of sample_query) (Some (packet_of sample_answer)) with
  | Ok cs => cs
  | Fail _ => []
  end.

Lemma accepted_comma : accepted 44.
Proof. by vm_compute. Qed.

Lemma csv_record_correct_witness :
  write_packet garbage ALL_FIELDS 44 (Some (packet_of sample_query, Some (packet_of sample_answer))) =
    Ok (join [44] sample_cells ++ [NEWLINE]) /\
  length sample_cells = 41%nat /\ split_line 44 false [] (join [44] sample_cells) = sample_cells.
Proof.
  destruct (csv_record_correct garbage ALL_FIELDS 44 (packet_of sample_query) (Some (packet_of sample_answer)) sample_cells)
    as (H & _ & Hs); [by vm_compute | apply accepted_comma | by vm_compute | by vm_compute |].
  split; [done|]. split; [by vm_compute|]. apply Hs; [by vm_compute|].
  apply (bool_decide_eq_true_1 (Forall (fun c => clean 44 false c = true) sample_cells)). by vm_compute.
Defined.


(** A DAU option of 700 octets, all 255, with as many octets behind it. *)
Definition long_list : list Z := replicate 11 0 ++ be_bytes 2 5 ++ be_bytes 2 700 ++ replicate 1400 255.

(** An understood-algorithms column can overrun the line buffer although
    [WRITE] is marked overflow safe: every octet of this option is read in
    bounds, yet the write position passes the end of the buffer and the next
    [snprintf] gets a negative size. *)
Theorem csv_long_list_overflow :
  (exists t, list_text 44 5 (Some long_list) = Ok t /\ Z.of_nat (length t) = 3498) /\
  WRITE_UNDERSTOOD_LIST 44 5 (Some long_list) {| l_buf := garbage; l_p := 0; l_first := false |} =
    Fail UndefinedBehaviour.
Proof. split; [eexists; split; vm_compute; reflexivity | vm_compute; reflexivity]. Qed.

(** A DAU option with the algorithms 5, 7 and 8, and two further octets. *)
Definition short_list : list Z := replicate 11 0 ++ [0; 5; 0; 3; 5; 7; 8; 99; 98].

(** The understood-algorithms column does not show the option's octets
    5, 7, 8 but every other octet from the first one on, past its end. *)
Theorem csv_list_skips_octets :
  list_text 44 5 (Some short_list) = Ok (join (comma 44) (map print_int [5; 8; 98])) /\
  list_text 44 5 (Some short_list) <> Ok (join (comma 44) (map print_int [5; 7; 8])).
Proof. split; [vm_compute; reflexivity | vm_compute; discriminate]. Qed.

(** The sample query sent over IPv6. *)
Definition query6 : dns_packet :=
  let p := packet_of sample_query in
  {| ts := ts p; src_addr := [10; 0] ++ drop 2 (src_addr p); dst_addr := [10; 0] ++ drop 2 (dst_addr p);
     net_protocol := net_protocol p; net_size := net_size p; net_ttl := net_ttl p; net_udp_sum := net_udp_sum p;
     dns_id := dns_id p; response := None; dns_data := dns_data p; dns_data_size := dns_data_size p;
     dns_data_size_orig := dns_data_size_orig p; knot_packet := knot_packet p; memory_size := memory_size p |}.

(** A colon passes the configuration check as separator, but IPv6
    addresses are printed with unescaped colons: the line of one column is
    read back as three. *)
Theorem csv_colon_separator :
  accepted 58 /\
  write_packet garbage 64 58 (Some (query6, None)) = Ok (bytes_of_string "::" ++ [NEWLINE]) /\
  length (header_cells 64) = 1%nat /\ length (split_line 58 false [] (bytes_of_string "::")) = 3%nat.
Proof. by vm_compute. Qed.

End examples.
