(* ===== verification/OutputInv.v ===== *)
(** * Correctness of the output thread

    For any format that obeys [OutputFormat]: rotation, and a complete run
    over a stream of frames. *)

From stdpp Require Import base numbers strings gmap list.
From S2P Require Import Prelude Doubles Common Libs Packet PacketFrame PacketHash Config TimeFmt.
From S2P Require Import Matcher MatcherInv Output CborEncoder OutputCbor.

Section inv.
Context `{K : Libknot} `{L : Libc}.
Context (sys_open : nat -> bool) (sys_spawn : nat -> spawn) (sys_wait : bool -> nat -> wait_result).
Context {F : OutputFormat}.

Abbreviation mem := (gmap loc dns_packet).

(** Largest time considered: the matcher may end its last frame somewhat
    after the last packet, so this is more than [TMAX]. *)
Definition OMAX : Z := 2 ^ 62.

(** ** The state of the output *)

(** Bytes in closed files. *)
Definition closed_bytes (o : dns_output) : Z :=
  foldr (fun (x : Z * list Z * list Z) n => Z.of_nat (length x.2) + n) 0 (o_closed o).

(** The contents of the files, in the order they were opened. *)
Definition file_contents (o : dns_output) : list (list Z) :=
  map (fun x : Z * list Z * list Z => x.2) (o_closed o) ++ option_list (o_file o).

(** The files hold the records [R], in order, each file after the header. *)
Definition holds (R : list (list Z)) (files : list (list Z)) : Prop :=
  exists parts, concat parts = R /\ files = map (fun part => header ++ concat part) parts.

(** The records [R] were written so far, [nr] of them of packets without
    response and [nq] without request. *)
Record out_inv (R : list (list Z)) (nr nq : Z) (o : dns_output) : Prop := {
  oi_path : is_Some (o_path o) <-> is_Some (o_file o);
  oi_opened : is_Some (o_file o) -> 0 <= o_opened o <= o_current_time o;
  oi_current : o_current_time o = DNS_NO_TIME \/ 0 <= o_current_time o <= OMAX;
  oi_period : - 2 ^ 31 <= o_period_sec o < 2 ^ 31;
  oi_items : u64 (total_items o + current_items o) = u64 (Z.of_nat (length R));
  oi_request_only : u64 (total_request_only o + current_request_only o) = u64 nr;
  oi_response_only : u64 (total_response_only o + current_response_only o) = u64 nq;
  oi_bytes : current_bytes o = u64 (Z.of_nat (length (default [] (o_file o))));
  oi_total : total_bytes o = u64 (closed_bytes o);
  oi_idle : o_file o = None -> current_items o = 0 /\ current_request_only o = 0 /\
    current_response_only o = 0;
}.

(** What the operations never assign. *)
Definition same_output (o o' : dns_output) : Prop :=
  o_period_sec o' = o_period_sec o /\ o_path_fmt o' = o_path_fmt o /\ o_pipe_cmd o' = o_pipe_cmd o.

Lemma same_output_trans o1 o2 o3 : same_output o1 o2 -> same_output o2 o3 -> same_output o1 o3.
Proof. unfold same_output. intros. destruct_and!. repeat split; congruence. Qed.

Lemma init_inv path cmd period : - 2 ^ 31 <= period < 2 ^ 31 ->
  out_inv [] 0 0 (dns_output_init path cmd period).
Proof. intros Hp. split; cbn; try done. by left. Qed.

Lemma emit_inv R nr nq o bytes : out_inv R nr nq o -> is_Some (o_file o) ->
  out_inv R nr nq (emit o bytes) /\ is_Some (o_file (emit o bytes)).
Proof.
  intros [] [file Hf]. rewrite Hf in *. split; [|cbn; rewrite Hf; eauto].
  split; cbn; rewrite ?Hf; cbn; try done.
  - rewrite oi_path0. split; eauto.
  - intros _. apply oi_opened0. eauto.
  - rewrite oi_bytes0, u64_add_l, length_app. f_equal. cbn. lia.
Qed.

Lemma extra_inv R nr nq o path bytes : out_inv R nr nq o -> out_inv R nr nq (add_extra o path bytes).
Proof. intros []. by split. Qed.

Lemma u64_incr t c n : u64 (t + c) = u64 n -> u64 (t + u64 (c + 1)) = u64 (n + 1).
Proof. intros H. by rewrite u64_add_r, Z.add_assoc, <- u64_add_l, H, u64_add_l. Qed.

(** 1 for a missing packet. *)
Definition missing {A} (q : option A) : Z := match q with Some _ => 0 | None => 1 end.

Lemma account_inv R nr nq o b p q : out_inv R nr nq o -> is_Some (o_file o) ->
  out_inv (R ++ [b]) (nr + missing (DNS_PACKET_RESPONSE p q))
    (nq + missing (DNS_PACKET_REQUEST p)) (account_packet o p q).
Proof.
  intros [] Hf. unfold account_packet. split; cbn; try done.
  - rewrite length_app, Nat2Z.inj_add. by apply u64_incr.
  - destruct (DNS_PACKET_RESPONSE p q); cbn; [by rewrite Z.add_0_r | by apply u64_incr].
  - destruct (DNS_PACKET_REQUEST p); cbn; [by rewrite Z.add_0_r | by apply u64_incr].
  - intros E. rewrite E in Hf. by destruct Hf.
Qed.

Lemma set_proc_inv R nr nq o pid k : out_inv R nr nq o -> out_inv R nr nq (set_proc o pid k).
Proof. intros []. by split. Qed.

Lemma set_current_inv R nr nq o t : out_inv R nr nq o -> 0 <= t <= OMAX ->
  out_inv R nr nq (set_otime o (o_opened o) (MAX (o_current_time o) t)).
Proof.
  intros [] Ht. rewrite MAX_max. split; cbn; try done.
  - intros H. specialize (oi_opened0 H). lia.
  - right. destruct oi_current0 as [->|?]; unfold DNS_NO_TIME, INT64_MIN in *; lia.
Qed.

(** ** Closing and opening files *)

Lemma closed_bytes_snoc (cl : list (Z * list Z * list Z)) x :
  foldr (fun (x : Z * list Z * list Z) n => Z.of_nat (length x.2) + n) 0 (cl ++ [x]) =
  foldr (fun (x : Z * list Z * list Z) n => Z.of_nat (length x.2) + n) 0 cl + Z.of_nat (length x.2).
Proof. induction cl as [|y cl IH]; cbn; [lia|]. rewrite IH. lia. Qed.

Lemma totals_inv R nr nq o file path : out_inv R nr nq o -> o_file o = Some file ->
  out_inv R nr nq (set_totals o (o_closed o ++ [(o_opened o, path, file)])).
Proof.
  intros [] Hf. rewrite Hf in *. split; cbn; try done.
  - rewrite Z.add_0_r. unfold u64 in *. by rewrite Z.mod_mod by lia.
  - rewrite Z.add_0_r. unfold u64 in *. by rewrite Z.mod_mod by lia.
  - rewrite Z.add_0_r. unfold u64 in *. by rewrite Z.mod_mod by lia.
  - unfold closed_bytes. cbn. rewrite closed_bytes_snoc, oi_total0, oi_bytes0. cbn.
    by rewrite u64_add_l, u64_add_r.
Qed.

(** ** A system that answers *)

(** Files open, subprocesses start, run until their input is closed and then
    exit with status 0, and paths expand. *)
Record system_ok (o : dns_output) : Prop := {
  so_open : forall n, sys_open n = true;
  so_spawn : forall n, exists pid, dns_output_start_subprocess (sys_spawn n) = Ok pid;
  so_poll : forall n, sys_wait false n = WaitRunning;
  so_exit : forall n, sys_wait true n = WaitExited 0;
  so_path : forall o' time, same_output o o' -> 0 <= time <= OMAX ->
    exists path, expand_path o' time = Ok path;
  so_start : forall o' time, is_Some (o_file o') -> 0 <= time <= OMAX ->
    exists o'', start_file o' time = Ok o'';
}.

Lemma system_ok_same o o' : system_ok o -> same_output o o' -> system_ok o'.
Proof.
  intros [] Hs. split; try done. intros o'' time Hs' Ht. apply so_path0; [|done].
  by eapply same_output_trans.
Qed.

Lemma poll_ok o R nr nq : system_ok o -> out_inv R nr nq o ->
  exists o', dns_output_wait_for_pipe_process sys_wait o false = Ok (0, o') /\
    out_inv R nr nq o' /\ same_output o o' /\ o_file o' = o_file o /\ o_closed o' = o_closed o /\
    o_current_time o' = o_current_time o.
Proof.
  intros Sy H. unfold dns_output_wait_for_pipe_process. destruct (_ <=? _); [by exists o|].
  rewrite (so_poll _ Sy). eexists. split; [done|]. split; [by apply set_proc_inv|]. done.
Qed.

Lemma close_ok o R nr nq time file : system_ok o -> out_inv R nr nq o -> o_file o = Some file ->
  0 <= time <= OMAX ->
  exists o' path, dns_output_close sys_wait o time = Ok o' /\ out_inv R nr nq o' /\
    o_file o' = None /\ same_output o o' /\ o_closed o' = o_closed o ++ [(o_opened o, path, file)] /\
    o_current_time o' = Z.max (o_current_time o) time.
Proof.
  intros Sy H Hf Ht. unfold dns_output_close.
  destruct (proj2 (oi_path _ _ _ _ H)) as [path Hp]; [by rewrite Hf; eauto|]. rewrite Hf, Hp.
  rewrite c_assert_true by (unfold DNS_NO_TIME; apply negb_true_iff, Z.eqb_neq; int_lia).
  cbn [deref mbind outcome_bind o_current_time o_opened set_otime].
  pose proof (oi_opened _ _ _ _ H) as Hop. specialize (Hop ltac:(rewrite Hf; eauto)).
  rewrite MAX_max. pose proof (oi_current _ _ _ _ H) as Hc. unfold DNS_NO_TIME, OMAX in *.
  rewrite i64_in by int_lia. cbn [mbind outcome_bind]. unfold dns_us_time_to_fsec.
  rewrite c_assert_true by (unfold DNS_NO_TIME; apply negb_true_iff, Z.eqb_neq; int_lia).
  cbn [mbind outcome_bind].
  set (o1 := set_otime o (o_opened o) (Z.max (o_current_time o) time)).
  assert (H1 : out_inv R nr nq o1).
  { unfold o1. rewrite <- MAX_max. apply set_current_inv; [done | unfold OMAX; lia]. }
  pose proof (totals_inv R nr nq o1 file path H1 Hf) as H2.
  unfold dns_output_wait_for_pipe_process.
  destruct (_ <=? _); cbn [mbind outcome_bind].
  - eexists _, path. split; [reflexivity|]. split; [exact H2|]. done.
  - rewrite (so_exit _ Sy). cbn. eexists _, path. split; [reflexivity|]. split; [by apply set_proc_inv|]. done.
Qed.

Lemma start_inv R nr nq o o' time : out_inv R nr nq o -> is_Some (o_file o) ->
  start_file o time = Ok o' ->
  out_inv R nr nq o' /\ o_file o' = (.++ header) <$> o_file o /\ same_output o o' /\ o_opened o' = o_opened o /\
  o_closed o' = o_closed o /\ o_current_time o' = o_current_time o.
Proof.
  intros H Hf Hs. destruct (start_file_law o time o' Hf Hs) as (o1 & Hone & Hcase).
  destruct (emit_inv R nr nq o header H Hf) as [H1 F1].
  assert (Ho1 : out_inv R nr nq o1 /\ o_file o1 = (.++ header) <$> o_file o /\ same_output o o1 /\
    o_opened o1 = o_opened o /\ o_closed o1 = o_closed o /\ o_current_time o1 = o_current_time o).
  { destruct Hone as [[-> ->]| ->]; [|done]. split; [done|]. split; [|done].
    destruct Hf as [file ->]. cbn. by rewrite app_nil_r. }
  destruct Hcase as [->|(path & hdr & ->)]; [done|]. destruct Ho1 as [Ho1 ?]. split; [by apply extra_inv | done].
Qed.

Lemma open_ok o R nr nq time : system_ok o -> out_inv R nr nq o -> o_file o = None ->
  0 <= time <= OMAX ->
  exists o', dns_output_open sys_open sys_spawn o time = Ok o' /\ out_inv R nr nq o' /\
    o_file o' = Some header /\ same_output o o' /\ o_opened o' = time /\ o_closed o' = o_closed o /\
    o_current_time o' = Z.max (o_current_time o) time.
Proof.
  intros Sy H Hf Ht. unfold dns_output_open. rewrite Hf.
  assert (Hp : o_path o = None).
  { destruct (o_path o) eqn:E; [|done]. destruct (proj1 (oi_path _ _ _ _ H)) as [? ?]; [rewrite E; eauto|]. congruence. }
  rewrite Hp. rewrite c_assert_true.
  2: { cbn. apply negb_true_iff, Z.eqb_neq. unfold DNS_NO_TIME. int_lia. }
  cbn [mbind outcome_bind]. destruct (so_path _ Sy o time) as [path ->]; [done..|]. cbn [mbind outcome_bind].
  set (pre := match o_pipe_cmd o with [] => _ | _ => _ end).
  assert (Hpre : exists pid, pre = Ok (set_proc o pid (S (o_ticks o)))).
  { unfold pre. destruct (o_pipe_cmd o); [eauto|]. destruct (so_spawn _ Sy (o_ticks o)) as [pid ->].
    cbn. eauto. }
  destruct Hpre as [pid ->]. cbn [mbind outcome_bind]. rewrite (so_open _ Sy). cbn [negb].
  rewrite MAX_max. cbn [o_current_time set_proc set_file].
  set (o1 := set_otime _ _ _).
  assert (H1 : out_inv R nr nq o1).
  { destruct H. rewrite Hf in *. split; cbn; try done; try lia. }
  destruct (so_start _ Sy o1 time) as [o2 Ho2]; [by cbn; eauto | done|]. rewrite Ho2.
  destruct (start_inv R nr nq o1 o2 time H1) as (H2 & F2 & S2 & E2 & C2 & T2); [by cbn; eauto | done|].
  exists o2. split; [done|]. split; [done|]. split; [done|]. split; [done|]. done.
Qed.

(** ** Rotation *)

Lemma holds_open R files : holds R files -> holds R (files ++ [header]).
Proof.
  intros (parts & <- & ->). exists (parts ++ [[]]). rewrite concat_app, map_app. cbn. by rewrite !app_nil_r.
Qed.

Lemma holds_append R files file b : holds R (files ++ [file]) -> holds (R ++ [b]) (files ++ [file ++ b]).
Proof.
  intros (parts & <- & E). destruct parts as [|part parts] using rev_ind.
  { by apply app_nil in E as [_ ?]. }
  clear IHparts. rewrite map_app in E. cbn in E. apply app_inj_tail in E as [-> ->].
  exists (parts ++ [part ++ [b]]). rewrite !concat_app, map_app. cbn. rewrite !app_nil_r, concat_app. cbn.
  by rewrite app_nil_r, !app_assoc.
Qed.

Lemma contents_open o o' : o_file o = None -> o_file o' = Some header -> o_closed o' = o_closed o ->
  file_contents o' = file_contents o ++ [header].
Proof. unfold file_contents. intros -> -> ->. cbn. by rewrite app_nil_r. Qed.

Lemma contents_close o o' file path : o_file o = Some file -> o_file o' = None ->
  o_closed o' = o_closed o ++ [(o_opened o, path, file)] -> file_contents o' = file_contents o.
Proof. unfold file_contents. intros -> -> ->. rewrite map_app. cbn. by rewrite app_nil_r. Qed.

Lemma rotation_ok o R nr nq time : system_ok o -> out_inv R nr nq o -> 0 <= time <= OMAX ->
  exists o', dns_output_check_rotation sys_open sys_spawn sys_wait o time = Ok o' /\ out_inv R nr nq o' /\
    is_Some (o_file o') /\ same_output o o' /\
    (forall R, holds R (file_contents o) -> holds R (file_contents o')) /\
    (o_period_sec o > 0 -> time <= o_opened o' + 1000000 * o_period_sec o) /\
    (o_closed o' = o_closed o /\ (is_Some (o_file o) -> o_opened o' = o_opened o) \/
     exists file path, o_file o = Some file /\ o_closed o' = o_closed o ++ [(o_opened o, path, file)] /\
       o_opened o' = time /\ o_opened o + 1000000 * o_period_sec o < time).
Proof.
  intros Sy H Ht. unfold dns_output_check_rotation.
  rewrite c_assert_true by (unfold DNS_NO_TIME; apply negb_true_iff, Z.eqb_neq; unfold OMAX in *; int_lia).
  cbn [mbind outcome_bind]. pose proof (oi_period _ _ _ _ H) as Hper.
  assert (Hlate : forall o', out_inv R nr nq o' -> out_inv R nr nq (set_otime o' (o_opened o') (MAX (o_current_time o') time)))
    by (intros o' H'; by apply set_current_inv).
  destruct (o_file o) as [file|] eqn:Hf.
  - rewrite bool_decide_eq_true_2 by eauto. cbn [andb].
    assert (Hrot : o_period_sec o > 0 -> dns_next_rotation 0 (o_period_sec o) (o_opened o) time =
              Ok (o_opened o + 1000000 * o_period_sec o <? time)).
    { intros Hpos. pose proof (next_rotation_ok 0 (o_period_sec o) (o_opened o) time Hper) as E.
      destruct (Z.eqb_spec time DNS_NO_TIME); [unfold DNS_NO_TIME, OMAX in *; int_lia|]. apply E.
      unfold OMAX in *. int_lia. }
    destruct (Z.gtb_spec (o_period_sec o) 0) as [Hpos|Hpos].
    + rewrite Hrot by lia. cbn [mbind outcome_bind].
      destruct (Z.ltb_spec (o_opened o + 1000000 * o_period_sec o) time) as [Hlt|Hge].
      * destruct (close_ok o R nr nq time file Sy H Hf Ht) as (o1 & path & -> & H1 & F1 & S1 & C1 & T1).
        cbn [mbind outcome_bind]. rewrite F1. rewrite bool_decide_eq_false_2 by (by intros []).
        destruct (open_ok o1 R nr nq time) as (o2 & -> & H2 & F2 & S2 & E2 & C2 & T2); auto.
        { by eapply system_ok_same. }
        cbn [mbind outcome_bind]. eexists. split; [done|]. split; [by apply Hlate|]. split; [done|].
        split; [by eapply same_output_trans|].
        split; [intros R'; erewrite <- (contents_close o o1) by done; intros Hh;
                by erewrite (contents_open o1) by done; apply holds_open|].
        cbn. split; [intros _; lia|]. right.
        exists file, path. split; [done|]. split; [congruence|]. done.
      * cbn [mbind outcome_bind]. rewrite Hf, bool_decide_eq_true_2 by eauto. cbn [mbind outcome_bind].
        eexists. split; [done|]. split; [by apply Hlate|]. split; [cbn; rewrite Hf; eauto|].
        split; [done|]. split; [done|]. split; [intros _; cbn; lia|]. by left.
    + cbn [mbind outcome_bind]. rewrite Hf, bool_decide_eq_true_2 by eauto. cbn [mbind outcome_bind].
      eexists. split; [done|]. split; [by apply Hlate|]. split; [cbn; rewrite Hf; eauto|].
      split; [done|]. split; [done|]. split; [lia|]. by left.
  - rewrite bool_decide_eq_false_2 by (by intros []). cbn [andb mbind outcome_bind].
    rewrite Hf, bool_decide_eq_false_2 by (by intros []).
    destruct (open_ok o R nr nq time) as (o2 & -> & H2 & F2 & S2 & E2 & C2 & T2); auto.
    cbn [mbind outcome_bind]. eexists. split; [done|]. split; [by apply Hlate|]. split; [done|]. split; [done|].
    split; [intros R' Hh; by erewrite (contents_open o) by done; apply holds_open|].
    cbn. split; [lia|]. left. split; [done|]. by intros [].
Qed.

(** ** Packets and frames *)

(** A packet as the matcher hands it over, whose record the format can
    write. *)
Definition item_ok (m : mem) (l : loc) : Prop :=
  destructible m l /\
  exists p q b, m !! l = Some p /\ attached m p = Ok q /\ record p q = Ok b /\ 0 <= ts p <= OMAX.

(** The record of a packet, and whether it counts as a request without
    response or as a response without request. *)
Definition record_of (m : mem) (l : loc) : list Z :=
  match m !! l with
  | Some p => match q ← attached m p; record p q with Ok b => b | Fail _ => [] end
  | None => []
  end.

Definition request_only (m : mem) (l : loc) : Z :=
  match m !! l with
  | Some p => match attached m p with Ok q => missing (DNS_PACKET_RESPONSE p q) | Fail _ => 0 end
  | None => 0
  end.

Definition response_only (m : mem) (l : loc) : Z :=
  match m !! l with
  | Some p => missing (DNS_PACKET_REQUEST p)
  | None => 0
  end.

Definition zsum (f : loc -> Z) (ls : list loc) : Z := foldr (fun l n => f l + n) 0 ls.

Lemma zsum_app f l1 l2 : zsum f (l1 ++ l2) = zsum f l1 + zsum f l2.
Proof. unfold zsum. induction l1 as [|x l1 IH]; cbn; lia. Qed.

(** The state after the packets [ls]. *)
Definition written (m : mem) (R : list (list Z)) (nr nq : Z) (ls : list loc) (o : dns_output) : Prop :=
  out_inv (R ++ map (record_of m) ls) (nr + zsum (request_only m) ls) (nq + zsum (response_only m) ls) o /\
  holds (R ++ map (record_of m) ls) (file_contents o).

Lemma written_nil m R nr nq o : out_inv R nr nq o -> holds R (file_contents o) -> written m R nr nq [] o.
Proof. intros H Hh. unfold written. cbn. by rewrite app_nil_r, !Z.add_0_r. Qed.

Lemma written_app m R nr nq l1 l2 o :
  written m (R ++ map (record_of m) l1) (nr + zsum (request_only m) l1) (nq + zsum (response_only m) l1) l2 o ->
  written m R nr nq (l1 ++ l2) o.
Proof. unfold written. by rewrite map_app, !zsum_app, !app_assoc, !Z.add_assoc. Qed.

Lemma packet_step_ok m o R nr nq l : system_ok o -> out_inv R nr nq o -> holds R (file_contents o) -> item_ok m l ->
  exists o', output_packet_step sys_open sys_spawn sys_wait m o l = Ok o' /\ written m R nr nq [l] o' /\ same_output o o'.
Proof.
  intros Sy H Hh (_ & p & q & b & Hp & Hq & Hb & Ht). unfold output_packet_step. rewrite Hp. cbn [deref mbind outcome_bind].
  destruct (rotation_ok o R nr nq (ts p) Sy H Ht) as (o1 & -> & H1 & F1 & S1 & Hh1 & _). cbn [mbind outcome_bind].
  rewrite write_packet_law, Hq by done. cbn [mbind outcome_bind]. rewrite Hb. cbn [mbind outcome_bind].
  eexists. split; [done|]. split; [|done]. unfold written, zsum, record_of, request_only, response_only.
  cbn [map foldr]. rewrite Hp, Hq. cbn [mbind outcome_bind]. rewrite Hb, !Z.add_0_r.
  destruct (emit_inv R nr nq o1 b H1 F1) as [H2 F2]. split; [by apply account_inv|].
  specialize (Hh1 R Hh). destruct F1 as [file F1]. revert Hh1. unfold file_contents. cbn. rewrite F1. cbn.
  apply holds_append.
Qed.

Lemma packets_ok m ls : forall o R nr nq, system_ok o -> out_inv R nr nq o -> holds R (file_contents o) ->
  Forall (item_ok m) ls ->
  exists o', foldM (output_packet_step sys_open sys_spawn sys_wait m) o ls = Ok o' /\
    written m R nr nq ls o' /\ same_output o o'.
Proof.
  induction ls as [|l ls IH]; intros o R nr nq Sy H Hh Hls; cbn [foldM].
  - exists o. split; [done|]. split; [by apply written_nil | done].
  - apply Forall_cons in Hls as [Hl Hls].
    destruct (packet_step_ok m o R nr nq l Sy H Hh Hl) as (o1 & -> & [H1 Hh1] & S1). cbn [mbind outcome_bind].
    destruct (IH o1 _ _ _ (system_ok_same _ _ Sy S1) H1 Hh1 Hls) as (o2 & -> & H2 & S2).
    exists o2. split; [done|]. split; [|by eapply same_output_trans]. by apply (written_app m R nr nq [l]).
Qed.

(** A regular frame: without time and empty, or with a usable time. *)
Definition out_frame_ok (f : dns_packet_frame) : Prop :=
  frame_type f <> 1 /\
  ((time_start f = DNS_NO_TIME /\ frame_count f = 0 /\ packets f = []) \/ 0 <= time_start f <= OMAX).

Lemma frame_step_ok m o R nr nq f : system_ok o -> out_inv R nr nq o -> holds R (file_contents o) ->
  out_frame_ok f -> Forall (item_ok m) (packets f) -> NoDup (flat_map (owned m) (packets f)) ->
  exists o', output_frame_step sys_open sys_spawn sys_wait m o f =
      Ok (true, delete_all (flat_map (owned m) (packets f)) m, o') /\
    written m R nr nq (packets f) o' /\ same_output o o'.
Proof.
  intros Sy H Hh [Hty Hcase] Hit Hnd. unfold output_frame_step.
  destruct (Z.eqb_spec (frame_type f) 1); [done|].
  assert (Hd : dns_packet_frame_destroy m f = Ok (delete_all (flat_map (owned m) (packets f)) m)).
  { apply foldM_destroy; [|done]. eapply Forall_impl; [exact Hit|]. by intros l []. }
  destruct Hcase as [(-> & -> & Hp)|Ht].
  - rewrite Z.eqb_refl. cbn [c_assert Z.eqb mbind outcome_bind]. rewrite Hd. cbn [mbind outcome_bind].
    exists o. rewrite Hp. split; [done|]. split; [by apply written_nil | done].
  - destruct (Z.eqb_spec (time_start f) DNS_NO_TIME); [unfold DNS_NO_TIME, OMAX in *; int_lia|].
    destruct (poll_ok o R nr nq Sy H) as (o1 & -> & H1 & S1 & E1 & C1 & _). cbn [mbind outcome_bind Z.eqb negb].
    assert (Hh1 : holds R (file_contents o1)) by (revert Hh; unfold file_contents; by rewrite E1, C1).
    destruct (rotation_ok o1 R nr nq (time_start f) (system_ok_same _ _ Sy S1) H1 Ht)
      as (o2 & -> & H2 & F2 & S2 & Hh2 & _). cbn [mbind outcome_bind].
    pose proof (same_output_trans _ _ _ S1 S2) as S12.
    destruct (packets_ok m (packets f) o2 R nr nq (system_ok_same _ _ Sy S12) H2 (Hh2 R Hh1) Hit) as (o3 & -> & H3 & S3).
    cbn [mbind outcome_bind]. rewrite Hd. cbn [mbind outcome_bind]. exists o3. split; [done|].
    split; [done|]. by eapply same_output_trans.
Qed.

(** ** Freed packets do not matter to the others *)

Lemma item_delete (m : mem) ls l : destructible m l -> (forall x, x ∈ owned m l -> x ∉ ls) ->
  record_of (delete_all ls m) l = record_of m l /\
  request_only (delete_all ls m) l = request_only m l /\
  response_only (delete_all ls m) l = response_only m l /\
  (item_ok m l -> item_ok (delete_all ls m) l).
Proof.
  intros Hd Hout. destruct (destructible_delete_all m ls l Hd Hout) as [Hd' _].
  destruct Hd as (p & Hp & Hr). unfold owned in Hout. rewrite Hp in Hout.
  assert (Hp' : delete_all ls m !! l = Some p) by (rewrite delete_all_outside; set_solver).
  assert (Hresp : attached (delete_all ls m) p = attached m p).
  { unfold attached. destruct (response p) as [r|]; [|done]. rewrite delete_all_outside; [done|].
    apply Hout. cbn. set_solver. }
  unfold record_of, request_only, response_only. rewrite Hp, Hp', Hresp. do 3 (split; [done|]).
  intros (_ & p1 & q & b & Hp1 & Hq1 & Hb & Ht). split; [done|]. exists p, q, b.
  assert (p1 = p) as -> by congruence. by rewrite Hresp.
Qed.

Lemma zsum_ext f g ls : (forall l, l ∈ ls -> f l = g l) -> zsum f ls = zsum g ls.
Proof.
  unfold zsum. induction ls as [|l ls IH]; intros H; cbn; [done|].
  rewrite (H l), IH; [done | intros; apply H; set_solver | set_solver].
Qed.

Lemma flat_map_ext_elem {A B} (f g : A -> list B) l : (forall x, x ∈ l -> f x = g x) ->
  flat_map f l = flat_map g l.
Proof.
  intros H. rewrite !flat_map_concat_map. f_equal. apply map_ext_in. intros x Hx.
  apply H. by apply list_elem_of_In.
Qed.

Lemma written_delete m del R nr nq ls o :
  (forall l, l ∈ ls -> destructible m l /\ forall x, x ∈ owned m l -> x ∉ del) ->
  written (delete_all del m) R nr nq ls o -> written m R nr nq ls o.
Proof.
  intros Hkeep. unfold written.
  rewrite (zsum_ext (request_only (delete_all del m)) (request_only m) ls),
    (zsum_ext (response_only (delete_all del m)) (response_only m) ls).
  - rewrite (map_ext_in (record_of (delete_all del m)) (record_of m) ls); [done|].
    intros l Hl%list_elem_of_In. by apply item_delete; apply Hkeep.
  - intros l Hl. by apply item_delete; apply Hkeep.
  - intros l Hl. by apply item_delete; apply Hkeep.
Qed.

Lemma output_loop_ok fs fin : forall m o R nr nq, system_ok o -> out_inv R nr nq o -> holds R (file_contents o) ->
  Forall out_frame_ok fs -> Forall (item_ok m) (flat_map packets fs) ->
  NoDup (flat_map (owned m) (flat_map packets fs)) ->
  frame_type fin = 1 -> frame_count fin = 0 -> packets fin = [] ->
  exists o', output_loop sys_open sys_spawn sys_wait m o (fs ++ [fin]) =
      Ok (delete_all (flat_map (owned m) (flat_map packets fs)) m, o') /\
    written m R nr nq (flat_map packets fs) o' /\ same_output o o'.
Proof.
  induction fs as [|f fs IH]; intros m o R nr nq Sy H Hh Hfs Hit Hnd Hty Hc Hp; cbn [app output_loop].
  - unfold output_frame_step. rewrite Hty, Hc. cbn. unfold dns_packet_frame_destroy. rewrite Hp. cbn.
    exists o. split; [done|]. split; [by apply written_nil | done].
  - apply Forall_cons in Hfs as [Hf Hfs]. cbn [flat_map] in Hit, Hnd |- *.
    apply Forall_app in Hit as [Hit1 Hit2]. rewrite flat_map_app in Hnd. apply NoDup_app in Hnd as (Hnd1 & Hdis & Hnd2).
    destruct (frame_step_ok m o R nr nq f Sy H Hh Hf Hit1 Hnd1) as (o1 & -> & [H1 Hh1] & S1). cbn [mbind outcome_bind].
    set (del := flat_map (owned m) (packets f)) in *.
    assert (Hkeep : forall l, l ∈ flat_map packets fs -> item_ok m l /\ forall x, x ∈ owned m l -> x ∉ del).
    { intros l Hl. split; [by eapply Forall_forall in Hit2|]. intros x Hx Hx'. apply (Hdis x Hx').
      apply elem_of_flat_map. eauto. }
    assert (Hown : flat_map (owned (delete_all del m)) (flat_map packets fs) = flat_map (owned m) (flat_map packets fs)).
    { apply flat_map_ext_elem. intros l Hl. destruct (Hkeep l Hl) as [[Hd _] Hout]. by apply destructible_delete_all. }
    destruct (IH (delete_all del m) o1 _ _ _ (system_ok_same _ _ Sy S1) H1 Hh1 Hfs) as (o2 & -> & H2 & S2); auto.
    { apply Forall_forall. intros l Hl. destruct (Hkeep l Hl) as [Hi Hout].
      by apply (item_delete m del l (proj1 Hi) Hout). }
    { by rewrite Hown. }
    exists o2. rewrite Hown. split; [f_equal; f_equal; by rewrite flat_map_app, delete_all_app|].
    split; [|by eapply same_output_trans]. apply written_app. eapply (written_delete m del); [|done].
    intros l Hl. destruct (Hkeep l Hl) as [[Hd _] Hout]. done.
Qed.

Lemma output_main_ok m o fs fin : system_ok o -> out_inv [] 0 0 o -> holds [] (file_contents o) ->
  Forall out_frame_ok fs -> Forall (item_ok m) (flat_map packets fs) ->
  NoDup (flat_map (owned m) (flat_map packets fs)) ->
  frame_type fin = 1 -> frame_count fin = 0 -> packets fin = [] ->
  let ls := flat_map packets fs in
  exists o', dns_output_main sys_open sys_spawn sys_wait m o (fs ++ [fin]) =
      Ok (delete_all (flat_map (owned m) ls) m, o') /\ written m [] 0 0 ls o' /\ o_file o' = None.
Proof.
  intros Sy H Hh Hfs Hit Hnd Hty Hc Hp ls. unfold dns_output_main.
  destruct (output_loop_ok fs fin m o [] 0 0 Sy H Hh Hfs Hit Hnd Hty Hc Hp) as (o1 & -> & [H1 Hh1] & S1).
  cbn [mbind outcome_bind]. destruct (o_file o1) as [file|] eqn:Hf.
  - rewrite bool_decide_eq_true_2 by eauto.
    destruct (oi_opened _ _ _ _ H1) as [Hop Hle]; [rewrite Hf; eauto|].
    destruct (close_ok o1 _ _ _ (o_current_time o1) file (system_ok_same _ _ Sy S1) H1 Hf)
      as (o2 & path & -> & H2 & F2 & _ & C2 & _).
    { destruct (oi_current _ _ _ _ H1) as [E|?]; [unfold DNS_NO_TIME in E; int_lia | lia]. }
    cbn [mbind outcome_bind]. exists o2. split; [done|]. split; [|done]. split; [done|].
    by rewrite (contents_close o1 o2 file path).
  - rewrite bool_decide_eq_false_2 by (by intros []). cbn [mbind outcome_bind]. exists o1. done.
Qed.

(** ** Properties *)

(** C9: before a packet of time [time] is written the output is open, and
    with a rotation period its file was opened at most one period before
    [time].  A file is closed, with all its bytes, only when more than a
    period has passed since it was opened; otherwise it stays open. *)
Theorem output_rotation (o : dns_output) (R : list (list Z)) (nr nq time : Z) :
  system_ok o -> out_inv R nr nq o -> 0 <= time <= OMAX ->
  exists o', dns_output_check_rotation sys_open sys_spawn sys_wait o time = Ok o' /\
    is_Some (o_file o') /\
    (o_period_sec o > 0 -> time <= o_opened o' + 1000000 * o_period_sec o) /\
    (o_closed o' = o_closed o /\ (is_Some (o_file o) -> o_opened o' = o_opened o) \/
     exists file path, o_file o = Some file /\ o_closed o' = o_closed o ++ [(o_opened o, path, file)] /\
       o_opened o' = time /\ o_opened o + 1000000 * o_period_sec o < time).
Proof.
  intros Sy H Ht. destruct (rotation_ok o R nr nq time Sy H Ht) as (o' & Hr & _ & Hf & _ & _ & Hp & Hc).
  exists o'. done.
Qed.

(** C8: the output thread, given regular frames followed by the final frame
    and a system that opens its files, terminates without failure.  The files,
    in the order they were opened, hold the records of all packets in order,
    each exactly once and each file starting with the format's header; every
    file is closed, all packets and their responses are freed, and the totals
    are the numbers of packets, of requests without response, of responses
    without request and of bytes in the closed files. *)
Theorem output_complete (m : mem) (path cmd : option (list Z)) (period : Z)
    (fs : list dns_packet_frame) (fin : dns_packet_frame) :
  system_ok (dns_output_init path cmd period) -> - 2 ^ 31 <= period < 2 ^ 31 ->
  Forall out_frame_ok fs -> Forall (item_ok m) (flat_map packets fs) ->
  NoDup (flat_map (owned m) (flat_map packets fs)) ->
  frame_type fin = 1 -> frame_count fin = 0 -> packets fin = [] ->
  let ls := flat_map packets fs in
  exists o', dns_output_main sys_open sys_spawn sys_wait m (dns_output_init path cmd period) (fs ++ [fin]) =
      Ok (delete_all (flat_map (owned m) ls) m, o') /\
    o_file o' = None /\
    holds (map (record_of m) ls) (map (fun x : Z * list Z * list Z => x.2) (o_closed o')) /\
    u64 (total_items o') = u64 (Z.of_nat (length ls)) /\
    u64 (total_request_only o') = u64 (zsum (request_only m) ls) /\
    u64 (total_response_only o') = u64 (zsum (response_only m) ls) /\
    total_bytes o' = u64 (closed_bytes o').
Proof.
  intros Sy Hper Hfs Hit Hnd Hty Hc Hp ls.
  assert (Hh : holds [] (file_contents (dns_output_init path cmd period))) by (by exists []).
  destruct (output_main_ok m _ fs fin Sy (init_inv path cmd period Hper) Hh Hfs Hit Hnd Hty Hc Hp)
    as (o' & Hrun & [H Hw] & Hf).
  exists o'. split; [done|]. split; [done|]. destruct (oi_idle _ _ _ _ H Hf) as (E1 & E2 & E3).
  split. { revert Hw. unfold file_contents. rewrite Hf. by rewrite app_nil_r. }
  pose proof (oi_items _ _ _ _ H) as I1. pose proof (oi_request_only _ _ _ _ H) as I2.
  pose proof (oi_response_only _ _ _ _ H) as I3. rewrite E1, E2, E3, !Z.add_0_r in *. cbn [app] in I1.
  rewrite length_map in I1. do 3 (split; [done|]). apply H.
Qed.

End inv.

(** ** Closed examples *)

Section examples.
#[local] Existing Instances Sample.sample_knot sample_libc.

(** A system that answers, and CBOR output of all columns. *)
Definition ok_open : nat -> bool := fun _ => true.
Definition ok_spawn : nat -> spawn := fun _ => {| sp_pipe := 0; sp_fork := 1; sp_close := 0 |}.
Definition ok_wait : bool -> nat -> wait_result := fun wait _ => if wait then WaitExited 0 else WaitRunning.

#[local] Instance sample_format : OutputFormat := cbor_format {| oc_fields := ALL_FIELDS |}.

Definition start_output : dns_output := dns_output_init (Some (bytes_of_string "out")) None 60.

Lemma sample_system : system_ok ok_open ok_spawn ok_wait start_output.
Proof.
  split; try done; [by intros n; eexists|..].
  - intros o' time (_ & Hp & _) Ht. unfold expand_path. rewrite Hp. cbn [start_output dns_output_init o_path_fmt default].
    exists (bytes_of_string "out"). unfold dns_us_time_strftime.
    rewrite c_assert_true; [reflexivity|]. apply negb_true_iff, Z.eqb_neq. unfold DNS_NO_TIME, OMAX in *. int_lia.
  - intros o' time Hf Ht. eexists. by apply (cbor_start_file_ok {| oc_fields := ALL_FIELDS |}).
Qed.

(** An answered query and an unanswered one. *)
Definition out_mem : gmap loc dns_packet :=
  {[ 1%positive := set_response (packet_of sample_query) (Some 2%positive);
     2%positive := packet_of sample_answer; 3%positive := packet_of sample_query ]}.

Definition out_frames : list dns_packet_frame :=
  [ {| time_start := 100000000; time_end := 100003000; frame_type := 0;
       packets := [1; 3]%positive; frame_count := 2; frame_size := 0 |} ].

Definition query_pair : dns_packet := set_response (packet_of sample_query) (Some 2%positive).

Definition succeeds {A} (o : outcome A) : bool := match o with Ok _ => true | Fail _ => false end.

Lemma succeeds_Ok {A} (o : outcome A) : succeeds o = true -> exists a, o = Ok a.
Proof. destruct o; [eauto | done]. Qed.

Lemma sample_item l p q : out_mem !! l = Some p -> attached out_mem p = Ok q -> destructible out_mem l ->
  0 <= ts p <= OMAX -> succeeds (record p q) = true -> item_ok out_mem l.
Proof. intros Hp Hq Hd Ht [b Hb]%succeeds_Ok. split; [done|]. by exists p, q, b. Qed.

Lemma sample_items_ok : Forall (item_ok out_mem) [1; 3]%positive.
Proof.
  apply Forall_cons. split; [|apply Forall_singleton].
  - apply (sample_item _ query_pair (Some (packet_of sample_answer))); [reflexivity | reflexivity | | by vm_compute | vm_compute; reflexivity].
    exists query_pair. split; [reflexivity|]. intros r [= <-]. split; [done|]. eexists. split; reflexivity.
  - apply (sample_item _ (packet_of sample_query) None); [reflexivity | reflexivity | | by vm_compute | vm_compute; reflexivity].
    exists (packet_of sample_query). by split.
Qed.

Lemma output_rotation_witness : exists o',
  dns_output_check_rotation ok_open ok_spawn ok_wait start_output 100000000 = Ok o' /\ is_Some (o_file o').
Proof.
  destruct (output_rotation ok_open ok_spawn ok_wait start_output [] 0 0 100000000) as (o' & H & Hf & _).
  - apply sample_system.
  - by apply init_inv.
  - by vm_compute.
  - exists o'. split; [exact H | exact Hf].
Defined.

Lemma output_complete_witness : exists o',
  dns_output_main ok_open ok_spawn ok_wait out_mem start_output (out_frames ++ [dns_packet_frame_create_final 100003000]) =
    Ok (delete_all [1; 2; 3]%positive out_mem, o') /\
  o_file o' = None /\ u64 (total_items o') = 2 /\ u64 (total_request_only o') = 1.
Proof.
  destruct (output_complete ok_open ok_spawn ok_wait out_mem (Some (bytes_of_string "out")) None 60 out_frames
              (dns_packet_frame_create_final 100003000)) as (o' & H & Hf & _ & Ht & Hr & _).
  - apply sample_system.
  - done.
  - unfold out_frames. apply Forall_singleton. split; [done|]. right. by vm_compute.
  - apply sample_items_ok.
  - apply (bool_decide_eq_true_1 (NoDup _)). by vm_compute.
  - done.
  - done.
  - done.
  - exists o'. split; [exact H|]. split; [done|]. split; [exact Ht | exact Hr].
Defined.

End examples.
