(* ===== verification/Pipeline.v ===== *)
(** * The main program ([src/main.c])

    [main] configures the collector, builds the pipeline input - queue -
    matcher - queue - output, feeds it from files or a live capture, waits
    for the threads and frees everything.  The threads communicate only
    through the two frame queues, and a frame hands its packets over with
    itself; [FrameChannel] shows that whatever the schedule, a consumer
    receives exactly the frames the producer sent, in order, and
    [PipelineThreads] that this holds of the three threads together.  The model
    therefore runs the threads one after the other and passes the frames
    through the queues one by one ([transfer]).  Log messages are
    not modelled.  The arguments of the program are given as the parser of the
    command line ([Options]) leaves them; [Collector] puts the two together. *)

From stdpp Require Import base numbers strings gmap list sorting.
From S2P Require Import Prelude Doubles Common Libs Packet PacketFrame FrameQueue PacketHash.
From S2P Require Import Matcher MatcherInv MatcherMain Config TimeFmt Dump Input InputInv.
From S2P Require Import Output CborEncoder OutputCbor OutputCsv OutputInv.

Section whole_run.
Context `{K : Libknot} `{L : Libc} `{T : Libtrace}.
Context (clock : nat -> Z) (trace_dropped : nat -> Z).
Context (sys_open : nat -> bool) (sys_spawn : nat -> spawn) (sys_wait : bool -> nat -> wait_result).
Context (sys_header : nat -> bool) (random1 random2 : Z).

Abbreviation mem := (gmap loc dns_packet).

(** A file of the command line with what the system and libtrace answer for
    it: whether [fopen] succeeds, the opening of the trace, its events. *)
Record input_file : Type := {
  fl_name : list Z;
  fl_fopen : bool;
  fl_open : open_env;
  fl_turns : list turn;
}.

(** The arguments: [main_inputs], [main_interface], [main_output_path]; and
    the answers for a live capture. *)
Record arguments : Type := {
  main_inputs : list input_file;
  main_interface : option (list Z);
  main_output_path : option (list Z);
  live_open : open_env;
  live_turns : list turn;
}.

Definition set_paths (conf : dns_config) (uri path : list Z) : dns_config :=
  {| max_frame_duration_sec := max_frame_duration_sec conf; max_frame_size := max_frame_size conf;
     max_queue_len := max_queue_len conf; report_period_sec := report_period_sec conf;
     input_uri := uri; input_filter := input_filter conf; input_snaplen := input_snaplen conf;
     input_promiscuous := input_promiscuous conf;
     input_real_time_grace_sec := input_real_time_grace_sec conf;
     dump_path_fmt := dump_path_fmt conf; dump_period_sec := dump_period_sec conf;
     dump_compress_level := dump_compress_level conf; dump_compress_type := dump_compress_type conf;
     dump_rate_limit := dump_rate_limit conf; match_window_sec := match_window_sec conf;
     match_qname := match_qname conf; output_type := output_type conf;
     output_path_fmt := path; output_pipe_cmd := output_pipe_cmd conf;
     output_period_sec := output_period_sec conf; csv_separator := csv_separator conf;
     csv_inline_header := csv_inline_header conf;
     csv_external_header_path_fmt := csv_external_header_path_fmt conf;
     csv_fields := csv_fields conf; cbor_fields := cbor_fields conf |}.

(** The checks of the arguments: the final configuration, or [None] when the
    program exits with code 2. *)
Definition configure (a : arguments) (conf : dns_config) : outcome (option dns_config) :=
  let conf := match main_interface a with
              | Some u => set_paths conf u (output_path_fmt conf)
              | None => conf
              end in
  if bool_decide (is_Some (main_interface a)) && negb (bool_decide (length (main_inputs a) = O)) then Ok None
  else
    let conf := match main_output_path a with
                | Some p => set_paths conf (input_uri conf) p
                | None => conf
                end in
    if bool_decide (output_path_fmt conf = []) then Fail (Died "Configure the output"%string)
    else if bool_decide (length (main_inputs a) = O) && bool_decide (input_uri conf = []) then Ok None
    else Ok (Some conf).

(** The [switch] on the output type. *)
Definition create_output (conf : dns_config) : outcome (dns_output * OutputFormat) :=
  if output_type conf =? DNS_OUTPUT_TYPE_CSV then
    let '(o, c) := dns_output_csv_create conf in Ok (o, csv_format sys_header c)
  else if output_type conf =? DNS_OUTPUT_TYPE_CBOR then
    let '(o, c) := dns_output_cbor_create conf in Ok (o, cbor_format c)
  else Fail (Died "Invalid output type"%string).

(** [snprintf(fn, sizeof(fn), "pcapfile:%s", *in)] with [char fn[1024]]. *)
Definition file_uri (name : list Z) : list Z := take 1023 (bytes_of_string "pcapfile:" ++ name).

(** The loop over the files; a result other than [DNS_RET_OK] is only
    reported.  [first] is [in == main_inputs]. *)
Fixpoint process_files (first : bool) (i : dns_input) (files : list input_file) : outcome dns_input :=
  match files with
  | [] => Ok i
  | f :: files =>
      if fl_fopen f then
        '(_, i) ← dns_input_process clock trace_dropped (fl_open f) i (Some (file_uri (fl_name f))) (fl_turns f);
        process_files false i files
      else if first then Fail (Died "No output written."%string) else Ok i
  end.

(** The inputs are run: files, or a live capture. *)
Definition run_inputs (a : arguments) (i : dns_input) : outcome dns_input :=
  match main_inputs a with
  | [] => '(_, i) ← dns_input_process clock trace_dropped (live_open a) (set_source i (i_uri i) true) None (live_turns a);
          Ok i
  | files => process_files true i files
  end.

(** [dns_worker_packet_matcher_start] and [dns_worker_packet_matcher_destroy];
    [running] is whether the mutex of that name is held. *)
Definition dns_worker_packet_matcher_start (pm : matcher) (running : bool) : outcome unit :=
  if running then Fail (Died "starting a running worker"%string)
  else _ ← dns_us_time_to_fsec (pm_matching_duration pm); Ok ().

Definition dns_worker_packet_matcher_destroy (pm : matcher) (running : bool)
    : outcome (gmap loc dns_packet_hash_bucket) :=
  if running then Fail (Died "destroying a running logger"%string)
  else dns_packet_hash_destroy (pm_hash pm).

(** [dns_output_start]. *)
Definition dns_output_start (running : bool) : outcome unit :=
  if running then Fail (Died "starting a running output thread"%string) else Ok ().

(** Frames through a queue: each is enqueued and dequeued by the consumer. *)
Definition transfer_step (s : list dns_packet_frame * dns_frame_queue) (f : dns_packet_frame)
    : outcome (list dns_packet_frame * dns_frame_queue) :=
  let '(got, q) := s in
  r ← dns_frame_queue_enqueue (Some q) f;
  match r with
  | Some (Some q, []) =>
      r ← dns_frame_queue_dequeue q;
      match r with
      | Some (g, q) => Ok (got ++ [g], q)
      | None => Fail Blocked
      end
  | _ => Fail Blocked
  end.

Definition transfer (q : dns_frame_queue) (fs : list dns_packet_frame)
    : outcome (list dns_packet_frame * dns_frame_queue) := foldM transfer_step ([], q) fs.

(** What is left when the program ends: packets and hash buckets in memory,
    and the state of the output. *)
Record ending : Type := {
  e_mem : mem;
  e_buckets : gmap loc dns_packet_hash_bucket;
  e_output : dns_output;
}.

(** The pipeline of a checked configuration. *)
Definition run_pipeline (a : arguments) (conf : dns_config) : outcome ending :=
  let q_input_matcher := dns_frame_queue_create (max_queue_len conf) DNS_QUEUE_BLOCK in
  let q_matcher_output := dns_frame_queue_create (max_queue_len conf) DNS_QUEUE_BLOCK in
  i ← dns_input_create conf;
  pm ← dns_worker_packet_matcher_create ∅ (match_window_sec conf) (max_frame_duration_sec conf)
         (negb (match_qname conf =? 0)) (max_frame_size conf) random1 random2 [] true;
  '(o, F) ← create_output conf;
  _ ← dns_worker_packet_matcher_start pm false;
  _ ← dns_output_start false;
  i ← run_inputs a i;
  i ← dns_input_finish clock trace_dropped i;
  '(fs, q_input_matcher) ← transfer q_input_matcher (i_output i);
  pm ← dns_worker_packet_matcher_main (with_in (with_mem pm (i_mem i)) fs);
  '(fs, q_matcher_output) ← transfer q_matcher_output (pm_out pm);
  '(m, o) ← dns_output_main sys_open sys_spawn sys_wait (F := F) (pm_mem pm) o fs;
  _ ← dns_input_destroy i;
  b ← dns_worker_packet_matcher_destroy pm false;
  _ ← dns_output_finalize o false;
  _ ← dns_frame_queue_destroy q_input_matcher;
  _ ← dns_frame_queue_destroy q_matcher_output;
  Ok {| e_mem := m; e_buckets := b; e_output := o |}.

(** [main] from the checks of its arguments: the exit code, with what the
    pipeline left when it ran.  The options before and the set-up of the logs
    between the checks and the pipeline are added by [Collector.collector_main]. *)
Definition main (a : arguments) (conf : dns_config) : outcome (Z * option ending) :=
  c ← configure a conf;
  match c with
  | None => Ok (2, None)
  | Some conf => e ← run_pipeline a conf; Ok (0, Some e)
  end.

End whole_run.
