(* ===== verification/PipelineInv.v ===== *)
(** * Correctness of the collector as a whole

    The components' theorems composed along the pipeline of [Pipeline]: the
    packets the input accepts are those of the matcher's input, the matcher's
    items are those the output writes, and nothing is left in memory. *)

From stdpp Require Import base numbers strings gmap list sorting.
From S2P Require Import Prelude Doubles Common Libs Packet PacketFrame FrameQueue PacketHash.
From S2P Require Import Matcher MatcherInv MatcherMain Config TimeFmt Dump Input InputInv.
From S2P Require Import Output CborEncoder OutputCbor OutputCsv OutputInv Pipeline.

Section inv.
Context `{K : Libknot} `{L : Libc} `{T : Libtrace}.
Context (clock : nat -> Z) (trace_dropped : nat -> Z).
Context (sys_open : nat -> bool) (sys_spawn : nat -> spawn) (sys_wait : bool -> nat -> wait_result).
Context (sys_header : nat -> bool) (random1 random2 : Z).
Context (Hclock : forall n, 0 <= clock n <= TMAX).

Abbreviation mem := (gmap loc dns_packet).

(** ** The queues *)

Lemma transfer_steps fs : forall q got, represents q [] -> q_on_full q = DNS_QUEUE_BLOCK ->
  exists q', foldM transfer_step (got, q) fs = Ok (got ++ fs, q') /\ represents q' [].
Proof.
  induction fs as [|f fs IH]; intros q got R Hb; cbn [foldM].
  - exists q. by rewrite app_nil_r.
  - pose proof (enqueue_represents q f [] R) as He. pose proof (FrameQueue.rep_capacity _ _ R) as Hc.
    unfold enqueue_spec in He. rewrite (proj2 (Z.ltb_lt (Z.of_nat (length [])) (q_capacity q))) in He by (cbn; lia).
    destruct He as (q1 & E1 & R1 & _ & B1). pose proof (dequeue_represents q1 _ R1) as (q2 & E2 & R2 & _ & B2).
    assert (transfer_step (got, q) f = Ok (got ++ [f], q2)) as ->.
    { unfold transfer_step. rewrite E1. cbn [mbind outcome_bind]. by rewrite E2. }
    cbn [mbind outcome_bind]. destruct (IH q2 (got ++ [f]) R2) as (q' & -> & R'); [congruence|].
    exists q'. by rewrite <- app_assoc.
Qed.

Lemma transfer_ok cap fs : 0 < cap < 2 ^ 63 ->
  exists q', transfer (dns_frame_queue_create cap DNS_QUEUE_BLOCK) fs = Ok (fs, q') /\
    dns_frame_queue_destroy q' = Ok [].
Proof.
  intros Hc. destruct (transfer_steps fs _ [] (create_represents cap DNS_QUEUE_BLOCK Hc) eq_refl) as (q' & Ht & R).
  exists q'. split; [exact Ht|]. apply frame_queue_destroy_unrotated; [done|].
  by right.
Qed.

(** ** The inputs *)

(** A file that can be read to its end, or whose trace cannot be created. *)
Definition file_ok (f : input_file) : Prop :=
  opens (fl_open f) /\ turns_ok (fl_turns f) \/ oe_trace_err (fl_open f) = true.

(** The packets accepted from a file, and from the files up to the first one
    that cannot be opened. *)
Definition file_packets (f : input_file) : list dns_packet :=
  if oe_trace_err (fl_open f) then [] else captured (fl_turns f).

Fixpoint files_packets (files : list input_file) : list dns_packet :=
  match files with
  | [] => []
  | f :: files => if fl_fopen f then file_packets f ++ files_packets files else []
  end.

(** No trace is open and no dump is made. *)
Definition idle (i : dns_input) : Prop :=
  i_trace i = false /\ i_packet i = false /\ i_bpf_filter i = false /\ i_dumper i = None.

Lemma file_step ord acc i f fl : input_inv ord acc i f -> idle i -> i_online i = false -> file_ok fl ->
  (ord -> follows (time_end f) (file_packets fl)) ->
  exists r i' f', dns_input_process clock trace_dropped (fl_open fl) i (Some (file_uri (fl_name fl))) (fl_turns fl) =
      Ok (r, i') /\
    input_inv ord (acc ++ file_packets fl) i' f' /\ idle i' /\ i_online i' = false /\
    i_frame_max_duration i' = i_frame_max_duration i /\
    (ord -> time_end f' = reached (time_end f) (file_packets fl)).
Proof.
  intros H (Ht & Hp & Hb & Hd) Hon Hok Hord. unfold file_packets in *.
  destruct (oe_trace_err (fl_open fl)) eqn:He.
  - unfold dns_input_process, dns_input_trace_open. rewrite Hon. cbn. rewrite Ht, Hp. cbn. rewrite He. cbn.
    eexists _, _, f. split; [reflexivity|]. rewrite app_nil_r.
    split; [by do 2 apply input_inv_trace; apply input_inv_source|]. by repeat split.
  - destruct Hok as [[Ho Hturns]|?]; [|congruence].
    destruct (process_ok clock trace_dropped Hclock ord acc i f (fl_open fl) (Some (file_uri (fl_name fl))) (fl_turns fl))
      as (r & i' & Hrun & f' & H' & C' & O' & F' & T' & P' & B' & D' & E'); auto.
    exists r, i', f'. split; [done|]. split; [done|]. split; [done|]. split; [congruence|]. done.
Qed.

Lemma process_files_ok ord files : forall first acc i f, input_inv ord acc i f -> idle i -> i_online i = false ->
  Forall file_ok files -> (first = true -> exists fl rest, files = fl :: rest /\ fl_fopen fl = true) ->
  (ord -> follows (time_end f) (files_packets files)) ->
  exists i' f', process_files clock trace_dropped first i files = Ok i' /\
    input_inv ord (acc ++ files_packets files) i' f' /\ idle i' /\ i_online i' = false /\
    i_frame_max_duration i' = i_frame_max_duration i.
Proof.
  induction files as [|fl files IH]; intros first acc i f H Hi Hon Hok Hfirst Hord; cbn [process_files files_packets] in *.
  - exists i, f. by rewrite app_nil_r.
  - apply Forall_cons in Hok as [Hfl Hok]. destruct (fl_fopen fl) eqn:Hopen.
    + destruct (file_step ord acc i f fl) as (r & i1 & f1 & -> & H1 & I1 & O1 & F1 & E1); auto.
      { intros Ho. specialize (Hord Ho). revert Hord. unfold follows. rewrite map_app.
        intros Hs. change (time_end f :: ?a ++ ?b) with ((time_end f :: a) ++ b) in Hs.
        by apply StronglySorted_app_1_l in Hs. }
      cbn [mbind outcome_bind].
      destruct (IH false (acc ++ file_packets fl) i1 f1) as (i' & f' & -> & H' & I' & O' & F'); auto; [done| |].
      { intros Ho. rewrite E1 by done. apply follows_app. auto. }
      exists i', f'. rewrite app_assoc. split; [done|]. split; [done|]. split; [done|]. split; [done|]. congruence.
    + destruct first; [|exists i, f; by rewrite app_nil_r].
      destruct (Hfirst eq_refl) as (fl' & rest & [= <- <-] & Hf'). congruence.
Qed.

(** What the arguments make the collector read, and the packets accepted. *)
Definition inputs_ok (a : arguments) : Prop :=
  match main_inputs a with
  | [] => opens (live_open a) /\ turns_ok (live_turns a)
  | fl :: _ => fl_fopen fl = true /\ Forall file_ok (main_inputs a)
  end.

Definition accepted_packets (a : arguments) : list dns_packet :=
  match main_inputs a with
  | [] => captured (live_turns a)
  | files => files_packets files
  end.

Lemma files_packets_ts files p : Forall file_ok files -> p ∈ files_packets files -> 0 <= ts p <= TMAX.
Proof.
  induction files as [|fl files IH]; cbn; [set_solver|]. intros [Hfl Hok]%Forall_cons.
  destruct (fl_fopen fl); [|set_solver]. unfold file_packets. intros [Hp|Hp]%elem_of_app; [|auto].
  destruct (oe_trace_err (fl_open fl)) eqn:E; [set_solver|].
  destruct Hfl as [[_ Hturns]|?]; [|congruence]. by eapply captured_ts.
Qed.

(** The inputs are read and closed. *)
Definition read_inputs (a : arguments) (i : dns_input) : outcome dns_input :=
  i ← run_inputs clock trace_dropped a i; dns_input_finish clock trace_dropped i.

Lemma read_inputs_ok conf i a (ord : Prop) : dns_input_create conf = Ok i -> input_config i -> inputs_ok a ->
  (ord -> main_inputs a <> [] /\ StronglySorted Z.le (map ts (accepted_packets a))) ->
  exists i' j f fin, read_inputs a i = Ok i' /\ input_inv ord (accepted_packets a) j f /\
    i_output i' = (i_output j ++ [f]) ++ [fin] /\ frame_type fin = 1 /\ packets fin = [] /\
    i_mem i' = i_mem j /\ dns_input_destroy i' = Ok ().
Proof.
  intros Hcr C Hok Hord. destruct (create_input_inv conf i ord Hcr C) as (H & Ht & Hp & Hb & Hon).
  set (f0 := dns_packet_frame_create DNS_NO_TIME DNS_NO_TIME) in *.
  assert (Hrun : exists j f, run_inputs clock trace_dropped a i = Ok j /\ input_inv ord (accepted_packets a) j f /\
            clocked j f /\ idle j).
  { unfold run_inputs, inputs_ok, accepted_packets in *. destruct (main_inputs a) as [|fl files] eqn:Hin.
    - destruct Hok as [Ho Hturns].
      destruct (process_ok clock trace_dropped Hclock ord [] (set_source i (i_uri i) true) f0 (live_open a) None (live_turns a))
        as (r & j & -> & f & Hj & Cj & _ & _ & Tj & Pj & Bj & Dj & _); auto.
      + by apply input_inv_source.
      + apply C.
      + intros Ho'. by destruct (Hord Ho').
      + exists j, f. done.
    - destruct Hok as [Hf Hok].
      destruct (process_files_ok ord (fl :: files) true [] i f0) as (j & f & Hrun & Hj & Ij & Oj & _); auto.
      + split; [done|]. split; [done|]. split; [done|]. apply C.
      + intros _. eauto.
      + intros Ho. destruct (Hord Ho) as [_ Hs]. unfold follows. constructor; [done|].
        apply Forall_forall. intros x (p & -> & Hx)%list_elem_of_fmap.
        pose proof (files_packets_ts _ p Hok Hx). cbn. unfold DNS_NO_TIME, INT64_MIN. lia.
      + exists j, f. split; [done|]. split; [done|]. split; [|done]. intros Hon'. congruence. }
  destruct Hrun as (j & f & Hrun & Hj & Cj & Tj & Pj & Bj & Dj).
  destruct (finish_ok clock trace_dropped Hclock ord _ j f Hj Cj Dj)
    as (i' & fin & Hfin & Ho & Hty & Hpk & Hm & Hfr & Ht' & Hp' & Hd').
  exists i', j, f, fin. unfold read_inputs. rewrite Hrun. cbn [mbind outcome_bind].
  do 6 (split; [done|]). unfold dns_input_destroy. by rewrite Ht', Hp', Hfr, Hd', Tj, Pj.
Qed.

(** ** From the input to the matcher *)

Lemma input_frame_in m fmd f : input_frame m fmd f -> in_frame_ok f.
Proof.
  intros [Hty Hcase]. split; [lia|]. destruct Hcase as [(Hs & _ & Hp & Hc)|[Hst He _ _ _]].
  - left. split; [|done]. unfold skipped. by rewrite Hc, Hs.
  - right. lia.
Qed.

Lemma map_lookup_some (m : mem) ls acc : map (m !!.) ls = map Some acc ->
  forall l, l ∈ ls -> exists p, p ∈ acc /\ m !! l = Some p.
Proof.
  revert acc; induction ls as [|x ls IH]; intros acc E l Hl; [set_solver|].
  destruct acc as [|p acc]; [done|]. cbn in E. injection E as Ep E.
  apply elem_of_cons in Hl as [->|Hl]; [exists p; set_solver|].
  destruct (IH acc E l Hl) as (q & ? & ?). exists q. set_solver.
Qed.

(** A matcher whose input is what the input component handed over. *)
Lemma matcher_ready conf pm0 ord acc j f fin :
  dns_worker_packet_matcher_create ∅ (match_window_sec conf) (max_frame_duration_sec conf)
    (negb (match_qname conf =? 0)) (max_frame_size conf) random1 random2 [] true = Ok pm0 ->
  config_ok pm0 -> 256 < u64 (random1 + u64 (Z.shiftl random2 32)) ->
  input_inv ord acc j f -> frame_type fin = 1 -> packets fin = [] ->
  Z.of_nat (length acc) < 2 ^ 53 ->
  let input := (i_output j ++ [f]) ++ [fin] in
  let pm := with_in (with_mem pm0 (i_mem j)) input in
  dns_worker_packet_matcher_create (i_mem j) (match_window_sec conf) (max_frame_duration_sec conf)
    (negb (match_qname conf =? 0)) (max_frame_size conf) random1 random2 input true = Ok pm /\
  ready pm random1 random2 /\ todo pm = flat_map packets (i_output j ++ [f]) /\
  (ord -> in_order (pm_mem pm) pm).
Proof.
  intros Hcr C Hseed H Hty Hp Hsm input pm.
  assert (Htodo : todo pm = flat_map packets (i_output j ++ [f])).
  { unfold todo, pm. unfold dns_worker_packet_matcher_create in Hcr. inv_ok. cbn. unfold input.
    rewrite (flat_map_app packets (i_output j ++ [f])). cbn. by rewrite Hp, !app_nil_r. }
  split; [|split; [|split; [done|]]].
  - unfold dns_worker_packet_matcher_create in *. subst pm.
    destruct (dns_fsec_to_us_time (match_window_sec conf)) as [md|]; [cbn in * |done].
    destruct (dns_fsec_to_us_time (max_frame_duration_sec conf)) as [fd|]; [cbn in * |done].
    destruct (md >? 0); [cbn in * |done]. by injection Hcr as <-.
  - split.
    + unfold dns_worker_packet_matcher_create in Hcr. inv_ok. by destruct C.
    + done.
    + exists (i_output j ++ [f]), fin. split; [done|]. split; [|done].
      eapply Forall_impl; [apply (ii_frames _ _ _ _ H)|]. intros g. apply input_frame_in.
    + rewrite Htodo. apply H.
    + rewrite Htodo. intros l Hl. destruct (map_lookup_some _ _ _ (ii_packets _ _ _ _ H) l Hl) as (p & Hin & Hlp).
      exists p. split; [done|]. pose proof (ii_acc _ _ _ _ H) as Hacc. rewrite Forall_forall in Hacc. by apply Hacc.
    + rewrite Htodo. apply (f_equal length) in Htodo. pose proof (f_equal length (ii_packets _ _ _ _ H)) as E.
      rewrite !length_map in E. by rewrite E.
  - intros Ho. unfold in_order, upcoming, pm. unfold dns_worker_packet_matcher_create in Hcr. inv_ok. cbn.
    unfold input. rewrite flat_map_app. cbn [flat_map].
    replace (frame_times (i_mem j) fin) with (@nil Z) by (unfold frame_times; by rewrite Hty).
    rewrite !app_nil_r. constructor; [by apply H|].
    apply Forall_forall. intros t Ht. apply elem_of_flat_map in Ht as (g & Hg & Ht).
    pose proof (ii_frames _ _ _ _ H) as Hfr. rewrite Forall_forall in Hfr. destruct (Hfr g Hg) as [Hgt Hcase].
    unfold frame_times in Ht. rewrite Hgt in Ht. cbn in Ht.
    destruct (skipped g) eqn:Hsk; [set_solver|]. destruct Hcase as [(E1 & _ & _ & E2)|Tg].
    { unfold skipped in Hsk. by rewrite E1, E2 in Hsk. }
    unfold DNS_NO_TIME, INT64_MIN.
    apply elem_of_cons in Ht as [->|[(l & -> & Hl)%list_elem_of_fmap| ->%list_elem_of_singleton]%elem_of_app].
    + pose proof (tm_start _ _ _ Tg). lia.
    + assert (l ∈ flat_map packets (i_output j ++ [f])) as Hlin by (apply elem_of_flat_map; eauto).
      destruct (map_lookup_some _ _ _ (ii_packets _ _ _ _ H) l Hlin) as (p & Hin & Hlp).
      pose proof (ii_acc _ _ _ _ H) as Hacc. rewrite Forall_forall in Hacc. destruct (Hacc p Hin) as [_ ?].
      unfold ts_at. rewrite Hlp. cbn. lia.
    + pose proof (tm_start _ _ _ Tg). lia.
Qed.

(** ** From the matcher to the output *)

(** The packet at [l] with its attached response. *)
Definition item_at (m : mem) (l : loc) (it : dns_packet * option dns_packet) : Prop :=
  m !! l = Some it.1 /\ attached m it.1 = Ok it.2.

(** The packets of an item as they were captured. *)
Definition item_packets (it : dns_packet * option dns_packet) : list dns_packet :=
  set_response it.1 None :: option_list it.2.

(** [q] answers [p], by name too if [mq]. *)
Definition answers (mq : bool) (p q : dns_packet) : Prop :=
  DNS_PACKET_IS_REQUEST p = true /\ DNS_PACKET_IS_REQUEST q = false /\ packet_key p = packet_key q /\
  (mq = true -> dns_packet_qname_match p q = Ok true).

(** The format can write the record of every packet that may come out. *)
Definition writable (F : OutputFormat) (acc : list dns_packet) : Prop :=
  forall p q r, p ∈ acc -> (forall q', q = Some q' -> q' ∈ acc) -> exists b, record (set_response p r) q = Ok b.

Lemma set_response_self p : set_response (set_response p None) (response p) = p.
Proof. by destruct p. Qed.

Section handover.
Context (pm pm' : matcher) (acc : list dns_packet) (F : OutputFormat).
Context (H : heap_inv (pm_mem pm) (todo pm) [] pm').
Context (Hacc : map (pm_mem pm !!.) (todo pm) = map Some acc).

Lemma item_in_acc l : l ∈ items pm' -> exists p, pm_mem pm' !! l = Some p /\ set_response p None ∈ acc /\
  0 <= ts p <= TMAX.
Proof.
  intros Hl. pose proof (hi_items_read _ _ _ _ _ H Hl) as Hin.
  destruct (hi_packet _ _ _ _ l H) as (p & p0 & Hp & Hp0 & E & Ht); [set_solver|].
  destruct (map_lookup_some _ _ _ Hacc l Hin) as (p1 & Hp1 & E1). rewrite Hp0 in E1. injection E1 as ->.
  exists p. by rewrite E.
Qed.

(** A response attached to an item. *)
Lemma response_in_acc l p r : l ∈ items pm' -> pm_mem pm' !! l = Some p -> response p = Some r ->
  exists pr, pm_mem pm' !! r = Some pr /\ response pr = None /\ pr ∈ acc /\ r <> l /\
    answers (pm_match_qname pm') p pr.
Proof.
  intros Hl Hp Hr. destruct (hi_paired _ _ _ _ H l p r Hl Hp Hr) as (pr & Hpr & Hn & Hq1 & Hq2 & Hk & Hm).
  assert (Hin : r ∈ todo pm).
  { rewrite <- (hi_owned _ _ _ _ H). apply elem_of_flat_map. exists l. split; [done|].
    unfold owned. rewrite Hp, Hr. set_solver. }
  destruct (hi_packet _ _ _ _ r H) as (pr' & p0 & Hpr' & Hp0 & E & _); [set_solver|].
  rewrite Hpr in Hpr'. injection Hpr' as <-.
  destruct (map_lookup_some _ _ _ Hacc r Hin) as (p1 & Hp1 & E1). rewrite Hp0 in E1. injection E1 as ->.
  exists pr. split; [done|]. split; [done|]. split.
  - rewrite <- (set_response_self pr), Hn, E. by rewrite <- E in Hp1 |- *.
  - split; [intros ->; congruence | done].
Qed.

Lemma item_attached l p : l ∈ items pm' -> pm_mem pm' !! l = Some p ->
  exists q, attached (pm_mem pm') p = Ok q /\ forall q', q = Some q' -> response q' = None /\ q' ∈ acc /\
    answers (pm_match_qname pm') p q'.
Proof.
  intros Hl Hp. unfold attached. destruct (response p) as [r|] eqn:Hr.
  - destruct (response_in_acc l p r Hl Hp Hr) as (pr & -> & Hn & Hin & _ & Ha). cbn. eexists. split; [done|].
    intros q' [= <-]. done.
  - eexists. split; [done|]. done.
Qed.

Lemma matcher_item_ok l : writable F acc -> l ∈ items pm' -> item_ok (F := F) (pm_mem pm') l.
Proof.
  intros Hw Hl. destruct (item_in_acc l Hl) as (p & Hp & Hin & Ht).
  destruct (item_attached l p Hl Hp) as (q & Hq & Hqa). split.
  - exists p. split; [done|]. intros r Hr. destruct (response_in_acc l p r Hl Hp Hr) as (pr & ? & ? & _ & ? & _). eauto.
  - destruct (Hw (set_response p None) q (response p)) as [b Hb]; [done | |].
    { intros q' E. by apply Hqa. }
    rewrite set_response_self in Hb. exists p, q, b. split; [done|]. split; [done|]. split; [done|].
    unfold OMAX, TMAX in *. lia.
Qed.

(** The items as values. *)
Lemma items_values ls : (forall l, l ∈ ls -> l ∈ items pm') ->
  exists its, Forall2 (item_at (pm_mem pm')) ls its /\
    Forall (fun it => forall q, it.2 = Some q -> answers (pm_match_qname pm') it.1 q /\
      (window_inv (pm_mem pm) pm' -> 0 <= ts q - ts it.1 <= pm_matching_duration pm')) its /\
    map (bare (pm_mem pm')) (flat_map (owned (pm_mem pm')) ls) = map Some (flat_map item_packets its).
Proof.
  induction ls as [|l ls IH]; intros Hls; [by exists []|].
  destruct IH as (its & H1 & H2 & H3); [set_solver|].
  assert (Hl : l ∈ items pm') by (apply Hls; set_solver).
  destruct (item_in_acc l Hl) as (p & Hp & _ & _). destruct (item_attached l p Hl Hp) as (q & Hq & Hqa).
  exists ((p, q) :: its). split; [by constructor|]. split.
  { constructor; [|done]. cbn. intros q' E. split; [by apply Hqa|]. intros W. subst q.
    unfold attached in Hq. destruct (response p) as [r|] eqn:Hr; [|done].
    destruct (pm_mem pm' !! r) as [pr|] eqn:Hpr; [|done]. injection Hq as <-.
    pose proof (wi_delay _ _ W l p r Hl Hp Hr) as Hd.
    by rewrite (proj1 (ts_at_mem _ _ _ _ _ _ H Hp)), (proj1 (ts_at_mem _ _ _ _ _ _ H Hpr)) in Hd. }
  cbn [flat_map]. rewrite !map_app, H3. f_equal. unfold owned. rewrite Hp. cbn [map item_packets fst snd].
  unfold bare at 1. rewrite Hp. cbn. f_equal. unfold attached in Hq.
  destruct (response p) as [r|]; cbn.
  - destruct (pm_mem pm' !! r) as [pr|] eqn:Hr; [|done]. cbn in Hq. injection Hq as <-. cbn. unfold bare.
    rewrite Hr. cbn. destruct (Hqa pr eq_refl) as [Hn _]. f_equal. f_equal.
    rewrite <- (set_response_self pr) at 2. by rewrite Hn.
  - by injection Hq as <-.
Qed.

(** All packets, as items or as responses, are those that were accepted. *)
Lemma items_accepted ls its : flat_map (owned (pm_mem pm')) ls ≡ₚ todo pm ->
  (forall p, p ∈ acc -> response p = None) ->
  map (bare (pm_mem pm')) (flat_map (owned (pm_mem pm')) ls) = map Some (flat_map item_packets its) ->
  flat_map item_packets its ≡ₚ acc.
Proof.
  intros Hperm Hnone E.
  assert (Hp : map Some (flat_map item_packets its) ≡ₚ map Some acc).
  { rewrite <- E, Hperm. rewrite <- Hacc. assert (Hb : forall l, l ∈ todo pm -> bare (pm_mem pm') l = pm_mem pm !! l).
    { intros l Hl. rewrite (hi_same _ _ _ _ H). unfold bare.
      destruct (map_lookup_some _ _ _ Hacc l Hl) as (p & Hin & ->). cbn. f_equal.
      rewrite <- (set_response_self p) at 2. by rewrite (Hnone p Hin). }
    erewrite (map_ext_in (bare (pm_mem pm'))); [reflexivity|]. intros l Hl. apply Hb. by apply list_elem_of_In. }
  apply Permutation_map_inv in Hp as (l3 & E3 & Hp3). rewrite Hp3.
  replace l3 with (flat_map item_packets its); [done|]. clear -E3. revert l3 E3.
  generalize (flat_map item_packets its) as ks. induction ks as [|k ks IH]; intros [|x l3] E3; try done.
  cbn in E3. injection E3 as -> E3. f_equal. by apply IH.
Qed.

(** Nothing but the packets of the items was in memory. *)
Lemma all_freed : (forall l, is_Some (pm_mem pm !! l) -> l ∈ todo pm) ->
  delete_all (flat_map (owned (pm_mem pm')) (items pm')) (pm_mem pm') = ∅.
Proof.
  intros Hdom. apply map_eq. intros l. rewrite lookup_delete_all, lookup_empty. case_decide as Hl; [done|].
  apply eq_None_not_Some. intros [p Hlp]. apply Hl. rewrite (hi_owned _ _ _ _ H). apply Hdom.
  pose proof (hi_same _ _ _ _ H l) as Hs. unfold bare in Hs. rewrite Hlp in Hs.
  destruct (pm_mem pm !! l); [eauto | done].
Qed.

End handover.

(** ** The run *)

(** Settings the collector can run with: the components accept them, the
    system answers, the inputs can be read, and the format can write every
    accepted packet. *)
Record settings_ok (a : arguments) (conf : dns_config) (i : dns_input) (pm : matcher) (o : dns_output)
    (F : OutputFormat) : Prop := {
  st_input : dns_input_create conf = Ok i;
  st_input_config : input_config i;
  st_matcher : dns_worker_packet_matcher_create ∅ (match_window_sec conf) (max_frame_duration_sec conf)
    (negb (match_qname conf =? 0)) (max_frame_size conf) random1 random2 [] true = Ok pm;
  st_matcher_config : config_ok pm;
  st_seed : 256 < u64 (random1 + u64 (Z.shiftl random2 32));
  st_queue : 0 < max_queue_len conf < 2 ^ 63;
  st_output : create_output sys_header conf = Ok (o, F);
  st_period : - 2 ^ 31 <= output_period_sec conf < 2 ^ 31;
  st_system : system_ok sys_open sys_spawn sys_wait (F := F) o;
  st_inputs : inputs_ok a;
  st_small : Z.of_nat (length (accepted_packets a)) < 2 ^ 53;
  st_writable : writable F (accepted_packets a);
}.

(** The bytes of an item. *)
Definition item_record (F : OutputFormat) (it : dns_packet * option dns_packet) : list Z :=
  match record it.1 it.2 with Ok b => b | Fail _ => [] end.

Lemma item_record_of F m l it : item_at m l it -> record_of (F := F) m l = item_record F it.
Proof. destruct it as [p q]. intros [H1 H2]. unfold record_of, item_record. cbn in *. by rewrite H1, H2. Qed.

Lemma item_records F m ls its : Forall2 (item_at m) ls its ->
  map (record_of (F := F) m) ls = map (item_record F) its.
Proof. induction 1 as [|l it ls its Hl _ IH]; cbn; [done|]. by rewrite IH, (item_record_of F m l it). Qed.

Lemma create_output_init conf o F : create_output sys_header conf = Ok (o, F) ->
  o = dns_output_init (Some (output_path_fmt conf)) (Some (output_pipe_cmd conf)) (output_period_sec conf).
Proof.
  unfold create_output, dns_output_csv_create, dns_output_cbor_create.
  destruct (_ =? _); [|destruct (_ =? _); [|discriminate]]; by intros [= <- _].
Qed.

Lemma frame_good_out m0 fmd limit f : frame_good m0 fmd limit f -> time_end f <= 2 * TMAX + 1 -> out_frame_ok f.
Proof. intros [] He. split; [lia|]. right. unfold OMAX, TMAX in *. lia. Qed.

(** How a run ends: [its] are the items written. *)
Definition run_end (a : arguments) (conf : dns_config) (F : OutputFormat) (md : Z) (ord : Prop) (e : ending)
    (its : list (dns_packet * option dns_packet)) : Prop :=
  e_mem e = ∅ /\ e_buckets e = ∅ /\ o_file (e_output e) = None /\
  flat_map item_packets its ≡ₚ accepted_packets a /\
  Forall (fun it => forall q, it.2 = Some q -> answers (negb (match_qname conf =? 0)) it.1 q /\
    (ord -> 0 <= ts q - ts it.1 <= md)) its /\
  holds (F := F) (map (item_record F) its) (map (fun x : Z * list Z * list Z => x.2) (o_closed (e_output e))) /\
  u64 (total_items (e_output e)) = u64 (Z.of_nat (length its)).

(** The matcher and the output on what the input handed over. *)
Lemma pipeline_tail a conf pm0 o F ord j f fin i : settings_ok a conf i pm0 o F ->
  input_inv ord (accepted_packets a) j f -> frame_type fin = 1 -> packets fin = [] ->
  exists pm' m o' its,
    dns_worker_packet_matcher_main (with_in (with_mem pm0 (i_mem j)) ((i_output j ++ [f]) ++ [fin])) = Ok pm' /\
    dns_output_main sys_open sys_spawn sys_wait (F := F) (pm_mem pm') o (pm_out pm') = Ok (m, o') /\
    dns_packet_hash_destroy (pm_hash pm') = Ok ∅ /\ o_path o' = None /\
    run_end a conf F (pm_matching_duration pm0) ord {| e_mem := m; e_buckets := ∅; e_output := o' |} its.
Proof.
  intros S H Hty Hp.
  destruct (matcher_ready conf pm0 ord _ j f fin (st_matcher _ _ _ _ _ _ S) (st_matcher_config _ _ _ _ _ _ S)
    (st_seed _ _ _ _ _ _ S) H Hty Hp (st_small _ _ _ _ _ _ S)) as (Hcr & Hrd & Htodo & Hord).
  set (pm := with_in _ _) in *.
  destruct (main_run _ _ _ _ _ _ _ _ _ Hcr Hrd)
    as (pm' & body & [Hrun Hout] & HI & Hits & Hq & _ & _ & Hsame & Hg & _ & Hend & Hwin).
  assert (Hacc : map (pm_mem pm !!.) (todo pm) = map Some (accepted_packets a)) by (rewrite Htodo; apply H).
  pose proof (create_output_init conf o F (st_output _ _ _ _ _ _ S)) as Ho.
  destruct (items_values pm pm' _ HI Hacc (items pm')) as (its & V1 & V2 & V3); [done|].
  destruct (output_main_ok sys_open sys_spawn sys_wait (F := F) (pm_mem pm') o body
              (dns_packet_frame_create_final (pm_current_time pm'))) as (o' & Hmain & [Hinv Hholds] & Hfile).
  { apply S. }
  { rewrite Ho. apply init_inv. apply S. }
  { rewrite Ho. by exists []. }
  { rewrite Forall_forall in Hg |- *. intros g Hin. eapply frame_good_out; [by apply Hg | by apply Hend]. }
  { rewrite <- Hits. apply Forall_forall. intros l Hl. eapply matcher_item_ok; [done | done | apply S | done]. }
  { rewrite <- Hits, (hi_owned _ _ _ _ HI). apply Hrd. }
  { done. } { done. } { done. }
  rewrite <- Hits in Hmain, Hinv, Hholds.
  exists pm', (delete_all (flat_map (owned (pm_mem pm')) (items pm')) (pm_mem pm')), o', its.
  split; [done|]. rewrite Hout. split; [done|].
  split. { destruct (hi_hash _ _ _ _ HI) as (A & HA & _). by eapply hash_destroy_frees. }
  split. { pose proof (oi_path _ _ _ _ Hinv) as E. rewrite Hfile in E. destruct (o_path o'); [|done].
           destruct (proj1 E) as [? ?]; [eauto | done]. }
  destruct Hsame as (Hmd & _ & Hmq & _).
  split; cbn.
  { eapply all_freed; [exact HI|]. intros l. rewrite Htodo. apply (ii_dom _ _ _ _ H). }
  do 2 (split; [done|]). split.
  { eapply items_accepted; [exact HI | exact Hacc | apply HI | | exact V3].
    intros p Hin. pose proof (ii_acc _ _ _ _ H) as Ha. rewrite Forall_forall in Ha. by apply Ha. }
  split.
  { eapply Forall_impl; [exact V2|]. intros it Hit q Eq. destruct (Hit q Eq) as [A W].
    rewrite Hmq in A. rewrite Hmd in W. pose proof (st_matcher _ _ _ _ _ _ S) as Hc0.
    unfold dns_worker_packet_matcher_create in Hc0. inv_ok. cbn in *. split; [done|]. intros Ho'. apply W, Hwin.
    by apply Hord. }
  split.
  { unfold file_contents in Hholds. rewrite Hfile, app_nil_r in Hholds. cbn in Hholds.
    by rewrite (item_records F _ _ its V1) in Hholds. }
  pose proof (oi_items _ _ _ _ Hinv) as I1. destruct (oi_idle _ _ _ _ Hinv Hfile) as (E1 & _).
  rewrite E1, Z.add_0_r in I1. cbn in I1. rewrite I1, length_map. by rewrite (Forall2_length _ _ _ V1).
Qed.

Lemma run_pipeline_ok a conf i pm o F (ord : Prop) : settings_ok a conf i pm o F ->
  (ord -> main_inputs a <> [] /\ StronglySorted Z.le (map ts (accepted_packets a))) ->
  exists e its, run_pipeline clock trace_dropped sys_open sys_spawn sys_wait sys_header random1 random2 a conf = Ok e /\
    run_end a conf F (pm_matching_duration pm) ord e its.
Proof.
  intros S Hord. pose proof S as [Hi Hic Hm Hmc _ Hq Ho _ _ Hin _ _].
  destruct (read_inputs_ok conf i a ord Hi Hic Hin Hord) as (i' & j & f & fin & Hread & H & Hout & Hty & Hp & Hmem & Hd).
  destruct (pipeline_tail a conf pm o F ord j f fin i S H Hty Hp) as (pm' & m & o' & its & Hmat & Hmain & Hhash & Hpath & Hend).
  destruct (transfer_ok (max_queue_len conf) (i_output i') Hq) as (q1 & T1 & D1).
  destruct (transfer_ok (max_queue_len conf) (pm_out pm') Hq) as (q2 & T2 & D2).
  exists {| e_mem := m; e_buckets := ∅; e_output := o' |}, its. split; [|done].
  unfold run_pipeline. rewrite Hi. cbn [mbind outcome_bind]. rewrite Hm. cbn [mbind outcome_bind].
  rewrite Ho. cbn [mbind outcome_bind]. unfold dns_worker_packet_matcher_start, dns_us_time_to_fsec.
  rewrite c_assert_true.
  2: { apply negb_true_iff, Z.eqb_neq. pose proof (cf_md _ Hmc). unfold DNS_NO_TIME, INT64_MIN. lia. }
  cbn [mbind outcome_bind dns_output_start]. unfold read_inputs in Hread.
  destruct (run_inputs clock trace_dropped a i) as [i1|]; [|done]. cbn [mbind outcome_bind] in *.
  rewrite Hread. cbn [mbind outcome_bind]. rewrite T1. cbn [mbind outcome_bind]. rewrite Hmem, Hout, Hmat.
  cbn [mbind outcome_bind]. rewrite T2. cbn [mbind outcome_bind]. rewrite Hmain. cbn [mbind outcome_bind].
  rewrite Hd. cbn [mbind outcome_bind]. unfold dns_worker_packet_matcher_destroy. rewrite Hhash. cbn [mbind outcome_bind].
  unfold dns_output_finalize. rewrite Hpath. cbn. by rewrite D1, D2.
Qed.

(** ** Properties *)

(** C1: the whole collector.  With settings it can run with, the program
    ends with code 0 and every packet accepted from its inputs is written
    exactly once: the items written, each a packet with its attached response
    if it has one, consist of exactly the accepted packets; a response is
    attached only to a request it answers; the output files hold the records
    of the items in order, each file after its header; all files are closed
    and no packet and no hash bucket is left in memory. *)
Theorem collector_complete (a : arguments) (conf0 conf : dns_config) (i : dns_input) (pm : matcher)
    (o : dns_output) (F : OutputFormat) :
  configure a conf0 = Ok (Some conf) -> settings_ok a conf i pm o F ->
  exists e its,
    main clock trace_dropped sys_open sys_spawn sys_wait sys_header random1 random2 a conf0 = Ok (0, Some e) /\
    flat_map item_packets its ≡ₚ accepted_packets a /\
    Forall (fun it => forall q, it.2 = Some q -> answers (negb (match_qname conf =? 0)) it.1 q) its /\
    holds (F := F) (map (item_record F) its) (map (fun x : Z * list Z * list Z => x.2) (o_closed (e_output e))) /\
    u64 (total_items (e_output e)) = u64 (Z.of_nat (length its)) /\
    o_file (e_output e) = None /\ e_mem e = ∅ /\ e_buckets e = ∅.
Proof.
  intros Hc S. destruct (run_pipeline_ok a conf i pm o F False S) as (e & its & Hrun & E1 & E2 & E3 & E4 & E5 & E6 & E7); [done|].
  exists e, its. unfold main. rewrite Hc. cbn [mbind outcome_bind]. rewrite Hrun. split; [done|]. split; [done|].
  split; [|done]. eapply Forall_impl; [exact E5|]. intros it Hit q Eq. by apply Hit.
Qed.

(** C2: when the packets of the files come in time order, a response written
    with a request follows it within the configured matching window. *)
Theorem collector_window (a : arguments) (conf0 conf : dns_config) (i : dns_input) (pm : matcher)
    (o : dns_output) (F : OutputFormat) :
  configure a conf0 = Ok (Some conf) -> settings_ok a conf i pm o F ->
  main_inputs a <> [] -> StronglySorted Z.le (map ts (accepted_packets a)) ->
  exists e its,
    main clock trace_dropped sys_open sys_spawn sys_wait sys_header random1 random2 a conf0 = Ok (0, Some e) /\
    holds (F := F) (map (item_record F) its) (map (fun x : Z * list Z * list Z => x.2) (o_closed (e_output e))) /\
    Forall (fun it => forall q, it.2 = Some q -> 0 <= ts q - ts it.1 <= pm_matching_duration pm) its.
Proof.
  intros Hc S Hne Hs. destruct (run_pipeline_ok a conf i pm o F True S) as (e & its & Hrun & _ & _ & _ & _ & E5 & E6 & _); [done|].
  exists e, its. unfold main. rewrite Hc. cbn [mbind outcome_bind]. rewrite Hrun. split; [done|]. split; [done|].
  eapply Forall_impl; [exact E5|]. intros it Hit q Eq. by apply Hit.
Qed.

End inv.

(** ** The arguments *)

Section arguments_spec.
Context `{K : Libknot} `{L : Libc} `{T : Libtrace}.

(** The arguments.  The program exits with code 2, before anything is
    started, exactly when both an interface and files are given, or neither
    files nor an input is known; it stops with a message when no output path
    is given or configured; otherwise it runs with the interface and path of
    the command line in place of the configured ones. *)
Theorem configure_spec (a : arguments) (conf : dns_config) :
  let uri := default (input_uri conf) (main_interface a) in
  let path := default (output_path_fmt conf) (main_output_path a) in
  configure a conf =
    if decide (is_Some (main_interface a) /\ main_inputs a <> []) then Ok None
    else if decide (path = []) then Fail (Died "Configure the output"%string)
    else if decide (main_inputs a = [] /\ uri = []) then Ok None
    else Ok (Some (set_paths conf uri path)).
Proof.
  assert (Hnil : forall X (l : list X), length l = O <-> l = []) by (intros X []; cbn; split; congruence).
  assert (Hself : set_paths conf (input_uri conf) (output_path_fmt conf) = conf) by (by destruct conf).
  cbn zeta. unfold configure. rewrite !(bool_decide_ext _ _ (Hnil _ _)).
  destruct (main_interface a) as [u|], (main_output_path a) as [p|], (main_inputs a) as [|fl fls]; cbn.
  all: rewrite ?Hself; repeat (case_decide || case_bool_decide); cbn in *; try done; try naive_solver.
Qed.

(** The name of a trace: complete for file names of at most 1014 bytes, and
    cut off for longer ones. *)
Theorem file_uri_exact (name : list Z) :
  file_uri name = bytes_of_string "pcapfile:" ++ name <-> (length name <= 1014)%nat.
Proof.
  unfold file_uri. split.
  - intros E. apply (f_equal length) in E. rewrite length_take, length_app in E.
    change (length (bytes_of_string "pcapfile:")) with 9%nat in E. lia.
  - intros H. apply take_ge. rewrite length_app. change (length (bytes_of_string "pcapfile:")) with 9%nat. lia.
Qed.

End arguments_spec.

(** ** Closed examples *)

Section examples.
#[local] Existing Instances Sample.sample_knot Sample.sample_trace sample_libc.

(** The default configuration with CBOR output. *)
Definition cbor_conf : dns_config :=
  {| max_frame_duration_sec := max_frame_duration_sec dns_collector_conf_init;
     max_frame_size := max_frame_size dns_collector_conf_init; max_queue_len := 8; report_period_sec := 60;
     input_uri := []; input_filter := []; input_snaplen := -1; input_promiscuous := 1;
     input_real_time_grace_sec := input_real_time_grace_sec dns_collector_conf_init;
     dump_path_fmt := []; dump_period_sec := 0; dump_compress_level := 4; dump_compress_type := 0;
     dump_rate_limit := dump_rate_limit dns_collector_conf_init;
     match_window_sec := match_window_sec dns_collector_conf_init; match_qname := 0;
     output_type := DNS_OUTPUT_TYPE_CBOR; output_path_fmt := []; output_pipe_cmd := []; output_period_sec := 60;
     csv_separator := [44]; csv_inline_header := 1; csv_external_header_path_fmt := [];
     csv_fields := ALL_FIELDS; cbor_fields := ALL_FIELDS |}.

(** [main -o out a.pcap]; the file holds a query and its answer. *)
Definition sample_arguments : arguments :=
  {| main_inputs := [ {| fl_name := bytes_of_string "a.pcap"; fl_fopen := true; fl_open := sample_open 0;
                         fl_turns := sample_turns |} ];
     main_interface := None; main_output_path := Some (bytes_of_string "out");
     live_open := sample_open 0; live_turns := [] |}.

Definition sample_conf : dns_config := set_paths cbor_conf [] (bytes_of_string "out").

Definition sample_matcher : matcher :=
  {| pm_mem := ∅; pm_hash := dns_packet_hash_create 300 1 WORKER_PACKET_MATCHER_MIN_HASH_SIZE 0;
     pm_queue := []; pm_matching_duration := 5000000; pm_frame_max_duration := 500000;
     pm_match_qname := false; pm_frame_max_size := 262144;
     pm_inframe := None; pm_outframe := None; pm_current_time := DNS_NO_TIME;
     pm_in := []; pm_has_out := true; pm_out := [] |}.

Lemma sample_accepted : accepted_packets sample_arguments = [packet_of sample_query; packet_of sample_answer].
Proof. vm_compute. reflexivity. Qed.

Lemma sample_writable :
  writable (cbor_format {| OutputCbor.oc_fields := ALL_FIELDS |}) (accepted_packets sample_arguments).
Proof.
  rewrite sample_accepted. intros p q r Hp Hq.
  assert (Hq' : q = None \/ q = Some (packet_of sample_query) \/ q = Some (packet_of sample_answer)).
  { destruct q as [q|]; [right|by left]. specialize (Hq q eq_refl).
    apply elem_of_cons in Hq as [->|Hq%list_elem_of_singleton]; [by left | right; congruence]. }
  clear Hq. apply succeeds_Ok.
  apply elem_of_cons in Hp as [->|Hp%list_elem_of_singleton]; [|subst p];
    destruct Hq' as [->|[->| ->]]; vm_compute; reflexivity.
Qed.

Lemma sample_settings :
  settings_ok ok_open ok_spawn ok_wait ok_open 300 1 sample_arguments sample_conf sample_input sample_matcher
    start_output (cbor_format {| OutputCbor.oc_fields := ALL_FIELDS |}).
Proof.
  split.
  - vm_compute. reflexivity.
  - apply sample_input_config.
  - vm_compute. reflexivity.
  - by split; vm_compute.
  - vm_compute. reflexivity.
  - done.
  - reflexivity.
  - done.
  - apply sample_system.
  - split; [reflexivity|]. apply Forall_singleton. left. split; [by vm_compute | apply sample_turns_ok].
  - rewrite sample_accepted. done.
  - apply sample_writable.
Qed.

Lemma collector_complete_witness : exists e its,
  main sample_clock no_drops ok_open ok_spawn ok_wait ok_open 300 1 sample_arguments cbor_conf = Ok (0, Some e) /\
  flat_map item_packets its ≡ₚ [packet_of sample_query; packet_of sample_answer] /\ e_mem e = ∅.
Proof.
  destruct (collector_complete sample_clock no_drops ok_open ok_spawn ok_wait ok_open 300 1 sample_clock_ok
              sample_arguments cbor_conf sample_conf sample_input sample_matcher start_output _ eq_refl sample_settings)
    as (e & its & Hrun & Hp & _ & _ & _ & _ & Hm & _).
  exists e, its. rewrite sample_accepted in Hp. split; [exact Hrun | split; [exact Hp | exact Hm]].
Defined.

Lemma collector_window_witness : exists e its,
  main sample_clock no_drops ok_open ok_spawn ok_wait ok_open 300 1 sample_arguments cbor_conf = Ok (0, Some e) /\
  Forall (fun it : dns_packet * option dns_packet => forall q, it.2 = Some q -> 0 <= ts q - ts it.1 <= 5000000) its.
Proof.
  destruct (collector_window sample_clock no_drops ok_open ok_spawn ok_wait ok_open 300 1 sample_clock_ok
              sample_arguments cbor_conf sample_conf sample_input sample_matcher start_output _ eq_refl sample_settings)
    as (e & its & Hrun & _ & Hw).
  - discriminate.
  - rewrite sample_accepted. repeat constructor; vm_compute; discriminate.
  - exists e, its. split; [exact Hrun | exact Hw].
Defined.

(** The run itself: one item, the query with its answer. *)
Example sample_run :
  match main sample_clock no_drops ok_open ok_spawn ok_wait ok_open 300 1 sample_arguments cbor_conf with
  | Ok (0, Some e) => total_items (e_output e) = 1 /\ total_request_only (e_output e) = 0 /\
                      length (o_closed (e_output e)) = 1%nat
  | _ => False
  end.
Proof. vm_compute. auto. Qed.

End examples.
