(* ===== verification/PipelineThreads.v ===== *)
(** * The threads of the pipeline ([src/main.c], [src/frame_queue.c])

    [Pipeline] runs the input, the matcher and the output one after the
    other.  The program runs them as threads, joined by two blocking queues.
    Here the three threads make their calls of [dns_frame_queue_enqueue] and
    [dns_frame_queue_dequeue] concurrently, each call at the granularity of
    [FrameChannel].  Whatever the schedule and wherever the matcher places its
    enqueues between its dequeues, the threads end, and each gets the frames
    that the sequential composition gives it. *)

From stdpp Require Import base numbers gmap list relations.
From S2P Require Import Prelude Doubles Common Libs Packet PacketFrame FrameQueue FrameChannel.
From S2P Require Import Pipeline PipelineInv.

Section network.
Context {Q F : Type} `{BF : !BlockingFifo Q F}.

(** ** The network *)

(** In a channel thread 0 produces and thread 1 consumes.  The matcher is
    thread 1 of the first channel and thread 0 of the second. *)
Abbreviation producer := 0%nat.
Abbreviation consumer := 1%nat.

(** The two channels and the calls that the threads have still to make: the
    input's frames, the matcher's calls ([None] is a dequeue) and the number
    of the output's dequeues. *)
Record net : Type := {
  n_first : sys Q F;
  n_second : sys Q F;
  n_input : list F;
  n_matcher : list (option F);
  n_output : nat;
}.

Definition set_first (n : net) (c : sys Q F) : net :=
  {| n_first := c; n_second := n_second n; n_input := n_input n; n_matcher := n_matcher n; n_output := n_output n |}.
Definition set_second (n : net) (c : sys Q F) : net :=
  {| n_first := n_first n; n_second := c; n_input := n_input n; n_matcher := n_matcher n; n_output := n_output n |}.

(** A thread of a channel enters a call. *)
Definition enter (c : sys Q F) (t : nat) (st : tstate F) : sys Q F :=
  {| s_q := s_q c; s_mutex := s_mutex c; s_threads := <[t := st]> (s_threads c); s_enq := s_enq c; s_deq := s_deq c |}.

Definition idle (c : sys Q F) (t : nat) : Prop := s_threads c !! t = Some TIdle.

(** A thread starts its next call, or goes on inside one. *)
Inductive go : net -> net -> Prop :=
| go_first n c : work_step (n_first n) c -> go n (set_first n c)
| go_second n c : work_step (n_second n) c -> go n (set_second n c)
| go_input n f l : n_input n = f :: l -> idle (n_first n) producer ->
    go n {| n_first := enter (n_first n) producer (TEnqLock f); n_second := n_second n;
            n_input := l; n_matcher := n_matcher n; n_output := n_output n |}
| go_matcher_deq n l : n_matcher n = None :: l -> idle (n_first n) consumer -> idle (n_second n) producer ->
    go n {| n_first := enter (n_first n) consumer TDeqLock; n_second := n_second n;
            n_input := n_input n; n_matcher := l; n_output := n_output n |}
| go_matcher_enq n f l : n_matcher n = Some f :: l -> idle (n_first n) consumer -> idle (n_second n) producer ->
    go n {| n_first := n_first n; n_second := enter (n_second n) producer (TEnqLock f);
            n_input := n_input n; n_matcher := l; n_output := n_output n |}
| go_output n k : n_output n = S k -> idle (n_second n) consumer ->
    go n {| n_first := n_first n; n_second := enter (n_second n) consumer TDeqLock;
            n_input := n_input n; n_matcher := n_matcher n; n_output := k |}.

(** A spurious wakeup of a waiting thread. *)
Definition wakes (c c' : sys Q F) : Prop :=
  exists t st, s_threads c !! t = Some st /\ c' = enter c t (wake_enq (wake_deq st)).

Inductive spurious : net -> net -> Prop :=
| spurious_first n c : wakes (n_first n) c -> spurious n (set_first n c)
| spurious_second n c : wakes (n_second n) c -> spurious n (set_second n c).

(** [run n k w n']: from [n] to [n'] in [k] steps and [w] spurious wakeups. *)
Inductive run (n : net) : nat -> nat -> net -> Prop :=
| run_nil : run n 0 0 n
| run_go k w n1 n2 : run n k w n1 -> go n1 n2 -> run n (S k) w n2
| run_spurious k w n1 n2 : run n k w n1 -> spurious n1 n2 -> run n k (S w) n2.

(** The frames the matcher enqueues, and how often it dequeues. *)
Definition enqueues (l : list (option F)) : list F := omap id l.
Definition dequeues (l : list (option F)) : nat := length (filter (fun o => o = None) l).

Definition fresh (q : Q) : sys Q F :=
  {| s_q := q; s_mutex := None; s_threads := {[ producer := TIdle; consumer := TIdle ]}; s_enq := []; s_deq := [] |}.

(** The start: empty queues, the input has to send [ins], the matcher makes
    the calls [calls], the output takes all that the matcher sends. *)
Definition start (q1 q2 : Q) (ins : list F) (calls : list (option F)) : net :=
  {| n_first := fresh q1; n_second := fresh q2; n_input := ins; n_matcher := calls;
     n_output := length (enqueues calls) |}.

(** All calls are made and have returned. *)
Definition finished (n : net) : Prop :=
  n_input n = [] /\ n_matcher n = [] /\ n_output n = 0%nat /\
  idle (n_first n) producer /\ idle (n_first n) consumer /\
  idle (n_second n) producer /\ idle (n_second n) consumer.

(** ** One channel of the network *)

Definition threads2 (p c : tstate F) : gmap nat (tstate F) := {[ producer := p; consumer := c ]}.

Lemma threads2_lookup p c t st : threads2 p c !! t = Some st <-> t = producer /\ st = p \/ t = consumer /\ st = c.
Proof.
  unfold threads2. rewrite lookup_insert_Some, lookup_singleton_Some. split.
  - intros [[<- <-]|[_ [<- <-]]]; auto.
  - intros [[-> ->]|[-> ->]]; auto.
Qed.

Lemma threads2_producer p c st : <[producer := st]> (threads2 p c) = threads2 st c.
Proof. unfold threads2. by rewrite insert_insert_eq. Qed.

Lemma threads2_consumer p c st : <[consumer := st]> (threads2 p c) = threads2 p st.
Proof. unfold threads2. rewrite insert_insert_ne by done. by rewrite insert_singleton_eq. Qed.

Lemma threads2_fmap (g : tstate F -> tstate F) p c : g <$> threads2 p c = threads2 (g p) (g c).
Proof. unfold threads2. by rewrite fmap_insert, map_fmap_singleton. Qed.

(** A producer is inside an enqueue of one frame, a consumer inside a
    dequeue. *)
Definition sending (st : tstate F) : option (list F) :=
  match st with
  | TIdle => Some []
  | TEnqLock f | TEnqIn f | TEnqWait f | TEnqWoken f => Some [f]
  | _ => None
  end.

Definition taking (st : tstate F) : option nat :=
  match st with
  | TIdle => Some 0%nat
  | TDeqLock | TDeqIn | TDeqWait | TDeqWoken => Some 1%nat
  | _ => None
  end.

(** How much a thread has still to do inside its call. *)
Definition weight (st : tstate F) : nat :=
  match st with
  | TIdle => 0
  | TEnqLock _ | TEnqWoken _ | TDeqLock | TDeqWoken => 6
  | TEnqIn _ | TDeqIn => 5
  | TEnqWait _ | TDeqWait => 4
  end.

(** The channel [c] with its threads in states [p] and [k]; [send] and [take]
    are the calls its threads have still to start, [fs] all frames that go
    through. *)
Record chan (cap : Z) (c : sys Q F) (l : list F) (p k : tstate F) (send : list F) (take : nat) (fs : list F) : Prop := {
  ch_inv : inv cap c l;
  ch_threads : s_threads c = threads2 p k;
  ch_send : exists x, sending p = Some x /\ s_enq c ++ x ++ send = fs;
  ch_take : exists x, taking k = Some x /\ (length (s_deq c) + x + take)%nat = length fs;
}.

Lemma fresh_chan q fs : fifo_rep q [] -> chan (fifo_cap q) (fresh q) [] TIdle TIdle fs (length fs) fs.
Proof.
  intros R. split; [|done|by exists []|by exists 0%nat].
  apply (initial_inv q). repeat split; try done. cbn. intros t st Hst.
  apply (threads2_lookup TIdle TIdle) in Hst as [[_ ->]|[_ ->]]; done.
Qed.

(** Entering a call. *)
Lemma inv_enter cap c l t st : inv cap c l -> idle c t -> ~ in_cs st ->
  (forall f, st <> TEnqWait f) -> st <> TDeqWait -> inv cap (enter c t st) l.
Proof.
  intros [R C H M D E] Ht Hc He Hd. split; cbn; try done.
  - eapply mutex_stay; [done|exact Ht|tauto|done].
  - intros u Hu. rewrite lookup_insert in Hu. case_decide; [congruence|eauto].
  - intros u g Hu. rewrite lookup_insert in Hu. case_decide; [naive_solver|eauto].
Qed.

Lemma chan_enter_producer cap c l k f send take fs : chan cap c l TIdle k (f :: send) take fs ->
  chan cap (enter c producer (TEnqLock f)) l (TEnqLock f) k send take fs.
Proof.
  intros [I T (x & [= <-] & Hs) Hk]. split; cbn; [|by rewrite T, threads2_producer|by exists [f]|done].
  apply inv_enter; try done; [|tauto]. unfold idle. rewrite T. apply threads2_lookup. auto.
Qed.

Lemma chan_enter_consumer cap c l p send take fs : chan cap c l p TIdle send (S take) fs ->
  chan cap (enter c consumer TDeqLock) l p TDeqLock send take fs.
Proof.
  intros [I T Hs (x & [= <-] & Hk)]. split; cbn; [|by rewrite T, threads2_consumer|done|exists 1%nat; split; [done|lia]].
  apply inv_enter; try done; [|tauto]. unfold idle. rewrite T. apply threads2_lookup. auto.
Qed.

(** A step inside the channel. *)
Lemma chan_work cap c c' l p k send take fs : chan cap c l p k send take fs -> work_step c c' ->
  exists l' p' k', chan cap c' l' p' k' send take fs /\ (weight p' + weight k' < weight p + weight k)%nat /\
    (p = TIdle -> p' = TIdle) /\ (k = TIdle -> k' = TIdle).
Proof.
  intros [I T (x & Hx & Hs) (y & Hy & Hk)] Hw.
  destruct (inv_work_step _ _ _ _ I Hw) as (l' & I').
  destruct Hw as [c t st st' Hm Ht Hl | c t f Hm Ht Hp | c t f q' Hm Ht Hp | c t Hm Ht Hp | c t f q' Hm Ht Hp];
    cbn in *; rewrite T in Ht; apply threads2_lookup in Ht as [[-> <-]|[-> <-]]; try done.
  - exists l', st', k. destruct st; cbn in *; simplify_eq; (split; [split; cbn; try done; eauto;
      by rewrite T, threads2_producer|cbn; repeat split; [lia|done..]]).
  - exists l', p, st'. destruct st; cbn in *; simplify_eq; (split; [split; cbn; try done; eauto;
      by rewrite T, threads2_consumer|cbn; repeat split; [lia|done..]]).
  - exists l', (TEnqWait f), k. cbn in *. split; [split; cbn; try done; eauto; by rewrite T, threads2_producer|cbn; repeat split; [lia|done..]].
  - exists l', TIdle, (wake_deq k). split.
    + split; cbn; try done.
      * by rewrite T, threads2_fmap, threads2_producer.
      * injection Hx as <-. exists []. split; [done|]. by rewrite <- Hs, <- app_assoc.
      * exists y. split; [by destruct k|done].
    + destruct k; cbn in *; try discriminate; repeat split; (done || lia).
  - exists l', p, TDeqWait. cbn in *. split; [split; cbn; try done; eauto; by rewrite T, threads2_consumer|cbn; repeat split; [lia|done..]].
  - exists l', (wake_enq p), TIdle. split.
    + split; cbn; try done.
      * by rewrite T, threads2_fmap, threads2_consumer.
      * exists x. split; [by destruct p|done].
      * injection Hy as <-. exists 0%nat. split; [done|]. rewrite length_app. cbn. lia.
    + destruct p; cbn in *; try discriminate; repeat split; (done || lia).
Qed.

(** A spurious wakeup. *)
Lemma chan_wakes cap c c' l p k send take fs : chan cap c l p k send take fs -> wakes c c' ->
  exists l' p' k', chan cap c' l' p' k' send take fs /\ (weight p' + weight k' <= weight p + weight k + 2)%nat /\
    (p = TIdle <-> p' = TIdle) /\ (k = TIdle <-> k' = TIdle).
Proof.
  intros [I T (x & Hx & Hs) (y & Hy & Hk)] (t & st & Ht & ->).
  destruct (inv_step _ _ _ _ I (step_spurious c t st Ht)) as (l' & I').
  rewrite T in Ht. apply threads2_lookup in Ht as [[-> ->]|[-> ->]].
  - exists l', (wake_enq (wake_deq p)), k. split; [split; cbn; try done|].
    + by rewrite T, threads2_producer.
    + exists x. split; [by destruct p|done].
    + eauto.
    + destruct p; cbn; repeat split; try done; lia.
  - exists l', p, (wake_enq (wake_deq k)). split; [split; cbn; try done|].
    + by rewrite T, threads2_consumer.
    + eauto.
    + exists y. split; [by destruct k|done].
    + destruct k; cbn; repeat split; try done; lia.
Qed.

(** ** The invariant of the network *)

(** [m] bounds the steps that are left without spurious wakeups. *)
Definition net_inv (cap1 cap2 : Z) (ins outs : list F) (n : net) (m : nat) : Prop :=
  exists l1 p1 k1 l2 p2 k2,
    chan cap1 (n_first n) l1 p1 k1 (n_input n) (dequeues (n_matcher n)) ins /\
    chan cap2 (n_second n) l2 p2 k2 (enqueues (n_matcher n)) (n_output n) outs /\
    (k1 = TIdle \/ p2 = TIdle) /\
    m = (10 * (length (n_input n) + length (n_matcher n) + n_output n) +
         (weight p1 + weight k1 + (weight p2 + weight k2)))%nat.

Lemma network_start_inv q1 q2 ins calls : fifo_rep q1 [] -> fifo_rep q2 [] -> dequeues calls = length ins ->
  net_inv (fifo_cap q1) (fifo_cap q2) ins (enqueues calls) (start q1 q2 ins calls)
    (10 * (length ins + length calls + length (enqueues calls))).
Proof.
  intros R1 R2 Hd. exists [], TIdle, TIdle, [], TIdle, TIdle.
  cbn [start n_first n_second n_input n_matcher n_output weight]. rewrite Hd.
  split; [by apply fresh_chan|]. split; [by apply fresh_chan|]. split; [by left|lia].
Qed.

Lemma chan_idle cap c l p k send take fs : chan cap c l p k send take fs ->
  (idle c producer <-> p = TIdle) /\ (idle c consumer <-> k = TIdle).
Proof.
  intros [_ T _ _]. unfold idle. rewrite T, !threads2_lookup. naive_solver.
Qed.

Lemma go_inv cap1 cap2 ins outs n n' m : net_inv cap1 cap2 ins outs n m -> go n n' ->
  exists m', net_inv cap1 cap2 ins outs n' m' /\ (m' < m)%nat.
Proof.
  intros (l1 & p1 & k1 & l2 & p2 & k2 & C1 & C2 & Hx & ->) Hg.
  destruct (chan_idle _ _ _ _ _ _ _ _ C1) as [Ip1 Ik1]. destruct (chan_idle _ _ _ _ _ _ _ _ C2) as [Ip2 Ik2].
  destruct Hg as [n c Hw|n c Hw|n f l E Hi|n l E Hi1 Hi2|n f l E Hi1 Hi2|n k E Hi]; unfold net_inv.
  - destruct (chan_work _ _ _ _ _ _ _ _ _ C1 Hw) as (l1' & p1' & k1' & C1' & Hlt & _ & Hk).
    eexists. split; [exists l1', p1', k1', l2, p2, k2; split; [done|split; [done|split; [naive_solver|done]]]|cbn; lia].
  - destruct (chan_work _ _ _ _ _ _ _ _ _ C2 Hw) as (l2' & p2' & k2' & C2' & Hlt & Hp & _).
    eexists. split; [exists l1, p1, k1, l2', p2', k2'; split; [done|split; [done|split; [naive_solver|done]]]|cbn; lia].
  - apply Ip1 in Hi as ->. rewrite E in C1. apply chan_enter_producer in C1.
    eexists. split; [exists l1, (TEnqLock f), k1, l2, p2, k2; split; [done|split; [done|split; [done|done]]]|cbn; rewrite E; cbn; lia].
  - apply Ik1 in Hi1 as ->. apply Ip2 in Hi2 as ->. rewrite E in C1, C2. cbn in C1, C2. apply chan_enter_consumer in C1.
    eexists. split; [exists l1, p1, TDeqLock, l2, TIdle, k2; split; [done|split; [done|split; [auto|done]]]|cbn; rewrite E; cbn; lia].
  - apply Ik1 in Hi1 as ->. apply Ip2 in Hi2 as ->. rewrite E in C1, C2. cbn in C1, C2. apply chan_enter_producer in C2.
    eexists. split; [exists l1, p1, TIdle, l2, (TEnqLock f), k2; split; [done|split; [done|split; [auto|done]]]|cbn; rewrite E; cbn; lia].
  - apply Ik2 in Hi as ->. rewrite E in C2. apply chan_enter_consumer in C2.
    eexists. split; [exists l1, p1, k1, l2, p2, TDeqLock; split; [done|split; [done|split; [done|done]]]|cbn; rewrite E; cbn; lia].
Qed.

Lemma spurious_inv cap1 cap2 ins outs n n' m : net_inv cap1 cap2 ins outs n m -> spurious n n' ->
  exists m', net_inv cap1 cap2 ins outs n' m' /\ (m' <= m + 2)%nat.
Proof.
  intros (l1 & p1 & k1 & l2 & p2 & k2 & C1 & C2 & Hx & ->) Hg. destruct Hg as [n c Hw|n c Hw].
  - destruct (chan_wakes _ _ _ _ _ _ _ _ _ C1 Hw) as (l1' & p1' & k1' & C1' & Hle & _ & Hk).
    eexists. split; [exists l1', p1', k1', l2, p2, k2; split; [done|split; [done|split; [naive_solver|done]]]|cbn; lia].
  - destruct (chan_wakes _ _ _ _ _ _ _ _ _ C2 Hw) as (l2' & p2' & k2' & C2' & Hle & Hp & _).
    eexists. split; [exists l1, p1, k1, l2', p2', k2'; split; [done|split; [done|split; [naive_solver|done]]]|cbn; lia].
Qed.

Lemma run_inv cap1 cap2 ins outs n0 m0 k w n : net_inv cap1 cap2 ins outs n0 m0 -> run n0 k w n ->
  exists m, net_inv cap1 cap2 ins outs n m /\ (k + m <= m0 + 2 * w)%nat.
Proof.
  intros I0 Hr. induction Hr as [|k w n1 n2 _ (m & I & Hm) Hg|k w n1 n2 _ (m & I & Hm) Hs].
  - exists m0. split; [done|lia].
  - destruct (go_inv _ _ _ _ _ _ _ I Hg) as (m' & I' & Hlt). exists m'. split; [done|lia].
  - destruct (spurious_inv _ _ _ _ _ _ _ I Hs) as (m' & I' & Hle). exists m'. split; [done|lia].
Qed.

(** ** No deadlock *)

(** Without work in a channel its threads are idle, or the producer waits for
    room and the consumer is idle, or the other way round. *)
Lemma chan_stuck cap c l p k send take fs : chan cap c l p k send take fs ->
  (exists c', work_step c c') \/ (p = TIdle /\ k = TIdle) \/ (p <> TIdle /\ k = TIdle /\ l <> []) \/
  (p = TIdle /\ k = TDeqWait /\ l = []).
Proof.
  intros [I T (x & Hx & _) (y & Hy & _)].
  assert (Hp : s_threads c !! producer = Some p) by (rewrite T; apply threads2_lookup; auto).
  assert (Hk : s_threads c !! consumer = Some k) by (rewrite T; apply threads2_lookup; auto).
  destruct (fifo_bound _ _ (inv_rep _ _ _ I)) as [Hpos _]. rewrite (inv_cap _ _ _ I) in Hpos.
  destruct (decide (weight p = 0%nat)) as [Ep|Ep].
  - assert (p = TIdle) as -> by (by destruct p).
    destruct (decide (weight k = 0%nat)) as [Ek|Ek]; [right; left; by destruct k|].
    assert (Hki : k <> TIdle) by (by intros ->).
    destruct (inv_progress _ _ _ _ _ I Hk Hki) as [?|[[_ Ha]|[-> Ha]]]; [auto| |].
    + destruct (Ha _ _ Hk) as [|[f ->]]; done.
    + destruct (Ha _ _ Hk) as [|]; [done|]. right. right. right. auto.
  - assert (Hpi : p <> TIdle) by (by intros ->).
    destruct (inv_progress _ _ _ _ _ I Hp Hpi) as [?|[[Hf Ha]|[_ Ha]]]; [auto| |].
    + right. right. left. split; [done|]. split; [|intros ->; cbn in Hf; lia].
      destruct (Ha _ _ Hk) as [|[f ->]]; done.
    + destruct (Ha _ _ Hp) as [|Hp']; [done|]. by rewrite Hp' in Hx.
Qed.

(** A consumer that waits for a frame of an idle producer, or an idle one,
    has not got all: the producer has calls to make. *)
Lemma chan_owes cap c l k send take fs x : chan cap c l TIdle k send take fs -> l = [] -> taking k = Some x ->
  (length send = x + take)%nat.
Proof.
  intros [I _ (z & [= <-] & Hs) (y & Hy & Hk)] -> Hx. simplify_eq. pose proof (inv_hist _ _ _ I) as Hh.
  rewrite app_nil_r in Hh. rewrite Hh, !length_app in Hk. cbn in Hk. lia.
Qed.

(** A queue that holds frames has a consumer with calls to make. *)
Lemma chan_unread cap c l p send take fs : chan cap c l p TIdle send take fs -> l <> [] -> take <> 0%nat.
Proof.
  intros [I _ (z & _ & Hs) (y & [= <-] & Hk)] Hl ->. pose proof (inv_hist _ _ _ I) as Hh.
  rewrite <- Hs, Hh, !length_app in Hk. destruct l; [done|]. cbn in Hk. lia.
Qed.

Lemma dequeues_nil l : dequeues l <> 0%nat -> l <> [].
Proof. by intros H ->. Qed.

Lemma enqueues_nil l : enqueues l <> [] -> l <> [].
Proof. by intros H ->. Qed.

Lemma net_progress cap1 cap2 ins outs n m : net_inv cap1 cap2 ins outs n m ->
  finished n \/ exists n', go n n'.
Proof.
  intros (l1 & p1 & k1 & l2 & p2 & k2 & C1 & C2 & Hx & _).
  destruct (chan_idle _ _ _ _ _ _ _ _ C1) as [Ip1 Ik1]. destruct (chan_idle _ _ _ _ _ _ _ _ C2) as [Ip2 Ik2].
  destruct (chan_stuck _ _ _ _ _ _ _ _ C1) as [[c Hw]|H1]; [right; eexists; by apply go_first|].
  destruct (chan_stuck _ _ _ _ _ _ _ _ C2) as [[c Hw]|H2]; [right; eexists; by apply go_second|].
  (* the matcher, idle on both sides, goes on *)
  assert (Hmat : k1 = TIdle -> p2 = TIdle -> n_matcher n <> [] -> exists n', go n n').
  { intros E1 E2 Hm. apply Ik1 in E1. apply Ip2 in E2. destruct (n_matcher n) as [|[f|] l] eqn:E; [done|..];
      eexists; [by eapply go_matcher_enq|by eapply go_matcher_deq]. }
  assert (Hout : k2 = TIdle -> n_output n <> 0%nat -> exists n', go n n').
  { intros E Ho. apply Ik2 in E. destruct (n_output n) as [|k] eqn:En; [done|]. eexists. by eapply go_output. }
  assert (Hin : p1 = TIdle -> n_input n <> [] -> exists n', go n n').
  { intros E Hi. apply Ip1 in E. destruct (n_input n) as [|f l] eqn:En; [done|]. eexists. by eapply go_input. }
  (* a matcher that waits for a frame has an input with frames to send *)
  assert (Hwait : k1 <> TIdle -> exists n', go n n').
  { intros Hk. destruct H1 as [[_ ?]|[(_ & ? & _)|(E1 & E2 & E3)]]; [done|done|]. subst p1 k1. apply Hin; [done|].
    pose proof (chan_owes _ _ _ _ _ _ _ 1%nat C1 E3 eq_refl) as Ho. by destruct (n_input n). }
  destruct H2 as [[-> ->]|[(_ & -> & Hl)|(-> & -> & Hl)]].
  - destruct (decide (n_output n = 0%nat)) as [Eo|Eo]; [|right; auto].
    destruct H1 as [[-> ->]|[(_ & -> & Hl)|(_ & -> & _)]]; [|right|right; by apply Hwait].
    + destruct (n_input n) eqn:Ei; [|right; by apply Hin]. destruct (n_matcher n) eqn:Em; [|right; by apply Hmat].
      left. unfold finished. tauto.
    + apply Hmat; [done..|]. apply dequeues_nil. by eapply chan_unread.
  - right. apply Hout; [done|]. by eapply chan_unread.
  - right. assert (Hm : n_matcher n <> []).
    { apply enqueues_nil. pose proof (chan_owes _ _ _ _ _ _ _ 1%nat C2 Hl eq_refl) as Ho.
      by destruct (enqueues (n_matcher n)). }
    destruct (decide (weight k1 = 0%nat)) as [Ek|Ek]; [apply Hmat; [by destruct k1|done..]|].
    apply Hwait. by intros ->.
Qed.

(** What the threads have got. *)
Lemma net_prefix cap1 cap2 ins outs n m : net_inv cap1 cap2 ins outs n m ->
  s_deq (n_first n) `prefix_of` ins /\ s_deq (n_second n) `prefix_of` outs /\
  (finished n -> s_deq (n_first n) = ins /\ s_deq (n_second n) = outs).
Proof.
  intros (l1 & p1 & k1 & l2 & p2 & k2 & C1 & C2 & _ & _).
  assert (Hpre : forall cap c l p k send take fs, chan cap c l p k send take fs -> s_deq c `prefix_of` fs).
  { intros cap c l p k send take fs [I _ (x & _ & <-) _]. rewrite (inv_hist _ _ _ I), <- !app_assoc. by eexists. }
  pose proof (Hpre _ _ _ _ _ _ _ _ C1) as P1. pose proof (Hpre _ _ _ _ _ _ _ _ C2) as P2.
  split; [done|]. split; [done|]. intros (Ei & Em & Eo & _ & Hk1 & _ & Hk2).
  apply (chan_idle _ _ _ _ _ _ _ _ C1) in Hk1 as ->. apply (chan_idle _ _ _ _ _ _ _ _ C2) in Hk2 as ->.
  destruct C1 as [_ _ _ (y1 & [= <-] & T1)]. destruct C2 as [_ _ _ (y2 & [= <-] & T2)].
  rewrite Em in T1. cbn in T1. split; apply prefix_length_eq; auto; lia.
Qed.


End network.

(** ** Properties *)

(** The two queues of [main], and the threads before their first call: the
    input will send [ins], the matcher makes the calls [calls]. *)
Definition pipeline_start (cap : Z) (ins : list dns_packet_frame) (calls : list (option dns_packet_frame))
    : net (Q := dns_frame_queue) :=
  start (dns_frame_queue_create cap DNS_QUEUE_BLOCK) (dns_frame_queue_create cap DNS_QUEUE_BLOCK) ins calls.

Lemma pipeline_start_inv cap ins calls : 0 < cap < 2 ^ 63 -> dequeues calls = length ins ->
  net_inv cap cap ins (enqueues calls) (pipeline_start cap ins calls)
    (10 * (length ins + length calls + length (enqueues calls))).
Proof.
  intros Hc Hd. pose proof (create_represents cap DNS_QUEUE_BLOCK Hc) as R.
  set (q := dns_frame_queue_create cap DNS_QUEUE_BLOCK) in *.
  exact (network_start_inv (BF := dns_frame_queue_fifo) q q ins calls (conj R eq_refl) (conj R eq_refl) Hd).
Qed.

(** C12: the threads of the pipeline end.  However the scheduler interleaves
    the input, the matcher and the output, and in whatever order the matcher
    dequeues the frames of the input and enqueues its own, they make at most
    ten steps per call, and two more for each spurious wakeup; and as long as
    a call is left or has not returned, some thread can go on: there is no
    deadlock between the two bounded queues and no wakeup is lost. *)
Theorem pipeline_threads_end (cap : Z) (ins : list dns_packet_frame) (calls : list (option dns_packet_frame))
    (k w : nat) (n : net) :
  0 < cap < 2 ^ 63 -> dequeues calls = length ins -> run (pipeline_start cap ins calls) k w n ->
  (k <= 10 * (length ins + length calls + length (enqueues calls)) + 2 * w)%nat /\
  (finished n \/ exists n', go n n').
Proof.
  intros Hc Hd Hr. destruct (run_inv _ _ _ _ _ _ _ _ _ (pipeline_start_inv cap ins calls Hc Hd) Hr) as (m & I & Hm).
  split; [lia|]. by eapply net_progress.
Qed.

(** C13: the schedule does not matter.  At any time the matcher has got a
    prefix of the frames of the input and the output a prefix of the frames
    of the matcher, and when all threads are done, they have got exactly what
    the sequential composition passes on, in order. *)
Theorem pipeline_threads_sequential (cap : Z) (ins : list dns_packet_frame)
    (calls : list (option dns_packet_frame)) (k w : nat) (n : net) :
  0 < cap < 2 ^ 63 -> dequeues calls = length ins -> run (pipeline_start cap ins calls) k w n ->
  s_deq (n_first n) `prefix_of` ins /\ s_deq (n_second n) `prefix_of` enqueues calls /\
  (finished n -> exists q1 q2,
     transfer (dns_frame_queue_create cap DNS_QUEUE_BLOCK) ins = Ok (s_deq (n_first n), q1) /\
     transfer (dns_frame_queue_create cap DNS_QUEUE_BLOCK) (enqueues calls) = Ok (s_deq (n_second n), q2)).
Proof.
  intros Hc Hd Hr. destruct (run_inv _ _ _ _ _ _ _ _ _ (pipeline_start_inv cap ins calls Hc Hd) Hr) as (m & I & _).
  destruct (net_prefix _ _ _ _ _ _ I) as (P1 & P2 & Hfin). split; [done|]. split; [done|].
  intros Hf. destruct (Hfin Hf) as [-> ->].
  destruct (transfer_ok cap ins Hc) as (q1 & T1 & _). destruct (transfer_ok cap (enqueues calls) Hc) as (q2 & T2 & _).
  by exists q1, q2.
Qed.

(** ** Closed examples *)

(** The matcher sends a frame before it reads its second one. *)
Definition sample_calls : list (option dns_packet_frame) :=
  [None; Some (sample_frame 1 10); None; Some (sample_frame 2 20)].
Definition sample_ins : list dns_packet_frame := [sample_frame 3 5; sample_frame 4 6].

Lemma sample_schedule : run (pipeline_start 1 sample_ins sample_calls) 1 0
  {| n_first := enter (fresh (dns_frame_queue_create 1 DNS_QUEUE_BLOCK)) 0 (TEnqLock (sample_frame 3 5));
     n_second := fresh (dns_frame_queue_create 1 DNS_QUEUE_BLOCK); n_input := [sample_frame 4 6];
     n_matcher := sample_calls; n_output := 2 |}.
Proof. eapply run_go; [apply run_nil|]. by apply (go_input (pipeline_start 1 sample_ins sample_calls)). Qed.

Lemma pipeline_threads_end_witness :
  exists n, run (pipeline_start 1 sample_ins sample_calls) 1 0 n /\ (finished n \/ exists n', go n n').
Proof.
  eexists. split; [exact sample_schedule|].
  apply (pipeline_threads_end 1 sample_ins sample_calls 1 0); [lia|reflexivity|exact sample_schedule].
Defined.

Lemma pipeline_threads_sequential_witness :
  exists n, run (pipeline_start 1 sample_ins sample_calls) 1 0 n /\ s_deq (n_first n) `prefix_of` sample_ins.
Proof.
  eexists. split; [exact sample_schedule|].
  apply (pipeline_threads_sequential 1 sample_ins sample_calls 1 0); [lia|reflexivity|exact sample_schedule].
Defined.
