(* ===== verification/Options.v ===== *)
(** * Command line ([libucw/ucw/opt.c], [libucw/ucw/opt-conf.c], [src/main.c])

    The parser of the command line with the options of the collector: it
    loads configuration files and settings, and keeps the names of inputs,
    the interface and the output path.  An exit of the program is its code.
    The texts of [--help] and [--dumpconfig] are not modelled. *)

From stdpp Require Import base numbers strings gmap list.
From S2P Require Import Prelude Doubles Common Config ConfParse ConfInput ConfIntr ConfLoad ConfInv ConfUndo.
From S2P Require Import Libs TimeFmt Output OutputCbor OutputCsv Pipeline.

(** ** Options *)

(** What an option does: [opt_handle_help], [opt_handle_config],
    [opt_handle_set], [opt_handle_dumpconfig], or the assignment of a
    variable. *)
Inductive opt_action : Set :=
| HandleHelp | HandleConfig | HandleSet | HandleDumpconfig
| AssignInterface | AssignOutput | PushInput.

(** [struct opt_item]; a value is required or not allowed. *)
Record opt_item : Set := {
  letter : Z;
  name : option (list Z);
  action : opt_action;
  required_value : bool;
  before_config : bool;
}.

Definition OPT_POSITIONAL_TAIL : Z := 128.
Definition OPT_EXIT_BAD_ARGS : Z := 2.

(** [dns_options] with [OPT_CONF_OPTIONS]; 0 stands for no letter. *)
Definition dns_options : list opt_item :=
  let item l n a v b := {| letter := l; name := Some (bytes_of_string n); action := a;
                           required_value := v; before_config := b |} in
  [ item 0 "help"%string HandleHelp false true;
    item 67 "config"%string HandleConfig true true;
    item 83 "set"%string HandleSet true true;
    item 0 "dumpconfig"%string HandleDumpconfig false false;
    item 105 "interface"%string AssignInterface true false;
    item 111 "output"%string AssignOutput true false;
    {| letter := OPT_POSITIONAL_TAIL; name := None; action := PushInput; required_value := true; before_config := true |} ].

Inductive opt_conf_state : Set := OPT_CONF_HOOK_BEGIN | OPT_CONF_HOOK_CONFIG | OPT_CONF_HOOK_OTHERS.

(** The state of [opt_parse] and the variables of [main.c]. *)
Record opt_state : Type := {
  os_cc : cf_context;
  os_conf_state : opt_conf_state;
  os_interface : option (list Z);
  os_output : option (list Z);
  os_inputs : list (list Z);
}.

Definition with_cc (st : opt_state) (cc : cf_context) : opt_state :=
  {| os_cc := cc; os_conf_state := os_conf_state st; os_interface := os_interface st; os_output := os_output st;
     os_inputs := os_inputs st |}.
Definition with_state (st : opt_state) (s : opt_conf_state) : opt_state :=
  {| os_cc := os_cc st; os_conf_state := s; os_interface := os_interface st; os_output := os_output st;
     os_inputs := os_inputs st |}.
Definition with_interface (st : opt_state) (v : option (list Z)) : opt_state :=
  {| os_cc := os_cc st; os_conf_state := os_conf_state st; os_interface := v; os_output := os_output st;
     os_inputs := os_inputs st |}.
Definition with_output (st : opt_state) (v : option (list Z)) : opt_state :=
  {| os_cc := os_cc st; os_conf_state := os_conf_state st; os_interface := os_interface st; os_output := v;
     os_inputs := os_inputs st |}.
Definition with_inputs (st : opt_state) (l : list (list Z)) : opt_state :=
  {| os_cc := os_cc st; os_conf_state := os_conf_state st; os_interface := os_interface st; os_output := os_output st;
     os_inputs := l |}.

(** A step: the code of an exit, or a state with a result. *)
Abbreviation step A := (outcome (Z + A)).

Definition exit {A} (code : Z) : step A := Ok (inl code).
Definition opt_failure {A} : step A := exit OPT_EXIT_BAD_ARGS.
Definition continue {A} (a : A) : step A := Ok (inr a).

Definition andthen {A B} (m : step A) (f : A -> step B) : step B :=
  match m with
  | Ok (inl code) => exit code
  | Ok (inr a) => f a
  | Fail e => Fail e
  end.

Notation "x <~ m ; f" := (andthen m (fun x => f)) (at level 20, m at level 100, f at level 200, right associativity).

Section options.
Context `{SD : ScanDouble} `{LG : LoggingSection}.
Context (bopen_try : list Z -> bool + list Z).

(** ** [opt-conf.c] *)

Definition opt_conf_end_of_options (st : opt_state) : step opt_state :=
  let cc := cf_load_default (os_cc st) in
  if negb (cc_postpone_commit cc =? 0) then
    '(failed, cc) ← cf_close_group collector_sections cc;
    if (failed : bool) then opt_failure else continue (with_cc st cc)
  else continue (with_cc st cc).

Definition opt_conf_check (st : opt_state) : step opt_state :=
  match os_conf_state st with
  | OPT_CONF_HOOK_BEGIN => continue (with_state st OPT_CONF_HOOK_CONFIG)
  | OPT_CONF_HOOK_CONFIG => continue st
  | OPT_CONF_HOOK_OTHERS => opt_failure
  end.

Definition opt_handle_config (value : list Z) (st : opt_state) : step opt_state :=
  st <~ opt_conf_check st;
  '(err, cc) ← cf_load collector_sections bopen_try value (os_cc st);
  match err with Some _ => exit 1 | None => continue (with_cc st cc) end.

Definition opt_handle_set (value : list Z) (st : opt_state) : step opt_state :=
  st <~ opt_conf_check st;
  '(err, cc) ← cf_set collector_sections bopen_try value (cf_load_default (os_cc st));
  match err with Some _ => opt_failure | None => continue (with_cc st cc) end.

Definition opt_handle_dumpconfig (st : opt_state) : step opt_state :=
  st <~ opt_conf_end_of_options st; exit 0.

(** [opt_conf_hook_internal] before a value. *)
Definition opt_conf_hook (item : opt_item) (st : opt_state) : step opt_state :=
  if before_config item then continue st
  else
    match os_conf_state st with
    | OPT_CONF_HOOK_OTHERS => continue st
    | _ => st <~ opt_conf_end_of_options st; continue (with_state st OPT_CONF_HOOK_OTHERS)
    end.

(** ** [opt.c] *)

(** The switch of [opt_parse_value] for the classes of the collector's
    options, calls and strings; [value] is NULL for an option without a value. *)
Definition opt_perform (item : opt_item) (value : option (list Z)) (st : opt_state) : step opt_state :=
  match action item with
  | HandleHelp => exit 0
  | HandleConfig => opt_handle_config (default [] value) st
  | HandleSet => opt_handle_set (default [] value) st
  | HandleDumpconfig => opt_handle_dumpconfig st
  | AssignInterface => continue (with_interface st value)
  | AssignOutput => continue (with_output st value)
  | PushInput => continue (with_inputs st (os_inputs st ++ [default [] value]))
  end.

(** [opt_parse_value]: no option is [OPT_SINGLE] or [OPT_LAST_ARG]. *)
Definition opt_parse_value (item : opt_item) (value : option (list Z)) (st : opt_state) : step opt_state :=
  st <~ opt_conf_hook item st; opt_perform item value st.

(** [opt_find_item_longopt]: [None] where the option is invalid or ambiguous. *)
Fixpoint find_longopt (opts : list opt_item) (str : list Z) (candidate : option opt_item) : option opt_item :=
  match opts with
  | [] => candidate
  | opt :: opts =>
      match name opt with
      | None => find_longopt opts str candidate
      | Some n =>
          if bool_decide (take (length str) n = str) then
            if (length n =? length str)%nat then Some opt
            else match candidate with
                 | Some _ => None
                 | None => find_longopt opts str (Some opt)
                 end
          else find_longopt opts str candidate
      end
  end.

(** The characters before a [=], and the value after it if there is one. *)
Fixpoint split_equals (s : list Z) : list Z * option (list Z) :=
  match s with
  | [] => ([], None)
  | c :: r => if c =? 61 then ([], Some r) else let '(a, v) := split_equals r in (c :: a, v)
  end.

(** [opt_longopt] on the characters after the dashes; [next] is the following
    argument.  The state comes with the number of arguments eaten. *)
Definition opt_longopt (name_in : list Z) (next : option (list Z)) (st : opt_state) : step (nat * opt_state) :=
  let '(str, value) := split_equals name_in in
  match find_longopt dns_options str None with
  | None => opt_failure
  | Some opt =>
      if required_value opt then
        match value, next with
        | Some v, _ => st <~ opt_parse_value opt (Some v) st; continue (0%nat, st)
        | None, Some v => st <~ opt_parse_value opt (Some v) st; continue (1%nat, st)
        | None, None => opt_failure
        end
      else match value with
           | Some _ => opt_failure
           | None => st <~ opt_parse_value opt None st; continue (0%nat, st)
           end
  end.

(** The table [shortopt]. *)
Definition shortopt (o : Z) : option opt_item :=
  List.find (fun opt => letter opt =? o) dns_options.

(** [opt_shortopt] on the characters after the dash. *)
Fixpoint opt_shortopt (chars : list Z) (next : option (list Z)) (st : opt_state) : step (nat * opt_state) :=
  match chars with
  | [] => continue (0%nat, st)
  | o :: chars =>
      if o >=? 128 then opt_failure
      else
        match shortopt o with
        | None => opt_failure
        | Some opt =>
            if required_value opt then
              match chars, next with
              | _ :: _, _ => st <~ opt_parse_value opt (Some chars) st; continue (0%nat, st)
              | [], None => opt_failure
              | [], Some v => st <~ opt_parse_value opt (Some v) st; continue (1%nat, st)
              end
            else st <~ opt_parse_value opt None st; opt_shortopt chars next st
        end
  end.

Definition opt_positional (value : list Z) (st : opt_state) : step opt_state :=
  match shortopt OPT_POSITIONAL_TAIL with
  | None => opt_failure
  | Some opt => opt_parse_value opt (Some value) st
  end.

(** The loop of [opt_parse]. *)
Fixpoint opt_parse_args (argv : list (list Z)) (force_positional : bool) (st : opt_state) : step opt_state :=
  match argv with
  | [] => continue st
  | arg :: argv =>
      let rest (r : step (nat * opt_state)) :=
        x <~ r;
        match x with
        | (O, st) => opt_parse_args argv force_positional st
        | (S _, st) => match argv with _ :: argv => opt_parse_args argv force_positional st | [] => continue st end
        end in
      if negb (starts 45 arg) || force_positional then
        st <~ opt_positional arg st; opt_parse_args argv force_positional st
      else
        match tail arg with
        | [] => st <~ opt_positional arg st; opt_parse_args argv force_positional st
        | c :: chars =>
            if c =? 45 then
              if bool_decide (chars = []) then opt_parse_args argv true st
              else rest (opt_longopt chars (head argv) st)
            else rest (opt_shortopt (c :: chars) (head argv) st)
        end
  end.

(** [opt_parse]; no option is required, and the hook runs at the end. *)
Definition opt_parse (argv : list (list Z)) (st : opt_state) : step opt_state :=
  st <~ opt_parse_args argv false st; opt_conf_end_of_options st.

End options.

(** The state [main] starts from: the memory of the settings is not
    initialized. *)
Definition main_state (memory : store) : opt_state :=
  {| os_cc := new_context memory; os_conf_state := OPT_CONF_HOOK_BEGIN; os_interface := None; os_output := None;
     os_inputs := [] |}.

(** ** Properties *)

(** Reading [value], as the name of a file or as settings, leaves no separator
    for the check of the settings in some context of the collector. *)
Definition clears_separator `{ScanDouble} `{LoggingSection} (bopen_try : list Z -> bool + list Z) (value : list Z) : Prop :=
  exists cc, reachable cc /\
    (no_separator bopen_try (until_nul value) cc \/ exists text, bopen_try value = inr text /\ no_separator bopen_try text cc).

(** A value of the command line: an argument or its end. *)
Definition value_of (args : list (list Z)) (value : list Z) : Prop := exists arg, arg ∈ args /\ value `suffix_of` arg.

(** When reading a command line may be undefined: the section of the logs
    crashes, or one of the values clears the separator. *)
Definition excused `{ScanDouble} `{LoggingSection} (bopen_try : list Z -> bool + list Z) (args : list (list Z)) : Prop :=
  logging_crashes \/ exists value, value_of args value /\ clears_separator bopen_try value.

(** A step that exits with a code of the program, is undefined with the excuse
    [X], or continues with [P]. *)
Definition settled (X : Prop) {A} (P : A -> Prop) (m : step A) : Prop :=
  match m with
  | Ok (inl code) => code = 0 \/ code = 1 \/ code = OPT_EXIT_BAD_ARGS
  | Ok (inr a) => P a
  | Fail e => e = UndefinedBehaviour /\ X
  end.

Lemma settled_andthen (X : Prop) {A B} (P : A -> Prop) (Q : B -> Prop) m f :
  settled X P m -> (forall a, P a -> settled X Q (f a)) -> settled X Q (andthen m f).
Proof. destruct m as [[code|a]|e]; cbn; auto. Qed.

Lemma settled_failure (X : Prop) {A} (P : A -> Prop) : settled X P opt_failure.
Proof. cbn. auto. Qed.

(** A state between options. *)
Definition ready `{ScanDouble} `{LoggingSection} (st : opt_state) : Prop :=
  rest_ok (os_cc st) /\ (cc_config_loaded (os_cc st) = true -> cc_sections_initialized (os_cc st) = true) /\
  reachable (os_cc st).

Section options.
Context `{SD : ScanDouble} `{LG : LoggingSection}.
Context (bopen_try : list Z -> bool + list Z) (args : list (list Z)).

Abbreviation settles := (settled (excused bopen_try args)).

Lemma end_of_options_settled st : ready st ->
  settles (fun st' => ready st' /\ cc_sections_initialized (os_cc st') = true) (opt_conf_end_of_options st).
Proof.
  intros (Hr & Hl & Hc). unfold opt_conf_end_of_options.
  pose proof (cf_load_default_rest _ Hr) as Hr'. rewrite (rest_postpone _ Hr'). cbn [negb Z.eqb settled continue].
  assert (Hi : cc_sections_initialized (cf_load_default (os_cc st)) = true).
  { unfold cf_load_default. destruct (cc_config_loaded (os_cc st)); [by apply Hl|].
    unfold cf_init_stack. cbn. destruct (cc_sections_initialized (os_cc st)) eqn:E; by cbn. }
  apply reach_default in Hc. unfold ready; cbn. auto.
Qed.

Lemma conf_check_settled st : ready st -> settles ready (opt_conf_check st).
Proof. intros H. unfold opt_conf_check. destruct (os_conf_state st); [exact H|exact H|apply settled_failure]. Qed.

Lemma handle_config_settled value st : value_of args value -> ready st ->
  settles ready (opt_handle_config bopen_try value st).
Proof.
  intros Hv Hst. unfold opt_handle_config. eapply settled_andthen; [by apply conf_check_settled|]. clear st Hst.
  intros st (Hr & _ & Hc). destruct (cf_load_stops bopen_try value (os_cc st)) as [(err & cc & E)|[Hx E]]; rewrite E.
  2: { split; [done|]. destruct Hx as [Hx|Hx]; [by left|]. right. exists value. split; [done|]. exists (os_cc st). auto. }
  cbn. destruct err; [cbn; auto|]. split; [by eapply cf_load_rest|]. split; [intros _|by eapply reach_load].
  unfold cf_load in E. inv_ok. destruct a as [e c]. inv_ok. cbn.
  by eapply (transaction_ok _ _ _ _ (load_file_frame bopen_try value)).
Qed.

Lemma handle_set_settled value st : value_of args value -> ready st -> settles ready (opt_handle_set bopen_try value st).
Proof.
  intros Hv Hst. unfold opt_handle_set. eapply settled_andthen; [by apply conf_check_settled|]. clear st Hst.
  intros st (Hr & _ & Hc). apply reach_default in Hc.
  destruct (cf_set_stops bopen_try value (cf_load_default (os_cc st))) as [(err & cc & E)|[Hx E]]; rewrite E.
  2: { split; [done|]. destruct Hx as [Hx|Hx]; [by left|]. right. exists value. split; [done|].
       exists (cf_load_default (os_cc st)). auto. }
  cbn. destruct err; [apply settled_failure|].
  split; [eapply cf_set_rest; [by apply cf_load_default_rest | exact E]|].
  split; [intros _|by eapply reach_set].
  by eapply (transaction_ok _ _ _ _ (load_string_frame bopen_try value)).
Qed.

Lemma parse_value_settled item value st : value_of args (default [] value) -> ready st ->
  settles ready (opt_parse_value bopen_try item value st).
Proof.
  intros Hv Hst. unfold opt_parse_value. apply (settled_andthen _ ready).
  { unfold opt_conf_hook. destruct (before_config item); [done|].
    destruct (os_conf_state st); try done;
      (eapply settled_andthen; [by apply end_of_options_settled|]; by intros st' [? _]). }
  clear st Hst. intros st Hst. unfold opt_perform. destruct (action item); try exact Hst.
  - cbn. auto.
  - by apply handle_config_settled.
  - by apply handle_set_settled.
  - unfold opt_handle_dumpconfig. eapply settled_andthen; [by apply end_of_options_settled|]. cbn. auto.
Qed.

(** Values of an argument, and the next argument as one. *)
Lemma value_arg arg value : arg ∈ args -> value `suffix_of` arg -> value_of args value.
Proof. by exists arg. Qed.

Lemma value_nil arg : arg ∈ args -> value_of args [].
Proof. intros H. apply (value_arg arg); [done|]. apply suffix_nil. Qed.

Lemma split_equals_suffix s n v : split_equals s = (n, Some v) -> v `suffix_of` s.
Proof.
  revert n. induction s as [|c s IH]; intros n; cbn [split_equals]; [done|]. destruct (c =? 61).
  - intros [= _ <-]. by apply suffix_cons_r.
  - destruct (split_equals s) as [a w]. intros [= _ ->]. by apply suffix_cons_r, (IH a).
Qed.

Lemma longopt_settled arg name_in next st : arg ∈ args -> name_in `suffix_of` arg ->
  (forall v, next = Some v -> v ∈ args) -> ready st ->
  settles (fun x => ready x.2) (opt_longopt bopen_try name_in next st).
Proof.
  intros Ha Hs Hn Hst. unfold opt_longopt. destruct (split_equals name_in) as [str value] eqn:E.
  destruct (find_longopt dns_options str None) as [opt|]; [|apply settled_failure].
  destruct (required_value opt), value; try destruct next; try apply settled_failure;
    (eapply settled_andthen; [apply parse_value_settled; [|done]|done]); cbn [default id].
  1, 2: apply (value_arg arg); [done|]; etransitivity; [by eapply split_equals_suffix | done].
  - apply (value_arg l); [by apply Hn | done].
  - by eapply value_nil.
  - by eapply value_nil.
Qed.

Lemma shortopt_settled arg chars next st : arg ∈ args -> chars `suffix_of` arg ->
  (forall v, next = Some v -> v ∈ args) -> ready st ->
  settles (fun x => ready x.2) (opt_shortopt bopen_try chars next st).
Proof.
  intros Ha Hs Hn. revert Hs st. induction chars as [|o chars IH]; intros Hs st Hst; cbn [opt_shortopt]; [done|].
  assert (Hs' : chars `suffix_of` arg) by (etransitivity; [by apply suffix_cons_r | done]).
  destruct (o >=? 128); [apply settled_failure|]. destruct (shortopt o) as [opt|]; [|apply settled_failure].
  destruct (required_value opt).
  - destruct chars; [destruct next; [|apply settled_failure]|];
      (eapply settled_andthen; [apply parse_value_settled; [|done]|done]); cbn [default id].
    + apply (value_arg l); [by apply Hn | done].
    + by apply (value_arg arg).
  - eapply settled_andthen; [apply parse_value_settled; [by eapply value_nil | done] | by apply IH].
Qed.

Lemma parse_args_settled argv force st : argv ⊆ args -> ready st ->
  settles ready (opt_parse_args bopen_try argv force st).
Proof.
  revert force st. induction argv as [argv IH] using (induction_ltof1 _ (@length (list Z))). unfold ltof in IH.
  intros force st Hsub Hst. destruct argv as [|arg argv]; [done|]. cbn [opt_parse_args].
  assert (Ha : arg ∈ args) by (apply Hsub, list_elem_of_here).
  assert (Hsub' : argv ⊆ args) by (intros x Hx; by apply Hsub, list_elem_of_further).
  assert (Hn : forall v, head argv = Some v -> v ∈ args)
    by (intros v Hv; destruct argv; [done|]; injection Hv as ->; apply Hsub', list_elem_of_here).
  assert (IH1 : forall force st, ready st -> settles ready (opt_parse_args bopen_try argv force st))
    by (intros; apply IH; [cbn; lia | done | done]).
  assert (Hpos : forall st, ready st ->
    settles ready (st <~ opt_positional bopen_try arg st; opt_parse_args bopen_try argv force st)).
  { intros s Hs. eapply settled_andthen; [apply parse_value_settled; [by apply (value_arg arg) | done] | by apply IH1]. }
  assert (Hrest : forall r, settles (fun x => ready x.2) r ->
    settles ready (x <~ r; match x with
      | (O, st) => opt_parse_args bopen_try argv force st
      | (S _, st) => match argv with _ :: argv => opt_parse_args bopen_try argv force st | [] => continue st end
      end)).
  { intros r Hr. eapply settled_andthen; [exact Hr|]. intros [[|k] s] Hs; [by apply IH1|].
    destruct argv as [|a argv]; [done|]. apply IH; [cbn; lia | | done].
    intros x Hx. by apply Hsub', list_elem_of_further. }
  destruct (negb (starts 45 arg) || force); [by apply Hpos|].
  destruct arg as [|c0 arg0]; cbn [tail]; [by apply Hpos|]. destruct arg0 as [|c chars]; [by apply Hpos|].
  assert (Hc : c :: chars `suffix_of` c0 :: c :: chars) by (by apply suffix_cons_r).
  assert (Hch : chars `suffix_of` c0 :: c :: chars) by (by do 2 apply suffix_cons_r).
  destruct (c =? 45).
  - case_bool_decide; [by apply IH1 | by eapply Hrest, longopt_settled].
  - by eapply Hrest, shortopt_settled.
Qed.

End options.

Lemma main_state_ready `{SD : ScanDouble} `{LG : LoggingSection} memory : ready (main_state memory).
Proof. split; [done|]. split; [done|]. apply reach_new. Qed.

Lemma opt_parse_settled `{SD : ScanDouble} `{LG : LoggingSection} bopen_try argv memory :
  settled (excused bopen_try argv) (fun st => ready st /\ cc_sections_initialized (os_cc st) = true)
    (opt_parse bopen_try argv (main_state memory)).
Proof.
  unfold opt_parse. eapply settled_andthen; [by apply parse_args_settled, main_state_ready|].
  intros st. apply end_of_options_settled.
Qed.

Lemma accepted_output_type conf : dns_collector_conf_commit conf = None ->
  output_type conf = DNS_OUTPUT_TYPE_CSV \/ output_type conf = DNS_OUTPUT_TYPE_CBOR.
Proof.
  unfold dns_collector_conf_commit. destruct (Double.ltb _ _); [done|]. destruct (_ <? 1); [done|].
  destruct (Z.eqb_spec (output_type conf) DNS_OUTPUT_TYPE_CSV); [by left|].
  destruct (Z.eqb_spec (output_type conf) DNS_OUTPUT_TYPE_CBOR); [by right|done].
Qed.


Lemma split_equals_app n v : Forall (fun c => c <> 61) n -> split_equals (n ++ 61 :: v) = (n, Some v).
Proof.
  induction 1 as [|c n Hc _ IH]; [done|]. cbn. destruct (Z.eqb_spec c 61); [done|]. by rewrite IH.
Qed.

Lemma split_equals_none n : Forall (fun c => c <> 61) n -> split_equals n = (n, None).
Proof. induction 1 as [|c n Hc _ IH]; [done|]. cbn. destruct (Z.eqb_spec c 61); [done|]. by rewrite IH. Qed.

(** The options with a value are found by their names and letters. *)
Lemma option_table item n : item ∈ dns_options -> required_value item = true -> name item = Some n ->
  find_longopt dns_options n None = Some item /\ shortopt (letter item) = Some item /\
  (letter item >=? 128) = false /\ (letter item =? 45) = false /\ n <> [] /\ Forall (fun c => c <> 61) n.
Proof.
  intros Hin. unfold dns_options in Hin. rewrite !elem_of_cons, elem_of_nil in Hin.
  repeat (destruct Hin as [->|Hin]); [..|done]; intros [=] [= <-];
    (split; [vm_compute; reflexivity|]); (split; [vm_compute; reflexivity|]);
    (split; [done|]); (split; [done|]); (split; [done|]); cbn; repeat constructor; lia.
Qed.

(** The four ways to write an option with a value (its letter or its
    name, the value in the same argument or in the next) are the same: the
    option is performed with that value, and the arguments after it are
    parsed from the state it leaves.  The value after a letter in the same
    argument cannot be empty. *)
Theorem option_forms `{SD : ScanDouble} `{LG : LoggingSection} bopen_try item n v argv st :
  item ∈ dns_options -> required_value item = true -> name item = Some n ->
  let next := (st <~ opt_parse_value bopen_try item (Some v) st; opt_parse_args bopen_try argv false st) in
  opt_parse_args bopen_try ([45; letter item] :: v :: argv) false st = next /\
  opt_parse_args bopen_try ((45 :: 45 :: n) :: v :: argv) false st = next /\
  opt_parse_args bopen_try ((45 :: 45 :: n ++ 61 :: v) :: argv) false st = next /\
  (v <> [] -> opt_parse_args bopen_try ((45 :: letter item :: v) :: argv) false st = next).
Proof.
  intros Hin Hv Hn next.
  destruct (option_table item n Hin Hv Hn) as (Hlong & Hshort & H128 & H45 & Hne & H61).
  assert (Hbind : forall k (f : nat * opt_state -> step opt_state),
    (forall s, f (k, s) = opt_parse_args bopen_try argv false s) ->
    andthen (st <~ opt_parse_value bopen_try item (Some v) st; continue (k, st)) f = next).
  { intros k f Hk. unfold next, andthen. destruct (opt_parse_value _ _ _ _) as [[]|]; try done. apply Hk. }
  cbn [opt_parse_args starts tail negb orb Z.eqb Pos.eqb head]. rewrite H45. cbn [opt_shortopt]. rewrite H128, Hshort, Hv.
  split_and!.
  - by apply Hbind.
  - rewrite bool_decide_false by done. unfold opt_longopt. rewrite split_equals_none, Hlong, Hv by done.
    by apply Hbind.
  - rewrite bool_decide_false by (by destruct n). unfold opt_longopt. rewrite split_equals_app, Hlong, Hv by done.
    by apply Hbind.
  - intros Hve. destruct v as [|c v]; [done|]. by apply Hbind.
Qed.

(** [-i eth0] and its other forms. *)
Lemma option_forms_witness :
  let SD : ScanDouble := fun _ => None in let LG : LoggingSection := fun _ => LogAccepts in
  let argv := map bytes_of_string ["-i"; "eth0"; "x.pcap"]%string in
  exists st, opt_parse_args (fun _ => inl true) argv false (main_state ∅) = Ok (inr st) /\
    os_interface st = Some (bytes_of_string "eth0") /\
    opt_parse_args (fun _ => inl true) (map bytes_of_string ["--interface=eth0"; "x.pcap"]%string) false (main_state ∅) =
      Ok (inr st).
Proof.
  intros SD LG argv.
  destruct (option_forms (fun _ => inl true) {| letter := 105; name := Some (bytes_of_string "interface");
    action := AssignInterface; required_value := true; before_config := false |} (bytes_of_string "interface")
    (bytes_of_string "eth0") [bytes_of_string "x.pcap"] (main_state ∅)) as (H1 & _ & H3 & _);
    [do 4 apply list_elem_of_further; apply list_elem_of_here | reflexivity | reflexivity |].
  assert (H : match opt_parse_args (fun _ => inl true) argv false (main_state ∅) with
              | Ok (inr st) => bool_decide (os_interface st = Some (bytes_of_string "eth0"))
              | _ => false end = true) by (vm_compute; reflexivity).
  destruct (opt_parse_args (fun _ => inl true) argv false (main_state ∅)) as [[code|st]|] eqn:E; try discriminate H.
  apply bool_decide_eq_true_1 in H. exists st. split; [reflexivity|]. split; [exact H|].
  etransitivity; [exact H3|]. etransitivity; [symmetry; exact H1|]. exact E.
Defined.
