(* ===== verification/ConfPrint.v ===== *)
(** * Writing and reading configurations

    What the parsers of values accept: decimal numbers with units, exactly;
    and a printer of configurations whose texts the configuration reader reads
    back: every configuration the collector's check accepts can be written in
    a file, but for strings that begin with a brace, which the tokenizer takes
    for the opening of a block even in quotes. *)

From stdpp Require Import base numbers strings gmap list.
From S2P Require Import Prelude Doubles Common Config ConfParse ConfInput ConfIntr ConfLoad ConfInv ConfUndo.
From S2P Require Import TimeFmt.

(** ** Decimal numbers *)

Definition is_digit (c : Z) : Prop := 48 <= c <= 57.

Definition digits_value (acc : Z) (l : list Z) : Z := foldl (fun a c => a * 10 + (c - 48)) acc l.

Lemma digit_value_digit c : is_digit c -> digit_value c = c - 48.
Proof. unfold is_digit, digit_value, Cdigit. intros H. by replace (_ && _) with true by lia. Qed.

Lemma print_digits_digits fuel z : 0 <= z -> Forall is_digit (print_digits fuel z).
Proof.
  revert z. induction fuel as [|fuel IH]; intros z Hz; cbn [print_digits]; [constructor|].
  destruct (Z.ltb_spec z 10); [constructor; [unfold is_digit; lia | constructor]|].
  apply Forall_app. split; [apply IH; div_lia|]. constructor; [unfold is_digit; div_lia | constructor].
Qed.

Lemma print_digits_value fuel z : 0 <= z < 10 ^ Z.of_nat fuel -> digits_value 0 (print_digits fuel z) = z.
Proof.
  revert z. induction fuel as [|fuel IH]; intros z Hz; cbn [print_digits]; [cbn in *; lia|].
  destruct (Z.ltb_spec z 10); [cbn; lia|]. unfold digits_value. rewrite foldl_app. fold (digits_value 0).
  change (foldl _ 0 (print_digits fuel (z / 10))) with (digits_value 0 (print_digits fuel (z / 10))).
  rewrite IH; [cbn; div_lia|]. rewrite Nat2Z.inj_succ, Z.pow_succ_r in Hz by lia. div_lia.
Qed.

(** The first digit of a number that is not 0 is not 0. *)
Lemma print_digits_head fuel z : 0 < z < 10 ^ Z.of_nat fuel ->
  exists d l, print_digits fuel z = d :: l /\ 49 <= d <= 57.
Proof.
  revert z. induction fuel as [|fuel IH]; intros z Hz; cbn [print_digits]; [cbn in *; lia|].
  destruct (Z.ltb_spec z 10); [exists (48 + z), []; split; [done | lia]|].
  rewrite Nat2Z.inj_succ, Z.pow_succ_r in Hz by lia.
  destruct (IH (z / 10)) as (d & l & -> & Hd); [div_lia|]. by exists d, (l ++ [48 + z mod 10]).
Qed.

Lemma take_digits_app acc l r : Forall is_digit l -> take_digits 10 acc (l ++ r) = take_digits 10 (digits_value acc l) r.
Proof.
  intros H. revert acc. induction H as [|c l Hc _ IH]; intros acc; [done|]. cbn [take_digits app].
  rewrite digit_value_digit by done. unfold is_digit in Hc. replace (c - 48 <? 10) with true by lia. apply IH.
Qed.

(** What may follow a number: nothing, or a unit. *)
Definition tail_ok (r : list Z) : Prop := r = [] \/ exists u, u ∈ units /\ r = [u_name u].

Lemma unit_chars u : u ∈ units ->
  digit_value (u_name u) >= 10 /\ Clocase (u_name u) <> 120 /\ Cdigit (u_name u) = false /\
  List.find (fun v => u_name v =? u_name u) units = Some u /\ 0 < u_num u <= 2 ^ 30 /\ 0 < u_den u.
Proof.
  unfold units. rewrite !elem_of_cons, elem_of_nil. intros H.
  repeat (destruct H as [->|H]); [..|done]; (split; [by vm_compute|]); (split; [by vm_compute|]);
    (split; [done|]); (split; [done|]); cbn; lia.
Qed.

Lemma take_digits_tail base acc r : 8 <= base <= 10 -> tail_ok r -> take_digits base acc r = (acc, r).
Proof.
  intros Hb [->|(u & Hu & ->)]; [done|]. cbn. apply unit_chars in Hu as (Hd & _).
  by replace (digit_value (u_name u) <? base) with false by lia.
Qed.

(** The digits of a number, read in the base that its first digit selects. *)
Lemma read_digits z r : 0 <= z < 10 ^ 20 -> tail_ok r ->
  let '(base, t) := number_base 0 (print_digits 20 z ++ r) in
  t = print_digits 20 z ++ r /\ take_digits base 0 t = (z, r).
Proof.
  intros Hz Hr. destruct (decide (z = 0)) as [->|Hne].
  - change (print_digits 20 0) with [48]. cbn [app].
    destruct Hr as [->|(u & Hu & ->)]; [done|].
    pose proof (unit_chars u Hu) as (_ & Hx & _). cbn [number_base].
    replace (Clocase (u_name u) =? 120) with false by lia. cbn [andb Z.eqb].
    split; [done|]. cbn. apply (take_digits_tail 8 0 [u_name u]); [lia|]. right. eauto.
  - destruct (print_digits_head 20 z) as (d & l & E & Hd); [lia|].
    assert (Hbase : number_base 0 (print_digits 20 z ++ r) = (10, print_digits 20 z ++ r)).
    { rewrite E. cbn [app]. unfold number_base.
      destruct d as [|p|p]; [lia| |lia]. do 6 (destruct p as [p|p|]; try reflexivity; try lia). }
    rewrite Hbase. split; [done|]. rewrite take_digits_app by (apply print_digits_digits; lia).
    rewrite print_digits_value by lia. by apply take_digits_tail.
Qed.

Lemma print_digits_nonempty fuel z : print_digits (S fuel) z <> [].
Proof. cbn [print_digits]. destruct (z <? 10); [done|]. by destruct (print_digits fuel (z / 10)). Qed.

Lemma strtoul_digits z r : 0 <= z < 10 ^ 20 -> tail_ok r ->
  strtoul 0 (print_digits 20 z ++ r) = (if z >? ULONG_MAX then (ULONG_MAX, r, true) else (z, r, false)).
Proof.
  intros Hz Hr. unfold strtoul.
  destruct (print_digits 20 z) as [|d l] eqn:E; [by apply print_digits_nonempty in E|].
  assert (Hd : is_digit d).
  { pose proof (print_digits_digits 20 z ltac:(lia)) as H. rewrite E in H. by apply Forall_cons in H as [? _]. }
  assert (Hskip : skip_while isspace ((d :: l) ++ r) = (d :: l) ++ r).
  { cbn [app skip_while]. unfold is_digit in Hd. unfold isspace. cbn [existsb].
    repeat (replace (d =? _) with false by lia). done. }
  rewrite Hskip. cbn [app]. unfold is_digit in Hd.
  replace (d =? 45) with false by lia. replace (d =? 43) with false by lia.
  pose proof (read_digits z r Hz Hr) as H. rewrite E in H. cbn [app] in H.
  destruct (number_base 0 (d :: l ++ r)) as [base t]. destruct H as [-> ->].
  replace (length r =? length (d :: l ++ r))%nat with false; [by destruct (z >? ULONG_MAX)|].
  symmetry. apply Nat.eqb_neq. cbn. rewrite length_app. lia.
Qed.

Lemma strtoul_negative z : 0 < z <= ULONG_MAX -> strtoul 0 (45 :: print_digits 20 z) = (u64 (- z), [], false).
Proof.
  intros Hz. unfold strtoul. cbn [skip_while isspace existsb Z.eqb Pos.eqb orb].
  assert (H20 : z < 10 ^ 20) by (unfold ULONG_MAX in Hz; lia).
  pose proof (read_digits z [] ltac:(lia) (or_introl eq_refl)) as H. rewrite app_nil_r in H.
  destruct (number_base 0 (print_digits 20 z)) as [base t]. destruct H as [-> ->].
  pose proof (print_digits_nonempty 19 z).
  replace (length (@nil Z) =? length (print_digits 20 z))%nat with false; [by replace (z >? ULONG_MAX) with false by lia|].
  symmetry. apply Nat.eqb_neq. by destruct (print_digits 20 z).
Qed.

Lemma s32_id z : - 2 ^ 31 <= z < 2 ^ 31 -> s32 z = z.
Proof. unfold s32, u32. intros H. destruct (Z.ltb_spec (z mod 2 ^ 32) (2 ^ 31)); div_lia. Qed.

Lemma s32_u32 z : s32 (u32 z) = s32 z.
Proof. unfold s32, u32. by rewrite Z.mod_mod by lia. Qed.

Lemma s32_u64 z : s32 (u64 z) = s32 z.
Proof.
  unfold s32, u32, u64. replace ((z mod 2 ^ 64) mod 2 ^ 32) with (z mod 2 ^ 32); [done|].
  change (2 ^ 64) with (2 ^ 32 * 2 ^ 32). rewrite Z.rem_mul_r by lia. rewrite Z.mul_comm, Z.mod_add, Z.mod_mod; lia.
Qed.

Lemma lookup_unit_end value u l : u ∈ units -> l <> [] -> value = l ++ [u_name u] ->
  lookup_unit value [u_name u] = (None, Some u).
Proof.
  intros Hu Hl ->. apply unit_chars in Hu as (_ & _ & Hd & Hf & _). unfold lookup_unit. rewrite Hd, Hf.
  replace (length [u_name u] =? length (l ++ [u_name u]))%nat with false; [done|].
  symmetry. apply Nat.eqb_neq. rewrite length_app. destruct l; [done | cbn; lia].
Qed.

Lemma parse_natural z : 0 <= z <= ULONG_MAX -> cf_parse_int (print_digits 20 z) = (None, Some (s32 z)).
Proof.
  intros Hz. unfold cf_parse_int. rewrite bool_decide_false by apply print_digits_nonempty.
  pose proof (strtoul_digits z [] ltac:(unfold ULONG_MAX in Hz; lia) (or_introl eq_refl)) as H.
  rewrite app_nil_r in H. rewrite H. replace (z >? ULONG_MAX) with false by lia. cbn [lookup_unit].
  by rewrite s32_u32.
Qed.

Lemma parse_negative z : 0 < z <= ULONG_MAX -> cf_parse_int (45 :: print_digits 20 z) = (None, Some (s32 (- z))).
Proof.
  intros Hz. unfold cf_parse_int. rewrite bool_decide_false by done. rewrite strtoul_negative by done.
  cbn [lookup_unit]. by rewrite s32_u32, s32_u64.
Qed.

Lemma parse_print_int z : - 2 ^ 31 <= z < 2 ^ 31 -> cf_parse_int (print_int z) = (None, Some z).
Proof.
  intros Hz. unfold print_int. destruct (Z.ltb_spec z 0).
  - rewrite parse_negative by (unfold ULONG_MAX; lia). rewrite Z.opp_involutive. by rewrite s32_id.
  - rewrite parse_natural by (unfold ULONG_MAX; lia). by rewrite s32_id.
Qed.

(** The result for a number with a unit. *)
Definition scaled (z : Z) (u : unit_) : option parse_error * option Z :=
  let y := z * u_num u / u_den u in
  if negb (z * u_num u mod u_den u =? 0) then (Some NotAnInteger, None)
  else (if y >? 2 ^ 32 - 1 then Some OutOfRange else None, Some (s32 y)).

(** C38: what [cf_parse_int] reads.  A decimal number of an [int] is read
    exactly.  A number with a unit of time or size is multiplied by it, and
    the product has to be whole and to fit in 32 bits; a product above the
    greatest [int] is accepted and becomes negative, and one that is out of
    range is stored although it is refused.  Without a unit there is no such
    check: every number below 2^64 is accepted and taken modulo 2^32. *)
Theorem parse_int_values (z : Z) (u : unit_) : u ∈ units ->
  (- 2 ^ 31 <= z < 2 ^ 31 -> cf_parse_int (print_int z) = (None, Some z)) /\
  (0 <= z < 2 ^ 32 -> cf_parse_int (print_int z ++ [u_name u]) = scaled z u) /\
  (0 <= z < 2 ^ 64 -> cf_parse_int (print_int z) = (None, Some (s32 z))) /\
  (2 ^ 64 <= z < 10 ^ 20 -> cf_parse_int (print_int z) = (Some OutOfRange, None)).
Proof.
  intros Hu. split; [apply parse_print_int|].
  assert (Hp : 0 <= z -> print_int z = print_digits 20 z).
  { intros Hz. unfold print_int. by replace (z <? 0) with false by lia. }
  split_and!; intros Hz; rewrite Hp by lia.
  - unfold cf_parse_int. rewrite bool_decide_false by (by destruct (print_digits 20 z)).
    rewrite strtoul_digits by (lia || (right; eauto)).
    replace (z >? ULONG_MAX) with false by (unfold ULONG_MAX; lia).
    rewrite (lookup_unit_end _ u (print_digits 20 z)); [|done|apply print_digits_nonempty|done].
    apply unit_chars in Hu as (_ & _ & _ & _ & Hn & Hd).
    replace (u32 z) with z by (unfold u32; rewrite Z.mod_small; lia).
    replace (u64 (z * u_num u)) with (z * u_num u); [done|].
    unfold u64. rewrite Z.mod_small; [done|]. split; [nia|]. assert (z * u_num u <= (2 ^ 32 - 1) * 2 ^ 30) by nia. lia.
  - apply parse_natural. unfold ULONG_MAX. lia.
  - unfold cf_parse_int. rewrite bool_decide_false by apply print_digits_nonempty.
    pose proof (strtoul_digits z [] ltac:(lia) (or_introl eq_refl)) as H. rewrite app_nil_r in H. rewrite H.
    by replace (z >? ULONG_MAX) with true by (unfold ULONG_MAX; lia).
Qed.

(** [256K], [4294967297] and [3G] (above the greatest [int]). *)
Lemma parse_int_values_witness :
  cf_parse_int (bytes_of_string "256K") = (None, Some 262144) /\
  cf_parse_int (bytes_of_string "4294967297") = (None, Some 1) /\
  cf_parse_int (bytes_of_string "3G") = (None, Some (-1073741824)).
Proof.
  assert (HK : {| u_name := 75; u_num := 1024; u_den := 1 |} ∈ units)
    by (do 5 apply list_elem_of_further; apply list_elem_of_here).
  assert (HG : {| u_name := 71; u_num := 1073741824; u_den := 1 |} ∈ units)
    by (do 7 apply list_elem_of_further; apply list_elem_of_here).
  destruct (parse_int_values 256 _ HK) as (_ & H1 & _). destruct (parse_int_values 4294967297 _ HK) as (_ & _ & H2 & _).
  destruct (parse_int_values 3 _ HG) as (_ & H3 & _).
  split; [|split].
  - etransitivity; [|etransitivity; [apply H1; lia|]]; vm_compute; reflexivity.
  - etransitivity; [|etransitivity; [apply H2; lia|]]; vm_compute; reflexivity.
  - etransitivity; [|etransitivity; [apply H3; lia|]]; vm_compute; reflexivity.
Defined.

(** ** Tokens *)

(** Characters that need no quotes. *)
Definition plainc (c : Z) : bool := isalnum c || (c =? 95) || (c =? 46) || (c =? 43) || (c =? 45).

(** A byte as an octal escape. *)
Definition octal3 (b : Z) : list Z := [92; 48 + b / 64; 48 + (b / 8) mod 8; 48 + b mod 8].

Inductive token : Set := TPlain (w : list Z) | TQuoted (s : list Z).

Definition word (t : token) : list Z := match t with TPlain w | TQuoted w => w end.
Definition text (t : token) : list Z :=
  match t with
  | TPlain w => w
  | TQuoted s => 34 :: flat_map octal3 s ++ [34]
  end.

Definition token_ok (t : token) : bool :=
  match t with
  | TPlain w => negb (bool_decide (w = [])) && forallb plainc w
  | TQuoted s => forallb (fun b => (0 <? b) && (b <? 256)) s && negb (starts 123 s)
  end.

Lemma plainc_word_end n c : plainc c = true -> word_end n c = false.
Proof. unfold plainc, word_end, isalnum, Cblank. cbn [existsb]. destruct n; lia. Qed.

Lemma before_end_plain n w r : forallb plainc w = true -> (r = [] \/ starts 32 r = true) ->
  before_end n (w ++ r) = (w, r).
Proof.
  intros Hw Hr. induction w as [|c w IH]; cbn in *.
  - destruct Hr as [->|Hr]; [done|]. destruct r as [|c r]; [done|]. cbn in *. apply Z.eqb_eq in Hr as ->. by destruct n.
  - apply andb_prop in Hw as [Hc Hw]. rewrite plainc_word_end by done. by rewrite IH.
Qed.

(** Inside quotes the escapes contain no quote. *)
Lemma before_quote_octal s r : Forall (fun b => 0 < b < 256) s ->
  before_quote false (flat_map octal3 s ++ 34 :: r) = (flat_map octal3 s, 34 :: r, false).
Proof.
  induction 1 as [|b s Hb _ IH]; [done|]. cbn [flat_map octal3 app before_quote Z.eqb Pos.eqb andb negb].
  assert (H : forall x, 0 <= x < 8 -> (48 + x =? 34) = false /\ (48 + x =? 92) = false) by lia.
  assert (H1 : 0 <= b / 64 < 8) by div_lia. assert (H2 : 0 <= (b / 8) mod 8 < 8) by div_lia.
  assert (H3 : 0 <= b mod 8 < 8) by div_lia.
  rewrite (proj1 (H _ H1)), (proj2 (H _ H1)), (proj1 (H _ H2)), (proj2 (H _ H2)), (proj1 (H _ H3)), (proj2 (H _ H3)).
  cbn [andb]. by rewrite IH.
Qed.

Lemma octal_digit x : 0 <= x < 8 -> octal (48 + x) = true.
Proof. unfold octal. lia. Qed.

Lemma unesc_octal3 fuel b r : 0 < b < 256 -> str_unesc (S fuel) (octal3 b ++ r) = b :: str_unesc fuel r.
Proof.
  intros Hb. unfold octal3. cbn [app str_unesc].
  assert (H1 : 0 <= b / 64 < 4) by div_lia. assert (H2 : 0 <= (b / 8) mod 8 < 8) by div_lia.
  assert (H3 : 0 <= b mod 8 < 8) by div_lia.
  replace (simple_escape (48 + b / 64)) with (@None Z)
    by (unfold simple_escape; repeat (replace (48 + b / 64 =? _) with false by lia); done).
  replace (48 + b / 64 =? 120) with false by lia. rewrite (octal_digit (b / 64)) by lia.
  cbn [octal_digits]. rewrite (octal_digit ((b / 8) mod 8)), (octal_digit (b mod 8)) by lia.
  rewrite !Z.shiftl_mul_pow2 by lia. change (2 ^ 3) with 8.
  replace ((48 + b / 64 - 48) * 8 + (48 + (b / 8) mod 8) - 48) with (b / 8) by div_lia.
  replace (b / 8 * 8 + (48 + b mod 8) - 48) with b by div_lia.
  by replace (b <=? 255) with true by lia.
Qed.

Lemma unesc_octal s fuel : Forall (fun b => 0 < b < 256) s -> (length s < fuel)%nat ->
  str_unesc fuel (flat_map octal3 s) = s.
Proof.
  intros H. revert fuel. induction H as [|b s Hb _ IH]; intros fuel Hf; (destruct fuel as [|fuel]; [lia|]); [done|].
  cbn [flat_map]. rewrite unesc_octal3 by done. f_equal. apply IH. cbn in Hf. lia.
Qed.

Lemma until_nul_bytes s : Forall (fun b => 0 < b < 256) s -> until_nul s = s.
Proof. induction 1 as [|b s Hb _ IH]; [done|]. cbn. replace (b =? 0) with false by lia. by rewrite IH. Qed.

Lemma flat_map_octal_length s : length (flat_map octal3 s) = (4 * length s)%nat.
Proof. induction s as [|b s IH]; [done|]. cbn [flat_map]. rewrite length_app, IH. cbn. lia. Qed.

(** Separated tokens, and the line they leave after a word. *)
Definition rests (ts : list token) : list Z := flat_map (fun t => 32 :: text t) ts.

Definition special (c : Z) : bool := existsb (Z.eqb c) [0; 10; 32; 35; 59; 123; 125; 61; 9; 8; 12; 13].

(** The first character of a token. *)
Lemma text_head t : token_ok t = true -> exists c r, text t = c :: r /\ special c = false /\ c <> 92 /\ c <> 39 /\
  (c = 34 <-> exists s, t = TQuoted s).
Proof.
  destruct t as [w|s]; cbn [token_ok text].
  - intros [Hne Hw]%andb_prop. destruct w as [|c w]; [done|]. exists c, w. cbn in Hw. apply andb_prop in Hw as [Hc _].
    unfold plainc, isalnum in Hc. split; [done|]. unfold special. cbn [existsb].
    split; [lia|]. split; [lia|]. split; [lia|]. split; [lia | by intros [? [=]]].
  - intros _. exists 34, (flat_map octal3 s ++ [34]). split_and!; try done. split; [by eauto | done].
Qed.

Lemma skip_rests ts : forallb token_ok ts = true ->
  skip_while Cblank (rests ts) = match ts with [] => [] | t :: ts => text t ++ rests ts end.
Proof.
  destruct ts as [|t ts]; [done|]. cbn [forallb]. intros [Ht _]%andb_prop.
  cbn [rests flat_map app skip_while]. change (Cblank 32) with true. cbn iota.
  destruct (text_head t Ht) as (c & r & E & Hc & _). unfold rests. rewrite E. cbn [app skip_while].
  replace (Cblank c) with false; [done|]. unfold special, Cblank in *. cbn [existsb] in *. lia.
Qed.

Lemma rests_start ts : rests ts = [] \/ starts 32 (rests ts) = true.
Proof. destruct ts; [by left | by right]. Qed.

Lemma rests_length ts : (length ts <= length (rests ts))%nat.
Proof. induction ts as [|t ts IH]; [done|]. cbn [rests flat_map app length]. rewrite length_app. unfold rests in IH. lia. Qed.

Lemma get_word_token t ts fb n : token_ok t = true -> forallb token_ok ts = true ->
  get_word n {| p_fb := fb; p_line := text t ++ rests ts |} =
  Ok (inr (word t, {| p_fb := fb; p_line := skip_while Cblank (rests ts) |})).
Proof.
  intros Ht Hts. destruct (text_head t Ht) as (c & r & E & Hc & H92 & H39 & H34).
  unfold get_word. cbn [p_line p_fb].
  assert (Hstart : forall x, starts x (text t ++ rests ts) = (c =? x)) by (intros x; by rewrite E).
  rewrite !Hstart. replace (c =? 39) with false by lia.
  destruct t as [w|s]; cbn [text word token_ok] in *.
  - replace (c =? 34) with false.
    2: { symmetry. apply Z.eqb_neq. intros [? [=]]%H34. }
    apply andb_prop in Ht as [Hne Hw]. unfold plain_word. cbn [p_line].
    rewrite before_end_plain by (done || apply rests_start).
    replace (starts 61 (rests ts)) with false by (by destruct ts).
    destruct (bool_decide (w = [])); [done|]. done.
  - injection E as <- <-. cbn [Z.eqb Pos.eqb].
    apply andb_prop in Ht as [Hb Hbrace].
    assert (Hs : Forall (fun b => 0 < b < 256) s).
    { apply Forall_forall. intros b Hin. apply forallb_forall with (x := b) in Hb; [lia|]. by apply list_elem_of_In. }
    cbn [app tail set_line p_fb p_line quoted_word]. rewrite <- app_assoc. cbn [app].
    rewrite before_quote_octal by done. cbn [app].
    rewrite bind_Ok. cbn [set_line p_line p_fb tail skip_blanks].
    replace (str_unesc (length (flat_map octal3 s)) (flat_map octal3 s)) with s.
    + by rewrite until_nul_bytes.
    + destruct s as [|b s]; [done|]. symmetry. apply unesc_octal; [done|].
      rewrite flat_map_octal_length. cbn. lia.
Qed.

Lemma get_token_token fuel n t ts fb : token_ok t = true -> forallb token_ok ts = true ->
  get_token (S fuel) n {| p_fb := fb; p_line := text t ++ rests ts |} =
  Ok (inr (Some (word t), {| p_fb := fb; p_line := skip_while Cblank (rests ts) |})).
Proof.
  intros Ht Hts. cbn [get_token]. rewrite (get_word_token t ts fb n) by done. cbn [p_line].
  destruct (text_head t Ht) as (c & r & E & Hc & H92 & _). rewrite E. cbn [app].
  unfold special in Hc. cbn [existsb] in Hc. replace (c =? 35) with false by lia.
  replace (c =? 59) with false by lia. by replace (c =? 92) with false by lia.
Qed.

Lemma word_no_brace t : token_ok t = true -> starts 123 (word t) = false.
Proof.
  destruct t as [[|c w]|s]; cbn; [done| |].
  - intros [Hc _]%andb_prop. unfold plainc, isalnum in Hc. lia.
  - intros [_ Hs]%andb_prop. by destruct (starts 123 s).
Qed.

Lemma get_parameters_tokens ts words fb fuel : forallb token_ok ts = true -> (length ts < fuel)%nat ->
  get_parameters fuel words {| p_fb := fb; p_line := skip_while Cblank (rests ts) |} =
  Ok (inr (words ++ map word ts, false, {| p_fb := fb; p_line := [] |})).
Proof.
  revert words fuel. induction ts as [|t ts IH]; intros words fuel Hts Hf; rewrite skip_rests by done;
    (destruct fuel as [|fuel]; [lia|]); cbn [get_parameters].
  - cbn [p_line starts]. unfold token_fuel. cbn [get_token p_line]. by rewrite app_nil_r.
  - cbn [forallb] in Hts. apply andb_prop in Hts as [Ht Hts]. cbn [p_line].
    replace (starts 125 (text t ++ rests ts)) with false.
    2: { destruct (text_head t Ht) as (c & r & -> & Hc & _). unfold special in Hc. cbn in *. lia. }
    unfold token_fuel. rewrite get_token_token by done. rewrite bind_Ok, word_no_brace by done.
    rewrite IH by (done || cbn in Hf; lia). cbn [map]. by rewrite <- app_assoc.
Qed.

(** ** Lines *)

(** The name of a command: also with an operation. *)
Definition namec (c : Z) : bool := plainc c || (c =? 58).

Definition command_line (nm : list Z) (ts : list token) : list Z := nm ++ rests ts.

(** A line of at most 4095 characters, no newline and no NUL. *)
Definition line_okb (l : list Z) : bool :=
  forallb (fun c => negb (c =? 0) && negb (c =? 10)) l && (length l <? MAX_LINE)%nat.

Lemma split_newline_line l r : forallb (fun c => negb (c =? 0) && negb (c =? 10)) l = true ->
  split_newline (l ++ 10 :: r) = (l, r) /\ until_nul l = l.
Proof.
  induction l as [|c l IH]; [done|]. cbn. intros [Hc Hl]%andb_prop. destruct (IH Hl) as [-> ->].
  replace (c =? 10) with false by (destruct (c =? 10), (c =? 0); done).
  by replace (c =? 0) with false by (destruct (c =? 0); done).
Qed.

Lemma before_end_name nm ts : forallb namec nm = true -> before_end true (nm ++ rests ts) = (nm, rests ts).
Proof.
  intros Hn. induction nm as [|c nm IH]; cbn.
  - by destruct ts.
  - cbn in Hn. apply andb_prop in Hn as [Hc Hn].
    replace (word_end true c) with false; [by rewrite IH|].
    symmetry. unfold namec in Hc. apply orb_prop in Hc as [Hc| ->%Z.eqb_eq]; [by apply plainc_word_end | done].
Qed.

(** A printed line is split into its words. *)
Lemma split_command_line nm ts rest l0 : nm <> [] -> forallb namec nm = true -> forallb token_ok ts = true ->
  line_okb (command_line nm ts) = true -> skipped_line l0 = true ->
  split_command {| p_fb := command_line nm ts ++ 10 :: rest; p_line := l0 |} =
  Ok (inr (nm :: map word ts, false, {| p_fb := rest; p_line := [] |})).
Proof.
  intros Hne Hn Hts Hl Hl0. unfold split_command.
  apply andb_prop in Hl as [Hc Hlen]. destruct (split_newline_line _ rest Hc) as [Hsplit Hnul].
  destruct nm as [|c nm]; [done|].
  assert (Hcc : namec c = true) by (cbn in Hn; by apply andb_prop in Hn as [? _]).
  assert (Hspec : special c = false /\ c <> 92 /\ c <> 39 /\ c <> 34)
    by (unfold namec, plainc, isalnum, special in *; cbn [existsb]; lia).
  destruct Hspec as (Hspec & H92 & H39 & H34). unfold special in Hspec. cbn [existsb] in Hspec.
  assert (Hget : get_line {| p_fb := command_line (c :: nm) ts ++ 10 :: rest; p_line := l0 |} =
                 Some (inr {| p_fb := rest; p_line := command_line (c :: nm) ts |})).
  { unfold get_line, bgets_nodie. cbn [p_fb]. rewrite Hsplit, Hlen.
    destruct (command_line (c :: nm) ts ++ 10 :: rest) eqn:E; [done|]. rewrite Hnul. cbn [command_line app skip_while]. replace (Cblank c) with false by (unfold Cblank; cbn [existsb]; lia). done. }
  unfold token_fuel. cbn [p_fb p_line]. rewrite length_app. cbn [length].
  replace (S (2 * (length (command_line (c :: nm) ts) + S (length rest)) + length l0))
    with (S (S (1 + 2 * (length (command_line (c :: nm) ts) + length rest) + length l0))) by lia.
  assert (Htok : forall fuel, get_token (S fuel) true {| p_fb := rest; p_line := command_line (c :: nm) ts |} =
    Ok (inr (Some (c :: nm), {| p_fb := rest; p_line := skip_while Cblank (rests ts) |}))).
  { intros fuel. cbn [get_token p_line command_line app]. replace (c =? 35) with false by lia.
    replace (c =? 59) with false by lia. replace (c =? 92) with false by lia. cbn [andb].
    unfold get_word. cbn [p_line starts]. replace (c =? 39) with false by lia. replace (c =? 34) with false by lia.
    unfold plain_word. cbn [p_line]. change (c :: nm ++ rests ts) with ((c :: nm) ++ rests ts).
    rewrite before_end_name by done. replace (starts 61 (rests ts)) with false by (by destruct ts). done. }
  assert (Hfirst : forall fuel, get_token (S (S fuel)) true {| p_fb := command_line (c :: nm) ts ++ 10 :: rest; p_line := l0 |} =
    get_token (S fuel) true {| p_fb := rest; p_line := command_line (c :: nm) ts |}).
  { intros fuel. remember (S fuel) as f. cbn [get_token p_line]. rewrite Hget.
    destruct l0 as [|x l0]; [done|]. cbn in Hl0. by rewrite Hl0. }
  rewrite Hfirst, Htok, bind_Ok. cbn [starts]. replace (c =? 123) with false by lia.
  rewrite get_parameters_tokens; [done|done|]. unfold token_fuel. cbn [p_fb p_line].
  assert (length ts <= length (skip_while Cblank (rests ts)))%nat; [|lia].
  rewrite skip_rests by done. destruct ts as [|t ts]; [done|]. cbn [forallb] in Hts. apply andb_prop in Hts as [Ht _].
  destruct (text_head t Ht) as (x & r & -> & _). cbn [length app]. rewrite length_app.
  pose proof (rests_length ts). lia.
Qed.
