(* ===== verification/ConfRound.v ===== *)
(** * Configurations round trip

    A printer of configurations, one line for each setting of the table in
    [src/config.c], and the proof that the configuration reader reads the
    printed file back. *)

From stdpp Require Import base numbers strings gmap list.
From S2P Require Import Prelude Doubles Common Config ConfParse ConfInput ConfIntr ConfLoad ConfInv ConfUndo.
From S2P Require Import TimeFmt Pipeline ConfPrint.

(** ** Settings *)

Inductive svalue : Set :=
| PInt (z : Z)
| PDouble (d : Double.double)
| PString (s : list Z)
| PLookup (t : list (list Z)) (z : Z)
| PBits (t : list (list Z)) (z : Z).

Definition settings (conf : dns_config) : list (list Z * svalue) :=
  let set n v := (bytes_of_string n, v) in
  [ set "max_frame_duration" (PDouble (max_frame_duration_sec conf)); set "max_frame_size" (PInt (max_frame_size conf));
    set "max_queue_len" (PInt (max_queue_len conf)); set "report_period" (PInt (report_period_sec conf));
    set "input_uri" (PString (input_uri conf)); set "input_filter" (PString (input_filter conf));
    set "input_snaplen" (PInt (input_snaplen conf)); set "input_promiscuous" (PInt (input_promiscuous conf));
    set "dump_path_fmt" (PString (dump_path_fmt conf)); set "dump_period" (PInt (dump_period_sec conf));
    set "dump_compress_level" (PInt (dump_compress_level conf));
    set "dump_compress_type" (PLookup (names dns_dump_compress_types) (dump_compress_type conf));
    set "dump_rate_limit" (PDouble (dump_rate_limit conf)); set "match_window" (PDouble (match_window_sec conf));
    set "match_qname" (PInt (match_qname conf)); set "output_type" (PLookup (names dns_output_types) (output_type conf));
    set "output_path_fmt" (PString (output_path_fmt conf)); set "output_pipe_cmd" (PString (output_pipe_cmd conf));
    set "output_period" (PInt (output_period_sec conf)); set "csv_separator" (PString (csv_separator conf));
    set "csv_inline_header" (PInt (csv_inline_header conf));
    set "csv_external_header_path_fmt" (PString (csv_external_header_path_fmt conf));
    set "csv_fields" (PBits (names dns_output_field_flag_names) (csv_fields conf));
    set "cbor_fields" (PBits (names dns_output_field_flag_names) (cbor_fields conf)) ]%string.

(** The item and the value in memory of a setting. *)
Definition item_of (nv : list Z * svalue) : cf_item :=
  let '(n, v) := nv in
  match v with
  | PInt _ => CC_STATIC n CT_INT
  | PDouble _ => CC_STATIC n CT_DOUBLE
  | PString _ => CC_STATIC n CT_STRING
  | PLookup t _ => CC_STATIC n (CT_LOOKUP t)
  | PBits t _ => CC_BITMAP n t
  end.

Definition cval_of (v : svalue) : cval :=
  match v with
  | PInt z | PLookup _ z => VInt z
  | PDouble d => VDouble d
  | PString s => VString (Some s)
  | PBits _ z => VBits z
  end.

Lemma settings_items conf : map item_of (settings conf) = dns_config_items.
Proof. reflexivity. Qed.

(** The names of the bits that are set, from bit [i] on. *)
Fixpoint bit_names (i : Z) (t : list (list Z)) (z : Z) : list (list Z) :=
  match t with
  | [] => []
  | n :: t => (if Z.testbit z i then [n] else []) ++ bit_names (i + 1) t z
  end.

Section printer.
Context (print_double : Double.double -> list Z).

Definition tokens (v : svalue) : list token :=
  match v with
  | PInt z => [TPlain (print_int z)]
  | PDouble d => [TPlain (print_double d)]
  | PString s => [TQuoted s]
  | PLookup t z => [TPlain (nth (Z.to_nat z) t [])]
  | PBits t z => map TPlain (bit_names 0 t z)
  end.

(** The command of a setting: bitmaps are reset first. *)
Definition command (nv : list Z * svalue) : list Z :=
  bytes_of_string "dnscol." ++ nv.1 ++ match nv.2 with PBits _ _ => bytes_of_string ":reset" | _ => [] end.

Definition setting_line (nv : list Z * svalue) : list Z := command_line (command nv) (tokens nv.2).

Definition print_config (conf : dns_config) : list Z :=
  flat_map (fun nv => setting_line nv ++ [10]) (settings conf).

(** Values that can be printed: integers of 32 bits, doubles that survive
    printing, strings of at most 1000 bytes that do not begin with a brace,
    indices of names. *)
Definition printable `{ScanDouble} (v : svalue) : Prop :=
  match v with
  | PInt z => - 2 ^ 31 <= z < 2 ^ 31
  | PDouble d => token_ok (TPlain (print_double d)) = true /\ (length (print_double d) <= 1000)%nat /\
                 scan_double (print_double d) = Some (d, length (print_double d))
  | PString s => token_ok (TQuoted s) = true /\ (length s <= 1000)%nat
  | PLookup t z => 0 <= z < Z.of_nat (length t)
  | PBits t z => 0 <= z < 2 ^ Z.of_nat (length t)
  end.

(** ** Tables of names *)

Definition table_ok (t : list (list Z)) : bool :=
  forallb (fun i => bool_decide (find_name 0 t (nth i t []) = Some (Z.of_nat i)) && token_ok (TPlain (nth i t [])))
    (seq 0 (length t)) && (length t <=? 32)%nat && (length (concat t) + length t <=? 1000)%nat.

Definition item_table (i : cf_item) : list (list Z) :=
  match i with CC_STATIC _ (CT_LOOKUP t) | CC_BITMAP _ t => t | _ => [] end.

(** What holds of every setting of the table: it is found by its name, which
    is a short word without a dot or a colon, and its names are distinct. *)
Lemma settings_table i : i ∈ dns_config_items ->
  cf_find_subitem dns_config_items (item_name i) = Some i /\
  forallb (fun c => plainc c && negb (c =? 46)) (item_name i) = true /\ (length (item_name i) <= 40)%nat /\
  is_Some (init_store !! item_name i) /\ table_ok (item_table i) = true.
Proof.
  unfold dns_config_items at 1. rewrite !elem_of_cons, elem_of_nil. intros H.
  repeat (destruct H as [->|H]); [..|done];
    (split; [vm_compute; reflexivity|]); (split; [vm_compute; reflexivity|]); (split; [vm_compute; lia|]);
    (split; [vm_compute; eexists; reflexivity | vm_compute; reflexivity]).
Qed.

Lemma table_name t i : table_ok t = true -> (i < length t)%nat ->
  cf_parse_lookup t (nth i t []) = (None, Some (Z.of_nat i)) /\ token_ok (TPlain (nth i t [])) = true /\
  (length (nth i t []) <= 1000)%nat.
Proof.
  unfold table_ok. intros [[Ht _]%andb_prop Hlen]%andb_prop Hi.
  apply forallb_forall with (x := i) in Ht; [|apply in_seq; lia].
  apply andb_prop in Ht as [Hf%bool_decide_eq_true Hok]. unfold cf_parse_lookup. rewrite Hf.
  split; [done|]. split; [done|]. apply Nat.leb_le in Hlen.
  assert (length (nth i t []) <= length (concat t))%nat; [|lia].
  clear -Hi. revert i Hi. induction t as [|n t IH]; intros i Hi; cbn in *; [lia|]. rewrite length_app.
  destruct i; [lia|]. specialize (IH i ltac:(lia)). lia.
Qed.

(** ** Lines *)

Abbreviation no_break := (forallb (fun c => negb (c =? 0) && negb (c =? 10))).

Lemma plainc_no_break l : forallb plainc l = true -> no_break l = true.
Proof.
  rewrite !forallb_forall. intros H c Hc. specialize (H c Hc). unfold plainc, isalnum in H. lia.
Qed.

Lemma text_no_break t : token_ok t = true -> no_break (text t) = true.
Proof.
  destruct t as [w|s]; cbn [token_ok text].
  - intros [_ Hw]%andb_prop. by apply plainc_no_break.
  - intros [Hs _]%andb_prop. cbn [forallb Z.eqb Pos.eqb negb andb]. rewrite forallb_app. cbn [forallb Z.eqb Pos.eqb negb andb].
    rewrite andb_true_r. induction s as [|b s IH]; [done|]. cbn in Hs. apply andb_prop in Hs as [Hb Hs].
    cbn [flat_map octal3 app forallb Z.eqb Pos.eqb negb andb]. rewrite IH by done.
    assert (0 <= b / 64) by div_lia. assert (0 <= (b / 8) mod 8) by div_lia. assert (0 <= b mod 8) by div_lia. lia.
Qed.

Lemma rests_no_break ts : forallb token_ok ts = true -> no_break (rests ts) = true.
Proof.
  induction ts as [|t ts IH]; [done|]. cbn [forallb rests flat_map]. intros [Ht Hts]%andb_prop.
  cbn [app forallb Z.eqb Pos.eqb negb andb]. rewrite forallb_app, text_no_break by done. by apply IH.
Qed.

Lemma print_digits_length fuel z : (length (print_digits fuel z) <= fuel)%nat.
Proof.
  revert z. induction fuel as [|fuel IH]; intros z; cbn [print_digits]; [done|]. destruct (z <? 10); [cbn; lia|].
  rewrite length_app. specialize (IH (z / 10)). cbn. lia.
Qed.

Lemma print_int_token z : token_ok (TPlain (print_int z)) = true /\ (length (print_int z) <= 21)%nat.
Proof.
  assert (Hd : forall y, 0 <= y -> forallb plainc (print_digits 20 y) = true /\ (length (print_digits 20 y) <= 20)%nat).
  { intros y Hy. split; [|apply print_digits_length]. apply forallb_forall. intros c Hc.
    pose proof (print_digits_digits 20 y Hy) as H. rewrite Forall_forall in H.
    specialize (H c (proj2 (list_elem_of_In _ _) Hc)). unfold is_digit in H. unfold plainc, isalnum. lia. }
  unfold print_int. destruct (Z.ltb_spec z 0); cbn [token_ok].
  - destruct (Hd (- z)) as [H1 H2]; [lia|]. cbn [forallb]. rewrite H1. split; [done|]. cbn [length]. lia.
  - destruct (Hd z) as [H1 H2]; [lia|]. rewrite H1. rewrite bool_decide_false by apply print_digits_nonempty.
    split; [done | lia].
Qed.

Lemma bit_names_ok i t z : Forall (fun n => token_ok (TPlain n) = true) t ->
  forallb token_ok (map TPlain (bit_names i t z)) = true /\
  (length (rests (map TPlain (bit_names i t z))) <= length (concat t) + length t)%nat.
Proof.
  intros Ht. revert i. induction Ht as [|n t Hn _ IH]; intros i; [done|]. cbn [bit_names].
  destruct (IH (i + 1)) as [IH1 IH2]. destruct (Z.testbit z i); cbn [app map forallb concat length].
  - rewrite Hn, IH1. split; [done|]. cbn [rests flat_map text app length]. rewrite !length_app. unfold rests in IH2. lia.
  - split; [done|]. rewrite length_app. lia.
Qed.

Lemma table_tokens t : table_ok t = true -> Forall (fun n => token_ok (TPlain n) = true) t.
Proof.
  intros Ht. apply Forall_forall. intros n [i Hi]%list_elem_of_lookup. pose proof (lookup_lt_Some _ _ _ Hi) as Hl.
  destruct (table_name t i Ht Hl) as (_ & Hok & _). by rewrite (nth_lookup_Some _ _ _ _ Hi) in Hok.
Qed.

Section settings.
Context `{SD : ScanDouble} `{LG : LoggingSection}.

Lemma tokens_ok nv : item_of nv ∈ dns_config_items -> printable nv.2 ->
  forallb token_ok (tokens nv.2) = true /\ (length (rests (tokens nv.2)) <= 4003)%nat.
Proof.
  intros Hin Hv. apply settings_table in Hin as (_ & _ & _ & _ & Ht). destruct nv as [n v].
  assert (Hone : forall w, token_ok (TPlain w) = true -> (length w <= 1000)%nat ->
    forallb token_ok [TPlain w] = true /\ (length (rests [TPlain w]) <= 4003)%nat).
  { intros w Hw Hlen. cbn [forallb]. rewrite Hw. split; [done|]. cbn [rests flat_map text app length].
    rewrite length_app. cbn. lia. }
  destruct v as [z|d|s|t z|t z]; cbn [snd tokens printable item_of item_table] in *.
  - destruct (print_int_token z) as [H1 H2]. apply Hone; [done | lia].
  - destruct Hv as (H1 & H2 & _). by apply Hone.
  - destruct Hv as [H1 H2]. cbn [forallb]. rewrite H1. split; [done|]. cbn [rests flat_map text app length].
    rewrite !length_app, flat_map_octal_length. cbn. lia.
  - destruct (table_name t (Z.to_nat z) Ht) as (_ & H1 & H2); [lia|]. by apply Hone.
  - destruct (bit_names_ok 0 t z (table_tokens t Ht)) as [H1 H2]. split; [done|].
    unfold table_ok in Ht. apply andb_prop in Ht as [_ Hlen%Nat.leb_le]. lia.
Qed.

Lemma command_ok nv : item_of nv ∈ dns_config_items ->
  forallb namec (command nv) = true /\ (length (command nv) <= 53)%nat.
Proof.
  intros Hin. apply settings_table in Hin as (_ & Hn & Hlen & _). destruct nv as [n v].
  assert (En : item_name (item_of (n, v)) = n) by (by destruct v). rewrite En in *.
  assert (Hname : forallb namec n = true).
  { apply forallb_forall. intros c Hc. apply forallb_forall with (x := c) in Hn; [|done].
    unfold namec. by apply andb_prop in Hn as [-> _]. }
  unfold command. cbn [fst snd]. rewrite !forallb_app, !length_app, Hname.
  change (length (bytes_of_string "dnscol.")) with 7%nat.
  destruct v; (split; [reflexivity|]); cbn [length]; try lia.
  change (length (bytes_of_string ":reset")) with 6%nat. lia.
Qed.

Lemma setting_line_ok nv : item_of nv ∈ dns_config_items -> printable nv.2 ->
  line_okb (setting_line nv) = true.
Proof.
  intros Hin Hv. destruct (tokens_ok nv Hin Hv) as [Ht Hl]. destruct (command_ok nv Hin) as [Hc Hlc].
  unfold line_okb, setting_line, command_line. rewrite forallb_app, length_app, rests_no_break by done.
  rewrite andb_true_r. apply andb_true_intro. split; [|apply Nat.ltb_lt; unfold MAX_LINE; lia].
  apply forallb_forall. intros c Hin'. apply forallb_forall with (x := c) in Hc; [|done].
  unfold namec, plainc, isalnum in Hc. lia.
Qed.

End settings.

End printer.

(** ** Commands of settings *)

Definition op_of (v : svalue) : cf_operation := match v with PBits _ _ => OP_RESET | _ => OP_SET end.

Lemma split_colon_none l : forallb (fun c => negb (c =? 58)) l = true -> split_colon l = None.
Proof. induction l as [|c l IH]; [done|]. cbn. intros [Hc Hl]%andb_prop. destruct (c =? 58); [done|]. by rewrite IH. Qed.

Lemma split_colon_app l r : forallb (fun c => negb (c =? 58)) l = true -> split_colon (l ++ 58 :: r) = Some (l, r).
Proof. induction l as [|c l IH]; [done|]. cbn. intros [Hc Hl]%andb_prop. destruct (c =? 58); [done|]. by rewrite IH. Qed.

Lemma split_dots_none l : forallb (fun c => negb (c =? 46)) l = true -> split_dots l = (l, []).
Proof. induction l as [|c l IH]; [done|]. cbn. intros [Hc Hl]%andb_prop. rewrite IH by done. by destruct (c =? 46). Qed.

Section interpreter.
Context (print_double : Double.double -> list Z).
Context `{SD : ScanDouble} `{LG : LoggingSection}.

Lemma item_name_of nv : item_name (item_of nv) = nv.1.
Proof. by destruct nv as [n []]. Qed.

Lemma command_operation nv : item_of nv ∈ dns_config_items ->
  parse_operation (command nv) = inr (bytes_of_string "dnscol." ++ nv.1, op_of nv.2) /\
  strcaseeq (command nv) (bytes_of_string "optionalinclude") || strcaseeq (command nv) (bytes_of_string "include") = false.
Proof.
  intros Hin. apply settings_table in Hin as (_ & Hn & _). rewrite item_name_of in Hn. split.
  - assert (Hcolon : forallb (fun c => negb (c =? 58)) (bytes_of_string "dnscol." ++ nv.1) = true).
    { rewrite forallb_app. apply andb_true_intro. split; [done|]. apply forallb_forall. intros c Hc.
      apply forallb_forall with (x := c) in Hn; [|done]. unfold plainc, isalnum in Hn. lia. }
    unfold parse_operation, command. rewrite app_assoc. destruct nv.2; cbn [op_of];
      try (rewrite app_nil_r, split_colon_none by done; rewrite bool_decide_false by done; done).
    change (bytes_of_string ":reset") with (58 :: bytes_of_string "reset"). by rewrite split_colon_app.
  - unfold strcaseeq, command. rewrite !bool_decide_false; [done| |]; vm_compute; discriminate.
Qed.

(** A setting is found by its dotted name, and its section becomes dirty. *)
Lemma find_item_setting nv cc : item_of nv ∈ dns_config_items ->
  find_item collector_sections SecRoot (bytes_of_string "dnscol." ++ nv.1) cc =
  (None, Some (item_of nv), cf_add_dirty dnscol cc).
Proof.
  intros Hin. pose proof (settings_table _ Hin) as (Hfind & Hn & _). rewrite item_name_of in *.
  assert (Hdots : split_dots nv.1 = (nv.1, [])).
  { apply split_dots_none, forallb_forall. intros c Hc. apply forallb_forall with (x := c) in Hn; [|done].
    by apply andb_prop in Hn as [_ ?]. }
  unfold find_item. change (bytes_of_string "dnscol." ++ nv.1) with (100 :: 110 :: 115 :: 99 :: 111 :: 108 :: 46 :: nv.1).
  cbn [split_dots Z.eqb Pos.eqb]. rewrite Hdots.
  change [100; 110; 115; 99; 111; 108] with dnscol. cbn [find_segments enter_section].
  replace (cf_find_subitem collector_sections dnscol) with (Some (CC_SECTION dnscol dns_config_items)) by reflexivity.
  by rewrite Hfind.
Qed.

(** ** Bitmaps *)

(** The bits [i] to [i + k - 1] of [z] over those of [b]. *)
Fixpoint set_bits (i : Z) (k : nat) (z b : Z) : Z :=
  match k with
  | O => b
  | S k => set_bits (i + 1) k z (if Z.testbit z i then Z.lor b (Z.shiftl 1 i) else b)
  end.

Lemma set_bits_spec i k z b j : 0 <= i -> 0 <= j ->
  Z.testbit (set_bits i k z b) j = Z.testbit b j || ((i <=? j) && (j <? i + Z.of_nat k) && Z.testbit z j).
Proof.
  revert i b. induction k as [|k IH]; intros i b Hi Hj; cbn [set_bits].
  - rewrite Z.add_0_r. destruct (Z.leb_spec i j), (Z.ltb_spec j i); try lia; by rewrite orb_false_r.
  - rewrite IH by lia.
    assert (Hb : Z.testbit (if Z.testbit z i then Z.lor b (Z.shiftl 1 i) else b) j =
                 Z.testbit b j || ((j =? i) && Z.testbit z j)).
    { destruct (Z.eqb_spec j i) as [->|Hne].
      - destruct (Z.testbit z i); [|by rewrite orb_false_r].
        by rewrite Z.lor_spec, Z.shiftl_1_l, Z.pow2_bits_true by lia.
      - cbn [andb]. rewrite orb_false_r. destruct (Z.testbit z i); [|done].
        rewrite Z.lor_spec, Z.shiftl_1_l, Z.pow2_bits_false by lia. by rewrite orb_false_r. }
    rewrite Hb. rewrite <- orb_assoc. f_equal.
    destruct (Z.testbit z j); rewrite ?andb_false_r, ?andb_true_r; [|done].
    replace (i + Z.of_nat (S k)) with (i + 1 + Z.of_nat k) by lia.
    destruct (Z.eqb_spec j i), (Z.leb_spec (i + 1) j), (Z.leb_spec i j), (Z.ltb_spec j (i + 1 + Z.of_nat k)); done || lia.
Qed.

Lemma set_bits_all z k : 0 <= z < 2 ^ Z.of_nat k -> set_bits 0 k z 0 = z.
Proof.
  intros Hz. apply Z.bits_inj'. intros j Hj. rewrite set_bits_spec by lia. rewrite Z.bits_0. cbn [orb].
  destruct (Z.ltb_spec j (0 + Z.of_nat k)); [by replace (0 <=? j) with true by lia|].
  rewrite andb_false_r. cbn. symmetry. apply Z.testbit_false; [lia|].
  rewrite Z.div_small; [done|]. split; [lia|]. eapply Z.lt_le_trans; [apply Hz|]. apply Z.pow_le_mono_r; lia.
Qed.

Lemma store_value_present n v cc : is_Some (cc_store cc !! n) ->
  cc_store (store_value n (Some v) cc) = <[n := v]> (cc_store cc).
Proof. intros [w Hw]. cbn. by eapply alter_present. Qed.

Lemma add_bits_names n t z i t' b cc : table_ok t = true -> drop i t = t' ->
  cc_store cc !! n = Some (VBits b) ->
  exists cc', add_bits n t true (bit_names (Z.of_nat i) t' z) cc = (None, cc') /\
    cc_store cc' = <[n := VBits (set_bits (Z.of_nat i) (length t') z b)]> (cc_store cc).
Proof.
  intros Ht. revert i b cc. induction t' as [|m t' IH]; intros i b cc Hd Hb; cbn [bit_names].
  { exists cc. split; [done|]. cbn. by rewrite insert_id. }
  assert (Hi : t !! i = Some m) by (by rewrite <- (Nat.add_0_r i), <- lookup_drop, Hd).
  assert (Hd' : drop (S i) t = t') by (by rewrite <- Nat.add_1_r, <- drop_drop, Hd).
  pose proof (lookup_lt_Some _ _ _ Hi) as Hl.
  replace (Z.of_nat i + 1) with (Z.of_nat (S i)) by lia. cbn [set_bits length].
  replace (Z.of_nat i + 1) with (Z.of_nat (S i)) by lia.
  destruct (Z.testbit z (Z.of_nat i)); cbn [app]; [|by apply IH].
  cbn [add_bits]. destruct (table_name t i Ht Hl) as (Hp & _). rewrite (nth_lookup_Some _ _ _ _ Hi) in Hp.
  rewrite Hp. change (default 0 (Some (Z.of_nat i))) with (Z.of_nat i).
  assert (Hlen : (length t <= 32)%nat).
  { unfold table_ok in Ht. apply andb_prop in Ht as [Ht _]. apply andb_prop in Ht as [_ Ht]. by apply Nat.leb_le in Ht. }
  replace (Z.of_nat i >=? 32) with false by lia. rewrite Hb.
  destruct (IH (S i) (Z.lor b (Z.shiftl 1 (Z.of_nat i)))
              (store_value n (Some (VBits (Z.lor b (Z.shiftl 1 (Z.of_nat i))))) cc) Hd') as (cc' & -> & Hs).
  { rewrite store_value_present by eauto. by rewrite lookup_insert_eq. }
  exists cc'. split; [done|]. rewrite Hs, store_value_present by eauto. by rewrite insert_insert_eq.
Qed.

(** A value is parsed from its only token. *)
Lemma parse_setting_value nv t : item_of nv ∈ dns_config_items -> printable print_double nv.2 ->
  item_of nv = CC_STATIC nv.1 t -> exists w, tokens print_double nv.2 = [w] /\
  parse_value t (word w) = (None, Some (cval_of nv.2)).
Proof.
  intros Hin Hv Ht. apply settings_table in Hin as (_ & _ & _ & _ & Htab). destruct nv as [n v].
  destruct v as [z|d|s|names z|names z]; cbn [item_of fst snd tokens printable cval_of item_table] in *; simplify_eq;
    (eexists; split; [reflexivity|]); cbn [parse_value word].
  - by rewrite parse_print_int.
  - destruct Hv as (Hok & _ & Hs). unfold cf_parse_double. cbn [token_ok] in Hok.
    rewrite bool_decide_false; [|intros E; by rewrite E in Hok]. rewrite Hs, drop_all. done.
  - done.
  - destruct (table_name names (Z.to_nat z) Htab) as (Hp & _); [lia|]. rewrite Hp. cbn. by rewrite Z2Nat.id by lia.
Qed.

(** The operation of a setting stores its value. *)
Lemma interpret_setting nv cc : item_of nv ∈ dns_config_items -> printable print_double nv.2 ->
  is_Some (cc_store cc !! nv.1) ->
  exists cc', interpret_op (item_of nv) (op_of nv.2) (map word (tokens print_double nv.2)) cc =
              (None, length (tokens print_double nv.2), cc') /\
    cc_store cc' = <[nv.1 := cval_of nv.2]> (cc_store cc).
Proof.
  intros Hin Hv Hs.
  assert (Hblock : forall c, cc_store (cf_journal_block nv.1 c) = cc_store c).
  { intros c. unfold cf_journal_block. by destruct (cc_store c !! nv.1). }
  assert (Hstatic : forall t, item_of nv = CC_STATIC nv.1 t -> op_of nv.2 = OP_SET ->
    exists cc', interpret_op (item_of nv) (op_of nv.2) (map word (tokens print_double nv.2)) cc =
                (None, length (tokens print_double nv.2), cc') /\
      cc_store cc' = <[nv.1 := cval_of nv.2]> (cc_store cc)).
  { intros t Et Eo. destruct (parse_setting_value nv t Hin Hv Et) as (w & -> & Hp).
    rewrite Et, Eo. cbn [interpret_op interpret_set_item map]. rewrite Hp. eexists. split; [reflexivity|].
    rewrite store_value_present, Hblock by (by rewrite Hblock). done. }
  destruct (nv.2) as [z|d|s|t z|t z] eqn:Ev;
    try (destruct nv as [n v]; cbn [snd] in Ev; subst v; eapply Hstatic; reflexivity).
  assert (Ei : item_of nv = CC_BITMAP nv.1 t) by (destruct nv as [n v]; cbn [snd] in Ev; by subst v).
  pose proof (settings_table _ Hin) as (_ & _ & _ & _ & Ht). rewrite Ei in *. cbn [item_table] in Ht.
  cbn [op_of interpret_op interpret_set_all tokens]. rewrite bool_decide_true by done.
  unfold interpret_add, interpret_add_bitmap. cbn [negb andb]. rewrite map_map. cbn [word]. rewrite map_id, length_map.
  set (c0 := cf_journal_block nv.1 (store_value nv.1 (Some (VBits 0)) (cf_journal_block nv.1 cc))).
  assert (Hc0 : cc_store c0 = <[nv.1 := VBits 0]> (cc_store cc)).
  { unfold c0. rewrite Hblock, store_value_present, Hblock by (by rewrite Hblock). done. }
  destruct (add_bits_names nv.1 t z 0 t 0 c0 Ht eq_refl) as (cc' & E & Hst).
  { rewrite Hc0. by rewrite lookup_insert_eq. }
  change (Z.of_nat 0) with 0 in E, Hst. change (bool_decide (OP_SET = OP_SET)) with true.
  change (bool_decide (OP_SET = OP_SET)) with true in E. cbn [negb andb]. rewrite E.
  exists cc'. split; [done|]. rewrite Hst, Hc0, insert_insert_eq. cbn [cval_of]. by rewrite set_bits_all.
Qed.

(** ** The printed text *)

(** What a text leaves of the context apart from the settings. *)
Record same_mode (cc cc' : cf_context) : Prop := {
  same_stack : cc_stack cc' = cc_stack cc;
  same_committed : cc_everything_committed cc' = cc_everything_committed cc;
  same_postpone : cc_postpone_commit cc' = cc_postpone_commit cc;
  same_logging : cc_logging cc' = cc_logging cc;
}.

(** A setting of the collector is not for the section [Logging]. *)
Lemma setting_not_logging (nv : list Z * svalue) op cc : cc_stack cc = [SecRoot] -> op <> OP_CLOSE ->
  in_logging (bytes_of_string "dnscol." ++ nv.1) op cc = false.
Proof.
  intros Hst Ho. unfold in_logging. rewrite Hst, bool_decide_false by done.
  change (bytes_of_string "dnscol." ++ nv.1) with (100 :: 110 :: 115 :: 99 :: 111 :: 108 :: 46 :: nv.1).
  cbn [split_dots Z.eqb Pos.eqb]. by destruct (split_dots nv.1).
Qed.

Lemma interpret_setting_line nv cc : item_of nv ∈ dns_config_items -> printable print_double nv.2 ->
  is_Some (cc_store cc !! nv.1) -> cc_stack cc = [SecRoot] ->
  exists cc', interpret_command collector_sections (bytes_of_string "dnscol." ++ nv.1) (op_of nv.2) false
                (map word (tokens print_double nv.2)) cc = Ok (None, cc') /\
    cc_store cc' = <[nv.1 := cval_of nv.2]> (cc_store cc) /\ same_mode cc cc'.
Proof.
  intros Hin Hv Hs Hst. unfold interpret_command. rewrite setting_not_logging by (done || by destruct nv.2).
  unfold cf_interpret_line. rewrite bool_decide_false by (by destruct nv.2). rewrite Hst.
  rewrite find_item_setting by done.
  destruct (quiet_add_dirty dnscol cc) as [Hq _].
  assert (Hd : cc_store (cf_add_dirty dnscol cc) = cc_store cc) by (unfold cf_add_dirty; by repeat case_match).
  destruct (interpret_setting nv (cf_add_dirty dnscol cc) Hin Hv) as (cc' & E & Hc'); [by rewrite Hd|].
  pose proof (interpret_op_quiet (item_of nv) (op_of nv.2) (map word (tokens print_double nv.2))
                (cf_add_dirty dnscol cc)) as Hq'.
  rewrite E in *. rewrite length_map, Nat.ltb_irrefl. exists cc'. split; [done|]. rewrite Hc', Hd. split; [done|].
  assert (Hqq : quiet cc cc') by (etransitivity; [exact Hq | exact Hq']). by destruct Hqq.
Qed.

Definition written (l : list (list Z * svalue)) (s : store) : store :=
  foldl (fun s nv => <[nv.1 := cval_of nv.2]> s) s l.

Lemma parse_settings bopen_try include l cc fuel :
  Forall (fun nv => item_of nv ∈ dns_config_items /\ printable print_double nv.2 /\ is_Some (cc_store cc !! nv.1)) l ->
  cc_stack cc = [SecRoot] -> (length l < fuel)%nat ->
  exists cc', parse_commands collector_sections bopen_try include fuel
      {| p_fb := flat_map (fun nv => setting_line print_double nv ++ [10]) l; p_line := [] |} cc = Ok (None, [], cc') /\
    cc_store cc' = written l (cc_store cc) /\ same_mode cc cc'.
Proof.
  revert cc fuel. induction l as [|nv l IH]; intros cc fuel Hl Hst Hf; (destruct fuel as [|fuel]; [lia|]).
  { exists cc. by split_and!. }
  apply Forall_cons in Hl as [(Hin & Hv & Hs) Hl]. cbn [flat_map parse_commands].
  rewrite <- app_assoc. cbn [app]. destruct (command_ok nv Hin) as [Hc _]. destruct (tokens_ok _ nv Hin Hv) as [Ht _].
  change (setting_line print_double nv) with (command_line (command nv) (tokens print_double nv.2)).
  rewrite split_command_line; [|done|done|done|exact (setting_line_ok print_double nv Hin Hv)|done].
  rewrite bind_Ok. destruct (command_operation nv Hin) as [Hop Hinc]. rewrite Hinc, Hop.
  destruct (interpret_setting_line nv cc Hin Hv Hs Hst) as (c & -> & Hc' & Hm). rewrite bind_Ok.
  destruct (IH c fuel) as (cc' & E & Hcc & Hm'); [|by rewrite (same_stack _ _ Hm)|cbn in Hf; lia|].
  { eapply Forall_impl; [exact Hl|]. intros nv' (H1 & H2 & H3). split_and!; try done. rewrite Hc'.
    destruct (decide (nv'.1 = nv.1)) as [->|]; [rewrite lookup_insert_eq; eauto | by rewrite lookup_insert_ne]. }
  exists cc'. split; [exact E|]. rewrite Hcc, Hc'. split; [done|].
  destruct Hm, Hm'. split; congruence.
Qed.

(** The settings that were written are there. *)
Lemma written_lookup l s n v : NoDup (map fst l) -> (n, v) ∈ l -> written l s !! n = Some (cval_of v).
Proof.
  assert (Hother : forall l s n, n ∉ map fst l -> written l s !! n = s !! n).
  { intros l'. induction l' as [|[m w] l' IH]; intros s' n' Hn; [done|]. cbn in Hn. rewrite not_elem_of_cons in Hn.
    cbn. unfold written in IH. rewrite IH by tauto. cbn. rewrite lookup_insert_ne; [done|]. intros ->. tauto. }
  revert s. induction l as [|[m w] l IH]; intros s Hnd Hin; [by apply elem_of_nil in Hin|].
  cbn in Hnd. apply NoDup_cons in Hnd as [Hm Hnd]. apply elem_of_cons in Hin as [[= <- <-]|Hin].
  - cbn. unfold written in Hother. rewrite Hother by done. cbn. by rewrite lookup_insert_eq.
  - by apply IH.
Qed.

End interpreter.

Lemma settings_nodup conf : NoDup (map fst (settings conf)).
Proof. apply (bool_decide_eq_true_1 (NoDup (map fst (settings conf)))). vm_compute. reflexivity. Qed.

(** The collector reads what was written. *)
Lemma config_of_written conf s :
  input_real_time_grace_sec conf = input_real_time_grace_sec dns_collector_conf_init ->
  config_of (written (settings conf) s) = conf.
Proof.
  intros Hg.
  assert (H : forall n v, (bytes_of_string n, v) ∈ settings conf ->
                written (settings conf) s !! bytes_of_string n = Some (cval_of v))
    by (intros n v; apply written_lookup, settings_nodup).
  unfold config_of, get_double, get_int, get_string.
  repeat (erewrite H; [|unfold settings; repeat (apply list_elem_of_here || apply list_elem_of_further)]).
  cbn [cval_of default]. rewrite <- Hg. by destruct conf.
Qed.

Lemma maybe_commit_all `{SD : ScanDouble} `{LG : LoggingSection} cc :
  cc_logging cc = 0%nat -> cc_postpone_commit cc = 0 -> cc_everything_committed cc = false ->
  commit_hook (cc_store cc) = Ok None ->
  exists cc', maybe_commit collector_sections cc = Ok (false, cc') /\ cc_store cc' = cc_store cc.
Proof.
  intros Hl Hp He Hc. unfold maybe_commit, commit_logging, cf_commit_all. rewrite Hp, He, Hl. cbn [negb Z.eqb].
  rewrite bind_Ok, commit_collector. cbn. rewrite Hc. cbn.
  rewrite Hp. by eexists.
Qed.

Lemma flat_map_length_ge {A} (f : A -> list Z) l :
  (forall a, f a <> []) -> (length l <= length (flat_map f l))%nat.
Proof.
  intros Hf. induction l as [|a l IH]; [done|]. cbn [flat_map length]. rewrite length_app.
  specialize (Hf a). destruct (f a); [done|]. cbn. lia.
Qed.

Lemma commit_hook_accepted s : dns_collector_conf_commit (config_of s) = None -> commit_hook s = Ok None.
Proof. unfold commit_hook. by intros ->. Qed.

(** C25: a configuration that the check accepts, with strings of at most 1000
    bytes that do not begin with a brace, can be written in a file, one line
    for each setting, and a collector that loads this file has exactly this
    configuration, whatever its memory held before. *)
Theorem config_roundtrip `{SD : ScanDouble} `{LG : LoggingSection} print_double bopen_try file memory conf :
  Forall (fun nv => printable print_double nv.2) (settings conf) ->
  input_real_time_grace_sec conf = input_real_time_grace_sec dns_collector_conf_init ->
  dns_collector_conf_commit conf = None ->
  bopen_try file = inr (print_config print_double conf) ->
  exists cc, cf_load collector_sections bopen_try file (new_context memory) = Ok (None, cc) /\
    config_of (cc_store cc) = conf.
Proof.
  intros Hp Hg Hc Hfile. unfold cf_load, transaction, load_file. rewrite Hfile. unfold parse_fastbuf.
  set (cc0 := cf_init_stack (cf_journal_new_transaction (new_context memory))).
  destruct (parse_settings print_double bopen_try (Some (parse_text collector_sections bopen_try 8)) (settings conf) cc0
              (S (2 * length (print_config print_double conf)))) as (cc1 & E & Hs & Hm).
  - apply Forall_forall. intros nv Hin. rewrite Forall_forall in Hp.
    assert (Hi : item_of nv ∈ dns_config_items).
    { rewrite <- (settings_items conf). apply list_elem_of_In, in_map. by apply list_elem_of_In. }
    split; [done|]. split; [by apply Hp|]. pose proof (settings_table _ Hi) as (_ & _ & _ & H & _).
    by rewrite item_name_of in H.
  - done.
  - unfold print_config. pose proof (flat_map_length_ge (fun nv => setting_line print_double nv ++ [10]) (settings conf)) as H.
    specialize (H ltac:(intros a; by destruct (setting_line print_double a))). lia.
  - change (parse_text collector_sections bopen_try 9 (print_config print_double conf) cc0) with
      (parse_commands collector_sections bopen_try (Some (parse_text collector_sections bopen_try 8))
         (S (2 * length (print_config print_double conf)))
         {| p_fb := print_config print_double conf; p_line := [] |} cc0).
    unfold print_config in E |- *. rewrite E, bind_Ok. destruct Hm as [Hst He Hpp Hlog].
    assert (Hdone : cf_done_stack cc1 = false) by (unfold cf_done_stack; by rewrite Hst). rewrite Hdone.
    assert (Hconf : config_of (cc_store cc1) = conf) by (rewrite Hs; by apply config_of_written).
    destruct (maybe_commit_all cc1) as (cc2 & -> & Hs2); [by rewrite Hlog|by rewrite Hpp|by rewrite He| |].
    { apply commit_hook_accepted. by rewrite Hconf. }
    eexists. split; [reflexivity|]. cbn. by rewrite Hs2.
Qed.

(** Decimal doubles, for evaluation. *)
Definition sample_scan : ScanDouble := fun s =>
  let '(v, r) := take_digits 10 0 s in
  if (length r =? length s)%nat then None
  else match r with
       | 46 :: r2 => let '(w, r3) := take_digits 10 v r2 in
                     Some (ratio w (10 ^ Z.of_nat (length r2 - length r3)), (length s - length r3)%nat)
       | _ => Some (Double.of_Z v, (length s - length r)%nat)
       end.

Definition sample_print (d : Double.double) : list Z :=
  bytes_of_string (if Double.ltb d (ratio 1 4) then "0" else if Double.ltb d (Double.of_Z 1) then "0.5" else "5").

(** The default configuration with other paths, one with a quote, a newline
    and a byte above 127. *)
Definition sample_config : dns_config :=
  set_paths dns_collector_conf_init (bytes_of_string "ring:lo") [34; 37; 89; 10; 255].

Lemma config_roundtrip_witness :
  let SD := sample_scan in let LG : LoggingSection := fun _ => LogAccepts in
  exists cc, cf_load collector_sections (fun _ => inr (print_config sample_print sample_config)) [] (new_context ∅) =
             Ok (None, cc) /\ output_path_fmt (config_of (cc_store cc)) = [34; 37; 89; 10; 255].
Proof.
  intros SD LG.
  destruct (config_roundtrip sample_print (fun _ => inr (print_config sample_print sample_config)) [] ∅ sample_config)
    as (cc & H & Hc).
  - unfold settings. repeat (apply Forall_cons; split); [..|apply Forall_nil; exact I];
      vm_compute; repeat split; try discriminate; try lia.
  - reflexivity.
  - vm_compute. reflexivity.
  - reflexivity.
  - exists cc. split; [exact H|]. rewrite Hc. reflexivity.
Defined.

(** A word that begins with a brace opens a block even in apostrophes or
    quotes, so that the separator [{], which the check would accept, cannot
    be set; and a separator that was cleared is not checked safely. *)
Example brace_in_apostrophes :
  let SD := sample_scan in let LG : LoggingSection := fun _ => LogAccepts in
  match cf_set collector_sections (fun _ => inl true) (bytes_of_string "dnscol.csv_separator '{'")
          (cf_load_default (new_context ∅)) with
  | Ok (Some EBraceOnItem, _) => True
  | _ => False
  end.
Proof. vm_compute. exact I. Qed.

Example cleared_separator :
  let SD := sample_scan in let LG : LoggingSection := fun _ => LogAccepts in
  cf_set collector_sections (fun _ => inl true) (bytes_of_string "dnscol.csv_separator:clear")
    (cf_load_default (new_context ∅)) = Fail UndefinedBehaviour.
Proof. vm_compute. reflexivity. Qed.
