(* ===== verification/ConfType.v ===== *)
(** * Types of the settings

    The settings in memory always have the types of their items: integers of
    32 bits, indices of the tables of names, bits of the named fields.  A value
    that is out of range may be stored by a parser that fails, but is undone. *)

From stdpp Require Import base numbers strings gmap list.
From S2P Require Import Prelude Doubles Common Config ConfParse ConfInput ConfIntr ConfLoad ConfInv ConfUndo.
From S2P Require Import ConfPrint ConfRound.

(** The values of an item. *)
Definition typed_value (i : cf_item) (v : cval) : Prop :=
  match i, v with
  | CC_STATIC _ CT_INT, VInt z => - 2 ^ 31 <= z < 2 ^ 31
  | CC_STATIC _ CT_DOUBLE, VDouble _ => True
  | CC_STATIC _ CT_STRING, VString _ => True
  | CC_STATIC _ (CT_LOOKUP t), VInt z => 0 <= z < Z.of_nat (length t)
  | CC_BITMAP _ t, VBits z => 0 <= z < 2 ^ Z.of_nat (length t)
  | _, _ => False
  end.

Definition typed (s : store) : Prop :=
  forall i, i ∈ dns_config_items -> exists v, s !! item_name i = Some v /\ typed_value i v.

(** The same, evaluated. *)
Definition typed_valueb (i : cf_item) (v : cval) : bool :=
  match i, v with
  | CC_STATIC _ CT_INT, VInt z => (- 2 ^ 31 <=? z) && (z <? 2 ^ 31)
  | CC_STATIC _ CT_DOUBLE, VDouble _ => true
  | CC_STATIC _ CT_STRING, VString _ => true
  | CC_STATIC _ (CT_LOOKUP t), VInt z => (0 <=? z) && (z <? Z.of_nat (length t))
  | CC_BITMAP _ t, VBits z => (0 <=? z) && (z <? 2 ^ Z.of_nat (length t))
  | _, _ => false
  end.

Lemma typed_valueb_spec i v : typed_valueb i v = true -> typed_value i v.
Proof. destruct i as [n []| |], v; cbn [typed_valueb typed_value]; try done; lia. Qed.

Lemma init_typed : typed init_store.
Proof.
  assert (H : forallb (fun i => match init_store !! item_name i with Some v => typed_valueb i v | None => false end)
                dns_config_items = true) by (vm_compute; reflexivity).
  intros i Hi. apply forallb_forall with (x := i) in H; [|by apply list_elem_of_In].
  destruct (init_store !! item_name i) as [v|]; [|done]. exists v. split; [done|]. by apply typed_valueb_spec.
Qed.

(** Items are told apart by their names. *)
Lemma item_by_name i j : i ∈ dns_config_items -> j ∈ dns_config_items -> item_name i = item_name j -> i = j.
Proof.
  intros Hi Hj E. apply settings_table in Hi as (Hi & _). apply settings_table in Hj as (Hj & _).
  rewrite E in Hi. congruence.
Qed.

Lemma typed_store i v cc : i ∈ dns_config_items -> typed_value i v ->
  typed (cc_store cc) -> typed (cc_store (store_value (item_name i) (Some v) cc)).
Proof.
  intros Hi Hv Ht j Hj. cbn. destruct (decide (item_name j = item_name i)) as [E|Hne].
  - assert (j = i) as -> by (by apply item_by_name). destruct (Ht i Hi) as (w & Hw & _).
    exists v. rewrite lookup_alter_eq, Hw. done.
  - rewrite lookup_alter_ne by done. by apply Ht.
Qed.

Lemma block_store n cc : cc_store (cf_journal_block n cc) = cc_store cc.
Proof. unfold cf_journal_block. by destruct (cc_store cc !! n). Qed.

(** ** Values *)

Lemma s32_range z : - 2 ^ 31 <= s32 z < 2 ^ 31.
Proof. unfold s32, u32. destruct (Z.ltb_spec (z mod 2 ^ 32) (2 ^ 31)); div_lia. Qed.

Lemma parse_int_range str v : cf_parse_int str = (None, Some v) -> - 2 ^ 31 <= v < 2 ^ 31.
Proof.
  unfold cf_parse_int. case_bool_decide; [done|]. destruct (strtoul 0 str) as [[x endp] []]; [done|].
  destruct (lookup_unit str endp) as [msg [u|]].
  - destruct (negb _); [done|]. destruct (_ >? _); [done|]. intros [= <-]. apply s32_range.
  - intros [= -> <-]. apply s32_range.
Qed.

Lemma parse_lookup_range t str v : cf_parse_lookup t str = (None, Some v) -> 0 <= v < Z.of_nat (length t).
Proof.
  unfold cf_parse_lookup. destruct (find_name 0 t str) as [k|] eqn:E; [|done]. intros [= <-].
  assert (H : forall n, find_name n t str = Some k -> n <= k < n + Z.of_nat (length t)); [|by apply H in E].
  clear E. induction t as [|m t IH]; intros n; cbn [find_name length]; [done|].
  destruct (strcaseeq m str); [intros [= <-]; lia|]. intros H%IH. lia.
Qed.

Section types.
Context `{SD : ScanDouble} `{LG : LoggingSection}.

Lemma parse_value_typed n t str v : parse_value t str = (None, Some v) -> typed_value (CC_STATIC n t) v.
Proof.
  destruct t as [| | |t]; cbn [parse_value].
  - destruct (cf_parse_int str) as [msg [z|]] eqn:E; [|done]. cbn. intros [= -> <-]. by apply parse_int_range in E.
  - destruct (cf_parse_double str) as [msg [d|]]; [|done]. by intros [= -> <-].
  - by intros [= <-].
  - destruct (cf_parse_lookup t str) as [msg [z|]] eqn:E; [|done]. cbn. intros [= -> <-]. by apply parse_lookup_range in E.
Qed.

Lemma lor_range b i n : 0 <= b < 2 ^ n -> 0 <= i < n -> 0 <= Z.lor b (Z.shiftl 1 i) < 2 ^ n.
Proof.
  intros Hb Hi. assert (0 <= Z.shiftl 1 i) by (apply Z.shiftl_nonneg; lia).
  assert (Hn : 0 <= Z.lor b (Z.shiftl 1 i)) by (apply Z.lor_nonneg; lia). split; [done|].
  destruct (Z.eq_dec (Z.lor b (Z.shiftl 1 i)) 0) as [->|Hne]; [lia|]. apply Z.log2_lt_pow2; [lia|].
  rewrite Z.log2_lor by lia. apply Z.max_lub_lt.
  - destruct (Z.eq_dec b 0) as [->|]; [cbn; lia|]. apply Z.log2_lt_pow2; lia.
  - rewrite Z.shiftl_1_l, Z.log2_pow2; lia.
Qed.

Lemma ldiff_range b i n : 0 <= b < 2 ^ n -> 0 <= Z.ldiff b i < 2 ^ n.
Proof.
  intros Hb. split; [apply Z.ldiff_nonneg; lia|].
  destruct (Z.eq_dec (Z.ldiff b i) 0) as [->|Hne]; [lia|].
  assert (Hn : 0 <= Z.ldiff b i) by (apply Z.ldiff_nonneg; lia).
  destruct (Z.lt_ge_cases (Z.ldiff b i) (2 ^ n)) as [|Hge]; [done|]. exfalso.
  assert (Hb0 : 0 < b) by (destruct (Z.eq_dec b 0) as [->|]; [by rewrite Z.ldiff_0_l in Hne | lia]).
  assert (Hlog : Z.testbit (Z.ldiff b i) (Z.log2 (Z.ldiff b i)) = true) by (apply Z.bit_log2; lia).
  rewrite Z.ldiff_spec in Hlog by apply Z.log2_nonneg. apply andb_prop in Hlog as [Hlog _].
  assert (Hlt : Z.log2 b < n) by (apply Z.log2_lt_pow2; lia).
  assert (Hle : n <= Z.log2 (Z.ldiff b i)).
  { apply Z.log2_le_pow2; lia. }
  rewrite Z.bits_above_log2 in Hlog; [done|lia|lia].
Qed.

Lemma add_bits_typed n t set pars cc cc' : CC_BITMAP n t ∈ dns_config_items -> typed (cc_store cc) ->
  add_bits n t set pars cc = (None, cc') -> typed (cc_store cc').
Proof.
  intros Hin. revert cc. induction pars as [|par pars IH]; intros cc Ht; cbn [add_bits]; [by intros [= <-]|].
  destruct (cf_parse_lookup t par) as [[e|] v] eqn:E; [done|].
  destruct v as [k|]; [|by (unfold cf_parse_lookup in E; destruct (find_name 0 t par))].
  apply parse_lookup_range in E. change (default 0 (Some k)) with k. destruct (k >=? 32); [done|].
  apply IH. apply (typed_store (CC_BITMAP n t)); [done| |done].
  destruct (Ht _ Hin) as (w & E' & Hw). cbn [item_name] in E'. rewrite E'. cbn [typed_value] in Hw. destruct w as [| | |b]; try done. cbn [typed_value].
  destruct set; [by apply lor_range | by apply ldiff_range].
Qed.

Lemma interpret_add_bitmap_typed n t pars op cc k cc' : CC_BITMAP n t ∈ dns_config_items -> typed (cc_store cc) ->
  interpret_add_bitmap n t pars op cc = (None, k, cc') -> typed (cc_store cc').
Proof.
  intros Hin Ht. unfold interpret_add_bitmap. destruct (negb _ && negb _); [done|].
  destruct (add_bits n t _ pars (cf_journal_block n cc)) as [msg c] eqn:E. intros [= -> _ <-].
  eapply add_bits_typed; [done| |exact E]. by rewrite block_store.
Qed.

Lemma interpret_set_leaf_typed i pars dyn cc k cc' : i ∈ dns_config_items -> is_section i = false ->
  typed (cc_store cc) -> interpret_set_item i pars dyn cc = (None, k, cc') -> typed (cc_store cc').
Proof.
  intros Hin Hs Ht. destruct i as [n t|n t|n items]; [| |done]; cbn [interpret_set_item].
  - destruct pars as [|par pars]; [done|]. destruct (parse_value t par) as [msg v] eqn:E. intros [= Hm _ <-].
    destruct msg; [done|]. destruct v as [v|]; [|cbn; by rewrite block_store].
    apply (typed_store (CC_STATIC n t)); [done|by eapply parse_value_typed|by rewrite block_store].
  - destruct dyn; [|done]. by apply interpret_add_bitmap_typed.
Qed.

(** The settings of a section on one line. *)
Lemma interpret_section_typed pars dyn cc k cc' : typed (cc_store cc) ->
  interpret_set_item (CC_SECTION dnscol dns_config_items) pars dyn cc = (None, k, cc') -> typed (cc_store cc').
Proof.
  cbn [interpret_set_item]. intros Ht.
  assert (Hd : typed (cc_store (cf_add_dirty dnscol cc))) by (unfold cf_add_dirty; by repeat case_match).
  revert Hd. generalize (cf_add_dirty dnscol cc) as c, 0%nat as p. clear Ht cc.
  assert (Hsub : forall i, i ∈ dns_config_items -> i ∈ dns_config_items /\ is_section i = false).
  { intros i Hi. split; [done|]. apply (find_setting (item_name i)). by apply settings_table in Hi as (? & _). }
  revert Hsub pars. generalize dns_config_items at 1 3 as items.
  induction items as [|ci items IH]; intros Hsub pars c p Hd; [by intros [= _ <-]|].
  destruct (interpret_set_item ci pars _ c) as [[msg taken] c'] eqn:E. destruct msg; [done|].
  destruct (Hsub ci (list_elem_of_here _ _)) as [Hci Hs].
  assert (Hc' : typed (cc_store c')) by (by eapply interpret_set_leaf_typed).
  destruct (drop taken pars); [by intros [= _ <-]|]. apply IH; [|done]. intros i Hi. apply Hsub. by right.
Qed.

Lemma interpret_set_all_typed i op cc cc' : i ∈ dns_config_items -> typed (cc_store cc) ->
  interpret_set_all i op cc = (None, cc') -> typed (cc_store cc').
Proof.
  intros Hin Ht.
  assert (Hset : forall v, typed_value i v -> typed (cc_store (store_value (item_name i) (Some v) (cf_journal_block (item_name i) cc))))
    by (intros v Hv; apply typed_store; [done|done|by rewrite block_store]).
  destruct i as [n []|n t|n items]; cbn [interpret_set_all item_name] in *; try done.
  - case_bool_decide; [|done]. intros [= <-]. by apply Hset.
  - intros [= <-]. apply Hset. cbn [typed_value].
    pose proof (settings_table _ Hin) as (_ & _ & _ & _ & Htab). cbn [item_table] in Htab.
    assert (Hlen : (length t <= 32)%nat).
    { unfold table_ok in Htab. apply andb_prop in Htab as [Htab _]. apply andb_prop in Htab as [_ H].
      by apply Nat.leb_le in H. }
    case_bool_decide; [split; [lia | apply Z.pow_pos_nonneg; lia]|].
    rewrite Z.shiftr_div_pow2 by lia. split; [apply Z.div_pos; [lia | apply Z.pow_pos_nonneg; lia]|].
    apply Z.div_lt_upper_bound; [apply Z.pow_pos_nonneg; lia|]. rewrite <- Z.pow_add_r by lia.
    replace (32 - Z.of_nat (length t) + Z.of_nat (length t)) with 32 by lia. lia.
Qed.

Lemma interpret_add_typed i pars op cc k cc' : i ∈ dns_config_items -> typed (cc_store cc) ->
  interpret_add i pars op cc = (None, k, cc') -> typed (cc_store cc').
Proof. intros Hin Ht. destruct i; try done. by apply interpret_add_bitmap_typed. Qed.

Lemma interpret_op_typed i op pars cc k cc' : found (Some i) cc -> typed (cc_store cc) ->
  interpret_op i op pars cc = (None, k, cc') -> typed (cc_store cc').
Proof.
  intros [->|(Hs & _ & Hin)] Ht H.
  - destruct op; cbn [interpret_op interpret_set_all interpret_add] in H; try discriminate H.
    by eapply interpret_section_typed.
  - destruct op; cbn [interpret_op] in H; try (by eapply interpret_add_typed); try (by eapply interpret_set_leaf_typed);
      (destruct (interpret_set_all i _ cc) as [[e|] c] eqn:E; [done|]).
    + injection H as _ <-. by eapply interpret_set_all_typed.
    + injection H as _ <-. by eapply interpret_set_all_typed.
    + eapply interpret_add_typed; [done| |exact H]. by eapply interpret_set_all_typed.
Qed.

Lemma cf_interpret_line_typed n op opens pars cc cc' : Forall own (cc_stack cc) -> typed (cc_store cc) ->
  cf_interpret_line collector_sections n op opens pars cc = (None, cc') -> typed (cc_store cc').
Proof.
  intros Hst Ht. unfold cf_interpret_line. case_bool_decide.
  { unfold closing_brace. destruct (cc_stack cc) as [|[] ?]; repeat case_match; intros; simplify_eq; done. }
  assert (Hown : own (match cc_stack cc with sec :: _ => sec | [] => SecRoot end)) by (destruct Hst; done).
  pose proof (find_item_found _ n cc Hown) as H'.
  destruct (find_item _ _ n cc) as [[msg item] c]. destruct H' as (_ & Hs & Hf). rewrite <- Hs in Ht.
  destruct msg; [done|]. destruct opens.
  { case_bool_decide; [|done]. cbn. unfold opening_brace. repeat case_match; intros; simplify_eq; done. }
  destruct item as [item|]; [|by intros [= <-]].
  destruct (interpret_op item op pars c) as [[[e|] taken] c'] eqn:E; [done|].
  destruct (taken <? length pars)%nat; [done|]. intros [= <-]. by eapply interpret_op_typed.
Qed.

Lemma interpret_command_typed n op opens pars cc cc' : Forall own (cc_stack cc) -> typed (cc_store cc) ->
  interpret_command collector_sections n op opens pars cc = Ok (None, cc') -> typed (cc_store cc').
Proof.
  intros Hst Ht. unfold interpret_command. destruct (in_logging n op cc).
  - destruct (logging _); intros [= <-]. unfold logging_stack. by repeat (case_bool_decide || destruct opens).
  - intros [= H]. by eapply cf_interpret_line_typed.
Qed.

Context (bopen_try : list Z -> bool + list Z).

Lemma parse_commands_typed include fuel p cc line cc' :
  (forall parse, include = Some parse -> forall text cc line cc', Forall own (cc_stack cc) -> typed (cc_store cc) ->
     parse text cc = Ok (None, line, cc') -> Forall own (cc_stack cc') /\ typed (cc_store cc')) ->
  Forall own (cc_stack cc) -> typed (cc_store cc) ->
  parse_commands collector_sections bopen_try include fuel p cc = Ok (None, line, cc') ->
  Forall own (cc_stack cc') /\ typed (cc_store cc').
Proof.
  intros Hinc. revert p cc. induction fuel as [|fuel IH]; intros p cc Hst Ht; cbn [parse_commands]; [done|].
  intros H. inv_ok. destruct a as [e|[[[|name pars] brace] q]]; [done|by simplify_eq|].
  destruct (strcaseeq name (bytes_of_string "optionalinclude") || _).
  - destruct pars as [|file [|]]; [done| |by destruct include].
    destruct include as [parse|]; [|done]. destruct (negb (skipped_line (p_line q))); [done|].
    destruct (bopen_try file) as [enoent|text].
    { destruct (strcaseeq name _ && enoent); [by eapply IH | done]. }
    inv_ok. destruct a as [[[e|] l] c]; [done|]. apply (Hinc parse eq_refl) in H1 as [Hs1 Ht1]; [|done|done].
    by eapply IH.
  - destruct (parse_operation name) as [e|[n op]]; [done|].
    inv_ok. destruct a as [e c]. pose proof (line_stack _ _ (interpret_command_ok _ _ _ _ _ _ _ Hst H1) Hst) as Hs1.
    destruct e as [e|]; [done|]. apply interpret_command_typed in H1; [|done|done]. by eapply IH.
Qed.

Lemma parse_text_typed n text cc line cc' : Forall own (cc_stack cc) -> typed (cc_store cc) ->
  parse_text collector_sections bopen_try n text cc = Ok (None, line, cc') ->
  Forall own (cc_stack cc') /\ typed (cc_store cc').
Proof.
  revert text cc line cc'. induction n as [|n IH]; intros text cc line cc'; cbn [parse_text];
    apply parse_commands_typed; [done|]. by intros ? [= <-].
Qed.

Lemma parse_fastbuf_typed text cc cc' : (cc_sections_initialized cc = true -> typed (cc_store cc)) ->
  parse_fastbuf collector_sections bopen_try text cc = Ok (None, cc') -> typed (cc_store cc').
Proof.
  intros Ht. unfold parse_fastbuf. intros H. inv_ok. destruct a as [[[e|] l] c]; [done|].
  apply parse_text_typed in H0 as [_ H0]; [|by repeat constructor|].
  2: { unfold cf_init_stack. destruct (cc_sections_initialized cc); [by apply Ht | apply init_typed]. }
  destruct (cf_done_stack c); [done|]. inv_ok. destruct a as [[] c2]; simplify_eq.
  by apply maybe_commit_same in H1 as (-> & _).
Qed.

(** A transaction keeps the settings typed. *)
Lemma transaction_typed load cc err cc' :
  (forall c e c', cc_journal c = [] -> load c = Ok (e, c') ->
     (undone c' = cc_store (cf_init_stack c) /\ cc_sections_initialized c' = true \/ c' = c /\ e <> None) /\
     cc_postpone_commit c' = cc_postpone_commit c) ->
  (forall c c', (cc_sections_initialized c = true -> typed (cc_store c)) -> load c = Ok (None, c') -> typed (cc_store c')) ->
  (cc_sections_initialized cc = true -> typed (cc_store cc)) -> transaction load cc = Ok (err, cc') ->
  cc_sections_initialized cc' = true -> typed (cc_store cc').
Proof.
  intros Hf Ha Ht H Hi. pose proof (transaction_ok _ _ _ _ Hf H) as (He & _). destruct err as [e|].
  - destruct (He ltac:(done)) as [_ [->|[-> Hs]]]; [|apply Ht; congruence].
    unfold cf_init_stack. destruct (cc_sections_initialized cc); [by apply Ht | apply init_typed].
  - unfold transaction in H. inv_ok. destruct a as [[e|] c]; simplify_eq. cbn. by eapply Ha; [|exact H0].
Qed.

End types.

(** The contexts of the collector have typed settings. *)
Lemma reachable_store_typed `{SD : ScanDouble} `{LG : LoggingSection} cc :
  reachable cc -> cc_sections_initialized cc = true -> typed (cc_store cc).
Proof.
  intros Hr. induction Hr as [s|cc _ IH|bopen_try file cc err cc' _ IH H|bopen_try string cc err cc' _ IH H].
  - done.
  - unfold cf_load_default. destruct (cc_config_loaded cc); [exact IH|]. unfold cf_init_stack. cbn.
    destruct (cc_sections_initialized cc) eqn:E; cbn; [by intros _; apply IH|]. intros _. apply init_typed.
  - unfold cf_load in H. inv_ok. destruct a as [e c]. inv_ok. intros Hi.
    assert (Hc : typed (cc_store c)); [|by destruct err].
    eapply transaction_typed; [apply load_file_frame| |exact IH|exact H0|by destruct err].
    intros c1 c2 Ht1. unfold load_file. destruct (bopen_try file); [done|]. by apply parse_fastbuf_typed.
  - eapply transaction_typed; [apply load_string_frame| |exact IH|exact H].
    intros c1 c2 Ht1. by apply parse_fastbuf_typed.
Qed.

(** C28: in every context reached by loading files and strings, successfully or
    not, every setting has a value of its declared type and in its range: an
    [int] of 32 bits, an index of its table of names (so that the tables of
    output types and of compressions are never read outside), a set of the
    named fields. *)
Theorem reachable_typed `{SD : ScanDouble} `{LG : LoggingSection} cc :
  reachable cc -> cc_sections_initialized cc = true ->
  typed (cc_store cc) /\
  is_Some (dns_dump_compress_types_num !! Z.to_nat (dump_compress_type (config_of (cc_store cc)))) /\
  0 <= csv_fields (config_of (cc_store cc)) < 2 ^ dns_of_LAST /\ 0 <= cbor_fields (config_of (cc_store cc)) < 2 ^ dns_of_LAST.
Proof.
  intros Hr Hi. assert (Ht : typed (cc_store cc)) by (by apply reachable_store_typed).
  split; [done|]. unfold config_of, get_int. cbn [dump_compress_type csv_fields cbor_fields].
  assert (H : forall n i, i ∈ dns_config_items -> item_name i = bytes_of_string n ->
                exists v, cc_store cc !! bytes_of_string n = Some v /\ typed_value i v)
    by (intros n i Hin <-; by apply Ht).
  destruct (H "dump_compress_type" (CC_STATIC _ (CT_LOOKUP _)) ltac:(do 11 right; left) eq_refl) as (v1 & E1 & H1).
  destruct (H "csv_fields" (CC_BITMAP _ _) ltac:(do 22 right; left) eq_refl) as (v2 & E2 & H2).
  destruct (H "cbor_fields" (CC_BITMAP _ _) ltac:(do 23 right; left) eq_refl) as (v3 & E3 & H3).
  rewrite E1, E2, E3. destruct v1, v2, v3; try done. split; [|split; [exact H2 | exact H3]].
  cbn in H1. apply lookup_lt_is_Some_2. cbn. lia.
Qed.

(** After a file that includes another. *)
Lemma reachable_typed_witness :
  let SD : ScanDouble := fun _ => None in let LG : LoggingSection := fun _ => LogAccepts in
  exists cc, cf_load collector_sections two_files [97] (new_context ∅) = Ok (None, cc) /\ typed (cc_store cc).
Proof.
  intros SD LG.
  assert (H : match cf_load collector_sections two_files [97] (new_context ∅) with
              | Ok (None, cc) => cc_sections_initialized cc | _ => false end = true) by (vm_compute; reflexivity).
  destruct (cf_load collector_sections two_files [97] (new_context ∅)) as [[[e|] cc]|] eqn:E; try discriminate H.
  exists cc. split; [reflexivity|]. apply (reachable_typed cc); [|exact H]. eapply reach_load; [|exact E]. apply reach_new.
Defined.
