(* ===== verification/Collector.v ===== *)
(** * The program ([src/main.c])

    [main] from its command line to its exit: the options and the settings
    they load ([Options]), the checks of the arguments, the set-up of the logs
    ([LogSetup]) and the pipeline ([Pipeline]).  The settings of the parser are
    read where the pipeline reads them; a string that was cleared is NULL, and
    its first use is undefined.  The streams that the user configured in the
    section [Logging] are an argument; there are none when no command was for
    that section. *)

From stdpp Require Import base numbers strings gmap list sorting.
From S2P Require Import Log LogStream LogFile LogConf LogSetup.
From S2P Require Import Prelude Doubles Common Libs Packet PacketFrame FrameQueue PacketHash.
From S2P Require Import Matcher MatcherInv MatcherMain Config TimeFmt Dump Input InputInv.
From S2P Require Import Output CborEncoder OutputCbor OutputCsv OutputInv Pipeline PipelineInv.
From S2P Require Import ConfParse ConfInput ConfIntr ConfLoad ConfInv ConfUndo Options ConfType.

(** ** Signals *)

(** The signals [main] handles, and what becomes of the program: it goes on
    with a value of [dns_global_stop], exits with a code, or is ended by the
    signal. *)
Inductive signal : Set := SIGSEGV | SIGINT | SIGPIPE.

Inductive fate : Set := GoesOn (dns_global_stop : bool) | Exits (code : Z) | Killed (s : signal).

#[global] Instance signal_eq_dec : EqDecision signal.
Proof. solve_decision. Defined.

(** [signal(SIGSEGV, SIG_DFL)] and [kill] of the own process. *)
Definition sigsegv_handler : fate := Killed SIGSEGV.

Definition sigint_handler (dns_global_stop : bool) : fate :=
  if dns_global_stop then Exits 1 else GoesOn true.

Definition sigpipe_handler (dns_global_stop : bool) : fate :=
  if dns_global_stop then GoesOn dns_global_stop else Exits 1.

(** Signals in the order they arrive. *)
Fixpoint handle_signals (dns_global_stop : bool) (sigs : list signal) : fate :=
  match sigs with
  | [] => GoesOn dns_global_stop
  | s :: sigs =>
      match (match s with
             | SIGSEGV => sigsegv_handler
             | SIGINT => sigint_handler dns_global_stop
             | SIGPIPE => sigpipe_handler dns_global_stop
             end) with
      | GoesOn stop => handle_signals stop sigs
      | f => f
      end
  end.

Lemma handle_signals_stopping sigs : handle_signals true sigs = GoesOn true <-> Forall (.= SIGPIPE) sigs.
Proof.
  induction sigs as [|[] sigs IH]; cbn; [done| | |]; rewrite Forall_cons; try (split; [done | by intros [[=] _]]).
  rewrite IH. naive_solver.
Qed.

(** Only one interrupt, followed by nothing but broken pipes, stops the inputs
    and lets the rest of the program run; every other sequence of signals ends
    the program. *)
Theorem graceful_shutdown sigs stop : sigs <> [] ->
  handle_signals false sigs = GoesOn stop <-> stop = true /\ exists n, sigs = SIGINT :: replicate n SIGPIPE.
Proof.
  destruct sigs as [|[] sigs]; [done|..]; intros _; cbn; try (split; [done | by intros (_ & n & [=])]).
  assert (Hs : handle_signals true sigs = GoesOn stop <-> stop = true /\ handle_signals true sigs = GoesOn true).
  { destruct stop; [naive_solver|]. split; [|naive_solver]. intros H. exfalso. revert H. clear.
    induction sigs as [|[] sigs IH]; cbn; done || exact IH. }
  rewrite Hs, handle_signals_stopping. split; intros [-> H]; (split; [done|]).
  - exists (length sigs). f_equal. symmetry. apply replicate_as_Forall. split; [done|].
    eapply Forall_impl; [exact H|]. by intros s ->.
  - destruct H as [n [= ->]]. by apply Forall_replicate.
Qed.

Section whole_program.
Context `{SD : ScanDouble} `{LG : LoggingSection} `{LS : LogSystem} `{K : Libknot} `{L : Libc} `{T : Libtrace}.
Context (title : option (list Z)) (time : Z) (user_streams : list stream_config) (user_marks : list Z).
Context (clock : nat -> Z) (trace_dropped : nat -> Z).
Context (sys_open : nat -> bool) (sys_spawn : nat -> spawn) (sys_wait : bool -> nat -> wait_result).
Context (sys_header : nat -> bool) (random1 random2 : Z).
Context (bopen_try : list Z -> bool + list Z) (memory : store).

(** What the system and libtrace answer for the n-th file of the command line,
    given its name, and for a live capture. *)
Record capture : Type := {
  cap_fopen : nat -> list Z -> bool;
  cap_open : nat -> list Z -> open_env;
  cap_turns : nat -> list Z -> list turn;
  cap_live_open : open_env;
  cap_live_turns : list turn;
}.

Context (cap : capture).

(** The variables the options assign. *)
Definition arguments_of (st : opt_state) : arguments :=
  {| main_inputs := imap (fun n file => {| fl_name := file; fl_fopen := cap_fopen cap n file;
                                           fl_open := cap_open cap n file; fl_turns := cap_turns cap n file |})
                      (os_inputs st);
     main_interface := os_interface st; main_output_path := os_output st;
     live_open := cap_live_open cap; live_turns := cap_live_turns cap |}.

(** [conf->input_uri] after the options, and [conf->input_filter]. *)
Definition uri_pointer (st : opt_state) : option (list Z) :=
  match os_interface st with
  | Some u => Some u
  | None => get_string (cc_store (os_cc st)) "input_uri"
  end.

Definition filter_pointer (st : opt_state) : option (list Z) := get_string (cc_store (os_cc st)) "input_filter".

(** The configured log streams with their marks, after the options. *)
Definition streams_of (st : opt_state) : list stream_config * list Z :=
  match cc_logging (os_cc st) with
  | O => ([], [])
  | _ => (user_streams, user_marks)
  end.

(** [main]: the exit code, with what the pipeline left when it ran.  A NULL
    [input_uri] is given to [strlen] when no file is named, and to [strdup] of
    [dns_input_create] otherwise, as is a NULL [input_filter]. *)
Definition collector_main (argv : list (list Z)) : outcome (Z * option ending) :=
  '(_, log) ← log_register_type (bytes_of_string "spam") (initial_logging title);
  r ← opt_parse bopen_try argv (main_state memory);
  match r with
  | inl code => Ok (code, None)
  | inr st =>
      let a := arguments_of st in
      c ← configure a (config_of (cc_store (os_cc st)));
      _ ← deref (uri_pointer st);
      match c with
      | None => Ok (2, None)
      | Some conf =>
          _ ← setup_logging (streams_of st).1 (streams_of st).2 time log;
          _ ← deref (filter_pointer st);
          e ← run_pipeline clock trace_dropped sys_open sys_spawn sys_wait sys_header random1 random2 a conf;
          Ok (0, Some e)
      end
  end.

(** ** What the options guarantee of the settings *)

Lemma typed_int s n : typed s -> CC_STATIC (bytes_of_string n) CT_INT ∈ dns_config_items ->
  - 2 ^ 31 <= get_int s n < 2 ^ 31.
Proof.
  intros Ht Hin. destruct (Ht _ Hin) as (v & E & Hv). cbn [item_name] in E. unfold get_int. rewrite E.
  by destruct v.
Qed.

(** Settings that were accepted: the sizes and periods are integers of their
    width, there is room in the queues and the output can be created. *)
Record accepted (conf : dns_config) : Prop := {
  ac_check : dns_collector_conf_commit conf = None;
  ac_queue : 0 < max_queue_len conf < 2 ^ 31;
  ac_report : - 2 ^ 31 <= report_period_sec conf < 2 ^ 31;
  ac_period : - 2 ^ 31 <= output_period_sec conf < 2 ^ 31;
  ac_grace : dns_fsec_to_us_time (input_real_time_grace_sec conf) = Ok 100000;
  ac_output : exists o F, create_output sys_header conf = Ok (o, F);
}.

Lemma commit_queue conf : dns_collector_conf_commit conf = None -> 1 <= max_queue_len conf.
Proof.
  unfold dns_collector_conf_commit. destruct (Double.ltb _ _); [done|]. destruct (Z.ltb_spec (max_queue_len conf) 1); [done|lia].
Qed.

Lemma output_created conf : dns_collector_conf_commit conf = None -> exists o F, create_output sys_header conf = Ok (o, F).
Proof. intros Ha. unfold create_output. destruct (accepted_output_type _ Ha) as [->| ->]; cbn; eauto. Qed.

Lemma options_settings argv st : opt_parse bopen_try argv (main_state memory) = Ok (inr st) ->
  accepted (config_of (cc_store (os_cc st))).
Proof.
  intros H. pose proof (opt_parse_settled bopen_try argv memory) as Hs. rewrite H in Hs.
  destruct Hs as [(Hr & _ & Hc) Hi]. pose proof (rest_ok_accepted _ Hr Hi) as Ha.
  pose proof (reachable_store_typed _ Hc Hi) as Ht. split; [exact Ha| | | | |].
  - pose proof (commit_queue _ Ha). pose proof (typed_int _ "max_queue_len" Ht ltac:(do 2 right; left)).
    cbn [max_queue_len config_of] in *. lia.
  - apply (typed_int _ "report_period" Ht). do 3 right. left.
  - apply (typed_int _ "output_period" Ht). do 18 right. left.
  - vm_compute. reflexivity.
  - by apply output_created.
Qed.

(** The paths of the command line change none of this. *)
Lemma accepted_paths conf uri path : accepted conf -> accepted (set_paths conf uri path).
Proof.
  intros [H1 H2 H3 H4 H5 _]. split; try done. by apply output_created.
Qed.

(** ** The run *)

(** What the options do not check: the strings are there, the streams the user
    configured for the logs can be opened, the durations can be used, no dump
    is made, the seed of the hash is large, the inputs can be read, and the
    output can be opened and written for every packet. *)
Record runnable (st : opt_state) (conf : dns_config) (md fd : Z) : Prop := {
  rn_uri : is_Some (uri_pointer st);
  rn_filter : is_Some (filter_pointer st);
  rn_logging : cc_logging (os_cc st) <> 0%nat -> exists id log log',
    log_register_type (bytes_of_string "spam") (initial_logging title) = Ok (id, log) /\
    setup_logging user_streams user_marks time log = Ok log';
  rn_window : dns_fsec_to_us_time (match_window_sec conf) = Ok md;
  rn_window_range : 0 < md <= TMAX;
  rn_duration : dns_fsec_to_us_time (max_frame_duration_sec conf) = Ok fd;
  rn_duration_range : 0 < fd <= TMAX;
  rn_no_dump : dump_path_fmt conf = [];
  rn_seed : 256 < u64 (random1 + u64 (Z.shiftl random2 32));
  rn_inputs : inputs_ok (arguments_of st);
  rn_small : Z.of_nat (length (accepted_packets (arguments_of st))) < 2 ^ 53;
  rn_output : forall o F, create_output sys_header conf = Ok (o, F) ->
    system_ok sys_open sys_spawn sys_wait (F := F) o /\ writable F (accepted_packets (arguments_of st));
}.

(** The components accept such settings. *)
Lemma runnable_settings st conf md fd : accepted conf -> runnable st conf md fd ->
  exists i pm o F,
    settings_ok sys_open sys_spawn sys_wait sys_header random1 random2 (arguments_of st) conf i pm o F /\
    pm_matching_duration pm = md.
Proof.
  intros [_ Hq Hrep Hper Hg (o & F & Ho)] [_ _ _ Hw Hwr Hd Hdr Hnd Hs Hin Hsm Hout].
  destruct (Hout o F Ho) as [Hsys Hwri].
  assert (Hi : exists i, dns_input_create conf = Ok i /\ input_config i).
  { unfold dns_input_create. rewrite Hd, Hg, Hnd. cbn [mbind outcome_bind]. eexists. split; [done|].
    by split; cbn. }
  assert (Hm : exists pm, dns_worker_packet_matcher_create ∅ (match_window_sec conf) (max_frame_duration_sec conf)
             (negb (match_qname conf =? 0)) (max_frame_size conf) random1 random2 [] true = Ok pm /\
             config_ok pm /\ pm_matching_duration pm = md).
  { unfold dns_worker_packet_matcher_create. rewrite Hw, Hd. cbn [mbind outcome_bind].
    rewrite c_assert_true by lia. cbn [mbind outcome_bind]. eexists. split; [done|]. by split. }
  destruct Hi as (i & Hi & Hic), Hm as (pm & Hm & Hmc & Hmd).
  exists i, pm, o, F. split; [|done]. split; try done. lia.
Qed.

(** The logs are set up: without streams of the user, by [LogSetup]. *)
Lemma logging_set_up st conf md fd : runnable st conf md fd -> exists id log log',
  log_register_type (bytes_of_string "spam") (initial_logging title) = Ok (id, log) /\
  setup_logging (streams_of st).1 (streams_of st).2 time log = Ok log'.
Proof.
  intros Hr. pose proof (rn_logging _ _ _ _ Hr) as Hl. unfold streams_of.
  destruct (cc_logging (os_cc st)); [|by apply Hl].
  pose proof (collector_logging_ok title time) as H. unfold collector_logging in H.
  destruct (log_register_type _ _) as [[id log]|]; [|discriminate H]. eauto.
Qed.

Context (Hclock : forall n, 0 <= clock n <= TMAX).

(** C3: the whole program, from its command line, for options, settings and
    configuration files that lead to an accepted set of arguments and under
    the conditions of [runnable]: the strings [input_uri] and [input_filter]
    are not cleared; the streams the user configured for the logs, if the
    section [Logging] was used at all, can be opened; the two durations are
    positive and in range; no dump is configured; the seed of the hash is above
    256; the clock is in range; the inputs can be read and hold fewer than 2^53
    packets; and the
    output can be opened and written.  Then the program ends with code 0; every
    packet accepted from the named inputs is written exactly once, alone or as
    the response of a request it answers, within the configured window when the
    files are in time order; the files are closed and no packet is left in
    memory. *)
Theorem program_complete argv st conf md fd :
  opt_parse bopen_try argv (main_state memory) = Ok (inr st) ->
  configure (arguments_of st) (config_of (cc_store (os_cc st))) = Ok (Some conf) ->
  runnable st conf md fd ->
  exists e its o F,
    collector_main argv = Ok (0, Some e) /\ create_output sys_header conf = Ok (o, F) /\
    flat_map item_packets its ≡ₚ accepted_packets (arguments_of st) /\
    Forall (fun it => forall q, it.2 = Some q -> answers (negb (match_qname conf =? 0)) it.1 q /\
      (os_inputs st <> [] /\ StronglySorted Z.le (map ts (accepted_packets (arguments_of st))) ->
       0 <= ts q - ts it.1 <= md)) its /\
    holds (F := F) (map (item_record F) its) (map (fun x : Z * list Z * list Z => x.2) (o_closed (e_output e))) /\
    o_file (e_output e) = None /\ e_mem e = ∅ /\ e_buckets e = ∅.
Proof.
  intros Hp Hc Hr. pose proof (options_settings _ _ Hp) as Ha. pose proof Hc as Hc'. rewrite configure_spec in Hc'.
  assert (Haf : accepted conf) by (repeat case_decide; simplify_eq; by apply accepted_paths).
  destruct (runnable_settings st conf md fd Haf Hr) as (i & pm & o & F & S & <-).
  destruct (run_pipeline_ok clock trace_dropped sys_open sys_spawn sys_wait sys_header random1 random2 Hclock
    (arguments_of st) conf i pm o F
    (os_inputs st <> [] /\ StronglySorted Z.le (map ts (accepted_packets (arguments_of st)))) S)
    as (e & its & Hrun & E1 & E2 & E3 & E4 & E5 & E6 & _).
  { intros [Hne Hs]. split; [|done]. cbn. by destruct (os_inputs st). }
  exists e, its, o, F. split; [|by destruct S].
  destruct (logging_set_up _ _ _ _ Hr) as (id & log & log' & Hreg & Hlog).
  unfold collector_main. rewrite Hreg, bind_Ok, Hp, bind_Ok, Hc, bind_Ok.
  destruct Hr as [[u Hu] [f Hf] _ _ _ _ _ _ _ _ _ _]. rewrite Hu, Hf, Hlog. cbn [deref mbind outcome_bind]. by rewrite Hrun.
Qed.

End whole_program.

(** ** Closed examples *)

Section examples.
#[local] Existing Instances Sample.sample_knot Sample.sample_trace sample_libc.
#[local] Instance no_scan : ScanDouble := fun _ => None.
#[local] Instance logging_accepts : LoggingSection := fun _ => LogAccepts.
#[local] Instance quiet_system : LogSystem := {| sys_write _ _ _ := 0; LogFile.sys_open _ _ := None; sys_strftime f _ := f |}.

(** A file that holds a query and its answer. *)
Definition sample_capture : capture :=
  {| cap_fopen _ _ := true; cap_open _ _ := sample_open 0; cap_turns _ _ := sample_turns;
     cap_live_open := sample_open 0; cap_live_turns := [] |}.

Abbreviation sample_program :=
  (collector_main None 0 [] [] sample_clock no_drops ok_open ok_spawn ok_wait ok_open 300 1 (fun _ => inl true) ∅ sample_capture).

(** [main -S 'dnscol { output_type=cbor; output_period=60 }' -o out a.pcap]. *)
Definition sample_argv : list (list Z) :=
  map bytes_of_string ["-S"; "dnscol { output_type=cbor; output_period=60 }"; "-o"; "out"; "a.pcap"]%string.

Definition sample_options : opt_state :=
  match opt_parse (fun _ => inl true) sample_argv (main_state ∅) with Ok (inr st) => st | _ => main_state ∅ end.

Definition program_conf : dns_config :=
  match configure (arguments_of sample_capture sample_options) (config_of (cc_store (os_cc sample_options))) with
  | Ok (Some conf) => conf
  | _ => dns_collector_conf_init
  end.

Lemma sample_arguments_of : arguments_of sample_capture sample_options = sample_arguments.
Proof. vm_compute. reflexivity. Qed.

Lemma sample_program_conf : program_conf = sample_conf.
Proof. vm_compute. reflexivity. Qed.

Lemma sample_runnable :
  runnable None 0 [] [] ok_open ok_spawn ok_wait ok_open 300 1 sample_capture sample_options program_conf 5000000 500000.
Proof.
  split; rewrite ?sample_arguments_of.
  - by vm_compute; eexists.
  - by vm_compute; eexists.
  - intros H. exfalso. apply H. vm_compute. reflexivity.
  - vm_compute. reflexivity.
  - done.
  - vm_compute. reflexivity.
  - done.
  - vm_compute. reflexivity.
  - vm_compute. reflexivity.
  - split; [reflexivity|]. apply Forall_singleton. left. split; [by vm_compute | apply sample_turns_ok].
  - by rewrite sample_accepted.
  - intros o F H.
    rewrite sample_program_conf in H. assert (E : create_output ok_open sample_conf =
      Ok (start_output, cbor_format {| OutputCbor.oc_fields := ALL_FIELDS |})) by reflexivity.
    rewrite E in H. injection H as <- <-. split; [apply sample_system | apply sample_writable].
Qed.

Lemma program_complete_witness : exists e its,
  sample_program sample_argv = Ok (0, Some e) /\
  flat_map item_packets its ≡ₚ [packet_of sample_query; packet_of sample_answer] /\ e_mem e = ∅.
Proof.
  destruct (program_complete None 0 [] [] sample_clock no_drops ok_open ok_spawn ok_wait ok_open 300 1 (fun _ => inl true) ∅
              sample_capture sample_clock_ok sample_argv sample_options program_conf 5000000 500000)
    as (e & its & o & F & Hrun & _ & Hp & _ & _ & _ & Hm & _).
  - vm_compute. reflexivity.
  - vm_compute. reflexivity.
  - apply sample_runnable.
  - exists e, its. rewrite sample_arguments_of, sample_accepted in Hp. split; [exact Hrun | split; [exact Hp | exact Hm]].
Defined.

(** Other command lines: a file and an interface, no input, no output path,
    and a cleared input, which is read although a file is given. *)
Example program_exits :
  sample_program (map bytes_of_string ["-i"; "eth0"; "-o"; "out"; "a.pcap"]%string) = Ok (2, None) /\
  sample_program (map bytes_of_string ["-o"; "out"]%string) = Ok (2, None) /\
  sample_program (map bytes_of_string ["a.pcap"]%string) = Fail (Died "Configure the output"%string) /\
  sample_program (map bytes_of_string ["-S"; "dnscol.input_uri:clear"; "-o"; "out"; "a.pcap"]%string) =
    Fail UndefinedBehaviour.
Proof. repeat split; vm_compute; reflexivity. Qed.

(** A matching window of zero is accepted by the check of the settings, and
    stops the program in an assertion when the matcher is created. *)
Example zero_window_asserts :
  collector_main (SD := fun str => if bool_decide (str = [48]) then Some (Double.of_Z 0, 1%nat) else None)
    None 0 [] [] sample_clock no_drops ok_open ok_spawn ok_wait ok_open 300 1 (fun _ => inl true) ∅ sample_capture
    (map bytes_of_string ["-S"; "dnscol.match_window=0"; "-o"; "out"; "a.pcap"]%string) = Fail AssertFailed.
Proof. vm_compute. reflexivity. Qed.

End examples.
